(* ===== verification/_CoqProject ===== *)
-Q . S2P
Prelude.v
Types.v
Form.v
Json.v
JsonPrint.v
JsonParse.v
IsoDate.v
Chart.v
Aspects.v
Layout.v
Gemini.v
Reply.v
Schedules.v
Panel.v
Wheel.v
Scene.v
App.v
Page.v
Protocol.v
Session.v
