(* ===== verification/Prelude.v ===== *)
(** * Celestia: a verification development for the chart engine and its shell

    The program is a TypeScript/React application that draws astrological
    charts.  A form collects birth details; a pipeline asks a language
    model for the place and the time, computes the chart with the
    astronomy-engine package, and asks the model for the texts; the result
    screen shows the chart on a wheel beside a panel of text.  Its parts,
    and the file of this library that models each:

    - [Prelude] (this file): the model of JavaScript the sources rely on.
      A JS [number] is a rational ([Q]) with exact arithmetic; a number
      that indexes an array or counts is a [Z].  [js_rem] is the [%]
      operator (truncated remainder, sign of the dividend); [Math_floor],
      [Math_round] (halves up) and [Math_abs] are the [Math] functions;
      [findIndex], [js_find], [js_sort] (the stable
      [Array.prototype.sort]), [slice0] and [js_index] are the array
      operations; [toFixed], [padStart] and [toUpperCase] are the string
      operations.  [result] is code that can [throw]; [promise] is an
      [async] function, a function of the world of the services it
      awaits, with [Promise_all2] for [Promise.all] of two calls under
      a timing (which call the world answers first, which promise
      settles first).
    - [Types]: [src/unnamed/part_001] lines 390-508 (constants.ts and
      types.ts): the table [ZODIAC_SIGNS], the symbols, and every
      interface as a [Record t] in a [Module] of the interface's name.
    - [Form]: [src/unnamed/part_000] (BirthForm.tsx): the state of the
      form, and [BirthForm], the element it returns: the tabs, the four
      required inputs of each person shown, and the button, each with its
      handler as the state the handler leaves.
    - [Json]: the [JSON.parse] and [JSON.stringify] of the runtime, which
      geminiService.ts calls on every reply: a recursive descent with
      fuel over the text, and the printer.  [JsonPrint] and [JsonParse]
      hold its theorems.
    - [IsoDate]: the time value of a string [YYYY-MM-DDTHH:mm:ss.sssZ],
      the format the resolve request of geminiService.ts asks for and
      [new Date] reads (lines 51, 149, 163), and of the other forms of
      the format of the language (a date alone, a time without seconds,
      an offset from UTC, a year of six digits): the calendar arithmetic
      of the language, and [toISOString], which writes a time value in
      the format.
    - [Chart]: [src/unnamed/part_003] (astronomyService.ts) lines 1-145:
      [getZodiacInfo], [calculateAscendant] and [calculateChart], in the
      [result] monad.  The astronomy-engine package and the trigonometry
      of [Math] are the classes [AstronomyEngine] and [MathTrig], with
      the laws the proofs use; the two checks of the package that throw
      are definitions: [MakeTime] refuses a date that is not finite and
      [Observer_new] a latitude outside -90..+90.  [Chart.StandIn]
      instantiates the classes with rational functions so that the
      theorems have runs.
    - [Aspects]: [calculateAspects] of the same file (lines 147-181).
    - [Layout]: [resolveCollisions] of ZodiacWheel.tsx (part_001 lines
      13-71): the sort, the isolation flag, the look-back window of four
      that assigns tracks, the wrap-around patch.
    - [Gemini]: [src/services/geminiService.ts]: the zod schemas as
      parsers of [json], the three requests with their prompts and
      response schemas, the screen of a reply ([JSON_parse], then the
      schema), the merges of the replies into the calculated data, and
      the pipelines [analyzeBirthChart] and [analyzeSynastry] as
      [promise]s over the class [GenAI]; the two [Promise.all] of
      [analyzeSynastry] run under a [Schedule.t], one [Timing.t] each.
      [Gemini.Scripted] is a model that replies from a script of texts.
    - [Reply]: what a model has to send for a step of [Gemini] to accept
      it: the class [Codec] (how a value is written as JSON, the schema
      that reads it, the schema that asks for it) with an instance for
      each of the three steps.
    - [Schedules]: the requests [analyzeSynastry] has in flight at once
      (geminiService.ts lines 160 and 170-173): the class [Commuting] of
      the models whose answers do not depend on the order of the
      requests, the stateless model [Oracle] which is one, and two models
      which are not ([Quota], [Gemini.Scripted]).
    - [Panel]: [src/components/AnalysisPanel.tsx]: the view the panel
      chooses, what [PlanetDetailView] displays, [getNormalizedElements]
      and the report number.
    - [Wheel]: the component of ZodiacWheel.tsx (part_001 lines 73-290):
      its state and handlers, the rotation, the plotted planets, the
      aspect lines, the attributes of a planet and the track circles.
    - [Scene]: the element [ZodiacWheel] returns (part_001 lines
      291-389), put together from the parts of [Wheel]: the rim, the sign
      labels, the lines, one group per planet with its three handlers,
      the centre, the markers and the rotation control.
    - [App]: [src/unnamed/part_002] (App.tsx): the state of [App], its
      handlers ([handleCalculate] split at its [await]) and the element
      it returns for each step ([App_render]).
    - [Page]: the components together.  [System.t] is the state of the
      page: the state of [App], of the form and of the wheel while it is
      mounted, the request in flight, what [console.error] has written,
      and the world of the language model.  [system_step] is its
      transition function, with an event for every handler of the
      rendered page (the inputs and the button of the form, Back, the
      three handlers of a planet, the rotation control), for the timer of
      the wheel, and for the settling of the request in flight under a
      schedule; [reachable] are the states it can be in, and [render] is
      what [App] and the wheel show in a state.
    - [Protocol]: what the page promises, as a machine of three phases
      (the idle form, a request in flight, the result screen) with the
      actions that move it; [abs] reads the phase off a state of the
      page.  The machine is a specification: it models no line of the
      sources.
    - [Session]: the components end to end, from the submission of the
      form to the result screen.

    A React component is modelled by what it returns: a record of what
    the page shows, in which an element carries its handler as the state
    the handler leaves.  The hooks are transparent: every [useMemo] of
    the sources lists all that its body reads, so the memoised value is
    the value computed afresh, and a [useEffect] is a handler of its own
    ([onTimer], [onDataChange]).

    ** What the theorems show

    - numbers and arrays (this file): [js_rem] stays in range and is the
      identity on a value already in range; [Math_round] is exact on
      integers; [js_sort] returns a sorted permutation and keeps the
      order of elements that compare equal;
    - [Form]: the inputs are controlled (a keystroke changes the text of
      its input and nothing else); the guard of a submission is the
      enabled button and the validity of the rendered form;
    - [JsonPrint]: the parser inverts the printer on every well-formed
      value (strings with every escape, numbers with their sign and
      fraction, arrays and objects at every depth);
    - [JsonParse]: what a parser leaves is shorter than what it was
      given; the fuel of [JSON_parse] is enough for every text, and more
      fuel changes nothing; the well-formed values are exactly those
      [JSON_parse] answers;
    - [IsoDate]: the day number of a date counts days, through the ends
      of months and years, leap years included; a string of the form
      asked for is the print of a date and a time, of 24 characters, and
      has the same time value read as a string of the language; the
      date of a day number is the date with that day number; what
      [toISOString] writes is read back, in the form asked for between
      the years 0 and 9999 and as a string of the language on every
      time value;
    - [Chart]: [calculateChart] and [calculateAscendant] on every input:
      a latitude outside -90..+90 is refused, then a date that is not
      finite, and what [calculateChart] returns otherwise is well formed
      ([chart_wf]), at the poles too; the sign
      and the relative degree of a longitude; houses are a bijection of
      the signs for every ascendant; what the remainder policy of the
      elemental balance and the retrograde test do not cover;
    - [Aspects]: the chain of bands is the first match in a table; the
      result is sorted by orb, holds the tightest aspects, at most eight
      of them, each the aspect of a pair of planets; symmetry;
    - [Layout]: the while loop returns the least free track for any fuel
      above the size of the set; window safety and wrap safety of the
      tracks; tracks are at most 4; the result is the sorted input; the
      isolation flag; and the inputs on which the patch creates a
      collision and the window misses one;
    - promises (this file): [Promise.all] of two calls is fulfilled
      exactly when both are, with the world both calls left; two calls
      that commute have the same outcome under every timing
      ([same_outcome]: equal when fulfilled, rejected together);
    - [Gemini]: the response schema sent agrees with the zod schema
      checked; every outcome of the two pipelines, under every schedule,
      is a well-formed result or one of the exceptions of the steps; the
      merges keep what was calculated; in the order of the arrays the
      first rejection wins; the chart is calculated for the instant the
      model writes, to the millisecond;
    - [Reply]: the screen of each step reads the text of an encoded value
      back to the value, and an encoded value follows the schema the
      request sent; the two pipelines go through on every sequence of
      such replies, and return the calculated charts under the texts
      sent; with a latitude of -90..+90 and a time of the format of
      the language ([IsoDate.es_time]) the natal pipeline never fails;
    - [Schedules]: on a model that commutes every schedule of
      [analyzeSynastry] has the same outcome, and on an oracle that
      answers what the prompts ask the synastry is fulfilled under every
      schedule; a model with a quota does not commute, and on the
      scripted model the schedule decides whose chart is whose;
    - [Panel]: the panel renders exactly when its cast is right for the
      data; the range of the normalised elements; the length of the
      report number;
    - [Wheel]: every planet sits on a drawn track inside the ring; when
      the two charts keep apart; every line is an aspect of the service,
      and which aspects are not drawn; the lines and labels of the active
      planet;
    - [Scene]: every point of the picture lies on the circle of its
      radius and inside the viewBox, every planet on a track circle that
      is drawn; what hovering a planet changes; the rotation control;
    - [Page]: the invariant [system_inv] of the reachable states (the
      wheel is mounted exactly on the result screen, its hovered planet
      is a planet of the data, its rotation stays within 0..360, an
      error on the page has its exception in the console), from which:
      [App] and the wheel render in every reachable state (no cast is
      wrong), the handlers of the rendered page are the transitions of
      [system_step], Back restores the initial state, a submission
      followed by the settling of the request is [handleCalculate] on
      the details of the click, whatever is typed in between, from every
      reachable state the idle form is at most two events away; states
      that differ in the console only are bisimilar and render alike,
      and on a model that commutes two runs that differ in the schedules
      of their requests only end in such states: the page does not show
      the schedule;
    - [Protocol]: every step of the page is a step of the machine of the
      phases, so every run of the page is a run of the machine
      (a forward simulation), and the result shown is of the kind that
      was submitted;
    - [Session]: on a model that does what the prompts ask, the natal
      form submitted from any state of the page ends on the result
      screen, which renders, with the chart calculated for the place and
      the time the model resolved; and on a model that answers each
      request by what it asks, the form of two people ends, under every
      schedule, on the result screen with the two charts and the
      analysis of the aspects between them.

    ** Idealisations

    A JS number is an IEEE-754 double; here it is a rational and
    arithmetic is exact, so rounding error, [NaN] and the infinities are
    not modelled.  The comparisons of the sources are against small
    integer constants (4, 6, 15, 30, 180, 360), and the theorems speak
    about the code up to inputs within one rounding error of a threshold.
    Cosine and sine are any functions whose squares add up to 1.  A
    string is a string of bytes; [JSON_stringify] writes a number in
    plain decimal notation, without an exponent.  The language model is a
    world that answers requests: nothing is assumed of its replies, and
    [Reply] says what follows when they are the texts of values.
    A request is answered in one step of the world; two calls in flight
    under [Promise.all] are answered and settle in the order of a
    [Timing.t], and both are accounted for before the pair settles.

    ** Not modelled

    The network; the ephemeris of astronomy-engine (the class
    [AstronomyEngine] stands for it); what [new Date] makes of a string
    that is not of the format of the language, or is a date and a time
    with no offset, which is local time (the class [Gemini.Runtime]
    promises nothing for them; [Gemini.zone] is an instance for each
    time zone, and the chart depends on it); the reconciliation and scheduling of
    React (a [setState] takes effect at once, and a component that
    leaves the page loses its state); class names, transitions and
    icons; the string of the [d] attribute of an SVG path, whose points
    are modelled instead.  Nothing more of the sources is left to
    model: the lines no definition translates are the imports and
    exports, the comments, the construction of the API client, and the
    props interfaces of the components, whose fields are the arguments
    of the functions that model the components.

    ** Fuel

    The only unbounded loop of the sources is [while
    (usedTracks.has(track)) track++] in [resolveCollisions].
    [Layout.first_free] runs it with fuel [S (size used)];
    [Layout.first_free_spec] proves that this fuel reaches the exit of
    the loop, and [Layout.first_free_fuel_enough] that more fuel changes
    nothing.  The descent of [Json.JSON_parse] runs with fuel
    [S (2 * length text)]: every call takes a character off the text or
    is the first call for the items of an array or object, which follows
    a bracket, so twice the length bounds the depth of the calls
    ([JsonParse.parse_enough]); [JsonParse.parse_mono_S] proves that
    more fuel changes nothing.  Everything else is structural recursion on lists
    and strings. *)

From Stdlib Require Import QArith Qround Qabs Lqa Lia ZArith Ascii.
From stdpp Require Import base tactics decidable option list sorting strings pretty.

Declare Scope js_scope.
Delimit Scope js_scope with js.
#[global] Open Scope Q_scope.

(** ** Numbers *)

(** Order and equality of JS numbers are decidable: the conditions of
    the sources are written [decide (x < y)] and [bool_decide (x < y)]. *)
#[export] Instance Qeq_dec' (x y : Q) : Decision (x == y) := Qeq_dec x y.

#[export] Instance Qlt_dec (x y : Q) : Decision (x < y) :=
  match Qlt_le_dec x y with
  | left H => left H
  | right H => right (Qle_not_lt _ _ H)
  end.

#[export] Instance Qle_dec (x y : Q) : Decision (x <= y) :=
  match Qlt_le_dec y x with
  | left H => right (Qlt_not_le _ _ H)
  | right H => left H
  end.

(** [Math.abs], [Math.floor], [Math.round] (JS rounds halves up). *)
Definition Math_abs (x : Q) : Q := Qabs x.
Definition Math_floor (x : Q) : Z := Qfloor x.
Definition Math_round (x : Q) : Z := Qfloor (x + (1 # 2)).

(** Truncation toward zero, and the [%] operator of JS on numbers:
    [x % y = x - y * trunc (x / y)], which has the sign of [x]. *)
Definition Qtrunc (x : Q) : Z :=
  if decide (0 <= x) then Qfloor x else Qceiling x.

Definition js_rem (x y : Q) : Q := x - y * inject_Z (Qtrunc (x / y)).

#[global] Arguments Math_abs : simpl never.
#[global] Arguments Math_floor : simpl never.
#[global] Arguments Math_round : simpl never.
#[global] Arguments js_rem : simpl never.

Notation "x %% y" := (js_rem x y) (at level 40, left associativity) : js_scope.
#[global] Open Scope js_scope.

(** The development's arithmetic tactic: expose constant divisions and
    injections to [lra]. *)
Ltac qconst :=
  unfold Qdiv in *;
  repeat match goal with
  | |- context [Qinv (Qmake (Zpos ?p) 1)] =>
      change (Qinv (Qmake (Zpos p) 1)) with (Qmake 1 p) in *
  | H : context [Qinv (Qmake (Zpos ?p) 1)] |- _ =>
      change (Qinv (Qmake (Zpos p) 1)) with (Qmake 1 p) in *
  | |- context [inject_Z (Zpos ?p)] =>
      change (inject_Z (Zpos p)) with (Qmake (Zpos p) 1) in *
  | H : context [inject_Z (Zpos ?p)] |- _ =>
      change (inject_Z (Zpos p)) with (Qmake (Zpos p) 1) in *
  | |- context [inject_Z (Zneg ?p)] =>
      change (inject_Z (Zneg p)) with (Qmake (Zneg p) 1) in *
  | H : context [inject_Z (Zneg ?p)] |- _ =>
      change (inject_Z (Zneg p)) with (Qmake (Zneg p) 1) in *
  | |- context [inject_Z Z0] => change (inject_Z Z0) with 0 in *
  | H : context [inject_Z Z0] |- _ => change (inject_Z Z0) with 0 in *
  end.

Ltac qlra := qconst; lra.

Create HintDb js discriminated.
Create Rewrite HintDb js_rw.

(** *** Floor, ceiling and truncation *)

Lemma Qfloor_lt_Z (x : Q) (n : Z) : x < inject_Z n -> (Qfloor x < n)%Z.
Proof. intros H. rewrite Zlt_Qlt. pose proof (Qfloor_le x). lra. Qed.

Lemma Qfloor_ge_Z (x : Q) (n : Z) : inject_Z n <= x -> (n <= Qfloor x)%Z.
Proof.
  intros H. apply Z.lt_succ_r. rewrite Zlt_Qlt. unfold Z.succ.
  pose proof (Qlt_floor x). lra.
Qed.

Lemma Qfloor_unique (x : Q) (n : Z) :
  inject_Z n <= x -> x < inject_Z n + 1 -> Qfloor x = n.
Proof.
  intros Hlo Hhi. apply Z.le_antisymm.
  - apply Z.lt_succ_r, Qfloor_lt_Z. unfold Z.succ.
    rewrite inject_Z_plus. qlra.
  - now apply Qfloor_ge_Z.
Qed.

Lemma Qceiling_unique (x : Q) (n : Z) :
  inject_Z n - 1 < x -> x <= inject_Z n -> Qceiling x = n.
Proof.
  intros Hlo Hhi. unfold Qceiling.
  rewrite (Qfloor_unique (- x) (- n)); [lia | |]; rewrite inject_Z_opp; lra.
Qed.

Lemma Qceiling_gt (x : Q) : inject_Z (Qceiling x) - 1 < x.
Proof.
  unfold Qceiling. rewrite inject_Z_opp. pose proof (Qlt_floor (- x)) as H.
  rewrite inject_Z_plus in H. change (inject_Z 1) with 1 in H. lra.
Qed.

Lemma Qtrunc_nonneg (x : Q) : 0 <= x -> Qtrunc x = Qfloor x.
Proof. intros H. unfold Qtrunc. now case_decide. Qed.

Lemma Qtrunc_neg (x : Q) : x < 0 -> Qtrunc x = Qceiling x.
Proof. intros H. unfold Qtrunc. case_decide; [lra | done]. Qed.

(** [inject_Z] under setoid rewriting. *)
#[export] Instance inject_Z_proper : Proper (eq ==> Qeq) inject_Z.
Proof. now intros ? ? ->. Qed.

#[export] Instance Qtrunc_proper : Proper (Qeq ==> eq) Qtrunc.
Proof.
  intros x y E. unfold Qtrunc.
  do 2 case_decide; try lra; [now apply Qfloor_comp | now apply Qceiling_comp].
Qed.

#[export] Instance js_rem_proper : Proper (Qeq ==> Qeq ==> Qeq) js_rem.
Proof.
  intros x x' Ex y y' Ey. unfold js_rem. now rewrite Ex, Ey.
Qed.

#[export] Instance Math_round_proper : Proper (Qeq ==> eq) Math_round.
Proof. intros x y E. unfold Math_round. now rewrite E. Qed.

#[export] Instance Math_abs_proper : Proper (Qeq ==> Qeq) Math_abs.
Proof. intros x y E. unfold Math_abs. now rewrite E. Qed.

(** *** The remainder operator *)

(** The quotient [x / y] lies within one unit above its truncation when
    the dividend is not negative, and within one unit below otherwise. *)
Lemma Qtrunc_div_bounds_nonneg (x y : Q) :
  0 <= x -> 0 < y ->
  y * inject_Z (Qtrunc (x / y)) <= x /\ x < y * inject_Z (Qtrunc (x / y)) + y.
Proof.
  intros Hx Hy.
  assert (Hq : 0 <= x / y) by (apply Qle_shift_div_l; lra).
  rewrite (Qtrunc_nonneg _ Hq).
  pose proof (Qfloor_le (x / y)) as Hlo.
  pose proof (Qlt_floor (x / y)) as Hhi.
  rewrite inject_Z_plus in Hhi. change (inject_Z 1) with 1 in Hhi.
  assert (E : x == x / y * y) by (field; lra).
  set (q := x / y) in *. split; nra.
Qed.

Lemma Qtrunc_div_bounds_nonpos (x y : Q) :
  x <= 0 -> 0 < y ->
  x <= y * inject_Z (Qtrunc (x / y)) /\ y * inject_Z (Qtrunc (x / y)) - y < x.
Proof.
  intros Hx Hy.
  assert (Hq : x / y <= 0) by (apply Qle_shift_div_r; lra).
  assert (E : x == x / y * y) by (field; lra).
  destruct (decide (x / y == 0)) as [Hz|Hnz].
  - rewrite Hz. change (Qtrunc 0) with 0%Z. rewrite Hz in E. qlra.
  - rewrite Qtrunc_neg by lra.
    pose proof (Qle_ceiling (x / y)) as Hlo.
    pose proof (Qceiling_gt (x / y)) as Hhi.
    set (q := x / y) in *. split; nra.
Qed.

Lemma js_rem_nonneg (x y : Q) : 0 <= x -> 0 < y -> 0 <= x %% y /\ x %% y < y.
Proof.
  intros Hx Hy. unfold js_rem.
  destruct (Qtrunc_div_bounds_nonneg x y Hx Hy). split; lra.
Qed.

Lemma js_rem_nonpos (x y : Q) : x <= 0 -> 0 < y -> - y < x %% y /\ x %% y <= 0.
Proof.
  intros Hx Hy. unfold js_rem.
  destruct (Qtrunc_div_bounds_nonpos x y Hx Hy). split; lra.
Qed.

(** [r] is the remainder as soon as [x = y * k + r] with [0 <= r < y]. *)
Lemma js_rem_unique (x y r : Q) (k : Z) :
  0 <= x -> 0 < y -> x == y * inject_Z k + r -> 0 <= r -> r < y -> x %% y == r.
Proof.
  intros Hx Hy E Hr0 Hr1. unfold js_rem.
  assert (Hq : 0 <= x / y) by (apply Qle_shift_div_l; lra).
  rewrite (Qtrunc_nonneg _ Hq), (Qfloor_unique (x / y) k); [lra | |].
  - apply Qle_shift_div_l; [lra|]. nra.
  - apply Qlt_shift_div_r; [lra|]. nra.
Qed.

Lemma js_rem_small (x y : Q) : 0 <= x -> x < y -> x %% y == x.
Proof.
  intros Hx Hy. apply (js_rem_unique x y x 0); try lra.
  change (inject_Z 0) with 0. lra.
Qed.

(** A negative dividend above [- y] is its own remainder: the result of
    [%] has the sign of the dividend. *)
Lemma js_rem_small_neg (x y : Q) : - y < x -> x <= 0 -> x %% y == x.
Proof.
  intros Hlo Hhi. unfold js_rem.
  destruct (decide (x == 0)) as [E|E].
  - rewrite E. unfold Qdiv. rewrite Qmult_0_l. change (Qtrunc 0) with 0%Z. qlra.
  - assert (Hq : x / y < 0) by (apply Qlt_shift_div_r; lra).
    rewrite Qtrunc_neg, (Qceiling_unique (x / y) 0) by first
      [ done | change (inject_Z 0) with 0; try lra;
               apply Qlt_shift_div_l; lra ].
    qlra.
Qed.

Lemma js_rem_shift (x y : Q) : 0 <= x -> x < y -> (x + y) %% y == x.
Proof.
  intros Hx Hy. apply (js_rem_unique (x + y) y x 1); try lra.
  change (inject_Z 1) with 1. lra.
Qed.

(** *** Rounding *)

Lemma Math_round_Z (n : Z) : Math_round (inject_Z n) = n.
Proof. unfold Math_round. apply Qfloor_unique; lra. Qed.

Lemma Math_round_bounds (x : Q) :
  x - (1 # 2) < inject_Z (Math_round x) /\ inject_Z (Math_round x) <= x + (1 # 2).
Proof.
  unfold Math_round. pose proof (Qfloor_le (x + (1 # 2))).
  pose proof (Qlt_floor (x + (1 # 2))) as H1.
  rewrite inject_Z_plus in H1. change (inject_Z 1) with 1 in H1. split; lra.
Qed.

Lemma Math_abs_sym (x y : Q) : Math_abs (x - y) == Math_abs (y - x).
Proof. unfold Math_abs. now rewrite Qabs_Qminus. Qed.

Lemma Math_abs_nonneg (x : Q) : 0 <= Math_abs x.
Proof. apply Qabs_nonneg. Qed.

(** Case analysis on an absolute value, for [lra]. *)
Lemma Math_abs_cases (x : Q) :
  (0 <= x /\ Math_abs x == x) \/ (x < 0 /\ Math_abs x == - x).
Proof.
  unfold Math_abs. destruct (Qlt_le_dec x 0) as [H|H].
  - right. split; [done|]. apply Qabs_neg. lra.
  - left. split; [done|]. now apply Qabs_pos.
Qed.

(** Distance to a centre, as an interval. *)
Lemma Math_abs_le (x c r : Q) :
  Math_abs (x - c) <= r <-> c - r <= x /\ x <= c + r.
Proof.
  unfold Math_abs. rewrite Qabs_Qle_condition. split; intros [? ?]; split; lra.
Qed.

Lemma Math_abs_lt (x c r : Q) :
  Math_abs (x - c) < r <-> c - r < x /\ x < c + r.
Proof.
  unfold Math_abs. rewrite Qabs_Qlt_condition. split; intros [? ?]; split; lra.
Qed.

#[export] Hint Resolve Math_abs_nonneg : js.

(** Decide every comparison in sight, turn distances into intervals, and
    leave the arithmetic to [lra]. *)
Ltac abs_intervals :=
  repeat match goal with
  | H : context [Math_abs (_ - _) <= _] |- _ => rewrite Math_abs_le in H
  | H : context [Math_abs (_ - _) < _] |- _ => rewrite Math_abs_lt in H
  | |- context [Math_abs (_ - _) <= _] => rewrite Math_abs_le
  | |- context [Math_abs (_ - _) < _] => rewrite Math_abs_lt
  end.

Ltac decide_all := repeat case_decide; abs_intervals; try qlra.

(** ** Arrays *)

Section Array.
Context {A : Type}.
Local Open Scope Z_scope.
Implicit Types (p : A -> bool) (l : list A).

(** [Array.prototype.findIndex]: the index of the first element that
    satisfies [p], or -1. *)
Fixpoint findIndex_from p l (i : Z) : Z :=
  match l with
  | [] => -1
  | x :: l' => if p x then i else findIndex_from p l' (i + 1)
  end.

Definition findIndex p l : Z := findIndex_from p l 0.

(** [Array.prototype.find]: the first element that satisfies [p], or
    [undefined]. *)
Definition js_find p l : option A := List.find p l.

(** [Array.prototype.slice(0, n)]. *)
Definition slice0 (n : nat) l : list A := take n l.

Lemma js_find_Some p l (x : A) :
  js_find p l = Some x -> x ∈ l /\ p x = true.
Proof.
  unfold js_find. intros H. apply find_some in H as [H1 H2].
  split; [now apply list_elem_of_In | done].
Qed.

Lemma js_find_None p l : js_find p l = None <-> Forall (fun x => p x = false) l.
Proof.
  unfold js_find. induction l as [|x l IH]; cbn.
  - split; [constructor | done].
  - destruct (p x) eqn:Hx.
    + split; [done|]. intros [? _]%Forall_cons. congruence.
    + rewrite IH. split; [now constructor | now intros [_ ?]%Forall_cons].
Qed.

Lemma findIndex_from_spec p l i :
  (findIndex_from p l i = -1 /\ Forall (fun x => p x = false) l) \/
  (exists (n : nat) (x : A),
     findIndex_from p l i = i + Z.of_nat n /\ l !! n = Some x /\ p x = true /\
     Forall (fun y => p y = false) (take n l)).
Proof.
  revert i. induction l as [|x l IH]; intros i; cbn.
  - left. split; [done | constructor].
  - destruct (p x) eqn:Hx.
    + right. exists 0%nat, x. repeat split; [lia | done | constructor].
    + destruct (IH (i + 1)%Z) as [[-> Hall]|(n & y & -> & Hn & Hy & Hall)].
      * left. split; [done | now constructor].
      * right. exists (S n), y. repeat split; [lia | done.. | now constructor].
Qed.

(** The two outcomes of [findIndex]. *)
Lemma findIndex_spec p l :
  (findIndex p l = -1 /\ Forall (fun x => p x = false) l) \/
  (exists (n : nat) (x : A),
     findIndex p l = Z.of_nat n /\ l !! n = Some x /\ p x = true /\
     Forall (fun y => p y = false) (take n l)).
Proof.
  destruct (findIndex_from_spec p l 0) as [H|(n & x & H & ?)]; [now left|].
  right. exists n, x. split; [|done]. unfold findIndex. lia.
Qed.

Lemma findIndex_range p l :
  (-1 <= findIndex p l < Z.of_nat (length l))%Z.
Proof.
  destruct (findIndex_spec p l) as [[-> _]|(n & x & -> & Hn & _)]; [lia|].
  apply lookup_lt_Some in Hn. lia.
Qed.

(** [findIndex] returns [n] when the element at [n] is the first match. *)
Lemma findIndex_first p l (n : nat) (x : A) :
  l !! n = Some x -> p x = true ->
  Forall (fun y => p y = false) (take n l) ->
  findIndex p l = Z.of_nat n.
Proof.
  intros Hn Hx Hbefore.
  destruct (findIndex_spec p l) as [[_ Hall]|(m & y & -> & Hm & Hy & Hall)].
  - rewrite Forall_forall in Hall.
    apply list_elem_of_lookup_2, Hall in Hn. congruence.
  - f_equal. destruct (Nat.lt_trichotomy m n) as [Hlt|[->|Hgt]]; [|done|].
    + rewrite Forall_lookup in Hbefore.
      specialize (Hbefore m y). rewrite lookup_take_lt in Hbefore by done.
      specialize (Hbefore Hm). congruence.
    + rewrite Forall_lookup in Hall.
      specialize (Hall n x). rewrite lookup_take_lt in Hall by done.
      specialize (Hall Hn). congruence.
Qed.

End Array.

(** In an array whose keys are pairwise distinct, looking an element up
    by its key finds that element. *)
Lemma js_find_NoDup {A B : Type} `{EqDecision B} (f : A -> B) (l : list A)
    (i : nat) (x : A) :
  NoDup (f <$> l) -> l !! i = Some x ->
  js_find (fun y => bool_decide (f y = f x)) l = Some x.
Proof.
  unfold js_find. revert i. induction l as [|y l IH]; intros i Hnd Hi; [done|].
  apply NoDup_cons in Hnd as [Hy Hnd]. destruct i as [|i]; cbn in *.
  - injection Hi as ->. now rewrite bool_decide_eq_true_2.
  - rewrite bool_decide_eq_false_2; [now apply (IH i)|].
    intros E. apply Hy. rewrite E. apply list_elem_of_fmap_2.
    now apply list_elem_of_lookup_2 in Hi.
Qed.

(** Generic list facts the components share. *)
Lemma filter_none {A : Type} (P : A -> Prop) `{!forall x, Decision (P x)}
    (l : list A) :
  Forall (fun x => ~ P x) l -> filter P l = [].
Proof.
  induction 1 as [|x l Hx _ IH]; [done|].
  now rewrite filter_cons, decide_False.
Qed.

Lemma Forall_take_lookup {A : Type} (P : A -> Prop) (l : list A) (n i : nat) (x : A) :
  Forall P (take n l) -> (i < n)%nat -> l !! i = Some x -> P x.
Proof.
  intros H Hi Hx. rewrite Forall_lookup in H. apply (H i).
  now rewrite lookup_take_lt.
Qed.

Lemma length_omap_le {A B : Type} (f : A -> option B) (l : list A) :
  (length (omap f l) <= length l)%nat.
Proof. induction l as [|x l IH]; cbn; [done|]. destruct (f x); cbn; lia. Qed.

Lemma Forall2_right {A B : Type} (P : A -> B -> Prop) (Q : B -> Prop)
    (l : list A) (k : list B) :
  Forall2 P l k -> (forall x y, P x y -> Q y) -> Forall Q k.
Proof. induction 1; intros HPQ; constructor; eauto. Qed.

Lemma Forall2_fmap_eq {A B : Type} (f : B -> A) (l : list A) (k : list B) :
  Forall2 (fun x y => f y = x) l k -> f <$> k = l.
Proof. induction 1; cbn; congruence. Qed.

(** ** Sorting

    [Array.prototype.sort (cmp)] is stable (ECMAScript 2019): for a
    consistent comparator it returns the one sorted permutation of its
    input that keeps the relative order of elements comparing equal.
    [js_sort] computes it by insertion: an element that stood before [l] is
    placed before the first element of [sort l] it does not compare greater
    than. *)

Section Sort.
Context {A : Type} (cmp : A -> A -> Q).
Implicit Types (x y : A) (l : list A).

(** [a] may stand before [b]. *)
Definition cmp_le : relation A := fun a b => cmp a b <= 0.

Fixpoint sort_insert x l : list A :=
  match l with
  | [] => [x]
  | y :: l' => if decide (cmp x y <= 0) then x :: y :: l' else y :: sort_insert x l'
  end.

Definition js_sort l : list A := foldr sort_insert [] l.

Lemma js_sort_cons x l : js_sort (x :: l) = sort_insert x (js_sort l).
Proof. reflexivity. Qed.

Lemma sort_insert_Permutation x l : sort_insert x l ≡ₚ x :: l.
Proof.
  induction l as [|y l IH]; cbn; [done|].
  case_decide; [done|]. rewrite IH. apply Permutation_swap.
Qed.

Lemma js_sort_Permutation l : js_sort l ≡ₚ l.
Proof.
  induction l as [|x l IH]; [done|].
  now rewrite js_sort_cons, sort_insert_Permutation, IH.
Qed.

Lemma js_sort_length l : length (js_sort l) = length l.
Proof. now rewrite js_sort_Permutation. Qed.

Lemma js_sort_elem_of x l : x ∈ js_sort l <-> x ∈ l.
Proof. now rewrite js_sort_Permutation. Qed.

(** Where [sort_insert] puts its element: after a prefix of elements it
    compares greater than. *)
Lemma sort_insert_split x l :
  exists l1 l2, l = l1 ++ l2 /\ sort_insert x l = l1 ++ x :: l2 /\
    Forall (fun y => 0 < cmp x y) l1 /\
    match l2 with [] => True | y :: _ => cmp x y <= 0 end.
Proof.
  induction l as [|y l (l1 & l2 & -> & E & Hl1 & Hl2)]; cbn.
  - now exists [], [].
  - case_decide as Hc.
    + now exists [], (y :: l1 ++ l2).
    + exists (y :: l1), l2. rewrite E. repeat split; [|done].
      constructor; [lra | done].
Qed.

Section Sorted.
Context `{!Transitive cmp_le, !Total cmp_le}.

Lemma sort_insert_Sorted x l :
  StronglySorted cmp_le l -> StronglySorted cmp_le (sort_insert x l).
Proof.
  intros Hs. destruct (sort_insert_split x l) as (l1 & l2 & -> & -> & Hl1 & Hl2).
  apply StronglySorted_app in Hs as (H12 & Hs1 & Hs2).
  apply StronglySorted_app. split_and!; [|done|].
  - intros y z Hy [->|Hz]%elem_of_cons; [|now apply H12].
    rewrite Forall_forall in Hl1. specialize (Hl1 y Hy).
    destruct (total cmp_le y x) as [?|Hxy]; [done|]. unfold cmp_le in Hxy. lra.
  - constructor; [done|].
    destruct l2 as [|y l2]; [constructor|].
    apply StronglySorted_inv in Hs2 as [_ Hy]. constructor; [done|].
    eapply Forall_impl; [exact Hy|]. intros z Hz. now transitivity y.
Qed.

Lemma js_sort_Sorted l : StronglySorted cmp_le (js_sort l).
Proof.
  induction l; [constructor | rewrite js_sort_cons; now apply sort_insert_Sorted].
Qed.

End Sorted.

(** A sorted array is left as it is. *)
Lemma js_sort_sorted_id l : StronglySorted cmp_le l -> js_sort l = l.
Proof.
  induction 1 as [|x l Hs IH Hx]; [done|]. rewrite js_sort_cons, IH.
  destruct l as [|y l]; cbn; [done|].
  apply Forall_cons in Hx as [Hy _]. now rewrite decide_True.
Qed.

End Sort.

(** The comparator [(a, b) => key a - key b]. *)
Definition by_key {A : Type} (key : A -> Q) (a b : A) : Q := key a - key b.

Section SortByKey.
Context {A : Type} (key : A -> Q).

#[export] Instance by_key_trans : Transitive (cmp_le (by_key key)).
Proof. intros a b c. unfold cmp_le, by_key. lra. Qed.

#[export] Instance by_key_total : Total (cmp_le (by_key key)).
Proof.
  intros a b. unfold cmp_le, by_key.
  destruct (Qlt_le_dec (key b) (key a)); [right | left]; lra.
Qed.

Lemma cmp_le_by_key (a b : A) : cmp_le (by_key key) a b <-> key a <= key b.
Proof. unfold cmp_le, by_key. split; lra. Qed.

(** Sorting by a key gives keys in ascending order. *)
Lemma js_sort_by_key_Sorted (l : list A) :
  StronglySorted (fun a b => key a <= key b) (js_sort (by_key key) l).
Proof.
  pose proof (js_sort_Sorted (by_key key) l) as Hs.
  induction Hs as [|x l' _ IH Hx]; constructor; [done|].
  eapply Forall_impl; [exact Hx|]. intros y. apply cmp_le_by_key.
Qed.

(** Stability: the elements of one key keep the order they had. *)
Lemma js_sort_stable (k : Q) (l : list A) :
  filter (fun a => key a == k) (js_sort (by_key key) l) =
  filter (fun a => key a == k) l.
Proof.
  induction l as [|x l IH]; [done|]. rewrite js_sort_cons.
  destruct (sort_insert_split (by_key key) x (js_sort (by_key key) l))
    as (l1 & l2 & El & -> & Hl1 & _).
  rewrite El, filter_app in IH. rewrite filter_app, !filter_cons.
  case_decide as Hk; [|done].
  assert (filter (fun a => key a == k) l1 = []) as E1.
  { apply filter_none. eapply Forall_impl; [exact Hl1|].
    intros y Hy. unfold by_key in Hy. cbn. rewrite <- Hk. lra. }
  rewrite E1 in *. cbn in *. now rewrite IH.
Qed.

End SortByKey.

(** ** Code that throws

    A function of the sources that can [throw] returns a [result]: the
    value, or the exception that leaves it.  [x ← e; k] runs [k] on the
    value of [e] and lets an exception of [e] through, which is what a
    sequence of statements (or of awaited promises) does. *)

Inductive exn : Type :=
| Error (msg : string)   (** [throw new Error(msg)] *)
| TypeError              (** a property read on [undefined] *)
| RangeError             (** an argument outside the domain of a library call *)
| SyntaxError            (** [JSON.parse] on text that is not JSON *)
| ZodError.              (** [schema.parse] on a value of the wrong shape *)

#[export] Instance exn_eq_dec : EqDecision exn.
Proof. solve_decision. Defined.

Inductive result (A : Type) : Type :=
| Ok (a : A)
| Throw (e : exn).
Arguments Ok {A} a.
Arguments Throw {A} e.

#[export] Instance result_ret : MRet result := fun A a => Ok a.
#[export] Instance result_bind : MBind result := fun A B f m =>
  match m with Ok a => f a | Throw e => Throw e end.
#[export] Instance result_fmap : FMap result := fun A B f m =>
  match m with Ok a => Ok (f a) | Throw e => Throw e end.

(** [o ?? e]: the value of an optional, or the exception [e]. *)
Definition or_throw {A : Type} (o : option A) (e : exn) : result A :=
  match o with Some a => Ok a | None => Throw e end.

Definition is_Ok {A : Type} (r : result A) : Prop := exists a, r = Ok a.

Section Result.
Context {A B : Type}.
Implicit Types (m : result A) (f : A -> result B).

Lemma bind_Ok (a : A) f : (Ok a ≫= f) = f a.
Proof. reflexivity. Qed.

Lemma bind_Throw (e : exn) f : (Throw e ≫= f) = Throw e.
Proof. reflexivity. Qed.

Lemma bind_Ok_inv m f (b : B) :
  m ≫= f = Ok b <-> exists a, m = Ok a /\ f a = Ok b.
Proof.
  destruct m as [a|e]; cbn; split.
  - intros H. now exists a.
  - now intros (? & [= <-] & ?).
  - done.
  - now intros (? & [=] & _).
Qed.

Lemma bind_Throw_inv m f (e : exn) :
  m ≫= f = Throw e <-> m = Throw e \/ exists a, m = Ok a /\ f a = Throw e.
Proof.
  destruct m as [a|e']; cbn; split.
  - intros H. right. now exists a.
  - now intros [[=]|(? & [= <-] & ?)].
  - intros [= ->]. now left.
  - now intros [[= ->]|(? & [=] & _)].
Qed.

Lemma or_throw_Ok (o : option A) (e : exn) (a : A) :
  or_throw o e = Ok a <-> o = Some a.
Proof. destruct o; cbn; split; congruence. Qed.

End Result.

#[export] Hint Rewrite @bind_Ok @bind_Throw : js_rw.

(** Invert a successful (or failed) run of a sequence of binds. *)
Ltac inv_result :=
  repeat match goal with
  | H : (_ ≫= _) = Ok _ |- _ => apply bind_Ok_inv in H as (? & ? & ?)
  | H : or_throw _ _ = Ok _ |- _ => apply or_throw_Ok in H
  | H : Ok _ = Ok _ |- _ => injection H as H; subst
  | H : Throw _ = Ok _ |- _ => discriminate H
  | H : Ok _ = Throw _ |- _ => discriminate H
  end.

(** ** Indexing and iteration *)

(** [l[i]] for a number [i] that holds an integer: [undefined] below 0 and
    past the end. *)
Definition js_index {A : Type} (l : list A) (i : Z) : option A :=
  if decide (0 <= i)%Z then l !! Z.to_nat i else None.

Lemma js_index_Some {A : Type} (l : list A) (i : Z) (x : A) :
  js_index l i = Some x <-> (0 <= i)%Z /\ l !! Z.to_nat i = Some x.
Proof. unfold js_index. case_decide; split; [done | by intros [_ ?] | done | by intros [? _]]. Qed.

Lemma js_index_in_range {A : Type} (l : list A) (i : Z) :
  (0 <= i < Z.of_nat (length l))%Z -> is_Some (js_index l i).
Proof.
  intros [H0 H1]. unfold js_index. rewrite decide_True by done.
  apply lookup_lt_is_Some. lia.
Qed.

Lemma js_index_neg {A : Type} (l : list A) (i : Z) :
  (i < 0)%Z -> js_index l i = None.
Proof. intros H. unfold js_index. now rewrite decide_False by lia. Qed.

(** [l.map(f)] for an [f] that can throw: the first exception leaves the
    loop. *)
Fixpoint map_result {A B : Type} (f : A -> result B) (l : list A) : result (list B) :=
  match l with
  | [] => Ok []
  | x :: l' => y ← f x; ys ← map_result f l'; Ok (y :: ys)
  end.

Lemma map_result_Ok {A B : Type} (f : A -> result B) (g : A -> B) (l : list A) :
  Forall (fun x => f x = Ok (g x)) l -> map_result f l = Ok (g <$> l).
Proof.
  induction 1 as [|x l Hx _ IH]; cbn; [done|]. now rewrite Hx, IH.
Qed.

Lemma map_result_Forall2 {A B : Type} (f : A -> result B) (P : A -> B -> Prop)
    (l : list A) :
  Forall (fun x => exists y, f x = Ok y /\ P x y) l ->
  exists ys, map_result f l = Ok ys /\ Forall2 P l ys.
Proof.
  induction 1 as [|x l (y & Hy & HP) _ (ys & Hys & HPs)]; cbn.
  - now exists [].
  - exists (y :: ys). rewrite Hy, Hys. split; [done | now constructor].
Qed.

Lemma map_result_Throw_first {A B : Type} (f : A -> result B) (x : A)
    (l : list A) (e : exn) :
  f x = Throw e -> map_result f (x :: l) = Throw e.
Proof. intros H. cbn. now rewrite H. Qed.

Lemma map_result_length {A B : Type} (f : A -> result B) (l : list A) (ys : list B) :
  map_result f l = Ok ys -> length ys = length l.
Proof.
  revert ys. induction l as [|x l IH]; cbn; intros ys H.
  - now injection H as <-.
  - inv_result. cbn. f_equal. eauto.
Qed.

(** ** Asynchronous code

    An [async] function runs against the world [W] of the services it
    awaits, which every awaited call may change, and settles: fulfilled
    with a value or rejected with an exception.  [x ← p; k] is
    [const x = await p; k]: a rejection of [p] rejects the whole. *)

Definition promise (W A : Type) : Type := W -> result A * W.

(** Synchronous code inside an [async] function: its value fulfils, its
    exception rejects, the world is left alone. *)
Definition settle {W A : Type} (r : result A) : promise W A := fun w => (r, w).

Definition await {W A B : Type} (p : promise W A) (k : A -> promise W B)
    : promise W B :=
  fun w => match p w with
           | (Ok a, w') => k a w'
           | (Throw e, w') => (Throw e, w')
           end.

#[export] Instance promise_ret {W : Type} : MRet (promise W) :=
  fun A a => settle (Ok a).
#[export] Instance promise_bind {W : Type} : MBind (promise W) :=
  fun A B k p => await p k.

(** Two calls are in flight at once under [Promise.all([p, q])]: both
    are started before either is awaited, and which of the two comes
    first is for the event loop to say. *)
Inductive order : Type := LeftFirst | RightFirst.

#[export] Instance order_eq_dec : EqDecision order.
Proof. solve_decision. Defined.

(** The timing of two calls in flight: the order in which the world
    answers them, and the order in which the two promises settle. *)
Module Timing.
Record t : Type := mk { served : order; settled : order }.

(** The order of the array. *)
Definition in_order : t := mk LeftFirst LeftFirst.

Definition all : list t :=
  [mk LeftFirst LeftFirst; mk LeftFirst RightFirst;
   mk RightFirst LeftFirst; mk RightFirst RightFirst].
End Timing.

(** Both calls against the world, in the order it answers them: the two
    outcomes and the world after both.  The second call reaches the
    world whatever the outcome of the first. *)
Definition both {W A B : Type} (served : order) (p : promise W A) (q : promise W B)
    (w : W) : result A * result B * W :=
  match served with
  | LeftFirst => let '(ra, w1) := p w in let '(rb, w2) := q w1 in (ra, rb, w2)
  | RightFirst => let '(rb, w1) := q w in let '(ra, w2) := p w1 in (ra, rb, w2)
  end.

(** What [Promise.all] makes of the two outcomes: fulfilled with the
    pair when both are fulfilled, rejected with the exception of the
    first promise that is rejected. *)
Definition all_settled {A B : Type} (settled : order) (ra : result A) (rb : result B)
    : result (A * B) :=
  match ra, rb with
  | Ok a, Ok b => Ok (a, b)
  | Throw e, Ok _ => Throw e
  | Ok _, Throw e => Throw e
  | Throw ea, Throw eb =>
      Throw (match settled with LeftFirst => ea | RightFirst => eb end)
  end.

(** [Promise.all([p, q])] under a timing. *)
Definition Promise_all2 {W A B : Type} (tm : Timing.t) (p : promise W A)
    (q : promise W B) : promise W (A * B) :=
  fun w =>
    let '(ra, rb, w') := both (Timing.served tm) p q w in
    (all_settled (Timing.settled tm) ra rb, w').

(** [p] and [q] do not see each other at [w]: answered in either order
    they have the same outcomes and leave the same world. *)
Definition commute {W A B : Type} (p : promise W A) (q : promise W B) (w : W) : Prop :=
  both LeftFirst p q w = both RightFirst p q w.

(** Two settled promises that a caller cannot tell apart but by the
    exception of a rejection: fulfilled with the same value or both
    rejected, and the same world after. *)
Definition same_outcome {W A : Type} (x y : result A * W) : Prop :=
  match x, y with
  | (Ok a, w1), (Ok b, w2) => a = b /\ w1 = w2
  | (Throw _, w1), (Throw _, w2) => w1 = w2
  | _, _ => False
  end.

Section Promise.
Context {W A B : Type}.
Implicit Types (p : promise W A) (k : A -> promise W B) (w : W).

Lemma await_Ok p k w (a : A) w' : p w = (Ok a, w') -> (p ≫= k) w = k a w'.
Proof. intros H. unfold mbind, promise_bind, await. now rewrite H. Qed.

Lemma await_Throw p k w (e : exn) w' :
  p w = (Throw e, w') -> (p ≫= k) w = (Throw e, w').
Proof. intros H. unfold mbind, promise_bind, await. now rewrite H. Qed.

Lemma await_Ok_inv p k w (b : B) w' :
  (p ≫= k) w = (Ok b, w') <->
  exists a w1, p w = (Ok a, w1) /\ k a w1 = (Ok b, w').
Proof.
  unfold mbind, promise_bind, await. destruct (p w) as [[a|e] w1]; split.
  - intros H. now exists a, w1.
  - now intros (? & ? & [= <- <-] & ?).
  - done.
  - now intros (? & ? & [=] & _).
Qed.

Lemma await_Throw_inv p k w (e : exn) w' :
  (p ≫= k) w = (Throw e, w') <->
  p w = (Throw e, w') \/ exists a w1, p w = (Ok a, w1) /\ k a w1 = (Throw e, w').
Proof.
  unfold mbind, promise_bind, await. destruct (p w) as [[a|e'] w1]; split.
  - intros H. right. now exists a, w1.
  - now intros [[=]|(? & ? & [= <- <-] & ?)].
  - intros [= -> ->]. now left.
  - now intros [[= -> ->]|(? & ? & [=] & _)].
Qed.

Lemma settle_inv (r r' : result A) w w' :
  settle r w = (r', w') <-> r = r' /\ w = w'.
Proof. unfold settle. split; [now intros [= -> ->] | now intros [-> ->]]. Qed.

(** The pair is fulfilled exactly when both outcomes are. *)
Lemma all_settled_Ok (settled : order) (ra : result A) (rb : result B) (x : A * B) :
  all_settled settled ra rb = Ok x <-> ra = Ok x.1 /\ rb = Ok x.2.
Proof.
  destruct x as [a b], ra, rb; cbn; split; try done; try (now intros [? ?]).
  - now intros [= -> ->].
  - now intros [[= ->] [= ->]].
Qed.

(** A rejection of the pair is a rejection of one of the two. *)
Lemma all_settled_Throw (settled : order) (ra : result A) (rb : result B) (e : exn) :
  all_settled settled ra rb = Throw e -> ra = Throw e \/ rb = Throw e.
Proof. destruct ra, rb, settled; cbn; intros [=]; subst; auto. Qed.

(** The timing does not decide whether the pair is fulfilled, and only
    when both are rejected which exception rejects it. *)
Lemma all_settled_order (s s' : order) (ra : result A) (rb : result B) :
  is_Ok ra \/ is_Ok rb -> all_settled s ra rb = all_settled s' ra rb.
Proof.
  destruct ra, rb; try done. now intros [[? [=]]|[? [=]]].
Qed.

Lemma both_LeftFirst p (q : promise W B) w (ra : result A) (rb : result B) w' :
  both LeftFirst p q w = (ra, rb, w') <-> exists w1, p w = (ra, w1) /\ q w1 = (rb, w').
Proof.
  unfold both. destruct (p w) as [ra' w1], (q w1) as [rb' w2] eqn:Hq. split.
  - intros [= -> -> ->]. eauto.
  - intros (w1' & [= -> ->] & H). rewrite Hq in H. now injection H as -> ->.
Qed.

Lemma both_RightFirst p (q : promise W B) w (ra : result A) (rb : result B) w' :
  both RightFirst p q w = (ra, rb, w') <-> exists w1, q w = (rb, w1) /\ p w1 = (ra, w').
Proof.
  unfold both. destruct (q w) as [rb' w1], (p w1) as [ra' w2] eqn:Hp. split.
  - intros [= -> -> ->]. eauto.
  - intros (w1' & [= -> ->] & H). rewrite Hp in H. now injection H as -> ->.
Qed.

(** Each of the two calls ran against some world. *)
Lemma both_ran (served : order) p (q : promise W B) w (ra : result A) (rb : result B) w' :
  both served p q w = (ra, rb, w') ->
  (exists w0 w1, p w0 = (ra, w1)) /\ (exists w0 w1, q w0 = (rb, w1)).
Proof.
  destruct served; [intros (w1 & ? & ?)%both_LeftFirst | intros (w1 & ? & ?)%both_RightFirst];
    eauto 10.
Qed.

Lemma Promise_all2_unfold (tm : Timing.t) p (q : promise W B) w
    (ra : result A) (rb : result B) w' :
  both (Timing.served tm) p q w = (ra, rb, w') ->
  Promise_all2 tm p q w = (all_settled (Timing.settled tm) ra rb, w').
Proof. intros H. unfold Promise_all2. now rewrite H. Qed.

(** A fulfilled [Promise.all]: both calls were fulfilled, one after the
    other against the world. *)
Lemma Promise_all2_Ok_inv (tm : Timing.t) p (q : promise W B) w (x : A * B) w' :
  Promise_all2 tm p q w = (Ok x, w') <->
  both (Timing.served tm) p q w = (Ok x.1, Ok x.2, w').
Proof.
  unfold Promise_all2. destruct (both _ p q w) as [[ra rb] w2]. split.
  - intros [= [-> ->]%all_settled_Ok ->]. done.
  - intros [= -> -> ->]. now destruct x.
Qed.

Lemma Promise_all2_in_order_Ok p (q : promise W B) w (x : A * B) w' :
  Promise_all2 Timing.in_order p q w = (Ok x, w') <->
  exists w1, p w = (Ok x.1, w1) /\ q w1 = (Ok x.2, w').
Proof. now rewrite Promise_all2_Ok_inv, <- both_LeftFirst. Qed.

(** A rejected [Promise.all]: one of the two calls was rejected with
    that exception. *)
Lemma Promise_all2_Throw_inv (tm : Timing.t) p (q : promise W B) w (e : exn) w' :
  Promise_all2 tm p q w = (Throw e, w') ->
  (exists w0 w1, p w0 = (Throw e, w1)) \/ (exists w0 w1, q w0 = (Throw e, w1)).
Proof.
  unfold Promise_all2. destruct (both _ p q w) as [[ra rb] w2] eqn:Hb.
  intros [= H ->]. apply both_ran in Hb as [Hp Hq].
  apply all_settled_Throw in H as [->| ->]; auto.
Qed.

(** In the order of the array, a rejection of the first promise rejects
    the pair whatever the second does. *)
Lemma Promise_all2_Throw_l p (q : promise W B) w (e : exn) w1 :
  p w = (Throw e, w1) -> (Promise_all2 Timing.in_order p q w).1 = Throw e.
Proof.
  intros H. unfold Promise_all2, both. cbn. rewrite H. now destruct (q w1) as [[] ?].
Qed.

(** Calls that commute: the order in which the world answers them
    changes nothing, and the order in which they settle only the
    exception of a pair that both reject. *)
Lemma Promise_all2_commute (tm tm' : Timing.t) p (q : promise W B) w :
  commute p q w -> same_outcome (Promise_all2 tm p q w) (Promise_all2 tm' p q w).
Proof.
  unfold commute, Promise_all2, same_outcome. intros Hc.
  assert (E : both (Timing.served tm) p q w = both (Timing.served tm') p q w)
    by (destruct (Timing.served tm), (Timing.served tm'); congruence).
  rewrite E. clear Hc E.
  destruct (both (Timing.served tm') p q w) as [[[a|ea] [b|eb]] w']; cbn; done.
Qed.

Lemma same_outcome_refl (x : result A * W) : same_outcome x x.
Proof. now destruct x as [[] ?]. Qed.

Lemma same_outcome_sym (x y : result A * W) : same_outcome x y -> same_outcome y x.
Proof. destruct x as [[] ?], y as [[] ?]; cbn; try done. now intros [-> ->]. Qed.

Lemma same_outcome_trans (x y z : result A * W) :
  same_outcome x y -> same_outcome y z -> same_outcome x z.
Proof.
  destruct x as [[] ?], y as [[] ?], z as [[] ?]; cbn; try done; try congruence.
  now intros [-> ->].
Qed.

#[export] Instance same_outcome_equivalence : Equivalence (@same_outcome W A).
Proof.
  split; [exact same_outcome_refl | exact same_outcome_sym | exact same_outcome_trans].
Qed.

(** A fulfilled promise is fulfilled with the same value by whatever has
    the same outcome. *)
Lemma same_outcome_Ok (x y : result A * W) (a : A) w :
  same_outcome x y -> x = (Ok a, w) -> y = (Ok a, w).
Proof. intros H ->. destruct y as [[] ?]; cbn in H; [now destruct H as [-> ->] | done]. Qed.

(** The same outcome awaited by code that has the same outcome on every
    value. *)
Lemma same_outcome_await (p p' : promise W A) (k k' : A -> promise W B) w :
  same_outcome (p w) (p' w) ->
  (forall a w1, same_outcome (k a w1) (k' a w1)) ->
  same_outcome ((p ≫= k) w) ((p' ≫= k') w).
Proof.
  unfold mbind, promise_bind, await. intros Hp Hk.
  destruct (p w) as [[a|e] w1], (p' w) as [[a'|e'] w1']; cbn in Hp; try done.
  destruct Hp as [-> ->]. apply Hk.
Qed.

End Promise.

(** Two calls, each followed by synchronous code: the code runs on the
    two outcomes, whatever the order of the calls. *)
Lemma both_then {W A B C D : Type} (served : order) (p : promise W A) (q : promise W B)
    (f : A -> result C) (g : B -> result D) (w : W) :
  both served (x ← p; settle (f x)) (y ← q; settle (g y)) w
  = let '(ra, rb, w') := both served p q w in (ra ≫= f, rb ≫= g, w').
Proof.
  destruct served; unfold both, mbind at 1 2, promise_bind, await, settle.
  - now destruct (p w) as [[a|e] w1], (q w1) as [[b|e'] w2].
  - now destruct (q w) as [[b|e] w1], (p w1) as [[a|e'] w2].
Qed.

(** Calls that commute still do when synchronous code follows each. *)
Lemma commute_then {W A B C D : Type} (p : promise W A) (q : promise W B)
    (f : A -> result C) (g : B -> result D) (w : W) :
  commute p q w -> commute (x ← p; settle (f x)) (y ← q; settle (g y)) w.
Proof. unfold commute. intros H. now rewrite !both_then, H. Qed.

(** Invert a fulfilled run of a sequence of awaits. *)
Ltac inv_promise :=
  repeat match goal with
  | H : (_ ≫= _) _ = (Ok _, _) |- _ => apply await_Ok_inv in H as (? & ? & ? & ?)
  | H : settle _ _ = (_, _) |- _ => apply settle_inv in H as [? ?]; subst
  | H : Promise_all2 Timing.in_order _ _ _ = (Ok _, _) |- _ =>
      apply Promise_all2_in_order_Ok in H as (? & ? & ?)
  | H : mret _ _ = (_, _) |- _ => apply settle_inv in H as [? ?]; subst
  end.

(** ** Success of a sequence *)

Lemma is_Ok_Ok {A : Type} (a : A) : is_Ok (Ok a).
Proof. now exists a. Qed.

Lemma is_Ok_Throw {A : Type} (e : exn) : ~ is_Ok (Throw e : result A).
Proof. now intros [a H]. Qed.

(** A continuation that succeeds or fails whatever value it gets. *)
Lemma is_Ok_bind {A B : Type} (m : result A) (f : A -> result B) (P : Prop) :
  (forall a, is_Ok (f a) <-> P) -> is_Ok (m ≫= f) <-> is_Ok m /\ P.
Proof.
  intros Hf. destruct m as [a|e]; cbn.
  - rewrite Hf. split; [split; [apply is_Ok_Ok | done] | now intros [_ ?]].
  - split; [now intros ?%is_Ok_Throw | now intros [?%is_Ok_Throw _]].
Qed.

Lemma map_result_is_Ok {A B : Type} (f : A -> result B) (l : list A) :
  is_Ok (map_result f l) <-> Forall (fun x => is_Ok (f x)) l.
Proof.
  induction l as [|x l IH]; cbn.
  - split; [constructor | intros _; apply is_Ok_Ok].
  - rewrite Forall_cons, <- IH, is_Ok_bind; [done|]. intros y.
    rewrite is_Ok_bind; [|intros ys; split; [intros _; exact I | intros _; apply is_Ok_Ok]].
    tauto.
Qed.

Lemma is_Ok_Ok_iff {A : Type} (a : A) : is_Ok (Ok a) <-> True.
Proof. split; [done | intros _; apply is_Ok_Ok]. Qed.

(** The success of a sequence of binds whose last step is [Ok]: each
    step succeeds. *)
Ltac is_Ok_chain :=
  lazymatch goal with
  | |- is_Ok (Ok _) <-> _ => apply is_Ok_Ok_iff
  | |- is_Ok (_ ≫= _) <-> _ =>
      eapply is_Ok_bind; intros ?; cbv beta; is_Ok_chain
  end.

(** [find] returns the first element that passes the test. *)
Lemma js_find_first {A : Type} (p : A -> bool) (before after : list A) (x : A) :
  Forall (fun y => p y = false) before -> p x = true ->
  js_find p (before ++ x :: after) = Some x.
Proof.
  intros Hb Hx. unfold js_find. induction Hb as [|y l Hy _ IH]; cbn.
  - now rewrite Hx.
  - now rewrite Hy.
Qed.

(** ** Numbers as text *)

#[local] Open Scope string_scope.

(** [n] characters of [fill], repeated from [cur] on. *)
Fixpoint cycle (n : nat) (fill cur : string) : string :=
  match n with
  | O => ""
  | S n' =>
      match cur with
      | String c cur' => String c (cycle n' fill cur')
      | EmptyString =>
          match fill with
          | String c fill' => String c (cycle n' fill fill')
          | EmptyString => ""
          end
      end
  end.

(** [s.padStart(targetLength, padString)]. *)
Definition padStart (targetLength : nat) (padString s : string) : string :=
  cycle (targetLength - String.length s) padString padString +:+ s.

(** [x.toFixed(digits)]: the decimal of [x] rounded to [digits] places,
    halves away from zero, with the sign of [x]. *)
Definition toFixed (x : Q) (digits : nat) : string :=
  let scale := (10 ^ Z.of_nat digits)%Z in
  let n := Math_round (Math_abs x * inject_Z scale) in
  (if decide (x < 0) then "-" else "") +:+
  pretty (n / scale)%Z +:+
  match digits with
  | O => ""
  | S _ => "." +:+ padStart digits "0" (pretty (n mod scale)%Z)
  end.

Lemma string_length_app (s1 s2 : string) :
  String.length (s1 +:+ s2) = (String.length s1 + String.length s2)%nat.
Proof. induction s1 as [|c s1 IH]; simpl; [done | now rewrite IH]. Qed.

Lemma cycle_length (n : nat) (fill cur : string) :
  fill <> "" -> String.length (cycle n fill cur) = n.
Proof.
  intros Hf. revert cur. induction n as [|n IH]; intros cur; cbn; [done|].
  destruct cur as [|c cur']; cbn; [|now rewrite IH].
  destruct fill as [|c fill']; cbn; [done | now rewrite IH].
Qed.

(** A padded string has the target length, or its own when that is
    longer. *)
Lemma padStart_length (targetLength : nat) (padString s : string) :
  padString <> "" ->
  String.length (padStart targetLength padString s)
    = Nat.max targetLength (String.length s).
Proof.
  intros Hf. unfold padStart. rewrite string_length_app, cycle_length by done. lia.
Qed.

Lemma padStart_long (targetLength : nat) (padString s : string) :
  (targetLength <= String.length s)%nat -> padStart targetLength padString s = s.
Proof.
  intros H. unfold padStart. now replace (targetLength - String.length s)%nat with 0%nat by lia.
Qed.

(** [s.toUpperCase()] on the letters a to z; every other character is
    kept (the sources call it on the English names of the signs). *)
Definition upper (c : ascii) : ascii :=
  let n := nat_of_ascii c in
  if decide (97 <= n <= 122)%nat then ascii_of_nat (n - 32) else c.

Fixpoint toUpperCase (s : string) : string :=
  match s with
  | EmptyString => EmptyString
  | String c s' => String (upper c) (toUpperCase s')
  end.

Lemma upper_idemp (c : ascii) : upper (upper c) = upper c.
Proof.
  unfold upper. destruct (decide (97 <= nat_of_ascii c <= 122)%nat) as [H|H]; cbv zeta.
  - rewrite nat_ascii_embedding by lia. now rewrite decide_False by lia.
  - now rewrite decide_False by done.
Qed.

Lemma toUpperCase_idemp (s : string) : toUpperCase (toUpperCase s) = toUpperCase s.
Proof. induction s as [|c s IH]; cbn; [done | now rewrite upper_idemp, IH]. Qed.

Lemma toUpperCase_length (s : string) : String.length (toUpperCase s) = String.length s.
Proof. induction s as [|c s IH]; cbn; [done | now rewrite IH]. Qed.

#[local] Close Scope string_scope.
