(* ===== verification/Types.v ===== *)
(** * Types: the data of constants.ts and types.ts

    [src/unnamed/part_001], lines 390-425 (constants.ts) and 425-508
    (types.ts).  Every TypeScript interface is a [Record t] in a [Module]
    that carries the interface's name, so that a field keeps the name it
    has in the source: [PlanetPosition.degree p] is [p.degree].  A field of
    type [number] that only ever holds an integer (a house, a percentage)
    is a [Z]; an angle is a [Q].  An optional field is an [option]. *)

From Stdlib Require Import QArith ZArith.
From stdpp Require Import base decidable option list strings.
From S2P Require Import Prelude.

#[local] Open Scope string_scope.

(** ** constants.ts *)

(** The four values of a sign's [element] field. *)
Module Element.
Inductive t : Type := fire | earth | air | water.

#[global] Instance eq_dec : EqDecision t.
Proof. solve_decision. Defined.
End Element.

Module ZodiacSign.
Record t : Type := mk {
  name : string;
  symbol : string;
  startDegree : Q;
  element : Element.t
}.
End ZodiacSign.

Definition ZODIAC_SIGNS : list ZodiacSign.t := [
  ZodiacSign.mk "Aries" "♈︎" 0 Element.fire;
  ZodiacSign.mk "Taurus" "♉︎" 30 Element.earth;
  ZodiacSign.mk "Gemini" "♊︎" 60 Element.air;
  ZodiacSign.mk "Cancer" "♋︎" 90 Element.water;
  ZodiacSign.mk "Leo" "♌︎" 120 Element.fire;
  ZodiacSign.mk "Virgo" "♍︎" 150 Element.earth;
  ZodiacSign.mk "Libra" "♎︎" 180 Element.air;
  ZodiacSign.mk "Scorpio" "♏︎" 210 Element.water;
  ZodiacSign.mk "Sagittarius" "♐︎" 240 Element.fire;
  ZodiacSign.mk "Capricorn" "♑︎" 270 Element.earth;
  ZodiacSign.mk "Aquarius" "♒︎" 300 Element.air;
  ZodiacSign.mk "Pisces" "♓︎" 330 Element.water
].

(** A [Record<string, string>] read by key: an association list and its
    lookup ([undefined] is [None]). *)
Definition record_get (r : list (string * string)) (k : string) : option string :=
  snd <$> List.find (fun e => bool_decide (fst e = k)) r.

Definition PLANET_SYMBOLS_all : list (string * string) := [
  ("Sun", "☉"); ("Moon", "☽"); ("Mercury", "☿"); ("Venus", "♀");
  ("Mars", "♂"); ("Jupiter", "♃"); ("Saturn", "♄"); ("Uranus", "♅");
  ("Neptune", "♆"); ("Pluto", "♇"); ("Chiron", "⚷"); ("NorthNode", "☊")
].

(** ** types.ts *)

Module PlanetPosition.
Record t : Type := mk {
  name : string;
  symbol : string;
  sign : string;
  signSymbol : string;
  degree : Q;          (** 0-360 absolute longitude *)
  relativeDegree : Q;  (** 0-30 within the sign *)
  house : Z;
  retrograde : bool;
  interpretation : string
}.
End PlanetPosition.

Module ElementalBalance.
Record t : Type := mk { fire : Z; earth : Z; air : Z; water : Z }.

Definition total (e : t) : Z := fire e + earth e + air e + water e.
End ElementalBalance.

Module Rising.
Record t : Type := mk { sign : string; signSymbol : string; degree : Q }.
End Rising.

Module BigThree.
Record t : Type := mk { sun : string; moon : string; rising : string }.
End BigThree.

Module ChartData.
Record t : Type := mk {
  name : option string;
  planets : list PlanetPosition.t;
  rising : Rising.t;
  elements : ElementalBalance.t;
  summary : string;
  bigThree : BigThree.t
}.
End ChartData.

Module SynastryAspect.
Record t : Type := mk {
  planetA : string;
  planetB : string;
  aspectType : string;
  description : string;
  orb : Q
}.
End SynastryAspect.

Module Analysis.
Record t : Type := mk {
  overview : string;
  strengths : list string;
  challenges : list string;
  keyAspects : list SynastryAspect.t
}.
End Analysis.

Module SynastryData.
Record t : Type := mk {
  personA : ChartData.t;
  personB : ChartData.t;
  analysis : Analysis.t
}.
End SynastryData.

Module BirthDetails.
Record t : Type := mk {
  date : string;
  time : string;
  location : string;
  name : string
}.

#[global] Instance eq_dec : EqDecision t.
Proof. solve_decision. Defined.
End BirthDetails.

Definition INITIAL_BIRTH_DETAILS : BirthDetails.t :=
  BirthDetails.mk "" "" "" "".

(** [Omit<PlanetPosition, 'interpretation'>]: a planet of the astronomy
    service before the text is merged in. *)
Module CalculatedPlanet.
Record t : Type := mk {
  name : string;
  symbol : string;
  sign : string;
  signSymbol : string;
  degree : Q;
  relativeDegree : Q;
  house : Z;
  retrograde : bool
}.

(** [{ ...p, interpretation }]. *)
Definition with_interpretation (p : t) (i : string) : PlanetPosition.t :=
  PlanetPosition.mk (name p) (symbol p) (sign p) (signSymbol p) (degree p)
    (relativeDegree p) (house p) (retrograde p) i.
End CalculatedPlanet.

Module CalculatedChart.
Record t : Type := mk {
  planets : list CalculatedPlanet.t;
  rising : Rising.t;
  elements : ElementalBalance.t;
  bigThree : BigThree.t
}.
End CalculatedChart.

Module ResolvedLocation.
Record t : Type := mk {
  lat : Q;
  lon : Q;
  utcTime : string;  (** ISO string *)
  formattedAddress : string
}.
End ResolvedLocation.

(** The type of the selection, [{ planet: PlanetPosition; owner: 'A' | 'B' }],
    in App.tsx, ZodiacWheel.tsx and AnalysisPanel.tsx. *)
Module Owner.
Inductive t : Type := A | B.

#[global] Instance eq_dec : EqDecision t.
Proof. solve_decision. Defined.

(** The owner inside a template literal. *)
Definition to_string (o : t) : string := match o with A => "A" | B => "B" end.
End Owner.

Module Selection.
Record t : Type := mk { planet : PlanetPosition.t; owner : Owner.t }.
End Selection.

(** [ChartData | SynastryData], the data of the result screen. *)
Definition Data : Type := ChartData.t + SynastryData.t.

(** ** Facts about the static table *)

Lemma ZODIAC_SIGNS_length : length ZODIAC_SIGNS = 12%nat.
Proof. reflexivity. Qed.

(** The entry at index [i] starts at [30 * i] degrees. *)
Lemma ZODIAC_SIGNS_startDegree (i : nat) (z : ZodiacSign.t) :
  ZODIAC_SIGNS !! i = Some z -> ZodiacSign.startDegree z = inject_Z (30 * Z.of_nat i).
Proof.
  intros H. do 12 (destruct i as [|i]; [injection H as <-; reflexivity|]).
  discriminate.
Qed.

(** Names are pairwise distinct: a name identifies its index. *)
Lemma ZODIAC_SIGNS_names_NoDup : NoDup (ZodiacSign.name <$> ZODIAC_SIGNS).
Proof. apply (bool_decide_unpack _). vm_compute. exact I. Qed.

(** The element of a sign repeats with period four: fire, earth, air,
    water. *)
Lemma ZODIAC_SIGNS_element (i : nat) (z : ZodiacSign.t) :
  ZODIAC_SIGNS !! i = Some z ->
  ZodiacSign.element z =
    match (i mod 4)%nat with
    | 0%nat => Element.fire | 1%nat => Element.earth
    | 2%nat => Element.air | _ => Element.water
    end.
Proof.
  intros H. do 12 (destruct i as [|i]; [injection H as <-; reflexivity|]).
  discriminate.
Qed.
