(* ===== verification/Form.v ===== *)
(** * Form: the birth form (BirthForm.tsx)

    [src/unnamed/part_000].  The form keeps the mode and the details of
    two people.  What it renders is a [FormView.t]: the subtitle, the two
    mode tabs, one section of four inputs per person shown, and the submit
    button.  An element carries its handler as the state the handler
    leaves, so a click or a keystroke is a field of the view.

    Every input is [required]: the browser lets the form submit only when
    no input on the page is empty ([valid]), and the button is disabled
    while a request is in flight.  [can_submit], the guard of the page in
    [App], is proved to be exactly that. *)

From Stdlib Require Import QArith ZArith Lia.
From stdpp Require Import base tactics decidable option list strings.
From S2P Require Import Prelude Types.

#[local] Open Scope string_scope.

(** ** State and handlers *)

Module Mode.
Inductive t : Type := natal | synastry.

#[global] Instance eq_dec : EqDecision t.
Proof. solve_decision. Defined.
End Mode.

Module FormState.
Record t : Type := mk {
  mode : Mode.t;
  personA : BirthDetails.t;
  personB : BirthDetails.t
}.

Definition initial : t :=
  mk Mode.natal (BirthDetails.mk "" "" "" "") (BirthDetails.mk "" "" "" "").
End FormState.

Definition setMode (m : Mode.t) (f : FormState.t) : FormState.t :=
  FormState.mk m (FormState.personA f) (FormState.personB f).

Definition setPersonA (d : BirthDetails.t) (f : FormState.t) : FormState.t :=
  FormState.mk (FormState.mode f) d (FormState.personB f).

Definition setPersonB (d : BirthDetails.t) (f : FormState.t) : FormState.t :=
  FormState.mk (FormState.mode f) (FormState.personA f) d.

(** [handleSubmit]: the arguments [onSubmit] is called with. *)
Definition handleSubmit (f : FormState.t) : BirthDetails.t * option BirthDetails.t :=
  match FormState.mode f with
  | Mode.natal => (FormState.personA f, None)
  | Mode.synastry => (FormState.personA f, Some (FormState.personB f))
  end.

(** ** The view *)

(** The fields of [BirthDetails], and the object spreads
    [{ ...person, field: v }] of the [onChange] handlers. *)
Module Field.
Inductive t : Type := name | date | time | location.

#[global] Instance eq_dec : EqDecision t.
Proof. solve_decision. Defined.

Definition get (k : t) (d : BirthDetails.t) : string :=
  match k with
  | name => BirthDetails.name d
  | date => BirthDetails.date d
  | time => BirthDetails.time d
  | location => BirthDetails.location d
  end.

Definition set (k : t) (v : string) (d : BirthDetails.t) : BirthDetails.t :=
  match k with
  | name =>
      BirthDetails.mk (BirthDetails.date d) (BirthDetails.time d) (BirthDetails.location d) v
  | date =>
      BirthDetails.mk v (BirthDetails.time d) (BirthDetails.location d) (BirthDetails.name d)
  | time =>
      BirthDetails.mk (BirthDetails.date d) v (BirthDetails.location d) (BirthDetails.name d)
  | location =>
      BirthDetails.mk (BirthDetails.date d) (BirthDetails.time d) v (BirthDetails.name d)
  end.
End Field.

(** What [MinimalInput] renders: the label and the [<input>] with its
    attributes; [onChange v] is the state of the form after the handler
    ran on the text [v]. *)
Module Input.
Record t : Type := mk {
  label : string;
  type : string;
  required : bool;
  placeholder : option string;
  value : string;
  onChange : string -> FormState.t
}.
End Input.

(** [MinimalInput] (lines 10-37): [type] defaults to ["text"], the input
    is [required]. *)
Definition MinimalInput (label value : string) (onChange : string -> FormState.t)
    (type placeholder : option string) : Input.t :=
  Input.mk label (default "text" type) true placeholder value onChange.

Module Tab.
Record t : Type := mk { label : string; selected : bool; onClick : FormState.t }.
End Tab.

Module Subject.
Record t : Type := mk { heading : option string; inputs : list Input.t }.
End Subject.

Module FormView.
Record t : Type := mk {
  subtitle : string;
  tabs : list Tab.t;
  subjects : list Subject.t;
  disabled : bool;
  button : string;
  onSubmit : BirthDetails.t * option BirthDetails.t
}.

(** Every input on the page, in document order. *)
Definition inputs (v : t) : list Input.t := subjects v ≫= Subject.inputs.
End FormView.

(** The four inputs of a person (lines 77-82 and 88-93). *)
Definition subject_inputs (person : BirthDetails.t)
    (setPerson : BirthDetails.t -> FormState.t) : list Input.t :=
  [MinimalInput "Name" (BirthDetails.name person)
     (fun v => setPerson (Field.set Field.name v person)) None (Some "Enter name");
   MinimalInput "Date" (BirthDetails.date person)
     (fun v => setPerson (Field.set Field.date v person)) (Some "date") None;
   MinimalInput "Time" (BirthDetails.time person)
     (fun v => setPerson (Field.set Field.time v person)) (Some "time") None;
   MinimalInput "Location" (BirthDetails.location person)
     (fun v => setPerson (Field.set Field.location v person)) None (Some "City, Country")].

(** The render of [BirthForm] (lines 48-108). *)
Definition BirthForm (isLoading : bool) (f : FormState.t) : FormView.t :=
  let mode := FormState.mode f in
  let personA := FormState.personA f in
  let personB := FormState.personB f in
  FormView.mk
    (match mode with
     | Mode.natal => "An instrument for self-discovery."
     | Mode.synastry => "The architecture of your connection."
     end)
    [Tab.mk "Natal" (bool_decide (mode = Mode.natal)) (setMode Mode.natal f);
     Tab.mk "Synastry" (bool_decide (mode = Mode.synastry)) (setMode Mode.synastry f)]
    (Subject.mk
       (match mode with Mode.synastry => Some "- Subject I -" | Mode.natal => None end)
       (subject_inputs personA (fun d => setPersonA d f))
     :: match mode with
        | Mode.synastry =>
            [Subject.mk (Some "- Subject II -")
               (subject_inputs personB (fun d => setPersonB d f))]
        | Mode.natal => []
        end)
    isLoading
    (if isLoading then "Calculating..." else "Analyze")
    (handleSubmit f).

(** Constraint validation: no [required] input is empty. *)
Definition valid (v : FormView.t) : bool :=
  forallb (fun i => implb (Input.required i) (negb (bool_decide (Input.value i = ""))))
    (FormView.inputs v).

(** ** The guard of a submission *)

Definition filled (d : BirthDetails.t) : bool :=
  negb (bool_decide (BirthDetails.name d = ""))
  && negb (bool_decide (BirthDetails.date d = ""))
  && negb (bool_decide (BirthDetails.time d = ""))
  && negb (bool_decide (BirthDetails.location d = "")).

Definition can_submit (isLoading : bool) (f : FormState.t) : bool :=
  negb isLoading
  && filled (FormState.personA f)
  && match FormState.mode f with
     | Mode.natal => true
     | Mode.synastry => filled (FormState.personB f)
     end.

(** ** Field updates *)

Lemma Field_get_set (k : Field.t) (v : string) (d : BirthDetails.t) :
  Field.get k (Field.set k v d) = v.
Proof. now destruct k. Qed.

Lemma Field_get_set_ne (k k' : Field.t) (v : string) (d : BirthDetails.t) :
  k <> k' -> Field.get k' (Field.set k v d) = Field.get k' d.
Proof. now destruct k, k'. Qed.

Lemma Field_set_get (k : Field.t) (d : BirthDetails.t) : Field.set k (Field.get k d) d = d.
Proof. now destruct k, d. Qed.

(** ** The inputs of a person *)

Definition fields : list Field.t := [Field.name; Field.date; Field.time; Field.location].

Lemma subject_inputs_value (person : BirthDetails.t)
    (setPerson : BirthDetails.t -> FormState.t) :
  Input.value <$> subject_inputs person setPerson
  = (fun k => Field.get k person) <$> fields.
Proof. reflexivity. Qed.

Lemma subject_inputs_lookup (person : BirthDetails.t)
    (setPerson : BirthDetails.t -> FormState.t) (n : nat) (i : Input.t) :
  subject_inputs person setPerson !! n = Some i ->
  exists k, fields !! n = Some k /\ Input.value i = Field.get k person /\
            Input.required i = true /\
            forall v, Input.onChange i v = setPerson (Field.set k v person).
Proof.
  do 4 (destruct n as [|n]; [intros [= <-]; eexists; split_and!; done|]). done.
Qed.

Lemma subject_inputs_valid (person : BirthDetails.t)
    (setPerson : BirthDetails.t -> FormState.t) :
  forallb (fun i => implb (Input.required i) (negb (bool_decide (Input.value i = ""))))
    (subject_inputs person setPerson)
  = filled person.
Proof. cbn. unfold filled. now rewrite andb_true_r, !andb_assoc. Qed.

(** ** What the view offers *)

(** The guard of the page is the page: a submission goes through exactly
    when the button is enabled and the browser finds every required input
    of the rendered form filled. *)
Theorem can_submit_render (isLoading : bool) (f : FormState.t) :
  can_submit isLoading f
  = negb (FormView.disabled (BirthForm isLoading f)) && valid (BirthForm isLoading f).
Proof.
  unfold can_submit, valid, FormView.inputs. destruct f as [[] personA personB]; cbn -[subject_inputs].
  - rewrite app_nil_r, subject_inputs_valid. now rewrite andb_true_r.
  - rewrite app_nil_r, forallb_app, !subject_inputs_valid. now rewrite andb_assoc.
Qed.

(** C27. The inputs are controlled: after a keystroke in the input at
    position [n] the form shows the text typed in that input, and every
    other input, the mode and the button as before. *)
Theorem BirthForm_controlled (isLoading : bool) (f : FormState.t) (n : nat)
    (i : Input.t) (v : string) :
  FormView.inputs (BirthForm isLoading f) !! n = Some i ->
  let f' := Input.onChange i v in
  FormState.mode f' = FormState.mode f /\
  Input.value <$> FormView.inputs (BirthForm isLoading f')
  = <[n := v]> (Input.value <$> FormView.inputs (BirthForm isLoading f)).
Proof.
  unfold FormView.inputs. destruct f as [[] [] []]; cbn.
  all: do 8 (destruct n as [|n]; [intros [= <-]; cbn; done|]); done.
Qed.

(** A tab selects its mode and keeps what was typed. *)
Lemma BirthForm_tabs (isLoading : bool) (f : FormState.t) (t : Tab.t) :
  t ∈ FormView.tabs (BirthForm isLoading f) ->
  FormState.personA (Tab.onClick t) = FormState.personA f /\
  FormState.personB (Tab.onClick t) = FormState.personB f /\
  (Tab.selected t = true <-> Tab.onClick t = f).
Proof.
  cbn. rewrite !elem_of_cons, elem_of_nil. destruct f as [[] ? ?].
  all: intros [->|[->|[]]]; cbn; split_and!; try done; split; done.
Qed.

(** The second person is on the page exactly in the synastry mode, and is
    passed to [onSubmit] exactly then. *)
Lemma BirthForm_subjects (isLoading : bool) (f : FormState.t) :
  length (FormView.subjects (BirthForm isLoading f))
  = (if bool_decide (FormState.mode f = Mode.synastry) then 2 else 1)%nat /\
  (is_Some (FormView.onSubmit (BirthForm isLoading f)).2
   <-> FormState.mode f = Mode.synastry).
Proof.
  destruct f as [[] ? ?]; cbn; split; try done; split; try done.
Qed.

(** ** Instances *)

(** A date typed into the empty form. *)
Lemma BirthForm_controlled_witness :
  exists i,
    FormView.inputs (BirthForm false FormState.initial) !! 1%nat = Some i /\
    Input.value <$> FormView.inputs (BirthForm false (Input.onChange i "1970-01-01"))
    = [""; "1970-01-01"; ""; ""].
Proof.
  destruct (FormView.inputs (BirthForm false FormState.initial) !! 1%nat) as [i|] eqn:Hi;
    [|discriminate].
  exists i. split; [reflexivity|].
  rewrite (proj2 (BirthForm_controlled false FormState.initial 1 i "1970-01-01" Hi)).
  reflexivity.
Defined.
