(* ===== verification/Json.v ===== *)
(** * Json: JSON values, [JSON.parse] and [JSON.stringify]

    The replies of the language model are JSON texts, and
    [src/services/geminiService.ts] reads each one with [JSON.parse]
    before the zod schema sees it.  This file is the JSON of ECMA-404 as
    the runtime implements it: the values ([json]), the parser as a
    recursive descent over the text with fuel ([parse_value],
    [JSON_parse]), and the printer ([JSON_stringify]).

    - a number is a rational; the parser reads the decimal notation with
      fraction and exponent and returns the fraction in lowest terms;
    - a string is a string of bytes; an escape [\uXXXX] is read as the
      UTF-8 of its code point, a pair of surrogate escapes as one code
      point;
    - an object is the list of its members in the order of the text; a
      key that occurs twice keeps its first place and takes the last
      value, as the properties of a JS object do.

    This file holds the definitions and the lemmas on texts;
    [JsonPrint] proves that the parser inverts the printer, [JsonParse]
    that the fuel of [JSON_parse] is enough and that what it answers is
    well formed. *)

From Stdlib Require Import QArith Qround Qabs ZArith Lia Ascii.
From stdpp Require Import base tactics decidable option list strings pretty.
From S2P Require Import Prelude.

#[local] Open Scope string_scope.
#[local] Set Warnings "-register-all".

(** ** Values *)

Inductive json : Type :=
| JNull
| JBool (b : bool)
| JNum (n : Q)
| JStr (s : string)
| JArr (items : list json)
| JObj (fields : list (string * json)).

(** [o[k]] on a parsed object. *)
Definition obj_get (fields : list (string * json)) (k : string) : option json :=
  snd <$> List.find (fun e => bool_decide (e.1 = k)) fields.

(** [o[k] = v] while the object is built: a key that is there keeps its
    place and takes the new value, a new key goes last. *)
Fixpoint obj_set (fields : list (string * json)) (k : string) (v : json)
    : list (string * json) :=
  match fields with
  | [] => [(k, v)]
  | (k', v') :: fields' =>
      if decide (k' = k) then (k, v) :: fields' else (k', v') :: obj_set fields' k v
  end.

(** ** Characters *)

Definition quote : ascii := "034"%char.
Definition backslash : ascii := "092"%char.

(** The white space of JSON: space, tab, line feed, carriage return. *)
Definition is_ws (c : ascii) : bool :=
  bool_decide (nat_of_ascii c ∈ [32; 9; 10; 13]%nat).

Fixpoint skip_ws (s : string) : string :=
  match s with
  | String c s' => if is_ws c then skip_ws s' else s
  | EmptyString => EmptyString
  end.

Definition digit_of (c : ascii) : option Z :=
  let n := nat_of_ascii c in
  if decide (48 <= n <= 57)%nat then Some (Z.of_nat n - 48)%Z else None.

Definition hex_of (c : ascii) : option Z :=
  let n := nat_of_ascii c in
  if decide (48 <= n <= 57)%nat then Some (Z.of_nat n - 48)%Z
  else if decide (97 <= n <= 102)%nat then Some (Z.of_nat n - 87)%Z
  else if decide (65 <= n <= 70)%nat then Some (Z.of_nat n - 55)%Z
  else None.

Definition byte (n : Z) : ascii := ascii_of_nat (Z.to_nat n).

(** [s] without the prefix [p], when it starts with it. *)
Fixpoint strip_prefix (p s : string) : option string :=
  match p, s with
  | EmptyString, _ => Some s
  | String a p', String b s' => if decide (a = b) then strip_prefix p' s' else None
  | String _ _, EmptyString => None
  end.

(** ** Numbers *)

(** The longest run of digits at the start of [s]: its value on top of
    [acc], the number of digits on top of [count], and what follows. *)
Fixpoint lex_digits (s : string) (acc : Z) (count : nat) : Z * nat * string :=
  match s with
  | String c s' =>
      match digit_of c with
      | Some d => lex_digits s' (acc * 10 + d)%Z (S count)
      | None => (acc, count, s)
      end
  | EmptyString => (acc, count, s)
  end.

(** [int]: a zero, or digits that do not start with a zero. *)
Definition lex_int (s : string) : option (Z * string) :=
  match s with
  | String c s' =>
      if decide (c = "0"%char) then Some (0%Z, s')
      else match lex_digits s 0 0 with
           | (_, O, _) => None
           | (i, S _, rest) => Some (i, rest)
           end
  | EmptyString => None
  end.

(** [frac]: a point and at least one digit, or nothing. *)
Definition lex_frac (s : string) : option (Z * nat * string) :=
  match strip_prefix "." s with
  | Some s' =>
      match lex_digits s' 0 0 with
      | (_, O, _) => None
      | (f, S k, rest) => Some (f, S k, rest)
      end
  | None => Some (0%Z, O, s)
  end.

(** The sign of an exponent. *)
Definition lex_exp_sign (s : string) : bool * string :=
  match s with
  | String c r =>
      if decide (c = "-"%char) then (true, r)
      else if decide (c = "+"%char) then (false, r)
      else (false, s)
  | EmptyString => (false, s)
  end.

(** [exp]: [e] or [E], a sign, and at least one digit, or nothing. *)
Definition lex_exp (s : string) : option (Z * string) :=
  match s with
  | String c s' =>
      if bool_decide (c = "e"%char) || bool_decide (c = "E"%char) then
        let '(neg, s'') := lex_exp_sign s' in
        match lex_digits s'' 0 0 with
        | (_, O, _) => None
        | (e, S _, rest) => Some (if neg then (- e)%Z else e, rest)
        end
      else Some (0%Z, s)
  | EmptyString => Some (0%Z, s)
  end.

(** The number a literal denotes, in lowest terms. *)
Definition number_value (neg : bool) (i f : Z) (k : nat) (e : Z) : Q :=
  let mantissa := (inject_Z i + inject_Z f / inject_Z (10 ^ Z.of_nat k))%Q in
  let scaled :=
    if decide (0 <= e)%Z then (mantissa * inject_Z (10 ^ e))%Q
    else (mantissa / inject_Z (10 ^ (- e)))%Q in
  Qred (if neg then - scaled else scaled)%Q.

(** The sign in front of a number. *)
Definition lex_sign (s : string) : bool * string :=
  match s with
  | String c r => if decide (c = "-"%char) then (true, r) else (false, s)
  | EmptyString => (false, s)
  end.

Definition parse_number (s : string) : option (Q * string) :=
  let '(neg, s1) := lex_sign s in
  '(i, s2) ← lex_int s1;
  '(f, k, s3) ← lex_frac s2;
  '(e, s4) ← lex_exp s3;
  Some (number_value neg i f k e, s4).

(** The least number of decimal places that write a fraction of
    denominator [den] out, when there is one. *)
Fixpoint places_from (fuel k : nat) (den : Z) : option nat :=
  match fuel with
  | O => None
  | S fuel' =>
      if decide ((10 ^ Z.of_nat k) mod den = 0)%Z then Some k
      else places_from fuel' (S k) den
  end.

Definition decimal_places (q : Q) : option nat :=
  places_from (S (Z.to_nat (Z.log2 (Z.pos (Qden (Qred q)))))) 0 (Z.pos (Qden (Qred q))).

(** [k] digits of [f], with the zeros in front. *)
Fixpoint frac_digits (k : nat) (f : Z) : string :=
  match k with
  | O => EmptyString
  | S k' =>
      String (byte (48 + f / 10 ^ Z.of_nat k')) (frac_digits k' (f mod 10 ^ Z.of_nat k'))
  end.

(** A number as [JSON.stringify] writes it, in plain decimal notation; a
    fraction that no decimal writes out is cut after 17 places. *)
Definition print_number (q : Q) : string :=
  let q := Qred q in
  let k := default 17%nat (decimal_places q) in
  let m := (Z.abs (Qnum q) * 10 ^ Z.of_nat k / Z.pos (Qden q))%Z in
  (if decide (Qnum q < 0)%Z then "-" else "")
  +:+ pretty (m / 10 ^ Z.of_nat k)%Z
  +:+ match k with
      | O => ""
      | S _ => "." +:+ frac_digits k (m mod 10 ^ Z.of_nat k)
      end.

(** ** Strings *)

(** The UTF-8 of a code point. *)
Definition utf8 (cp : Z) : string :=
  if decide (cp < 128)%Z then String (byte cp) ""
  else if decide (cp < 2048)%Z then
    String (byte (192 + cp / 64)) (String (byte (128 + cp mod 64)) "")
  else if decide (cp < 65536)%Z then
    String (byte (224 + cp / 4096))
      (String (byte (128 + cp / 64 mod 64)) (String (byte (128 + cp mod 64)) ""))
  else
    String (byte (240 + cp / 262144))
      (String (byte (128 + cp / 4096 mod 64))
         (String (byte (128 + cp / 64 mod 64)) (String (byte (128 + cp mod 64)) ""))).

(** Four hexadecimal digits. *)
Definition hex4 (a b c d : ascii) : option Z :=
  a ← hex_of a; b ← hex_of b; c ← hex_of c; d ← hex_of d;
  Some (a * 4096 + b * 256 + c * 16 + d)%Z.

(** The character of a one-letter escape. *)
Definition escape_of (c : ascii) : option ascii :=
  if decide (c = quote) then Some quote
  else if decide (c = backslash) then Some backslash
  else if decide (c = "/"%char) then Some "/"%char
  else if decide (c = "b"%char) then Some "008"%char
  else if decide (c = "f"%char) then Some "012"%char
  else if decide (c = "n"%char) then Some "010"%char
  else if decide (c = "r"%char) then Some "013"%char
  else if decide (c = "t"%char) then Some "009"%char
  else None.

(** The characters of a string literal after its opening quote, up to the
    closing quote, and what follows it. *)
Fixpoint parse_string (s : string) : option (string * string) :=
  match s with
  | EmptyString => None
  | String c rest =>
      if decide (c = quote) then Some ("", rest)
      else if decide (c = backslash) then
        match rest with
        | String "u"%char (String h1 (String h2 (String h3 (String h4 rest')))) =>
            cp ← hex4 h1 h2 h3 h4;
            let single := '(str, r) ← parse_string rest'; Some (utf8 cp +:+ str, r) in
            if bool_decide (55296 <= cp < 56320)%Z then
              match rest' with
              | String b (String "u"%char
                  (String l1 (String l2 (String l3 (String l4 rest''))))) =>
                  match hex4 l1 l2 l3 l4 with
                  | Some lo =>
                      if bool_decide (b = backslash) && bool_decide (56320 <= lo < 57344)%Z
                      then
                        '(str, r) ← parse_string rest'';
                        Some (utf8 (65536 + (cp - 55296) * 1024 + (lo - 56320)) +:+ str, r)
                      else single
                  | None => single
                  end
              | _ => single
              end
            else single
        | String e rest' =>
            c' ← escape_of e;
            '(str, r) ← parse_string rest'; Some (String c' str, r)
        | EmptyString => None
        end
      else if decide (nat_of_ascii c < 32)%nat then None
      else '(str, r) ← parse_string rest; Some (String c str, r)
  end.

Definition hex_digit (n : Z) : ascii :=
  if decide (n < 10)%Z then byte (48 + n) else byte (87 + n).

(** A character as [JSON.stringify] writes it inside a string. *)
Definition escape_char (c : ascii) : string :=
  if decide (c = quote) then String backslash (String quote "")
  else if decide (c = backslash) then String backslash (String backslash "")
  else if decide (c = "008"%char) then String backslash "b"
  else if decide (c = "012"%char) then String backslash "f"
  else if decide (c = "010"%char) then String backslash "n"
  else if decide (c = "013"%char) then String backslash "r"
  else if decide (c = "009"%char) then String backslash "t"
  else if decide (nat_of_ascii c < 32)%nat then
    String backslash
      (String "u" (String "0" (String "0"
         (String (hex_digit (Z.of_nat (nat_of_ascii c) / 16))
            (String (hex_digit (Z.of_nat (nat_of_ascii c) mod 16)) "")))))
  else String c "".

Fixpoint escape (s : string) : string :=
  match s with
  | EmptyString => EmptyString
  | String c s' => escape_char c +:+ escape s'
  end.

Definition print_string (s : string) : string :=
  String quote (escape s +:+ String quote "").

(** ** The parser *)

(** What a parser answers: a value and the text after it, a text that is
    not JSON, or a recursion cut short. *)
Inductive parsed (A : Type) : Type :=
| Parsed (a : A) (rest : string)
| Invalid
| Fuel.
Arguments Parsed {A} _ _.
Arguments Invalid {A}.
Arguments Fuel {A}.

Fixpoint parse_value (fuel : nat) (s : string) {struct fuel} : parsed json :=
  match fuel with
  | O => Fuel
  | S fuel' =>
      match s with
      | EmptyString => Invalid
      | String c rest =>
          if decide (c = quote) then
            match parse_string rest with
            | Some (str, rest') => Parsed (JStr str) rest'
            | None => Invalid
            end
          else if decide (c = "["%char) then
            match strip_prefix "]" (skip_ws rest) with
            | Some rest' => Parsed (JArr []) rest'
            | None => parse_elements fuel' (skip_ws rest) []
            end
          else if decide (c = "{"%char) then
            match strip_prefix "}" (skip_ws rest) with
            | Some rest' => Parsed (JObj []) rest'
            | None => parse_members fuel' (skip_ws rest) []
            end
          else if decide (c = "n"%char) then
            match strip_prefix "ull" rest with
            | Some rest' => Parsed JNull rest'
            | None => Invalid
            end
          else if decide (c = "t"%char) then
            match strip_prefix "rue" rest with
            | Some rest' => Parsed (JBool true) rest'
            | None => Invalid
            end
          else if decide (c = "f"%char) then
            match strip_prefix "alse" rest with
            | Some rest' => Parsed (JBool false) rest'
            | None => Invalid
            end
          else
            match parse_number s with
            | Some (n, rest') => Parsed (JNum n) rest'
            | None => Invalid
            end
      end
  end
with parse_elements (fuel : nat) (s : string) (acc : list json) {struct fuel}
    : parsed json :=
  match fuel with
  | O => Fuel
  | S fuel' =>
      match parse_value fuel' s with
      | Parsed v rest =>
          match skip_ws rest with
          | String c rest' =>
              if decide (c = ","%char) then parse_elements fuel' (skip_ws rest') (v :: acc)
              else if decide (c = "]"%char) then Parsed (JArr (rev (v :: acc))) rest'
              else Invalid
          | EmptyString => Invalid
          end
      | Invalid => Invalid
      | Fuel => Fuel
      end
  end
with parse_members (fuel : nat) (s : string) (acc : list (string * json)) {struct fuel}
    : parsed json :=
  match fuel with
  | O => Fuel
  | S fuel' =>
      match s with
      | String q rest =>
          if decide (q = quote) then
            match parse_string rest with
            | Some (k, rest1) =>
                match strip_prefix ":" (skip_ws rest1) with
                | Some rest2 =>
                    match parse_value fuel' (skip_ws rest2) with
                    | Parsed v rest3 =>
                        match skip_ws rest3 with
                        | String c rest4 =>
                            if decide (c = ","%char)
                            then parse_members fuel' (skip_ws rest4) (obj_set acc k v)
                            else if decide (c = "}"%char)
                            then Parsed (JObj (obj_set acc k v)) rest4
                            else Invalid
                        | EmptyString => Invalid
                        end
                    | Invalid => Invalid
                    | Fuel => Fuel
                    end
                | None => Invalid
                end
            | None => Invalid
            end
          else Invalid
      | EmptyString => Invalid
      end
  end.

(** The fuel [JSON_parse] runs the descent with. *)
Definition fuel_for (text : string) : nat := S (2 * String.length text).

(** [JSON.parse(text)]: one value between white space, or a
    [SyntaxError]. *)
Definition JSON_parse (text : string) : result json :=
  match parse_value (fuel_for text) (skip_ws text) with
  | Parsed v rest =>
      match skip_ws rest with
      | EmptyString => Ok v
      | String _ _ => Throw SyntaxError
      end
  | Invalid | Fuel => Throw SyntaxError
  end.

(** ** The printer *)

(** [JSON.stringify(value)]. *)
Fixpoint JSON_stringify (v : json) : string :=
  match v with
  | JNull => "null"
  | JBool true => "true"
  | JBool false => "false"
  | JNum n => print_number n
  | JStr s => print_string s
  | JArr items => "[" +:+ String.concat "," (JSON_stringify <$> items) +:+ "]"
  | JObj fields =>
      "{" +:+
      String.concat ","
        ((fun '(k, x) => print_string k +:+ ":" +:+ JSON_stringify x) <$> fields)
      +:+ "}"
  end.

(** ** Texts *)

Lemma string_app_cons (x : ascii) (a b : string) : String x a +:+ b = String x (a +:+ b).
Proof. reflexivity. Qed.

Lemma string_app_assoc (a b c : string) : (a +:+ b) +:+ c = a +:+ (b +:+ c).
Proof. induction a as [|x a IH]; [done|]. now rewrite !string_app_cons, IH. Qed.

Lemma string_app_nil_r (a : string) : a +:+ "" = a.
Proof. induction a as [|x a IH]; [done|]. now rewrite string_app_cons, IH. Qed.

Lemma skip_ws_length (s : string) : (String.length (skip_ws s) <= String.length s)%nat.
Proof. induction s as [|c s IH]; cbn; [done|]. destruct (is_ws c); cbn; lia. Qed.

(** White space is skipped up to the first character that is none. *)
Lemma skip_ws_stop (c : ascii) (s : string) :
  is_ws c = false -> skip_ws (String c s) = String c s.
Proof. intros H. cbn. now rewrite H. Qed.

Lemma strip_prefix_length (p s rest : string) :
  strip_prefix p s = Some rest ->
  String.length s = (String.length p + String.length rest)%nat.
Proof.
  revert s. induction p as [|a p IH]; intros [|b s]; cbn; try done.
  - now intros [= <-].
  - now intros [= <-].
  - case_decide; [|done]. intros ?%IH. lia.
Qed.
