(* ===== verification/JsonPrint.v ===== *)
(** * JsonPrint: the parser inverts the printer

    [Json.parse_value] reads the text [Json.JSON_stringify] writes for a
    value back to the value, whatever follows it, when the value is well
    formed ([wf]: a number is a decimal fraction in lowest terms, no
    object has a key twice) and the fuel is at least the [json_size] of the
    value.  The proof goes through the three kinds of text: a string
    with every escape, a number with its sign and its fraction, and an
    array or object through its items, by the induction principle of
    [json] that has the hypothesis on every item. *)

From Stdlib Require Import QArith Qround Qabs ZArith Lia Ascii.
From stdpp Require Import base tactics decidable option list strings pretty.
From S2P Require Import Prelude Json.

#[local] Open Scope string_scope.
#[local] Set Warnings "-register-all".

(** ** Strings: the parser inverts the printer *)

(** One printed character, read back. *)
Lemma parse_string_escape_char (c : ascii) (s : string) :
  parse_string (escape_char c +:+ s)
  = '(str, r) ← parse_string s; Some (String c str, r).
Proof.
  destruct c as [[] [] [] [] [] [] [] []]; reflexivity.
Qed.

Lemma parse_string_escape (s rest : string) :
  parse_string (escape s +:+ String quote rest) = Some (s, rest).
Proof.
  induction s as [|c s IH]; [reflexivity|].
  change (escape (String c s)) with (escape_char c +:+ escape s).
  now rewrite string_app_assoc, parse_string_escape_char, IH.
Qed.

(** A string literal between its quotes, read back. *)
Lemma parse_string_print (s rest : string) :
  exists body, print_string s +:+ rest = String quote body /\
               parse_string body = Some (s, rest).
Proof.
  exists (escape s +:+ String quote rest). split.
  - unfold print_string. now rewrite string_app_cons, string_app_assoc.
  - apply parse_string_escape.
Qed.

(** What a step of [parse_string] returns it took from a recursive
    call. *)
Lemma bind_pair_rest (o : option (string * string)) (f : string -> string)
    (x rest : string) :
  ('(str, r) ← o; Some (f str, r)) = Some (x, rest) -> exists str', o = Some (str', rest).
Proof. destruct o as [[str' r]|]; cbn; [intros [= <- <-]; eauto | done]. Qed.

(** A string literal takes at least its closing quote off the text. *)
Lemma parse_string_length_le (n : nat) (s str rest : string) :
  (String.length s <= n)%nat -> parse_string s = Some (str, rest) ->
  (String.length rest < String.length s)%nat.
Proof.
  revert s str rest. induction n as [|n IH]; intros s str rest Hn.
  { destruct s; [done | cbn in Hn; lia]. }
  destruct s as [|c s]; [done|]. cbn in Hn. cbn [parse_string].
  assert (Hrec : forall s' (f : string -> string),
            (String.length s' <= String.length s)%nat ->
            ('(str, r) ← parse_string s'; Some (f str, r)) = Some (str, rest) ->
            (String.length rest < String.length (String c s))%nat).
  { intros s' f Hle [str' Hp]%bind_pair_rest. apply IH in Hp; [|lia]. cbn. lia. }
  case_decide; [intros [= <- <-]; cbn; lia|].
  case_decide; [|case_decide; [done | now apply Hrec]].
  destruct s as [|e s]; [done|].
  assert (Hesc : (c' ← escape_of e; '(str, r) ← parse_string s; Some (String c' str, r))
                 = Some (str, rest) ->
                 (String.length rest < String.length (String c (String e s)))%nat).
  { intros (c' & _ & Hp)%bind_Some. apply Hrec in Hp; cbn [String.length] in Hp |- *; lia. }
  destruct e as [[] [] [] [] [] [] [] []]; try exact Hesc.
  destruct s as [|h1 [|h2 [|h3 [|h4 s]]]]; try exact Hesc.
  destruct (hex4 h1 h2 h3 h4) as [cp|]; [|done]. cbn [mbind option_bind]. cbv zeta.
  assert (Hsingle : ('(str, r) ← parse_string s; Some (utf8 cp +:+ str, r))
                    = Some (str, rest) ->
                    (String.length rest
                     < String.length (String c (String "u" (String h1 (String h2
                         (String h3 (String h4 s)))))))%nat).
  { intros Hp. apply Hrec in Hp; cbn [String.length] in Hp |- *; lia. }
  case_bool_decide; [|exact Hsingle].
  destruct s as [|b [|u [|l1 [|l2 [|l3 [|l4 s']]]]]]; try exact Hsingle;
    destruct u as [[] [] [] [] [] [] [] []]; try exact Hsingle.
  destruct (hex4 l1 l2 l3 l4); [|exact Hsingle].
  destruct (_ && _); [|exact Hsingle].
  intros Hp. apply Hrec in Hp; cbn [String.length] in Hp |- *; lia.
Qed.

Lemma parse_string_length (s str rest : string) :
  parse_string s = Some (str, rest) -> (String.length rest < String.length s)%nat.
Proof. now apply (parse_string_length_le (String.length s)). Qed.

(** ** Numbers: the parser inverts the printer *)

Lemma digit_of_pretty_N_char (x : N) :
  (x < 10)%N -> digit_of (pretty_N_char x) = Some (Z.of_N x).
Proof.
  intros H. do 10 (destruct x as [|x] using N.peano_ind; [reflexivity|]). lia.
Qed.

(** Reading the digits [pretty] writes for [x] in front of [s] is reading
    [s] with [x] appended to what was read. *)
Lemma lex_digits_pretty_N_go (x : N) :
  exists n : nat,
    ((0 < x)%N -> (0 < n)%nat) /\
    forall s acc count,
      lex_digits (pretty_N_go x s) acc count
      = lex_digits s (acc * 10 ^ Z.of_nat n + Z.of_N x)%Z (count + n).
Proof.
  induction (N.lt_wf_0 x) as [x _ IH].
  destruct (decide (x = 0%N)) as [->|Hx].
  { exists 0%nat. split; [lia|]. intros s acc count. rewrite pretty_N_go_0.
    f_equal; [lia | lia]. }
  destruct (IH (x `div` 10)%N) as (n & _ & Hn); [apply N.div_lt; lia|].
  exists (S n). split; [lia|]. intros s acc count.
  rewrite pretty_N_go_step by lia. rewrite Hn. cbn [lex_digits].
  rewrite digit_of_pretty_N_char by (apply N.mod_lt; lia).
  f_equal; [|lia].
  rewrite Nat2Z.inj_succ, Z.pow_succ_r by lia.
  rewrite (N.div_mod x 10) at 3 by lia. rewrite N2Z.inj_add, N2Z.inj_mul. cbn. lia.
Qed.

Lemma pretty_N_go_app (x : N) (s rest : string) :
  pretty_N_go x s +:+ rest = pretty_N_go x (s +:+ rest).
Proof.
  revert s. induction (N.lt_wf_0 x) as [x _ IH]. intros s.
  destruct (decide (x = 0%N)) as [->|Hx]; [now rewrite !pretty_N_go_0|].
  rewrite (pretty_N_go_step x s), (pretty_N_go_step x (s +:+ rest)) by lia.
  rewrite IH by (apply N.div_lt; lia). now rewrite string_app_cons.
Qed.

(** The first digit [pretty] writes for a positive number is not a
    zero. *)
Lemma pretty_N_go_head (x : N) (s : string) :
  (0 < x)%N ->
  exists d s', pretty_N_go x s = String (pretty_N_char d) s' /\ (0 < d < 10)%N.
Proof.
  revert s. induction (N.lt_wf_0 x) as [x _ IH]. intros s Hx.
  rewrite pretty_N_go_step by done.
  destruct (decide (x `div` 10 = 0)%N) as [E|E].
  - rewrite E, pretty_N_go_0. exists (x `mod` 10)%N, s. split; [done|].
    apply N.div_small_iff in E; [|done]. rewrite N.mod_small by done. lia.
  - apply IH; [apply N.div_lt; lia | now apply N.neq_0_lt_0].
Qed.

(** What can follow a number: no digit, no point, no exponent. *)
Definition number_end (rest : string) : Prop :=
  match rest with
  | EmptyString => True
  | String c _ =>
      digit_of c = None /\ c <> "."%char /\ c <> "e"%char /\ c <> "E"%char
  end.

Lemma lex_digits_end (rest : string) (acc : Z) (count : nat) :
  number_end rest -> lex_digits rest acc count = (acc, count, rest).
Proof. destruct rest as [|c rest]; [done|]. cbn. now intros [-> _]. Qed.

Lemma lex_frac_end (rest : string) : number_end rest -> lex_frac rest = Some (0%Z, O, rest).
Proof.
  destruct rest as [|c rest]; [done|]. intros (_ & Hc & _). unfold lex_frac. cbn.
  now rewrite decide_False.
Qed.

Lemma lex_exp_end (rest : string) : number_end rest -> lex_exp rest = Some (0%Z, rest).
Proof.
  destruct rest as [|c rest]; [done|]. intros (_ & _ & He & HE). unfold lex_exp.
  now rewrite !bool_decide_eq_false_2.
Qed.

(** The integer part, read back. *)
Lemma lex_int_pretty (i : Z) (rest : string) :
  (0 <= i)%Z -> (forall c r, rest = String c r -> digit_of c = None) ->
  lex_int (pretty i +:+ rest) = Some (i, rest) /\
  exists c s, pretty i +:+ rest = String c s /\ is_Some (digit_of c).
Proof.
  intros Hi Hrest. destruct i as [|p|p]; [split; [done | by eexists _, _] | | lia].
  change (pretty (Z.pos p)) with (pretty (N.pos p)).
  unfold pretty, pretty_N. rewrite decide_False by done. rewrite pretty_N_go_app.
  destruct (pretty_N_go_head (N.pos p) ("" +:+ rest)) as (d & s' & E & Hd); [lia|].
  destruct (lex_digits_pretty_N_go (N.pos p)) as (n & Hn & Hlex).
  assert (Hend : forall acc count, lex_digits rest acc count = (acc, count, rest)).
  { intros acc count. destruct rest as [|c r]; [done|]. cbn. now rewrite (Hrest c r). }
  split.
  - unfold lex_int. rewrite E. rewrite decide_False.
    + rewrite <- E, Hlex. change ("" +:+ rest) with rest. rewrite Hend.
      destruct n; [lia | done].
    + clear -Hd. do 10 (destruct d as [|d] using N.peano_ind; [done || lia|]). lia.
  - exists (pretty_N_char d), s'. split; [done|].
    rewrite digit_of_pretty_N_char by lia. done.
Qed.

(** The fraction, read back with its zeros. *)
Lemma lex_digits_frac (k : nat) (f : Z) (rest : string) (acc : Z) (count : nat) :
  (0 <= f < 10 ^ Z.of_nat k)%Z ->
  lex_digits (frac_digits k f +:+ rest) acc count
  = lex_digits rest (acc * 10 ^ Z.of_nat k + f)%Z (count + k).
Proof.
  revert f acc count. induction k as [|k IH]; intros f acc count Hf.
  { cbn in *. f_equal; [lia | lia]. }
  cbn [frac_digits]. rewrite string_app_cons. cbn [lex_digits].
  rewrite Nat2Z.inj_succ, Z.pow_succ_r in Hf by lia.
  assert (H10 : (0 < 10 ^ Z.of_nat k)%Z) by (apply Z.pow_pos_nonneg; lia).
  assert (Hq : (0 <= f / 10 ^ Z.of_nat k < 10)%Z).
  { split; [apply Z.div_pos; lia | apply Z.div_lt_upper_bound; lia]. }
  replace (digit_of (byte (48 + f / 10 ^ Z.of_nat k))) with (Some (f / 10 ^ Z.of_nat k)%Z).
  - rewrite IH by (apply Z.mod_pos_bound; lia). f_equal; [|lia].
    rewrite Nat2Z.inj_succ, Z.pow_succ_r by lia.
    pose proof (Z.div_mod f (10 ^ Z.of_nat k)). lia.
  - unfold digit_of, byte. rewrite nat_ascii_embedding by lia.
    rewrite decide_True by lia. f_equal. lia.
Qed.

(** [places_from] answers a power of ten the denominator divides. *)
Lemma places_from_Some (fuel k : nat) (den : Z) (n : nat) :
  places_from fuel k den = Some n -> (10 ^ Z.of_nat n mod den = 0)%Z.
Proof.
  revert k. induction fuel as [|fuel IH]; intros k; cbn; [done|].
  case_decide; [by intros [= <-] | apply IH].
Qed.

(** An integer part and a fraction of [k] places, as one fraction. *)
Lemma mantissa_decimal (n c d : Z) (P : Z) :
  (0 < P)%Z -> (0 < d)%Z -> P = (c * d)%Z ->
  (inject_Z ((n * c) / P) + inject_Z ((n * c) mod P) / inject_Z P == inject_Z n / inject_Z d)%Q.
Proof.
  intros HP Hd Hc.
  assert (HIP : ~ inject_Z P == 0) by (intros H; apply (inject_Z_injective P 0) in H; lia).
  assert (HId : ~ inject_Z d == 0) by (intros H; apply (inject_Z_injective d 0) in H; lia).
  assert (HIc : ~ inject_Z c == 0) by (intros H; apply (inject_Z_injective c 0) in H; nia).
  transitivity ((inject_Z ((n * c) / P) * inject_Z P + inject_Z ((n * c) mod P)) / inject_Z P)%Q.
  { field. done. }
  rewrite <- inject_Z_mult, <- inject_Z_plus, (Z.mul_comm _ P), <- Z.div_mod by lia.
  rewrite Hc, !inject_Z_mult. field. done.
Qed.

(** The digits of a decimal fraction denote it. *)
Lemma number_value_decimal (q : Q) (k : nat) :
  (10 ^ Z.of_nat k mod Z.pos (Qden q) = 0)%Z ->
  let m := (Z.abs (Qnum q) * 10 ^ Z.of_nat k / Z.pos (Qden q))%Z in
  number_value (bool_decide (Qnum q < 0)%Z) (m / 10 ^ Z.of_nat k) (m mod 10 ^ Z.of_nat k) k 0
  = Qred q.
Proof.
  destruct q as [n d]. cbn [Qnum Qden]. intros Hk.
  set (m := (Z.abs n * 10 ^ Z.of_nat k / Z.pos d)%Z). unfold number_value.
  apply Qred_complete. rewrite decide_True by done.
  assert (HP : (0 < 10 ^ Z.of_nat k)%Z) by (apply Z.pow_pos_nonneg; lia).
  apply Z.mod_divide in Hk; [|done]. destruct Hk as [c Hc].
  assert (Hm : m = (Z.abs n * c)%Z).
  { unfold m. rewrite Hc, Z.mul_assoc. now apply Z.div_mul. }
  change (inject_Z (10 ^ 0)) with 1%Q. rewrite Hm.
  pose proof (mantissa_decimal (Z.abs n) c (Z.pos d) _ HP eq_refl Hc) as E.
  rewrite (Qmake_Qdiv n d).
  case_bool_decide; rewrite Qmult_1_r, E.
  - rewrite Z.abs_neq, inject_Z_opp by lia. field. done.
  - now rewrite Z.abs_eq by lia.
Qed.

Lemma decimal_places_Qred (q : Q) : decimal_places (Qred q) = decimal_places q.
Proof. unfold decimal_places. now rewrite (Qred_complete _ _ (Qred_correct q)). Qed.

(** A sign, an integer part and [k] places, read back. *)
Lemma parse_number_decimal (neg : bool) (i f : Z) (k : nat) (rest : string) :
  (0 <= i)%Z -> (0 <= f < 10 ^ Z.of_nat k)%Z -> number_end rest ->
  parse_number
    ((if neg then "-" else "") +:+ pretty i
     +:+ match k with O => "" | S _ => "." +:+ frac_digits k f end +:+ rest)
  = Some (number_value neg i f k 0, rest).
Proof.
  intros Hi Hf Hrest.
  set (tail := match k with O => "" | S _ => "." +:+ frac_digits k f end +:+ rest).
  assert (Htail : forall c r, tail = String c r -> digit_of c = None).
  { unfold tail. destruct k; [|now intros c r [= <- _]].
    destruct rest as [|c' r']; [done|]. intros c r [= <- _]. apply Hrest. }
  destruct (lex_int_pretty i tail Hi Htail) as (Hint & c & s & E & Hc).
  assert (Hfrac : lex_frac tail = Some (f, k, rest)).
  { unfold tail. destruct k as [|k].
    - rewrite lex_frac_end by done. do 3 f_equal. cbn in Hf. lia.
    - unfold lex_frac. rewrite !string_app_cons. cbn [strip_prefix]. rewrite decide_True by done.
      change ("" +:+ ?x) with x. now rewrite lex_digits_frac, lex_digits_end. }
  unfold parse_number.
  assert (Hsign : lex_sign ((if neg then "-" else "") +:+ pretty i +:+ tail)
                  = (neg, pretty i +:+ tail)).
  { destruct neg; [done|]. change ("" +:+ ?x) with x. rewrite E. cbn.
    rewrite decide_False; [done|]. intros ->. now destruct Hc. }
  rewrite Hsign, Hint. cbn. rewrite Hfrac. cbn. now rewrite lex_exp_end.
Qed.

(** A number that [k] decimal places write out, read back. *)
Lemma parse_number_print (q : Q) (rest : string) :
  is_Some (decimal_places q) -> number_end rest ->
  parse_number (print_number q +:+ rest) = Some (Qred q, rest).
Proof.
  intros [k Hk] Hrest. unfold print_number. rewrite decimal_places_Qred, Hk. cbn [default].
  unfold id. unfold decimal_places in Hk. apply places_from_Some in Hk.
  pose proof (number_value_decimal (Qred q) k Hk) as Hv. cbv zeta in Hv.
  rewrite (Qred_complete _ _ (Qred_correct q)) in Hv. revert Hv.
  generalize (Qnum (Qred q)) (Qden (Qred q)). intros n d.
  set (m := (Z.abs n * 10 ^ Z.of_nat k / Z.pos d)%Z). intros <-.
  assert (HP : (0 < 10 ^ Z.of_nat k)%Z) by (apply Z.pow_pos_nonneg; lia).
  assert (Hm : (0 <= m)%Z) by (apply Z.div_pos; lia).
  rewrite !string_app_assoc.
  rewrite <- (parse_number_decimal (bool_decide (n < 0)%Z) (m / 10 ^ Z.of_nat k)
                (m mod 10 ^ Z.of_nat k) k rest);
    [| apply Z.div_pos; lia | apply Z.mod_pos_bound; lia | done].
  do 2 f_equal.
  case_decide; [now rewrite bool_decide_eq_true_2 | now rewrite bool_decide_eq_false_2].
Qed.

(** ** Values: induction and well-formedness *)

(** Induction on a value with the hypothesis on every item of an array
    and every member of an object. *)
Section json_induction.
Context (P : json -> Prop).
Context (HNull : P JNull) (HBool : forall b, P (JBool b)) (HNum : forall n, P (JNum n))
  (HStr : forall s, P (JStr s))
  (HArr : forall items, Forall P items -> P (JArr items))
  (HObj : forall fields, Forall (fun kv => P kv.2) fields -> P (JObj fields)).

Fixpoint json_induction (v : json) : P v :=
  match v with
  | JNull => HNull
  | JBool b => HBool b
  | JNum n => HNum n
  | JStr s => HStr s
  | JArr items =>
      HArr items
        ((fix all (l : list json) : Forall P l :=
            match l with
            | [] => Forall_nil_2 P
            | x :: l' => Forall_cons_2 P x l' (json_induction x) (all l')
            end) items)
  | JObj fields =>
      HObj fields
        ((fix all (l : list (string * json)) : Forall (fun kv => P kv.2) l :=
            match l with
            | [] => Forall_nil_2 _
            | (k, x) :: l' => Forall_cons_2 _ (k, x) l' (json_induction x) (all l')
            end) fields)
  end.
End json_induction.

#[global] Instance Q_eq_dec : EqDecision Q.
Proof. solve_decision. Defined.

(** The values [JSON_parse] answers: a number is in lowest terms and a
    decimal writes it out, an object has no key twice. *)
Fixpoint wf (v : json) : bool :=
  match v with
  | JNum n => bool_decide (Qred n = n) && bool_decide (is_Some (decimal_places n))
  | JArr items => forallb wf items
  | JObj fields =>
      bool_decide (NoDup fields.*1) && forallb (fun '(_, x) => wf x) fields
  | JNull | JBool _ | JStr _ => true
  end.

(** Fuel that is enough to read a printed value back. *)
Fixpoint json_size (v : json) : nat :=
  match v with
  | JArr items => S (length items + foldr (fun x n => json_size x + n) 0 items)%nat
  | JObj fields => S (length fields + foldr (fun '(_, x) n => json_size x + n) 0 fields)%nat
  | JNull | JBool _ | JNum _ | JStr _ => 1
  end.

(** The first character of a value. *)
Definition value_start (c : ascii) : bool :=
  bool_decide (c = quote) || bool_decide (c = "["%char) || bool_decide (c = "{"%char)
  || bool_decide (c = "n"%char) || bool_decide (c = "t"%char) || bool_decide (c = "f"%char)
  || bool_decide (c = "-"%char) || bool_decide (is_Some (digit_of c)).

Lemma value_start_spec (c : ascii) :
  value_start c = true ->
  is_ws c = false /\ c <> "]"%char /\ c <> "}"%char /\ c <> ","%char /\ c <> ":"%char.
Proof. destruct c as [[] [] [] [] [] [] [] []]; done. Qed.

(** The unfolding of the parsers by one unit of fuel. *)
Lemma parse_elements_S (fuel : nat) (s : string) (acc : list json) :
  parse_elements (S fuel) s acc
  = match parse_value fuel s with
    | Parsed v rest =>
        match skip_ws rest with
        | String c rest' =>
            if decide (c = ","%char) then parse_elements fuel (skip_ws rest') (v :: acc)
            else if decide (c = "]"%char) then Parsed (JArr (rev (v :: acc))) rest'
            else Invalid
        | EmptyString => Invalid
        end
    | Invalid => Invalid
    | Fuel => Fuel
    end.
Proof. reflexivity. Qed.

Lemma parse_value_S (fuel : nat) (c : ascii) (rest : string) :
  parse_value (S fuel) (String c rest)
  = if decide (c = quote) then
      match parse_string rest with
      | Some (str, rest') => Parsed (JStr str) rest'
      | None => Invalid
      end
    else if decide (c = "["%char) then
      match strip_prefix "]" (skip_ws rest) with
      | Some rest' => Parsed (JArr []) rest'
      | None => parse_elements fuel (skip_ws rest) []
      end
    else if decide (c = "{"%char) then
      match strip_prefix "}" (skip_ws rest) with
      | Some rest' => Parsed (JObj []) rest'
      | None => parse_members fuel (skip_ws rest) []
      end
    else if decide (c = "n"%char) then
      match strip_prefix "ull" rest with
      | Some rest' => Parsed JNull rest'
      | None => Invalid
      end
    else if decide (c = "t"%char) then
      match strip_prefix "rue" rest with
      | Some rest' => Parsed (JBool true) rest'
      | None => Invalid
      end
    else if decide (c = "f"%char) then
      match strip_prefix "alse" rest with
      | Some rest' => Parsed (JBool false) rest'
      | None => Invalid
      end
    else
      match parse_number (String c rest) with
      | Some (n, rest') => Parsed (JNum n) rest'
      | None => Invalid
      end.
Proof. reflexivity. Qed.

Lemma parse_members_S (fuel : nat) (s : string) (acc : list (string * json)) :
  parse_members (S fuel) s acc
  = match s with
    | String q rest =>
        if decide (q = quote) then
          match parse_string rest with
          | Some (k, rest1) =>
              match strip_prefix ":" (skip_ws rest1) with
              | Some rest2 =>
                  match parse_value fuel (skip_ws rest2) with
                  | Parsed v rest3 =>
                      match skip_ws rest3 with
                      | String c rest4 =>
                          if decide (c = ","%char)
                          then parse_members fuel (skip_ws rest4) (obj_set acc k v)
                          else if decide (c = "}"%char)
                          then Parsed (JObj (obj_set acc k v)) rest4
                          else Invalid
                      | EmptyString => Invalid
                      end
                  | Invalid => Invalid
                  | Fuel => Fuel
                  end
              | None => Invalid
              end
          | None => Invalid
          end
        else Invalid
    | EmptyString => Invalid
    end.
Proof. reflexivity. Qed.

(** A printed number starts with its sign or a digit. *)
Lemma print_number_start (q : Q) (rest : string) :
  exists c s, print_number q +:+ rest = String c s /\
              (c = "-"%char \/ is_Some (digit_of c)).
Proof.
  unfold print_number. rewrite !string_app_assoc.
  set (k := default _ _). set (tail := _ +:+ rest).
  case_decide; [by eexists _, _; split; [|left]|].
  destruct (lex_int_pretty
    ((Z.abs (Qnum (Qred q)) * 10 ^ Z.of_nat k / Z.pos (Qden (Qred q))) / 10 ^ Z.of_nat k)
    "") as (_ & c & s & E & Hc).
  - apply Z.div_pos; [apply Z.div_pos; lia | apply Z.pow_pos_nonneg; lia].
  - done.
  - exists c, (s +:+ tail). split; [|by right].
    change ("" +:+ ?x) with x. rewrite <- string_app_cons, <- E.
    now rewrite string_app_nil_r.
Qed.

(** A printed value starts with a character that starts a value. *)
Lemma JSON_stringify_start (v : json) (rest : string) :
  exists c s, JSON_stringify v +:+ rest = String c s /\ value_start c = true.
Proof.
  destruct v as [|[]|n|str|items|fields]; try by eexists _, _.
  destruct (print_number_start n rest) as (c & s & E & Hc).
  exists c, s. split; [done|]. unfold value_start.
  destruct Hc as [->|Hc]; [done|]. rewrite (bool_decide_eq_true_2 _ Hc).
  now rewrite !orb_true_r.
Qed.

(** ** Values: the parser inverts the printer *)

(** No white space is skipped in front of a value, and a value is not
    the end of an array or an object. *)
Lemma starts_value (s : string) (c : ascii) (s' : string) (p : ascii) :
  s = String c s' -> value_start c = true ->
  skip_ws s = s /\ (p = "]"%char \/ p = "}"%char -> strip_prefix (String p "") s = None).
Proof.
  intros -> (Hws & H1 & H2 & _)%value_start_spec. split; [now apply skip_ws_stop|].
  cbn. intros [->| ->]; now rewrite decide_False.
Qed.

Lemma concat_stringify_start (items : list json) (rest : string) :
  items <> [] ->
  exists c s, String.concat "," (JSON_stringify <$> items) +:+ rest = String c s /\
              value_start c = true.
Proof.
  destruct items as [|x [|y items]]; [done| |]; intros _; cbn [fmap list_fmap String.concat].
  - apply JSON_stringify_start.
  - rewrite string_app_assoc. apply JSON_stringify_start.
Qed.

(** What reading a printed value back means; the text may go on with
    anything that does not continue a number. *)
Definition reads_back (v : json) : Prop :=
  wf v = true -> forall fuel rest, (json_size v <= fuel)%nat -> number_end rest ->
  parse_value fuel (JSON_stringify v +:+ rest) = Parsed v rest.

Lemma string_app_char (c : ascii) (rest : string) : String c "" +:+ rest = String c rest.
Proof. reflexivity. Qed.

Lemma parse_elements_stringify (items : list json) :
  Forall reads_back items -> forallb wf items = true -> items <> [] ->
  forall fuel acc rest,
    (length items + foldr (fun x n => json_size x + n) 0 items <= fuel)%nat ->
    parse_elements fuel (String.concat "," (JSON_stringify <$> items) +:+ "]" +:+ rest) acc
    = Parsed (JArr (rev acc ++ items)) rest.
Proof.
  induction 1 as [|x items Hx _ IH]; [done|].
  intros [Hwx Hwf]%andb_prop _ fuel acc rest Hfuel.
  cbn in Hfuel. destruct fuel as [|fuel]; [lia|]. rewrite parse_elements_S.
  destruct items as [|y items].
  - cbn [fmap list_fmap String.concat]. rewrite string_app_char, Hx; [|done|lia|done].
    done.
  - change (String.concat "," (JSON_stringify <$> x :: y :: items))
      with (JSON_stringify x +:+ "," +:+ String.concat "," (JSON_stringify <$> y :: items)).
    rewrite !string_app_assoc, string_app_char, Hx; [|done|lia|done].
    destruct (concat_stringify_start (y :: items) ("]" +:+ rest)) as (c & s & E & Hc); [done|].
    destruct (starts_value _ c s "]" E Hc) as [Hws _].
    rewrite skip_ws_stop by done. rewrite decide_True by done. rewrite Hws.
    rewrite IH; [|done|done|cbn in *; lia]. cbn. now rewrite <- app_assoc.
Qed.

Lemma obj_set_fresh (acc : list (string * json)) (k : string) (v : json) :
  k ∉ acc.*1 -> obj_set acc k v = (acc ++ [(k, v)])%list.
Proof.
  induction acc as [|[k' v'] acc IH]; [done|]. cbn. rewrite not_elem_of_cons.
  intros [Hk Hacc]. rewrite decide_False by done. now rewrite IH.
Qed.

Lemma print_string_app (s rest : string) :
  print_string s +:+ rest = String quote (escape s +:+ String quote rest).
Proof. unfold print_string. now rewrite string_app_cons, string_app_assoc. Qed.

(** One member read, up to the comma or the brace after it. *)
Lemma parse_members_member (fuel : nat) (k : string) (x : json) (tail : string)
    (acc : list (string * json)) :
  reads_back x -> wf x = true -> (json_size x <= fuel)%nat -> number_end tail ->
  parse_members (S fuel) (print_string k +:+ ":" +:+ JSON_stringify x +:+ tail) acc
  = match skip_ws tail with
    | String c rest =>
        if decide (c = ","%char) then parse_members fuel (skip_ws rest) (obj_set acc k x)
        else if decide (c = "}"%char) then Parsed (JObj (obj_set acc k x)) rest
        else Invalid
    | EmptyString => Invalid
    end.
Proof.
  intros Hx Hwf Hfuel Htail. rewrite parse_members_S, print_string_app.
  rewrite decide_True, parse_string_escape by done. rewrite string_app_char.
  rewrite skip_ws_stop by done. cbn [strip_prefix]. rewrite decide_True by done.
  destruct (JSON_stringify_start x tail) as (c & s & E & Hc).
  destruct (starts_value _ c s "]" E Hc) as [-> _]. now rewrite Hx.
Qed.

Lemma skip_ws_members (fields : list (string * json)) (rest : string) :
  fields <> [] ->
  let text :=
    String.concat ","
      ((fun '(k, x) => print_string k +:+ ":" +:+ JSON_stringify x) <$> fields) +:+ rest in
  skip_ws text = text.
Proof.
  destruct fields as [|[k x] [|[k' y] fields]]; [done| |]; intros _;
    cbn [fmap list_fmap String.concat]; now rewrite !string_app_assoc, print_string_app.
Qed.

Lemma parse_members_stringify (fields : list (string * json)) :
  Forall (fun kv => reads_back kv.2) fields ->
  forallb (fun '(_, x) => wf x) fields = true -> fields <> [] ->
  forall fuel acc rest,
    NoDup (acc ++ fields)%list.*1 ->
    (length fields + foldr (fun '(_, x) n => json_size x + n) 0 fields <= fuel)%nat ->
    parse_members fuel
      (String.concat ","
         ((fun '(k, x) => print_string k +:+ ":" +:+ JSON_stringify x) <$> fields)
       +:+ "}" +:+ rest) acc
    = Parsed (JObj (acc ++ fields)) rest.
Proof.
  induction 1 as [|[k x] fields Hx _ IH]; [done|].
  intros [Hwx Hwf]%andb_prop _ fuel acc rest Hdup Hfuel.
  cbn in Hfuel, Hx. destruct fuel as [|fuel]; [lia|].
  assert (Hk : obj_set acc k x = (acc ++ [(k, x)])%list).
  { apply obj_set_fresh. rewrite fmap_app in Hdup. apply NoDup_app in Hdup as (_ & Hdup & _).
    intros Hin. apply (Hdup _ Hin). cbn. left. }
  assert (Hnext : NoDup ((acc ++ [(k, x)]) ++ fields)%list.*1) by now rewrite <- app_assoc.
  destruct fields as [|[k' y] fields].
  - cbn [fmap list_fmap String.concat]. rewrite !string_app_assoc.
    rewrite parse_members_member, string_app_char; [|done|done|lia|done].
    rewrite skip_ws_stop by done. rewrite decide_False, decide_True by done.
    now rewrite Hk.
  - change (String.concat "," (?f <$> (k, x) :: ?l))
      with (f (k, x) +:+ "," +:+ String.concat "," (f <$> l)).
    rewrite !string_app_assoc.
    rewrite parse_members_member, string_app_char; [|done|done|lia|done].
    rewrite skip_ws_stop by done. rewrite decide_True by done.
    rewrite skip_ws_members, Hk, IH by (done || cbn in *; lia).
    now rewrite <- app_assoc.
Qed.

Lemma number_start_spec (c : ascii) :
  c = "-"%char \/ is_Some (digit_of c) ->
  c <> quote /\ c <> "["%char /\ c <> "{"%char /\ c <> "n"%char /\ c <> "t"%char /\
  c <> "f"%char.
Proof.
  intros H. assert (Hb : bool_decide (c = "-"%char) || bool_decide (is_Some (digit_of c)) = true).
  { destruct H as [->|H]; [done|]. rewrite (bool_decide_eq_true_2 _ H). apply orb_true_r. }
  clear H. revert Hb. destruct c as [[] [] [] [] [] [] [] []]; done.
Qed.

(** A text that starts like a number is read as a number. *)
Lemma parse_value_number (fuel : nat) (c : ascii) (s : string) :
  c = "-"%char \/ is_Some (digit_of c) ->
  parse_value (S fuel) (String c s)
  = match parse_number (String c s) with
    | Some (n, rest') => Parsed (JNum n) rest'
    | None => Invalid
    end.
Proof.
  intros (? & ? & ? & ? & ? & ?)%number_start_spec. rewrite parse_value_S.
  now rewrite !decide_False by done.
Qed.

(** Every well-formed value is read back from its text, with fuel for
    its size. *)
Lemma parse_value_stringify (v : json) : reads_back v.
Proof.
  induction v as [|b|n|str|items IH|fields IH] using json_induction;
    intros Hwf fuel rest Hfuel Hrest; (destruct fuel as [|fuel]; [cbn in Hfuel; lia|]).
  - done.
  - now destruct b.
  - cbn in Hwf. apply andb_prop in Hwf as [Hred%bool_decide_eq_true Hdec%bool_decide_eq_true].
    cbn [JSON_stringify]. destruct (print_number_start n rest) as (c & s & E & Hc).
    rewrite E, parse_value_number, <- E, parse_number_print by done. now rewrite Hred.
  - cbn [JSON_stringify]. rewrite print_string_app, parse_value_S.
    now rewrite decide_True, parse_string_escape.
  - destruct items as [|x items]; [done|].
    cbn [JSON_stringify]. rewrite !string_app_assoc, string_app_char, parse_value_S.
    rewrite decide_False, decide_True by done.
    destruct (concat_stringify_start (x :: items) ("]" +:+ rest)) as (c & s & E & Hc); [done|].
    destruct (starts_value _ c s "]" E Hc) as [-> ->]; [|by left].
    apply (parse_elements_stringify _ IH); [done|done|cbn in *; lia].
  - cbn in Hwf. apply andb_prop in Hwf as [Hdup%bool_decide_eq_true Hwf].
    destruct fields as [|kx fields]; [done|].
    cbn [JSON_stringify]. rewrite !string_app_assoc, string_app_char, parse_value_S.
    rewrite !decide_False, decide_True by done.
    rewrite skip_ws_members by done.
    replace (strip_prefix "}" _) with (@None string).
    + apply (parse_members_stringify _ IH); [done|done|done|cbn in *; lia].
    + destruct kx as [k x], fields as [|[k' y] fields];
        cbn [fmap list_fmap String.concat]; now rewrite !string_app_assoc, print_string_app.
Qed.
