(* ===== verification/JsonParse.v ===== *)
(** * JsonParse: the parser is total, and what it answers

    The descent of [Json.parse_value] takes at least a character off the
    text at every value ([parse_length]), so the fuel of
    [Json.JSON_parse], more than twice the length of the text, is never
    used up ([parse_enough]), and the answer does not depend on the fuel
    above that ([parse_mono_S], [JSON_parse_Ok]).  [JSON_parse] throws a
    [SyntaxError] and nothing else; it inverts [Json.JSON_stringify]
    ([JSON_parse_stringify]); and the values it answers are exactly the
    well-formed ones ([JSON_parse_wf]). *)

From Stdlib Require Import QArith Qround Qabs ZArith Lia Ascii.
From stdpp Require Import base tactics decidable option list strings pretty.
From S2P Require Import Prelude Json JsonPrint.

#[local] Open Scope string_scope.
#[local] Set Warnings "-register-all".

(** ** What a parser leaves is shorter than what it was given *)

Lemma lex_digits_length (s : string) (acc : Z) (count : nat) (a : Z) (n : nat) (r : string) :
  lex_digits s acc count = (a, n, r) ->
  (String.length r + n = String.length s + count)%nat.
Proof.
  revert acc count. induction s as [|c s IH]; intros acc count; cbn.
  - intros [= <- <- <-]. done.
  - destruct (digit_of c); [intros ?%IH; lia | intros [= <- <- <-]; done].
Qed.

Lemma lex_sign_length (s : string) (neg : bool) (r : string) :
  lex_sign s = (neg, r) -> (String.length r <= String.length s)%nat.
Proof. destruct s; cbn; [|case_decide]; intros [= <- <-]; cbn; lia. Qed.

Lemma lex_int_length (s : string) (i : Z) (r : string) :
  lex_int s = Some (i, r) -> (String.length r < String.length s)%nat.
Proof.
  unfold lex_int. destruct s as [|c s]; [done|]. case_decide; [intros [= <- <-]; cbn; lia|].
  destruct (lex_digits _ _ _) as [[a [|n]] r'] eqn:E; [done|].
  intros [= <- <-]. apply lex_digits_length in E. lia.
Qed.

Lemma lex_frac_length (s : string) (f : Z) (k : nat) (r : string) :
  lex_frac s = Some (f, k, r) -> (String.length r <= String.length s)%nat.
Proof.
  unfold lex_frac. destruct (strip_prefix "." s) as [s'|] eqn:Es; [|intros [= <- <- <-]; lia].
  destruct (lex_digits _ _ _) as [[a [|n]] r'] eqn:E; [done|].
  intros [= <- <- <-]. apply lex_digits_length in E. apply strip_prefix_length in Es. lia.
Qed.

Lemma lex_exp_sign_length (s : string) (neg : bool) (r : string) :
  lex_exp_sign s = (neg, r) -> (String.length r <= String.length s)%nat.
Proof. destruct s; cbn; repeat case_decide; intros [= <- <-]; cbn; lia. Qed.

Lemma lex_exp_length (s : string) (e : Z) (r : string) :
  lex_exp s = Some (e, r) -> (String.length r <= String.length s)%nat.
Proof.
  unfold lex_exp. destruct s as [|c s]; [intros [= <- <-]; lia|].
  destruct (_ || _); [|intros [= <- <-]; lia].
  destruct (lex_exp_sign s) as [neg s''] eqn:Es.
  destruct (lex_digits _ _ _) as [[a [|n]] r'] eqn:E; [done|].
  intros [= <- <-]. apply lex_digits_length in E. apply lex_exp_sign_length in Es.
  cbn. lia.
Qed.

Lemma parse_number_length (s : string) (q : Q) (r : string) :
  parse_number s = Some (q, r) -> (String.length r < String.length s)%nat.
Proof.
  unfold parse_number. destruct (lex_sign s) as [neg s1] eqn:E1.
  intros ([i s2] & E2 & ([[f k] s3] & E3 & ([e s4] & E4 & [= _ <-])%bind_Some)%bind_Some)%bind_Some.
  apply lex_sign_length in E1. apply lex_int_length in E2. apply lex_frac_length in E3.
  apply lex_exp_length in E4. lia.
Qed.

(** The lengths a hypothesis on a parser gives. *)
Ltac lengths :=
  repeat match goal with
    | H : parse_string _ = Some _ |- _ => apply parse_string_length in H
    | H : strip_prefix _ _ = Some _ |- _ => apply strip_prefix_length in H
    | H : parse_number _ = Some _ |- _ => apply parse_number_length in H
    | H : skip_ws ?s = String _ _ |- _ =>
        let H' := fresh in
        pose proof (skip_ws_length s) as H'; rewrite H in H'; clear H
    | H : context [String.length (skip_ws ?s)] |- _ =>
        lazymatch goal with
        | _ : (String.length (skip_ws s) <= String.length s)%nat |- _ => fail
        | _ => pose proof (skip_ws_length s)
        end
    | |- context [String.length (skip_ws ?s)] =>
        lazymatch goal with
        | _ : (String.length (skip_ws s) <= String.length s)%nat |- _ => fail
        | _ => pose proof (skip_ws_length s)
        end
    end;
  cbn [String.length] in *.

Lemma parse_length (fuel : nat) :
  (forall s v r, parse_value fuel s = Parsed v r -> (String.length r < String.length s)%nat) /\
  (forall s acc v r,
     parse_elements fuel s acc = Parsed v r -> (String.length r < String.length s)%nat) /\
  (forall s acc v r,
     parse_members fuel s acc = Parsed v r -> (String.length r < String.length s)%nat).
Proof.
  induction fuel as [|fuel (IHv & IHe & IHm)]; [done|]. split_and!.
  - intros [|c s] v r; [done|]. rewrite parse_value_S.
    repeat case_match; try done; intros [= _ <-] || intros ?%IHe || intros ?%IHm;
      lengths; lia.
  - intros s acc v r. rewrite parse_elements_S.
    repeat case_match; try done; intros [= _ <-] || intros ?%IHe;
      match goal with H : parse_value _ _ = _ |- _ => apply IHv in H end; lengths; lia.
  - intros s acc v r. rewrite parse_members_S.
    repeat case_match; try done; intros [= _ <-] || intros ?%IHm;
      match goal with H : parse_value _ _ = _ |- _ => apply IHv in H end; lengths; lia.
Qed.

(** ** The fuel of [JSON_parse] is enough *)

(** A descent with more than twice the length of the text as fuel is
    never cut short: every call takes a character off the text, or is
    the call of [parse_elements] or [parse_members] on the first item,
    and that one follows a bracket. *)
Lemma parse_enough (fuel : nat) :
  (forall s, (2 * String.length s < fuel)%nat -> parse_value fuel s <> Fuel) /\
  (forall s acc, (2 * String.length s + 1 < fuel)%nat -> parse_elements fuel s acc <> Fuel) /\
  (forall s acc, (2 * String.length s + 1 < fuel)%nat -> parse_members fuel s acc <> Fuel).
Proof.
  induction fuel as [|fuel (IHv & IHe & IHm)]; [split_and!; intros; lia|].
  destruct (parse_length fuel) as (Hlen & _ & _). split_and!.
  - intros [|c s] Hfuel; [done|]. rewrite parse_value_S. cbn [String.length] in Hfuel.
    pose proof (skip_ws_length s).
    repeat case_match; try done; apply IHe || apply IHm; lia.
  - intros s acc Hfuel. rewrite parse_elements_S.
    destruct (parse_value fuel s) as [v rest| |] eqn:E; [|done|apply IHv in E; [done|lia]].
    apply Hlen in E. repeat case_match; try done. apply IHe. lengths. lia.
  - intros s acc Hfuel. rewrite parse_members_S.
    repeat case_match; try done.
    + apply IHm. match goal with H : parse_value _ _ = _ |- _ => apply Hlen in H end.
      lengths. lia.
    + match goal with H : parse_value _ _ = Fuel |- _ => apply IHv in H; [done|] end.
      lengths. lia.
Qed.

(** ** More fuel changes nothing *)

Lemma parse_mono_S (fuel : nat) :
  (forall s, parse_value fuel s <> Fuel -> parse_value (S fuel) s = parse_value fuel s) /\
  (forall s acc,
     parse_elements fuel s acc <> Fuel ->
     parse_elements (S fuel) s acc = parse_elements fuel s acc) /\
  (forall s acc,
     parse_members fuel s acc <> Fuel ->
     parse_members (S fuel) s acc = parse_members fuel s acc).
Proof.
  induction fuel as [|fuel (IHv & IHe & IHm)]; [done|].
  split_and!.
  - intros [|c s]; [done|]. rewrite (parse_value_S (S fuel)), (parse_value_S fuel).
    repeat case_match; try done; [apply IHe | apply IHm].
  - intros s acc. rewrite (parse_elements_S (S fuel)), (parse_elements_S fuel). intros H.
    rewrite (IHv s) by (intros E; now rewrite E in H).
    repeat case_match; try done. now apply IHe.
  - intros s acc. rewrite (parse_members_S (S fuel)), (parse_members_S fuel). intros H.
    repeat (first
      [ match goal with
        | Hf : parse_value fuel ?x = _ |- context [parse_value (S fuel) ?x] =>
            rewrite (IHv x), Hf by (now rewrite Hf)
        end
      | case_match ]; try done).
    now apply IHm.
Qed.

Lemma parse_value_mono (fuel fuel' : nat) (s : string) :
  (fuel <= fuel')%nat -> parse_value fuel s <> Fuel -> parse_value fuel' s = parse_value fuel s.
Proof.
  induction 1 as [|fuel' _ IH]; [done|]. intros H.
  destruct (parse_mono_S fuel') as [Hv _]. rewrite Hv; [now apply IH|]. now rewrite IH.
Qed.

(** ** [JSON_parse] *)

(** [JSON_parse] is the descent with any fuel that is enough. *)
Lemma JSON_parse_fuel (fuel : nat) (text : string) (v : json) (rest : string) :
  parse_value fuel (skip_ws text) = Parsed v rest ->
  parse_value (fuel_for text) (skip_ws text) = Parsed v rest.
Proof.
  intros H. destruct (parse_enough (fuel_for text)) as [Henough _].
  specialize (Henough (skip_ws text)). pose proof (skip_ws_length text).
  rewrite <- (parse_value_mono _ (fuel `max` fuel_for text));
    [|lia|apply Henough; unfold fuel_for; lia].
  rewrite (parse_value_mono fuel), H; [done|lia|now rewrite H].
Qed.


(** The only exception of [JSON_parse] is the [SyntaxError]. *)
Lemma JSON_parse_Throw (text : string) (e : exn) : JSON_parse text = Throw e -> e = SyntaxError.
Proof. unfold JSON_parse. repeat case_match; congruence. Qed.

(** [JSON_parse] answers what the descent answers with any fuel, when
    only white space is left. *)
Lemma JSON_parse_Ok (text : string) (v : json) :
  JSON_parse text = Ok v <->
  exists fuel rest, parse_value fuel (skip_ws text) = Parsed v rest /\ skip_ws rest = "".
Proof.
  split.
  - unfold JSON_parse. intros H. exists (fuel_for text).
    destruct (parse_value _ _) as [v' rest| |]; [|done|done]. exists rest.
    destruct (skip_ws rest); [|done]. by simplify_eq.
  - intros (fuel & rest & H%JSON_parse_fuel & Hrest). unfold JSON_parse.
    now rewrite H, Hrest.
Qed.

(** The descent of [JSON_parse] is never cut short. *)
Lemma JSON_parse_enough (text : string) :
  parse_value (fuel_for text) (skip_ws text) <> Fuel.
Proof.
  apply parse_enough. pose proof (skip_ws_length text). unfold fuel_for. lia.
Qed.

(** The text of a well-formed value parses to the value. *)
Lemma JSON_parse_stringify (v : json) : wf v = true -> JSON_parse (JSON_stringify v) = Ok v.
Proof.
  intros Hwf. apply JSON_parse_Ok. exists (json_size v), "".
  destruct (JSON_stringify_start v "") as (c & s & E & Hc).
  destruct (starts_value _ c s "]" E Hc) as [Hws _]. rewrite string_app_nil_r in Hws.
  rewrite Hws. split; [|done].
  rewrite <- (string_app_nil_r (JSON_stringify v)). now apply parse_value_stringify.
Qed.

(** ** What [JSON_parse] answers is well formed *)

(** A number that divides a power of ten divides the power of ten of
    its binary logarithm: a factor 2 or 5 at least halves it. *)
Lemma divide_10_pow (d : Z) (K : nat) :
  (0 < d)%Z -> (d | 10 ^ Z.of_nat K)%Z -> (d | 10 ^ Z.log2 d)%Z.
Proof.
  intros Hd. revert K. induction (Z.lt_wf 0 d) as [d _ IH]. intros K HK.
  destruct (decide (d = 1)%Z) as [->|Hne]; [now exists 1%Z|].
  assert (Hp : exists p, (p = 2 \/ p = 5)%Z /\ (p | d)%Z).
  { destruct (decide (Z.gcd d 10 = 1)%Z) as [Hg|Hg].
    - exfalso. apply Hne. clear IH Hne. induction K as [|K IHK].
      + apply Z.divide_1_r_nonneg in HK; lia.
      + apply IHK. rewrite Nat2Z.inj_succ, Z.pow_succ_r in HK by lia.
        now apply (Z.gauss d 10).
    - pose proof (Z.gcd_divide_l d 10) as Hl. pose proof (Z.gcd_divide_r d 10) as Hr.
      pose proof (Z.gcd_nonneg d 10) as H0.
      assert (Hle : (Z.gcd d 10 <= 10)%Z) by (apply Z.divide_pos_le; [lia|done]).
      assert (Z.gcd d 10 <> 0)%Z by (intros E; rewrite E in Hr; destruct Hr; lia).
      set (g := Z.gcd d 10) in *.
      assert (Hcases : (g = 2 \/ g = 5 \/ g = 10)%Z).
      { destruct Hr as [c Hc].
        assert (g = 1 \/ g = 2 \/ g = 3 \/ g = 4 \/ g = 5 \/ g = 6 \/ g = 7 \/ g = 8
                \/ g = 9 \/ g = 10)%Z as Hg10 by lia.
        repeat (destruct Hg10 as [E|Hg10]; [rewrite E in Hc; lia|]). lia. }
      destruct Hcases as [E|[E|E]]; rewrite E in Hl.
      + exists 2%Z. auto.
      + exists 5%Z. auto.
      + exists 2%Z. split; [auto|]. etransitivity; [|exact Hl]. now exists 5%Z. }
  destruct Hp as (p & Hp & [d' Hd']).
  assert (Hd'pos : (0 < d')%Z) by nia.
  assert (Hlt : (d' < d)%Z) by nia.
  assert (Hdiv' : (d' | 10 ^ Z.of_nat K)%Z).
  { etransitivity; [|exact HK]. exists p. lia. }
  specialize (IH d' ltac:(lia) Hd'pos K Hdiv').
  assert (Hlog : (Z.log2 d' + 1 <= Z.log2 d)%Z).
  { rewrite Z.add_1_r, <- Z.log2_double by lia. apply Z.log2_le_mono. nia. }
  assert (Hstep : (d | 10 ^ (Z.log2 d' + 1))%Z).
  { destruct IH as [c Hc]. pose proof (Z.log2_nonneg d').
    rewrite Z.pow_add_r, Hc, Hd' by lia.
    destruct Hp as [-> | ->]; [exists (c * 5)%Z | exists (c * 2)%Z]; lia. }
  pose proof (Z.log2_nonneg d'). destruct Hstep as [c Hc].
  remember (Z.log2 d) as L. remember (Z.log2 d' + 1)%Z as n.
  exists (c * 10 ^ (L - n))%Z.
  replace L with (n + (L - n))%Z at 1 by lia. rewrite Z.pow_add_r, Hc by lia. ring.
Qed.

Lemma places_from_is_Some (fuel k : nat) (den : Z) (K : nat) :
  (k <= K < k + fuel)%nat -> (10 ^ Z.of_nat K mod den = 0)%Z ->
  is_Some (places_from fuel k den).
Proof.
  revert k. induction fuel as [|fuel IH]; intros k HK Hden; [lia|]. cbn.
  case_decide as Hk; [done|]. apply IH; [|done].
  destruct (decide (k = K)) as [->|]; [done|lia].
Qed.

(** The fractions a decimal writes out are those whose denominator, in
    lowest terms, divides a power of ten. *)
Lemma decimal_places_is_Some (q : Q) :
  is_Some (decimal_places q) <-> exists K : nat, (Z.pos (Qden (Qred q)) | 10 ^ Z.of_nat K)%Z.
Proof.
  unfold decimal_places. split.
  - intros [k Hk]. exists k. apply places_from_Some in Hk. now apply Z.mod_divide in Hk.
  - intros [K HK]. apply divide_10_pow in HK; [|done].
    pose proof (Z.log2_nonneg (Z.pos (Qden (Qred q)))).
    apply (places_from_is_Some _ _ _ (Z.to_nat (Z.log2 (Z.pos (Qden (Qred q)))))); [lia|].
    rewrite Z2Nat.id by done. now apply Z.mod_divide.
Qed.

Lemma Qden_Qred_divide (a : Z) (p : positive) : (Z.pos (Qden (Qred (a # p))) | Z.pos p)%Z.
Proof.
  unfold Qred. pose proof (Z.ggcd_correct_divisors a (Z.pos p)) as H.
  pose proof (Z.ggcd_gcd a (Z.pos p)) as Hg. pose proof (Z.gcd_nonneg a (Z.pos p)).
  destruct (Z.ggcd a (Z.pos p)) as [g [r1 r2]]. cbn in *. destruct H as [_ H].
  exists g. rewrite Z2Pos.id by nia. lia.
Qed.

(** A fraction over a power of ten is a decimal, whatever it is reduced
    to. *)
Lemma decimal_over_pow10 (x : Q) (N K : Z) :
  (0 <= K)%Z -> x == inject_Z N / inject_Z (10 ^ K) ->
  Qred (Qred x) = Qred x /\ is_Some (decimal_places (Qred x)).
Proof.
  intros HK Hx. split; [apply Qred_complete, Qred_correct|].
  assert (HP : (0 < 10 ^ K)%Z) by (apply Z.pow_pos_nonneg; lia).
  rewrite decimal_places_Qred. apply decimal_places_is_Some. exists (Z.to_nat K).
  rewrite (Qred_complete x (N # Z.to_pos (10 ^ K))).
  - rewrite Z2Nat.id by done. rewrite <- (Z2Pos.id (10 ^ K)) at 2 by done.
    apply Qden_Qred_divide.
  - rewrite Hx, (Qmake_Qdiv N). now rewrite Z2Pos.id.
Qed.

Lemma inject_Z_pow10_nonzero (K : Z) : (0 <= K)%Z -> ~ inject_Z (10 ^ K) == 0.
Proof.
  intros HK H. apply (inject_Z_injective (10 ^ K) 0) in H.
  pose proof (Z.pow_pos_nonneg 10 K). lia.
Qed.

(** The number of a literal is a fraction over a power of ten. *)
Lemma number_value_over_pow10 (neg : bool) (i f : Z) (k : nat) (e : Z) :
  exists x N K, (0 <= K)%Z /\ x == inject_Z N / inject_Z (10 ^ K) /\
                number_value neg i f k e = Qred x.
Proof.
  unfold number_value.
  pose proof (inject_Z_pow10_nonzero (Z.of_nat k) ltac:(lia)) as HP.
  case_decide as He; eexists.
  - exists ((if neg then -1 else 1) * (i * 10 ^ Z.of_nat k + f) * 10 ^ e)%Z, (Z.of_nat k).
    split_and!; [lia| |reflexivity].
    rewrite !inject_Z_mult, inject_Z_plus, inject_Z_mult. destruct neg; field; done.
  - exists ((if neg then -1 else 1) * (i * 10 ^ Z.of_nat k + f))%Z, (Z.of_nat k + - e)%Z.
    pose proof (inject_Z_pow10_nonzero (- e) ltac:(lia)) as HE.
    split_and!; [lia| |reflexivity].
    rewrite Z.pow_add_r by lia.
    rewrite !inject_Z_mult, inject_Z_plus, inject_Z_mult. destruct neg; field; done.
Qed.

Lemma number_value_wf (neg : bool) (i f : Z) (k : nat) (e : Z) :
  wf (JNum (number_value neg i f k e)) = true.
Proof.
  destruct (number_value_over_pow10 neg i f k e) as (x & N & K & HK & Hx & ->).
  destruct (decimal_over_pow10 x N K HK Hx) as [Hred Hdec]. cbn.
  now rewrite !bool_decide_eq_true_2.
Qed.

Lemma parse_number_wf (s : string) (q : Q) (r : string) :
  parse_number s = Some (q, r) -> wf (JNum q) = true.
Proof.
  unfold parse_number. destruct (lex_sign s) as [neg s1].
  intros ([i s2] & _ & ([[f k] s3] & _ & ([e s4] & _ & [= <- _])%bind_Some)%bind_Some)%bind_Some.
  apply number_value_wf.
Qed.

(** A member added to an object with no key twice leaves no key
    twice. *)
Lemma obj_set_keys (acc : list (string * json)) (k : string) (v : json) :
  (obj_set acc k v).*1 = if decide (k ∈ acc.*1) then acc.*1 else (acc.*1 ++ [k])%list.
Proof.
  induction acc as [|[k' v'] acc IH]; [done|]. cbn [obj_set].
  destruct (decide (k' = k)) as [->|E]; cbn.
  - now rewrite decide_True by (apply elem_of_cons; auto).
  - rewrite IH. destruct (decide (k ∈ acc.*1)) as [Hin|Hin].
    + now rewrite decide_True by (apply elem_of_cons; auto).
    + rewrite decide_False; [done|]. rewrite elem_of_cons. now intros [->|?].
Qed.

Lemma wf_JObj (fields : list (string * json)) :
  wf (JObj fields)
  = bool_decide (NoDup fields.*1) && forallb (fun '(_, x) => wf x) fields.
Proof. reflexivity. Qed.

Lemma obj_set_wf (acc : list (string * json)) (k : string) (v : json) :
  wf (JObj acc) = true -> wf v = true -> wf (JObj (obj_set acc k v)) = true.
Proof.
  rewrite !wf_JObj. intros [Hdup%bool_decide_eq_true Hall]%andb_prop Hv.
  apply andb_true_intro. split.
  - apply bool_decide_eq_true. rewrite obj_set_keys. case_decide; [done|].
    apply NoDup_app. split_and!; [done | | apply NoDup_singleton].
    now intros x Hx ->%list_elem_of_singleton.
  - clear Hdup. induction acc as [|[k' v'] acc IH]; cbn in *; [now rewrite Hv|].
    apply andb_prop in Hall as [Hv' Hall].
    destruct (decide (k' = k)); cbn; rewrite ?Hv, ?Hv', ?IH; done.
Qed.

Lemma forallb_rev {A : Type} (f : A -> bool) (l : list A) :
  forallb f (rev l) = forallb f l.
Proof.
  induction l as [|x l IH]; [done|]. cbn. rewrite forallb_app, IH. cbn.
  now rewrite andb_true_r, andb_comm.
Qed.

Lemma wf_JArr (items : list json) : wf (JArr items) = forallb wf items.
Proof. reflexivity. Qed.

(** Every value a parser answers is well formed: its numbers are decimal
    fractions in lowest terms, its objects have no key twice. *)
Lemma parse_wf (fuel : nat) :
  (forall s v r, parse_value fuel s = Parsed v r -> wf v = true) /\
  (forall s acc v r,
     forallb wf acc = true -> parse_elements fuel s acc = Parsed v r -> wf v = true) /\
  (forall s acc v r,
     wf (JObj acc) = true -> parse_members fuel s acc = Parsed v r -> wf v = true).
Proof.
  induction fuel as [|fuel (IHv & IHe & IHm)]; [done|]. split_and!.
  - intros [|c s] v r; [done|]. rewrite parse_value_S.
    repeat case_match; try done; try (intros [= <- _]; done).
    + now apply IHe.
    + now apply IHm.
    + intros [= <- _]. eapply parse_number_wf. eassumption.
  - intros s acc v r Hacc. rewrite parse_elements_S.
    repeat case_match; try done;
      match goal with H : parse_value _ _ = _ |- _ => apply IHv in H end.
    + apply IHe. cbn. now rewrite Hacc, andb_true_r.
    + intros [= <- _]. rewrite wf_JArr. cbn [rev]. rewrite forallb_app, forallb_rev. cbn.
      now rewrite Hacc, andb_true_r.
  - intros s acc v r Hacc. rewrite parse_members_S.
    repeat case_match; try done;
      match goal with H : parse_value _ _ = _ |- _ => apply IHv in H end.
    + apply IHm. now apply obj_set_wf.
    + intros [= <- _]. now apply obj_set_wf.
Qed.

(** [JSON_parse] answers well-formed values only, and every well-formed
    value is one that it answers. *)
Lemma JSON_parse_wf (v : json) : wf v = true <-> exists text, JSON_parse text = Ok v.
Proof.
  split; [intros H; exists (JSON_stringify v); now apply JSON_parse_stringify|].
  intros (text & (fuel & rest & H & _)%JSON_parse_Ok).
  destruct (parse_wf fuel) as [Hwf _]. now apply Hwf in H.
Qed.

(** The text of what was parsed parses to the same value: printing
    after parsing puts a text in a normal form. *)
Lemma JSON_parse_normal (text : string) (v : json) :
  JSON_parse text = Ok v -> JSON_parse (JSON_stringify v) = Ok v.
Proof. intros H. apply JSON_parse_stringify, JSON_parse_wf. eauto. Qed.
