(* ===== verification/IsoDate.v ===== *)
(** * IsoDate: the date-time strings of the resolve request

    [src/services/geminiService.ts] asks the model for the birth time as
    [YYYY-MM-DDTHH:mm:ss.sssZ] (line 51) and hands the string to [new
    Date] (lines 149, 163, 164).  For a string of the format of the
    language the time value is fixed: the day number of the date in the
    proleptic Gregorian calendar, counted from 1 January 1970, times the
    milliseconds of a day, plus the time within the day.  [iso_time]
    reads the form the request asks for; [es_time] reads every form of
    the format (a date alone, a time without seconds or milliseconds, an
    offset from UTC, a year of six digits) and keeps to the time values
    of the language; what [new Date] makes of any other string is left
    to the runtime.  [toISOString] is the way back, the string the
    language itself writes for a time value.

    The theorems: the day number counts days (the day after a date has
    the next number, through the ends of months and years, leap years
    included); a string that [iso_time] reads has the 24 characters of
    the format, is the print of a date of the calendar and a time of the
    day, and is read by [es_time] with the same time value; the date of
    a day number is a date of the calendar with that day number;
    [iso_time] reads what [toISOString] writes between the years 0 and
    9999 and [es_time] on every time value of the language, so the
    format asked for loses nothing of an instant. *)

From Stdlib Require Import ZArith Lia Ascii.
From stdpp Require Import base tactics decidable option list strings.
From S2P Require Import Prelude Json.

#[local] Open Scope string_scope.
#[local] Open Scope Z_scope.

(** ** The calendar *)

Definition is_leap (y : Z) : bool :=
  bool_decide (y mod 4 = 0) && (negb (bool_decide (y mod 100 = 0)) || bool_decide (y mod 400 = 0)).

Definition days_in_month (y m : Z) : Z :=
  if decide (m = 2) then (if is_leap y then 29 else 28)
  else if decide (m = 4 \/ m = 6 \/ m = 9 \/ m = 11) then 30
  else 31.

(** The day number of a date: the days from 1 January 1970 to the day
    [d] of the month [m] of the year [y].  The year is counted from
    March, so that the leap day is its last day. *)
Definition days_from_civil (y m d : Z) : Z :=
  let y' := if decide (m <= 2) then y - 1 else y in
  let era := y' / 400 in
  let yoe := y' - era * 400 in
  let mp := if decide (2 < m) then m - 3 else m + 9 in
  let doy := (153 * mp + 2) / 5 + d - 1 in
  let doe := yoe * 365 + yoe / 4 - yoe / 100 + doy in
  era * 146097 + doe - 719468.

Definition msPerDay : Z := 86400000.

(** The time value of a date and a time of day, in milliseconds. *)
Definition time_value (y m d h mi s ms : Z) : Z :=
  days_from_civil y m d * msPerDay + h * 3600000 + mi * 60000 + s * 1000 + ms.

Definition valid_date (y m d : Z) : Prop :=
  1 <= m <= 12 /\ 1 <= d <= days_in_month y m.

#[global] Instance valid_date_dec (y m d : Z) : Decision (valid_date y m d).
Proof. unfold valid_date. apply _. Defined.

Definition valid_time (h mi s : Z) : Prop := h <= 23 /\ mi <= 59 /\ s <= 59.

#[global] Instance valid_time_dec (h mi s : Z) : Decision (valid_time h mi s).
Proof. unfold valid_time. apply _. Defined.

(** The date of the next day. *)
Definition next_day (y m d : Z) : Z * Z * Z :=
  if decide (d < days_in_month y m) then (y, m, d + 1)
  else if decide (m < 12) then (y, m + 1, 1)
  else (y + 1, 1, 1).

(** ** The format *)

(** Exactly [n] digits, read on top of [acc]. *)
Fixpoint read_digits (n : nat) (s : string) (acc : Z) : option (Z * string) :=
  match n with
  | O => Some (acc, s)
  | S n' =>
      match s with
      | String c s' => d ← digit_of c; read_digits n' s' (acc * 10 + d)
      | EmptyString => None
      end
  end.

(** [YYYY-MM-DDTHH:mm:ss.sssZ], with a date of the calendar and a time
    of the day. *)
Definition iso_time (s : string) : option Z :=
  '(y, s) ← read_digits 4 s 0; s ← strip_prefix "-" s;
  '(m, s) ← read_digits 2 s 0; s ← strip_prefix "-" s;
  '(d, s) ← read_digits 2 s 0; s ← strip_prefix "T" s;
  '(h, s) ← read_digits 2 s 0; s ← strip_prefix ":" s;
  '(mi, s) ← read_digits 2 s 0; s ← strip_prefix ":" s;
  '(sec, s) ← read_digits 2 s 0; s ← strip_prefix "." s;
  '(ms, s) ← read_digits 3 s 0; s ← strip_prefix "Z" s;
  if decide (s = "" /\ valid_date y m d /\ valid_time h mi sec)
  then Some (time_value y m d h mi sec ms)
  else None.

(** ** The other forms of the format

    The format of the language has shorter forms: a date alone ([YYYY],
    [YYYY-MM] or [YYYY-MM-DD], read as UTC), and a date followed by [T]
    and a time ([HH:mm], [HH:mm:ss] or [HH:mm:ss.sss]) and by [Z] or an
    offset [+HH:mm] or [-HH:mm]; the year has four digits, or a sign and
    six; [24:00] is the midnight that ends the day.  A date and a time
    without an offset are local time, which the language leaves to the
    host: they are not read here. *)

(** The year: four digits, or a sign and six digits; [-000000] is not a
    year. *)
Definition read_year (s : string) : option (Z * string) :=
  match s with
  | String "+" s' => read_digits 6 s' 0
  | String "-" s' =>
      '(y, r) ← read_digits 6 s' 0; if decide (y = 0) then None else Some (- y, r)
  | _ => read_digits 4 s 0
  end.

(** A separator and [n] digits. *)
Definition read_field (sep : string) (n : nat) (s : string) : option (Z * string) :=
  s' ← strip_prefix sep s; read_digits n s' 0.

(** The date: the month and the day are 1 where they are left out. *)
Definition read_date (s : string) : option (Z * Z * Z * string) :=
  '(y, s) ← read_year s;
  match read_field "-" 2 s with
  | None => Some (y, 1, 1, s)
  | Some (m, s) =>
      match read_field "-" 2 s with
      | None => Some (y, m, 1, s)
      | Some (d, s) => Some (y, m, d, s)
      end
  end.

(** The time of day: the seconds and the milliseconds are 0 where they
    are left out. *)
Definition read_time (s : string) : option (Z * Z * Z * Z * string) :=
  '(h, s) ← read_digits 2 s 0; '(mi, s) ← read_field ":" 2 s;
  match read_field ":" 2 s with
  | None => Some (h, mi, 0, 0, s)
  | Some (sec, s) =>
      match read_field "." 3 s with
      | None => Some (h, mi, sec, 0, s)
      | Some (ms, s) => Some (h, mi, sec, ms, s)
      end
  end.

(** The offset from UTC in minutes, to the end of the string. *)
Definition read_offset (s : string) : option Z :=
  match s with
  | "Z" => Some 0
  | String c s' =>
      sign ← (if decide (c = "+"%char) then Some 1
              else if decide (c = "-"%char) then Some (-1) else None);
      '(h, s) ← read_digits 2 s' 0; '(mi, s) ← read_field ":" 2 s;
      if decide (s = "" /\ h <= 23 /\ mi <= 59) then Some (sign * (h * 60 + mi)) else None
  | "" => None
  end.

(** The time values of the language are those of 100 million days on
    either side of 1 January 1970. *)
Definition maxTime : Z := 8640000000000000.

Definition TimeClip (t : Z) : option Z :=
  if decide (Z.abs t <= maxTime) then Some t else None.

(** The time value of a string of the format of the language. *)
Definition es_time (s : string) : option Z :=
  '(y, m, d, s) ← read_date s;
  if decide (valid_date y m d) then
    match s with
    | "" => TimeClip (time_value y m d 0 0 0 0)
    | String "T" s =>
        '(h, mi, sec, ms, s) ← read_time s; off ← read_offset s;
        if decide (valid_time h mi sec \/ (h = 24 /\ mi = 0 /\ sec = 0 /\ ms = 0))
        then TimeClip (time_value y m d h mi sec ms - off * 60000)
        else None
    | _ => None
    end
  else None.

(** ** The date of a day number

    The inverse of [days_from_civil]: the year, the month and the day of
    the day [z] days from 1 January 1970 (the [YearFromTime],
    [MonthFromTime] and [DateFromTime] of the language, on a day number). *)
Definition civil_from_days (z : Z) : Z * Z * Z :=
  let z := z + 719468 in
  let era := z / 146097 in
  let doe := z - era * 146097 in
  let yoe := (doe - doe / 1460 + doe / 36524 - doe / 146096) / 365 in
  let doy := doe - (365 * yoe + yoe / 4 - yoe / 100) in
  let mp := (5 * doy + 2) / 153 in
  let d := doy - (153 * mp + 2) / 5 + 1 in
  let m := if decide (mp < 10) then mp + 3 else mp - 9 in
  (if decide (m <= 2) then yoe + era * 400 + 1 else yoe + era * 400, m, d).

(** ** Printing *)

(** The decimal digit [d]. *)
Definition digit_char (d : Z) : ascii := ascii_of_nat (48 + Z.to_nat d).

(** The last [n] decimal digits of [v], the most significant first. *)
Fixpoint print_digits (n : nat) (v : Z) : string :=
  match n with
  | O => ""
  | S n' => String (digit_char (v / 10 ^ Z.of_nat n' mod 10)) (print_digits n' v)
  end.

(** The year of [toISOString]: four digits, or a sign and six digits
    outside the years 0 to 9999. *)
Definition print_year (y : Z) : string :=
  if decide (0 <= y <= 9999) then print_digits 4 y
  else (if decide (y < 0) then "-" else "+") +:+ print_digits 6 (Z.abs y).

(** [Date.prototype.toISOString] of a date with the time value [t]. *)
Definition toISOString (t : Z) : string :=
  let '(y, m, d) := civil_from_days (t / msPerDay) in
  let r := t mod msPerDay in
  print_year y +:+ "-" +:+ print_digits 2 m +:+ "-" +:+ print_digits 2 d
  +:+ "T" +:+ print_digits 2 (r / 3600000) +:+ ":" +:+ print_digits 2 (r / 60000 mod 60)
  +:+ ":" +:+ print_digits 2 (r / 1000 mod 60) +:+ "." +:+ print_digits 3 (r mod 1000)
  +:+ "Z".

(** ** The day number counts days *)

Lemma is_leap_spec (y : Z) :
  is_leap y = true <-> y mod 4 = 0 /\ (y mod 100 <> 0 \/ y mod 400 = 0).
Proof.
  unfold is_leap. rewrite andb_true_iff, orb_true_iff, negb_true_iff.
  rewrite !bool_decide_eq_true, bool_decide_eq_false. done.
Qed.

Lemma days_from_civil_epoch : days_from_civil 1970 1 1 = 0.
Proof. reflexivity. Qed.

(** The day after a date has the next day number. *)
Lemma days_from_civil_next (y m d : Z) :
  valid_date y m d ->
  let '(y', m', d') := next_day y m d in
  valid_date y' m' d' /\ days_from_civil y' m' d' = days_from_civil y m d + 1.
Proof.
  intros [Hm Hd]. unfold next_day. case_decide as Hlt.
  { split; [split; lia|]. unfold days_from_civil. lia. }
  assert (Hlast : d = days_in_month y m) by lia. clear Hlt Hd.
  assert (m = 1 \/ m = 2 \/ m = 3 \/ m = 4 \/ m = 5 \/ m = 6 \/ m = 7 \/ m = 8 \/ m = 9
          \/ m = 10 \/ m = 11 \/ m = 12) as Hcases by lia.
  assert (Hleap : is_leap y = true \/ is_leap y = false) by (destruct (is_leap y); auto).
  destruct Hleap as [Hl|Hl]; pose proof (is_leap_spec y) as Hs; rewrite Hl in Hs;
    [destruct Hs as [Hs _]; specialize (Hs eq_refl)
    |assert (~ (y mod 4 = 0 /\ (y mod 100 <> 0 \/ y mod 400 = 0))) as Hs'
       by (intros H; apply Hs in H; discriminate); clear Hs].
  all: unfold valid_date, days_from_civil, days_in_month in *; rewrite ?Hl in *.
  all: repeat (destruct Hcases as [->|Hcases]); try subst m.
  all: repeat (case_decide; try lia).
  all: subst d; rewrite ?Hl.
  all: split; [lia|].
  all: Z.div_mod_to_equations; lia.
Qed.

(** The day [n] days after a date. *)
Fixpoint days_after (n : nat) (y m d : Z) : Z * Z * Z :=
  match n with
  | O => (y, m, d)
  | S n' => let '(y', m', d') := days_after n' y m d in next_day y' m' d'
  end.

(** The day number of the day [n] days after a date is [n] more than
    that of the date. *)
Lemma days_from_civil_after (n : nat) (y m d : Z) :
  valid_date y m d ->
  let '(y', m', d') := days_after n y m d in
  valid_date y' m' d' /\ days_from_civil y' m' d' = days_from_civil y m d + Z.of_nat n.
Proof.
  intros Hv. induction n as [|n IH]; cbn [days_after]; [split; [done|lia]|].
  destruct (days_after n y m d) as [[y' m'] d']. destruct IH as [Hv' E].
  pose proof (days_from_civil_next y' m' d' Hv') as Hn.
  destruct (next_day y' m' d') as [[y'' m''] d'']. destruct Hn as [? ->]. split; [done|lia].
Qed.

(** ** What is read *)

Lemma read_digits_spec (n : nat) (s : string) (acc v : Z) (r : string) :
  read_digits n s acc = Some (v, r) ->
  acc * 10 ^ Z.of_nat n <= v < (acc + 1) * 10 ^ Z.of_nat n /\
  String.length s = (n + String.length r)%nat.
Proof.
  revert s acc. induction n as [|n IH]; intros s acc; cbn [read_digits].
  { intros [= <- <-]. split; [cbn; lia | done]. }
  destruct s as [|c s]; [done|]. unfold digit_of.
  case_decide as Hc; [|done]. cbn [mbind option_bind].
  intros [Hv Hlen]%IH. split; [|cbn; lia].
  rewrite Nat2Z.inj_succ, Z.pow_succ_r by lia. nia.
Qed.

(** What is stripped and what is read are what is printed. *)
Lemma strip_prefix_Some (p s rest : string) : strip_prefix p s = Some rest -> s = p +:+ rest.
Proof.
  revert s. induction p as [|a p IH]; intros [|b s]; cbn [strip_prefix]; try done.
  - now intros [= <-].
  - now intros [= <-].
  - case_decide as E; [|done]. intros ->%IH. now rewrite E.
Qed.

Lemma digit_of_inv (c : ascii) (d : Z) : digit_of c = Some d -> c = digit_char d /\ 0 <= d <= 9.
Proof.
  unfold digit_of, digit_char. case_decide as H; [|done]. intros [= <-]. split; [|lia].
  replace (48 + Z.to_nat (Z.of_nat (nat_of_ascii c) - 48))%nat with (nat_of_ascii c) by lia.
  now rewrite ascii_nat_embedding.
Qed.

Lemma read_digits_inv (n : nat) (s : string) (acc v : Z) (rest : string) :
  0 <= acc -> read_digits n s acc = Some (v, rest) -> s = print_digits n v +:+ rest.
Proof.
  revert s acc. induction n as [|n IH]; intros s acc Hacc; cbn [read_digits print_digits].
  { now intros [= _ <-]. }
  destruct s as [|c s]; [done|]. intros (d & [-> Hd]%digit_of_inv & H)%bind_Some.
  pose proof (read_digits_spec _ _ _ _ _ H) as [Hv _].
  rewrite (IH s (acc * 10 + d) ltac:(lia) H) at 1. rewrite string_app_cons. do 2 f_equal.
  assert (0 < 10 ^ Z.of_nat n) as Hp by (apply Z.pow_pos_nonneg; lia).
  pose proof (Z.div_le_lower_bound v _ (acc * 10 + d) Hp).
  pose proof (Z.div_lt_upper_bound v _ (acc * 10 + d + 1) Hp).
  assert (v / 10 ^ Z.of_nat n = acc * 10 + d) as -> by lia.
  Z.div_mod_to_equations; lia.
Qed.

(** A string that is read has the 24 characters of the format, and its
    time value is that of a date of the calendar and a time of the day. *)
Lemma iso_time_Some (s : string) (t : Z) :
  iso_time s = Some t ->
  String.length s = 24%nat /\
  exists y m d h mi sec ms,
    valid_date y m d /\ 0 <= h <= 23 /\ 0 <= mi <= 59 /\ 0 <= sec <= 59 /\ 0 <= ms <= 999 /\
    t = time_value y m d h mi sec ms.
Proof.
  unfold iso_time. intros H.
  repeat match type of H with
    | (_ ≫= _) = Some _ => apply bind_Some in H as (? & ? & H)
    | (let '(_, _) := ?p in _) = Some _ => destruct p
    end.
  case_decide as Hv; [|done]. destruct Hv as (-> & Hd & Hh & Hmi & Hs). injection H as <-.
  repeat match goal with
    | H : read_digits _ _ _ = Some _ |- _ => apply read_digits_spec in H as [? ?]
    | H : strip_prefix _ _ = Some _ |- _ => apply strip_prefix_length in H
    end.
  cbn [String.length] in *. split; [lia|].
  do 7 eexists. split; [exact Hd|]. do 4 (split; [shelve|]). reflexivity.
  Unshelve. all: unfold valid_time in *; change (10 ^ Z.of_nat 2) with 100 in *;
    change (10 ^ Z.of_nat 3) with 1000 in *; lia.
Qed.

(** ** The date of a day number is its date *)

(** The year of the era and the day of the year of a day of the era of
    400 years; the last day of a year that has 366 is a leap day. *)
Lemma year_of_era_spec (doe : Z) :
  0 <= doe < 146097 ->
  let yoe := (doe - doe / 1460 + doe / 36524 - doe / 146096) / 365 in
  let doy := doe - (365 * yoe + yoe / 4 - yoe / 100) in
  0 <= yoe <= 399 /\ 0 <= doy /\ doy <= 365 /\
  (doy = 365 -> (yoe + 1) mod 4 = 0 /\ ((yoe + 1) mod 100 <> 0 \/ yoe = 399)).
Proof.
  intros H. cbv zeta. Z.div_mod_to_equations; lia.
Qed.

(** The month and the day of a day of the year that starts in March. *)
Lemma month_day_spec (doy : Z) :
  0 <= doy <= 365 ->
  let mp := (5 * doy + 2) / 153 in
  let d := doy - (153 * mp + 2) / 5 + 1 in
  0 <= mp <= 11 /\ 1 <= d /\
  d <= (if decide (mp = 11) then (if decide (doy = 365) then 29 else 28)
        else if decide (mp = 1 \/ mp = 3 \/ mp = 6 \/ mp = 8) then 30 else 31).
Proof. intros H. cbv zeta. repeat case_decide; Z.div_mod_to_equations; lia. Qed.

(** [civil_from_days] is the date of the day number. *)
Lemma civil_from_days_spec (z : Z) :
  let '(y, m, d) := civil_from_days z in
  valid_date y m d /\ days_from_civil y m d = z.
Proof.
  unfold civil_from_days.
  set (era := (z + 719468) / 146097). set (doe := z + 719468 - era * 146097).
  assert (Hdoe : 0 <= doe < 146097) by (subst doe era; Z.div_mod_to_equations; lia).
  pose proof (year_of_era_spec doe Hdoe) as H. cbv zeta in H.
  set (yoe := (doe - doe / 1460 + doe / 36524 - doe / 146096) / 365) in *.
  set (doy := doe - (365 * yoe + yoe / 4 - yoe / 100)) in *.
  destruct H as (Hyoe & Hdoy0 & Hdoy1 & Hleap).
  pose proof (month_day_spec doy (conj Hdoy0 Hdoy1)) as H. cbv zeta in H.
  set (mp := (5 * doy + 2) / 153) in *.
  set (d := doy - (153 * mp + 2) / 5 + 1) in *.
  destruct H as (Hmp & Hd1 & Hd2).
  assert (Hera : (yoe + era * 400) / 400 = era) by (Z.div_mod_to_equations; lia).
  split.
  - unfold valid_date, days_in_month.
    destruct (decide (mp < 10)) as [Hlt|Hge].
    + clear Hleap. split; [lia|]. split; [done|]. repeat case_decide; lia.
    + split; [lia|]. split; [done|].
      destruct (decide (doy = 365)) as [Hlast|Hnot];
        [|clear Hleap; repeat case_decide; try lia; destruct (is_leap _); lia].
      assert (Hfeb : mp = 11) by (subst mp; now rewrite Hlast).
      rewrite Hfeb in Hd2 |- *. repeat case_decide; try lia.
      replace (is_leap (yoe + era * 400 + 1)) with true; [done|].
      symmetry. apply is_leap_spec. destruct (Hleap Hlast) as [H4 H100].
      clear -H4 H100 Hyoe. Z.div_mod_to_equations; lia.
  - unfold days_from_civil.
    assert (Hy : (if decide ((if decide (mp < 10) then mp + 3 else mp - 9) <= 2)
                  then (if decide ((if decide (mp < 10) then mp + 3 else mp - 9) <= 2)
                        then yoe + era * 400 + 1 else yoe + era * 400) - 1
                  else (if decide ((if decide (mp < 10) then mp + 3 else mp - 9) <= 2)
                        then yoe + era * 400 + 1 else yoe + era * 400))
                 = yoe + era * 400) by (repeat case_decide; lia).
    rewrite Hy, Hera.
    assert (Hm : (if decide (2 < (if decide (mp < 10) then mp + 3 else mp - 9))
                  then (if decide (mp < 10) then mp + 3 else mp - 9) - 3
                  else (if decide (mp < 10) then mp + 3 else mp - 9) + 9) = mp)
      by (repeat case_decide; lia).
    rewrite Hm. replace (yoe + era * 400 - era * 400) with yoe by lia.
    subst d doy doe. lia.
Qed.

(** ** What is printed is read back *)

Lemma digit_of_char (d : Z) : 0 <= d <= 9 -> digit_of (digit_char d) = Some d.
Proof.
  intros H. assert (d = 0 \/ d = 1 \/ d = 2 \/ d = 3 \/ d = 4 \/ d = 5 \/ d = 6 \/ d = 7
                    \/ d = 8 \/ d = 9) as Hd by lia.
  repeat (destruct Hd as [->|Hd]); try subst d; reflexivity.
Qed.

(** What is printed is read back. *)
Lemma read_digits_print (n : nat) (v acc : Z) (rest : string) :
  0 <= v ->
  read_digits n (print_digits n v +:+ rest) acc
  = Some (acc * 10 ^ Z.of_nat n + v mod 10 ^ Z.of_nat n, rest).
Proof.
  intros Hv. revert acc. induction n as [|n IH]; intros acc.
  { cbn. rewrite Z.mod_1_r. do 2 f_equal. lia. }
  cbn [print_digits read_digits]. rewrite string_app_cons.
  rewrite digit_of_char
    by (pose proof (Z.mod_pos_bound (v / 10 ^ Z.of_nat n) 10); lia).
  cbn [mbind option_bind]. rewrite IH. do 2 f_equal.
  rewrite Nat2Z.inj_succ, Z.pow_succ_r by lia.
  rewrite (Z.mul_comm 10), Z.rem_mul_r by lia. lia.
Qed.

Lemma read_digits_print_small (n : nat) (v : Z) (rest : string) :
  0 <= v < 10 ^ Z.of_nat n ->
  read_digits n (print_digits n v +:+ rest) 0 = Some (v, rest).
Proof. intros H. now rewrite read_digits_print, Z.mod_small by lia. Qed.

Lemma strip_prefix_app (p rest : string) : strip_prefix p (p +:+ rest) = Some rest.
Proof.
  induction p as [|c p IH]; [done|].
  rewrite string_app_cons. cbn [strip_prefix]. now rewrite decide_True.
Qed.

(** A date and a time printed in the format are read back. *)
Lemma iso_time_print (y m d h mi sec ms : Z) :
  0 <= y <= 9999 -> valid_date y m d ->
  0 <= h <= 23 -> 0 <= mi <= 59 -> 0 <= sec <= 59 -> 0 <= ms <= 999 ->
  iso_time (print_digits 4 y +:+ "-" +:+ print_digits 2 m +:+ "-" +:+ print_digits 2 d
            +:+ "T" +:+ print_digits 2 h +:+ ":" +:+ print_digits 2 mi
            +:+ ":" +:+ print_digits 2 sec +:+ "." +:+ print_digits 3 ms +:+ "Z")
  = Some (time_value y m d h mi sec ms).
Proof.
  intros Hy Hd Hh Hmi Hs Hms. unfold iso_time.
  pose proof Hd as [Hm [Hd1 Hd2]].
  assert (d <= 31) by (unfold days_in_month in Hd2; repeat case_match; lia).
  repeat (first [rewrite read_digits_print_small by (cbn; lia) | rewrite strip_prefix_app];
          cbn [mbind option_bind]).
  cbn [strip_prefix]. rewrite decide_True by done. cbn [mbind option_bind].
  rewrite decide_True; [done|]. split_and!; [done..|]. unfold valid_time. lia.
Qed.

(** The day number of a date of the years 0 to 9999. *)
Lemma days_from_civil_year (y m d : Z) :
  valid_date y m d ->
  -719528 <= days_from_civil y m d < 2932897 -> 0 <= y <= 9999.
Proof.
  intros (Hm & Hd1 & Hd2).
  assert (d <= 31) by (unfold days_in_month in Hd2; repeat case_match; lia).
  unfold days_from_civil. repeat case_decide; Z.div_mod_to_equations; lia.
Qed.

(** [toISOString] is read back by [iso_time]: between the years 0 and
    9999 the format loses nothing of a time value. *)
Lemma toISOString_roundtrip (t : Z) :
  -62167219200000 <= t < 253402300800000 -> iso_time (toISOString t) = Some t.
Proof.
  intros Ht. unfold toISOString.
  pose proof (civil_from_days_spec (t / msPerDay)) as H.
  destruct (civil_from_days (t / msPerDay)) as [[y m] d]. destruct H as [Hv Hday].
  assert (Hy : 0 <= y <= 9999).
  { apply (days_from_civil_year y m d Hv). rewrite Hday. unfold msPerDay.
    Z.div_mod_to_equations; lia. }
  unfold print_year. rewrite decide_True by done.
  rewrite iso_time_print; try done; unfold msPerDay; try (Z.div_mod_to_equations; lia).
  f_equal. unfold time_value. rewrite Hday. unfold msPerDay. Z.div_mod_to_equations; lia.
Qed.

(** ** The other forms are read

    The year of four digits and the year [toISOString] writes are read
    by [read_year]; a string of the full format is read by [es_time] as
    by [iso_time]; and [es_time] reads what [toISOString] writes on
    every time value of the language, the years of six digits
    included. *)

Lemma read_year_digits (s : string) (y : Z) (rest : string) :
  read_digits 4 s 0 = Some (y, rest) -> read_year s = Some (y, rest).
Proof.
  destruct s as [|c s]; [done|]. intros H. pose proof H as (d & Hd & _)%bind_Some.
  destruct c as [[] [] [] [] [] [] [] []]; try discriminate Hd; exact H.
Qed.

Lemma read_year_print (y : Z) (rest : string) :
  -999999 <= y <= 999999 -> read_year (print_year y +:+ rest) = Some (y, rest).
Proof.
  intros Hy. unfold print_year. case_decide as H4.
  { apply read_year_digits, read_digits_print_small. cbn; lia. }
  case_decide as Hneg; rewrite !string_app_cons; change ("" +:+ ?x) with x; cbn [read_year].
  all: rewrite read_digits_print_small by (cbn; lia); cbn [mbind option_bind].
  - rewrite decide_False by lia. do 2 f_equal. lia.
  - do 2 f_equal. lia.
Qed.

Lemma read_field_print (sep : string) (n : nat) (v : Z) (rest : string) :
  0 <= v < 10 ^ Z.of_nat n ->
  read_field sep n (sep +:+ print_digits n v +:+ rest) = Some (v, rest).
Proof.
  intros H. unfold read_field. rewrite strip_prefix_app. cbn [mbind option_bind].
  now apply read_digits_print_small.
Qed.

Lemma valid_date_31 (y m d : Z) : valid_date y m d -> 1 <= m <= 12 /\ 1 <= d <= 31.
Proof.
  intros (Hm & Hd1 & Hd2). unfold days_in_month in Hd2. repeat case_match; lia.
Qed.

Lemma es_time_print (y m d h mi sec ms : Z) :
  -999999 <= y <= 999999 -> valid_date y m d ->
  0 <= h <= 23 -> 0 <= mi <= 59 -> 0 <= sec <= 59 -> 0 <= ms <= 999 ->
  Z.abs (time_value y m d h mi sec ms) <= maxTime ->
  es_time (print_year y +:+ "-" +:+ print_digits 2 m +:+ "-" +:+ print_digits 2 d
           +:+ "T" +:+ print_digits 2 h +:+ ":" +:+ print_digits 2 mi
           +:+ ":" +:+ print_digits 2 sec +:+ "." +:+ print_digits 3 ms +:+ "Z")
  = Some (time_value y m d h mi sec ms).
Proof.
  intros Hy Hd Hh Hmi Hs Hms Ht. pose proof (valid_date_31 _ _ _ Hd) as [? ?].
  unfold es_time, read_date. rewrite read_year_print by done. cbn [mbind option_bind].
  repeat (rewrite read_field_print by (cbn; lia); cbn [mbind option_bind]).
  rewrite decide_True by done.
  rewrite string_app_cons. change ("" +:+ ?x) with x. unfold read_time.
  rewrite read_digits_print_small by (cbn; lia). cbn [mbind option_bind].
  repeat (rewrite read_field_print by (cbn; lia); cbn [read_offset mbind option_bind]).
  rewrite decide_True by (left; unfold valid_time; lia).
  unfold TimeClip. rewrite Z.sub_0_r. now rewrite decide_True.
Qed.

(** The day numbers of the years 0 to 9999. *)
Lemma days_from_civil_bounds (y m d : Z) :
  0 <= y <= 9999 -> valid_date y m d -> -719528 <= days_from_civil y m d < 2932897.
Proof.
  intros Hy [? ?]%valid_date_31.
  unfold days_from_civil. repeat case_decide; Z.div_mod_to_equations; lia.
Qed.

(** The years of the time values of the language. *)
Lemma days_from_civil_year_clip (y m d : Z) :
  valid_date y m d ->
  -100000000 <= days_from_civil y m d <= 100000000 -> -271821 <= y <= 275760.
Proof.
  intros [? ?]%valid_date_31.
  unfold days_from_civil. repeat case_decide; Z.div_mod_to_equations; lia.
Qed.

(** What [iso_time] reads is the date and the time printed in the format. *)
Lemma iso_time_printed (s : string) (t : Z) :
  iso_time s = Some t ->
  exists y m d h mi sec ms,
    (0 <= y <= 9999 /\ valid_date y m d /\
     0 <= h <= 23 /\ 0 <= mi <= 59 /\ 0 <= sec <= 59 /\ 0 <= ms <= 999) /\
    t = time_value y m d h mi sec ms /\
    s = print_digits 4 y +:+ "-" +:+ print_digits 2 m +:+ "-" +:+ print_digits 2 d
        +:+ "T" +:+ print_digits 2 h +:+ ":" +:+ print_digits 2 mi
        +:+ ":" +:+ print_digits 2 sec +:+ "." +:+ print_digits 3 ms +:+ "Z".
Proof.
  unfold iso_time. intros H.
  repeat match type of H with
    | (_ ≫= _) = Some _ => apply bind_Some in H as (? & ? & H)
    | (let '(_, _) := ?p in _) = Some _ => destruct p
    end.
  case_decide as Hv; [|done]. destruct Hv as (-> & Hd & Hh & Hmi & Hs). injection H as <-.
  repeat match goal with
    | H : strip_prefix _ _ = Some _ |- _ => apply strip_prefix_Some in H as ->
    end.
  repeat match goal with
    | H : read_digits _ _ _ = Some _ |- _ =>
        pose proof (read_digits_spec _ _ _ _ _ H) as [? _];
        apply read_digits_inv in H as ->; [|done]
    end.
  do 7 eexists. split; [|split; reflexivity].
  unfold valid_time in *; change (10 ^ Z.of_nat 2) with 100 in *;
    change (10 ^ Z.of_nat 3) with 1000 in *; change (10 ^ Z.of_nat 4) with 10000 in *.
  split_and!; try done; lia.
Qed.

(** Every string [iso_time] reads is read by [es_time], with the same
    time value. *)
Lemma es_time_iso (s : string) (t : Z) : iso_time s = Some t -> es_time s = Some t.
Proof.
  intros (y & m & d & h & mi & sec & ms & (Hy & Hd & Hh & Hmi & Hs & Hms) & -> & ->)%iso_time_printed.
  pose proof (es_time_print y m d h mi sec ms) as H. unfold print_year in H.
  rewrite decide_True in H by done. apply H; try done; [lia|].
  pose proof (days_from_civil_bounds y m d Hy Hd). unfold time_value, maxTime, msPerDay. lia.
Qed.

(** What [es_time] reads is a time value of the language. *)
Lemma es_time_clip (s : string) (t : Z) : es_time s = Some t -> - maxTime <= t <= maxTime.
Proof.
  assert (Hclip : forall v, TimeClip v = Some t -> - maxTime <= t <= maxTime).
  { intros v. unfold TimeClip. case_decide; [|done]. intros [= <-]. lia. }
  unfold es_time. intros ([[[y m] d] r] & _ & H)%bind_Some.
  case_decide; [|done]. destruct r as [|c r]; [eauto|].
  destruct c as [[] [] [] [] [] [] [] []]; try done.
  apply bind_Some in H as ([[[[h mi] sec] ms] r'] & _ & (off & _ & H)%bind_Some).
  case_decide; [|done]. eauto.
Qed.

(** [toISOString] is read back by [es_time], on every time value of the
    language. *)
Lemma toISOString_es_time (t : Z) :
  - maxTime <= t <= maxTime -> es_time (toISOString t) = Some t.
Proof.
  intros Ht. unfold toISOString.
  pose proof (civil_from_days_spec (t / msPerDay)) as H.
  destruct (civil_from_days (t / msPerDay)) as [[y m] d]. destruct H as [Hv Hday].
  assert (Hy : -271821 <= y <= 275760).
  { apply (days_from_civil_year_clip y m d Hv). rewrite Hday. unfold msPerDay, maxTime in *.
    Z.div_mod_to_equations; lia. }
  assert (Htv : time_value y m d (t mod msPerDay / 3600000) (t mod msPerDay / 60000 mod 60)
                  (t mod msPerDay / 1000 mod 60) (t mod msPerDay mod 1000) = t).
  { unfold time_value. rewrite Hday. unfold msPerDay. Z.div_mod_to_equations; lia. }
  rewrite es_time_print; try done; try lia; unfold msPerDay;
    try (Z.div_mod_to_equations; lia).
  f_equal. exact Htv.
Qed.

(** ** Instances *)

Example iso_time_epoch : iso_time "1970-01-01T00:00:00.000Z" = Some 0.
Proof. reflexivity. Qed.

Example iso_time_leap_day : iso_time "2000-02-29T12:00:00.000Z" = Some 951825600000.
Proof. reflexivity. Qed.

(** A day that is not of the calendar, a time that is not of the day,
    and a string of another format are not read. *)
Example iso_time_rejects :
  iso_time "1900-02-29T00:00:00.000Z" = None /\
  iso_time "1970-01-01T24:00:00.000Z" = None /\
  iso_time "1970-01-01" = None.
Proof. split_and!; reflexivity. Qed.

(** The shorter forms: a date alone is the midnight of UTC that starts
    it, [24:00] the midnight that ends it, an offset is taken off, and
    the last instant of the language is read and the next is not; a
    date and a time with no offset, a day that is not of the calendar
    and the year [-000000] are not read. *)
Example es_time_forms :
  es_time "2000-02" = Some 949363200000 /\
  es_time "2000-02-29" = Some 951782400000 /\
  es_time "2000-02-29T12:00Z" = Some 951825600000 /\
  es_time "2000-02-29T17:30:00+05:30" = Some 951825600000 /\
  es_time "1970-01-01T24:00:00.000Z" = Some msPerDay /\
  es_time "+275760-09-13T00:00:00.000Z" = Some maxTime /\
  es_time "+275760-09-13T00:00:00.001Z" = None /\
  es_time "2000-02-29T12:00" = None /\
  es_time "2000-02-30" = None /\
  es_time "-000000-01-01T00:00:00.000Z" = None.
Proof. split_and!; reflexivity. Qed.

Example toISOString_leap_day : toISOString 951825600000 = "2000-02-29T12:00:00.000Z".
Proof. reflexivity. Qed.

(** Before the year 0 and after the year 9999 the year is written with
    a sign and six digits, which [iso_time] does not read and [es_time]
    does. *)
Example toISOString_expanded :
  toISOString 253402300800000 = "+010000-01-01T00:00:00.000Z" /\
  toISOString (-62167219200001) = "-000001-12-31T23:59:59.999Z" /\
  iso_time (toISOString 253402300800000) = None /\
  es_time (toISOString 253402300800000) = Some 253402300800000.
Proof. split_and!; reflexivity. Qed.
