(* ===== verification/Chart.v ===== *)
(** * Chart: the astronomy service (astronomyService.ts, lines 1-145)

    [src/unnamed/part_003].  [getZodiacInfo], [calculateAscendant] and
    [calculateChart] as the source writes them.  The two libraries the
    service calls are interfaces:

    - [MathTrig]: [Math.PI], [Math.cos], [Math.sin], [Math.tan] and
      [Math.atan2], with the laws the proofs need (the range of [atan2],
      the values at 0, cosine and sine on the unit circle);
    - [AstronomyEngine]: the astronomy-engine package, reduced to the two
      quantities the service reads from it, Greenwich sidereal time and the
      geocentric ecliptic longitude of a body, the latter in [0, 360).
      What the package checks before it computes is written out:
      [MakeTime] throws on a date that is not finite, and [Observer_new]
      on a latitude outside -90..+90.

    The section [Service] is parametric in both.  [StandIn] instantiates
    them with executable rational functions, so the service runs by
    [vm_compute] and every theorem with a hypothesis has a concrete run.
    The stand-ins claim no accuracy; they only satisfy the interface. *)

From Stdlib Require Import QArith Qround Qabs Lqa Lia ZArith.
From stdpp Require Import base tactics decidable option list strings.
From S2P Require Import Prelude Types.

#[local] Open Scope string_scope.
#[local] Open Scope Q_scope.

(** ** Constants of the service *)

Definition BODIES : list string :=
  ["Sun"; "Moon"; "Mercury"; "Venus"; "Mars"; "Jupiter"; "Saturn"; "Uranus";
   "Neptune"; "Pluto"].

Definition PLANET_SYMBOLS : list (string * string) := [
  ("Sun", "☉"); ("Moon", "☽"); ("Mercury", "☿"); ("Venus", "♀"); ("Mars", "♂");
  ("Jupiter", "♃"); ("Saturn", "♄"); ("Uranus", "♅"); ("Neptune", "♆");
  ("Pluto", "♇")
].

(** ** getZodiacInfo *)

(** [(longitude + 360) % 360], the normalisation of lines 21 and 56. *)
Definition normalize360 (longitude : Q) : Q := (longitude + 360) %% 360.

Module ZodiacInfo.
Record t : Type := mk { sign : option ZodiacSign.t; relativeDegree : Q }.
End ZodiacInfo.

(** [sign] is [undefined] ([None]) when the index leaves the table. *)
Definition getZodiacInfo (longitude : Q) : ZodiacInfo.t :=
  let normalized := normalize360 longitude in
  let signIndex := Math_floor (normalized / 30) in
  let sign := js_index ZODIAC_SIGNS signIndex in
  let relativeDegree := normalized %% 30 in
  ZodiacInfo.mk sign relativeDegree.

(** The index [getZodiacInfo] reads the table at. *)
Definition signIndex_of (longitude : Q) : Z :=
  Math_floor (normalize360 longitude / 30).

Lemma getZodiacInfo_sign (longitude : Q) :
  ZodiacInfo.sign (getZodiacInfo longitude) =
  js_index ZODIAC_SIGNS (signIndex_of longitude).
Proof. reflexivity. Qed.

Lemma getZodiacInfo_relativeDegree (longitude : Q) :
  ZodiacInfo.relativeDegree (getZodiacInfo longitude) =
  normalize360 longitude %% 30.
Proof. reflexivity. Qed.

#[global] Arguments normalize360 : simpl never.

#[export] Instance normalize360_proper : Proper (Qeq ==> Qeq) normalize360.
Proof. intros x y E. unfold normalize360. now rewrite E. Qed.

Lemma normalize360_range (longitude : Q) :
  -360 <= longitude -> 0 <= normalize360 longitude /\ normalize360 longitude < 360.
Proof. intros H. apply js_rem_nonneg; lra. Qed.

Lemma normalize360_id (longitude : Q) :
  0 <= longitude -> longitude < 360 -> normalize360 longitude == longitude.
Proof. intros H0 H1. now apply js_rem_shift. Qed.

Lemma normalize360_neg (longitude : Q) :
  -360 <= longitude -> longitude < 0 -> normalize360 longitude == longitude + 360.
Proof. intros H0 H1. apply js_rem_small; lra. Qed.

(** Below -360 the remainder keeps the sign of the dividend: the value
    is not brought back into [0, 360). *)
Lemma normalize360_below (longitude : Q) :
  -720 < longitude -> longitude < -360 ->
  normalize360 longitude == longitude + 360.
Proof. intros H0 H1. apply js_rem_small_neg; lra. Qed.

Lemma signIndex_of_range (longitude : Q) :
  -360 <= longitude -> (0 <= signIndex_of longitude < 12)%Z.
Proof.
  intros H. destruct (normalize360_range longitude H) as [H0 H1].
  unfold signIndex_of, Math_floor.
  split; [apply Qfloor_ge_Z | apply Qfloor_lt_Z]; qlra.
Qed.

(** The remainder modulo 30 is what is left above the start of the sign. *)
Lemma relativeDegree_spec (x : Q) :
  0 <= x -> x %% 30 == x - 30 * inject_Z (Math_floor (x / 30)).
Proof.
  intros H. unfold js_rem, Math_floor. rewrite Qtrunc_nonneg; [done|].
  apply Qle_shift_div_l; lra.
Qed.

(** [getZodiacInfo] on a longitude of at least -360: the sign is the entry
    of the table at [signIndex_of], the relative degree lies in [0, 30),
    and the start of the sign plus the relative degree gives back the
    normalised longitude. *)
Lemma getZodiacInfo_spec (longitude : Q) :
  -360 <= longitude ->
  exists z : ZodiacSign.t,
    ZodiacInfo.sign (getZodiacInfo longitude) = Some z /\
    ZODIAC_SIGNS !! Z.to_nat (signIndex_of longitude) = Some z /\
    0 <= ZodiacInfo.relativeDegree (getZodiacInfo longitude) /\
    ZodiacInfo.relativeDegree (getZodiacInfo longitude) < 30 /\
    ZodiacSign.startDegree z + ZodiacInfo.relativeDegree (getZodiacInfo longitude)
      == normalize360 longitude.
Proof.
  intros H. pose proof (signIndex_of_range longitude H) as Hi.
  destruct (normalize360_range longitude H) as [H0 H1].
  destruct (js_index_in_range ZODIAC_SIGNS (signIndex_of longitude)) as [z Hz];
    [rewrite ZODIAC_SIGNS_length; lia|].
  exists z. rewrite getZodiacInfo_sign, getZodiacInfo_relativeDegree.
  split; [done|]. apply js_index_Some in Hz as [_ Hz]. split; [done|].
  destruct (js_rem_nonneg (normalize360 longitude) 30) as [? ?]; [lra..|].
  split_and!; [done..|].
  rewrite (ZODIAC_SIGNS_startDegree _ _ Hz), relativeDegree_spec by done.
  rewrite Z2Nat.id by lia. rewrite inject_Z_mult. unfold signIndex_of. qlra.
Qed.

(** C36. Between -720 and -360 the sign is [undefined]. *)
Lemma getZodiacInfo_undefined (longitude : Q) :
  -720 < longitude -> longitude < -360 ->
  ZodiacInfo.sign (getZodiacInfo longitude) = None.
Proof.
  intros H0 H1. rewrite getZodiacInfo_sign. apply js_index_neg, Qfloor_lt_Z.
  rewrite normalize360_below by done. qlra.
Qed.

(** C30. On a longitude of [0, 360) [getZodiacInfo] returns the sign whose
    thirty degrees contain it, and the distance from the start of that
    sign. *)
Theorem getZodiacInfo_correct (longitude : Q) :
  0 <= longitude -> longitude < 360 ->
  exists z : ZodiacSign.t,
    ZodiacInfo.sign (getZodiacInfo longitude) = Some z /\ z ∈ ZODIAC_SIGNS /\
    ZodiacSign.startDegree z <= longitude /\
    longitude < ZodiacSign.startDegree z + 30 /\
    ZodiacInfo.relativeDegree (getZodiacInfo longitude)
      == longitude - ZodiacSign.startDegree z.
Proof.
  intros H0 H1.
  destruct (getZodiacInfo_spec longitude) as (z & Hz & Hi & Hr0 & Hr1 & E); [lra|].
  rewrite normalize360_id in E by done.
  exists z. split_and!; [done | now apply list_elem_of_lookup_2 in Hi | lra | lra | lra].
Qed.

(** [ZODIAC_SIGNS.findIndex(z => z.name === sign.name)]. *)
Definition sign_index (sign : ZodiacSign.t) : Z :=
  findIndex (fun z => bool_decide (ZodiacSign.name z = ZodiacSign.name sign))
    ZODIAC_SIGNS.

#[global] Arguments sign_index : simpl never.
#[global] Arguments signIndex_of : simpl never.
#[global] Arguments getZodiacInfo : simpl never.

(** Looking a sign of the table up by name gives its index back. *)
Lemma sign_index_lookup (i : nat) (z : ZodiacSign.t) :
  ZODIAC_SIGNS !! i = Some z -> sign_index z = Z.of_nat i.
Proof.
  intros H. do 12 (destruct i as [|i]; [injection H as <-; reflexivity|]).
  discriminate.
Qed.

(** ** Whole-sign houses *)

(** [((signIndex - ascSignIndex + 12) % 12) + 1], on integer numbers. *)
Definition house_of (signIndex ascSignIndex : Z) : Z :=
  (Z.rem (signIndex - ascSignIndex + 12) 12 + 1)%Z.

#[global] Arguments house_of : simpl never.

Lemma house_of_mod (s a : Z) :
  (0 <= s < 12)%Z -> (0 <= a < 12)%Z -> house_of s a = ((s - a) mod 12 + 1)%Z.
Proof.
  intros Hs Ha. unfold house_of. rewrite Z.rem_mod_nonneg by lia.
  f_equal. replace (s - a + 12)%Z with (s - a + 1 * 12)%Z by lia.
  apply Z.mod_add. lia.
Qed.

Lemma house_of_range (s a : Z) :
  (0 <= s < 12)%Z -> (0 <= a < 12)%Z -> (1 <= house_of s a <= 12)%Z.
Proof.
  intros Hs Ha. rewrite house_of_mod by done.
  pose proof (Z.mod_pos_bound (s - a) 12). lia.
Qed.

Lemma house_of_asc (a : Z) : (0 <= a < 12)%Z -> house_of a a = 1%Z.
Proof. intros Ha. rewrite house_of_mod by done. now rewrite Z.sub_diag. Qed.

Lemma house_of_inj (s s' a : Z) :
  (0 <= s < 12)%Z -> (0 <= s' < 12)%Z -> (0 <= a < 12)%Z ->
  house_of s a = house_of s' a -> s = s'.
Proof.
  intros Hs Hs' Ha. rewrite !house_of_mod by done. intros E.
  assert (E' : ((s - a) mod 12 = (s' - a) mod 12)%Z) by lia.
  rewrite (Z.mod_eq (s - a) 12), (Z.mod_eq (s' - a) 12) in E' by lia. lia.
Qed.

Lemma house_of_surj (h a : Z) :
  (1 <= h <= 12)%Z -> (0 <= a < 12)%Z ->
  exists s, (0 <= s < 12)%Z /\ house_of s a = h.
Proof.
  intros Hh Ha. exists ((h - 1 + a) mod 12)%Z.
  pose proof (Z.mod_pos_bound (h - 1 + a) 12 ltac:(lia)) as Hb.
  split; [done|]. rewrite house_of_mod by done.
  rewrite Zminus_mod_idemp_l.
  replace (h - 1 + a - a)%Z with (h - 1)%Z by lia.
  rewrite Z.mod_small; lia.
Qed.

(** ** Elemental balance *)

(** [ZODIAC_SIGNS.find(z => z.name === p.sign)?.element]. *)
Definition element_of_sign (sign : string) : option Element.t :=
  ZodiacSign.element <$>
    js_find (fun z => bool_decide (ZodiacSign.name z = sign)) ZODIAC_SIGNS.

(** One iteration of the [forEach] that counts: [counts[el]++]. *)
Definition count_element (counts : ElementalBalance.t) (p : CalculatedPlanet.t)
    : ElementalBalance.t :=
  let '(ElementalBalance.mk f e a w) := counts in
  match element_of_sign (CalculatedPlanet.sign p) with
  | Some Element.fire => ElementalBalance.mk (f + 1) e a w
  | Some Element.earth => ElementalBalance.mk f (e + 1) a w
  | Some Element.air => ElementalBalance.mk f e (a + 1) w
  | Some Element.water => ElementalBalance.mk f e a (w + 1)
  | None => counts
  end.

Definition count_elements (planets : list CalculatedPlanet.t) : ElementalBalance.t :=
  foldl count_element (ElementalBalance.mk 0 0 0 0) planets.

(** [Math.round((count / total) * 100)]. *)
Definition percent (count total : Z) : Z :=
  Math_round (inject_Z count / inject_Z total * 100).

Definition elemental_balance (planets : list CalculatedPlanet.t) : ElementalBalance.t :=
  let counts := count_elements planets in
  let total := Z.max (Z.of_nat (length planets)) 1 in
  let firePct := percent (ElementalBalance.fire counts) total in
  let earthPct := percent (ElementalBalance.earth counts) total in
  let airPct := percent (ElementalBalance.air counts) total in
  let waterPct := (100 - firePct - earthPct - airPct)%Z in
  ElementalBalance.mk firePct earthPct airPct
    (if decide (waterPct < 0)%Z then 0%Z else waterPct).

(** ** The libraries the service calls *)

(** The functions of [Math] on angles.  The laws are those the proofs
    use: [atan2] answers in [-PI, PI], the values at 0 are exact, and a
    cosine and a sine are the coordinates of a point of the unit circle
    (exactly, as all arithmetic is exact here; up to rounding in IEEE
    arithmetic). *)
Class MathTrig : Type := {
  Math_PI : Q;
  Math_cos : Q -> Q;
  Math_sin : Q -> Q;
  Math_tan : Q -> Q;
  Math_atan2 : Q -> Q -> Q;
  Math_PI_pos : 0 < Math_PI;
  Math_cos_proper :: Proper (Qeq ==> Qeq) Math_cos;
  Math_sin_proper :: Proper (Qeq ==> Qeq) Math_sin;
  Math_tan_proper :: Proper (Qeq ==> Qeq) Math_tan;
  Math_atan2_proper :: Proper (Qeq ==> Qeq ==> Qeq) Math_atan2;
  Math_atan2_range : forall y x : Q,
    - Math_PI <= Math_atan2 y x /\ Math_atan2 y x <= Math_PI;
  Math_cos_0 : Math_cos 0 == 1;
  Math_sin_0 : Math_sin 0 == 0;
  Math_tan_0 : Math_tan 0 == 0;
  Math_atan2_1_0 : Math_atan2 1 0 == Math_PI / 2;
  Math_cos_sin : forall x : Q, Math_cos x * Math_cos x + Math_sin x * Math_sin x == 1
}.

(** The members of [Astronomy.Body] the service asks for. *)
Inductive Body : Type :=
| Sun | Moon | Mercury | Venus | Mars | Jupiter | Saturn | Uranus | Neptune | Pluto.

#[export] Instance Body_eq_dec : EqDecision Body.
Proof. solve_decision. Defined.

(** [(Astronomy.Body as any)[bodyName]]: dynamic access by name. *)
Definition Body_of_name (bodyName : string) : option Body :=
  snd <$> List.find (fun e => bool_decide (fst e = bodyName))
    [("Sun", Sun); ("Moon", Moon); ("Mercury", Mercury); ("Venus", Venus);
     ("Mars", Mars); ("Jupiter", Jupiter); ("Saturn", Saturn);
     ("Uranus", Uranus); ("Neptune", Neptune); ("Pluto", Pluto)].

(** The package astronomy-engine, at a valid time in milliseconds since
    the epoch: Greenwich sidereal time in hours, and the ecliptic longitude
    [Ecliptic(GeoVector(body, time, true)).elon], which the package
    documents to lie in [0, 360). *)
Class AstronomyEngine : Type := {
  SiderealTime : Z -> Q;
  EclipticLongitude : Body -> Z -> Q;
  EclipticLongitude_range : forall (b : Body) (t : Z),
    0 <= EclipticLongitude b t /\ EclipticLongitude b t < 360
}.

(** A JS [Date]: its time value, or [None] for an Invalid Date (whose
    [getTime()] is [NaN]). *)
Module Date.
Definition t : Type := option Z.
Definition getTime (d : t) : option Z := d.
(** [new Date(date.getTime() + ms)]. *)
Definition plus (d : t) (ms : Z) : t := (fun x => x + ms)%Z <$> d.
End Date.

(** [Astronomy.MakeTime]: the package refuses a date that is not finite. *)
Definition MakeTime (date : Date.t) : result Z :=
  or_throw (Date.getTime date) (Error "Argument must be a Date object").

(** [Astronomy.Observer]: a place on the Earth, in degrees and metres. *)
Module Observer.
Record t : Type := mk { latitude : Q; longitude : Q; height : Q }.
End Observer.

(** The latitudes the package accepts: [-90..+90]. *)
Definition valid_latitude (latitude : Q) : Prop := -90 <= latitude /\ latitude <= 90.

#[export] Instance valid_latitude_dec (latitude : Q) : Decision (valid_latitude latitude).
Proof. unfold valid_latitude. apply _. Defined.

(** [new Astronomy.Observer(latitude, longitude, height)]: the
    constructor verifies the observer, and throws (a string that names
    the latitude; here [RangeError]) when
    [latitude < -90 || latitude > +90]. *)
Definition Observer_new (latitude longitude height : Q) : result Observer.t :=
  if bool_decide (latitude < -90) || bool_decide (90 < latitude)
  then Throw RangeError
  else Ok (Observer.mk latitude longitude height).

Section Service.
Context {trig : MathTrig} {astro : AstronomyEngine}.

(** ** calculateAscendant *)

Definition calculateAscendant (date : Date.t) (lat lon : Q) : result Q :=
  observer ← Observer_new lat lon 0;
  time ← MakeTime date;
  let gmst := SiderealTime time in
  let lstHours := gmst + lon / 15 in
  let lstDeg := lstHours * 15 in
  let ramc := lstDeg * Math_PI / 180 in
  let eps := 23.4392911 * Math_PI / 180 in
  let latRad := lat * Math_PI / 180 in
  let num := Math_cos ramc in
  let den := - Math_sin ramc * Math_cos eps - Math_tan latRad * Math_sin eps in
  let ascRad := Math_atan2 num den in
  let ascDeg := ascRad * 180 / Math_PI in
  Ok ((ascDeg + 360) %% 360).

(** ** calculateChart *)

(** The retrograde test of line 85: the longitude one hour later is
    smaller, by less than 180 degrees. *)
Definition retrograde_flag (longitude elonNext : Q) : bool :=
  bool_decide (elonNext < longitude) && bool_decide (longitude - elonNext < 180).

(** The callback of [BODIES.map]. *)
Definition planet_of (date : Date.t) (ascSignIndex : Z) (bodyName : string)
    : result CalculatedPlanet.t :=
  time ← MakeTime date;
  body ← or_throw (Body_of_name bodyName) (Error "Invalid body");
  let longitude := EclipticLongitude body time in
  timeNext ← MakeTime (Date.plus date 3600000);
  let elonNext := EclipticLongitude body timeNext in
  let retrograde := retrograde_flag longitude elonNext in
  let info := getZodiacInfo longitude in
  sign ← or_throw (ZodiacInfo.sign info) TypeError;
  let signIndex := sign_index sign in
  let house := house_of signIndex ascSignIndex in
  Ok (CalculatedPlanet.mk bodyName
        (default "" (record_get PLANET_SYMBOLS bodyName))
        (ZodiacSign.name sign) (ZodiacSign.symbol sign) longitude
        (ZodiacInfo.relativeDegree info) house retrograde).

(** [`${p?.sign}`]. *)
Definition template_sign (p : option CalculatedPlanet.t) : string :=
  match p with Some p => CalculatedPlanet.sign p | None => "undefined" end.

Definition calculateChart (date : Date.t) (lat lon : Q) : result CalculatedChart.t :=
  ascDegree ← calculateAscendant date lat lon;
  let ascInfo := getZodiacInfo ascDegree in
  ascSign ← or_throw (ZodiacInfo.sign ascInfo) TypeError;
  let ascSignIndex := sign_index ascSign in
  planets ← map_result (planet_of date ascSignIndex) BODIES;
  let elements := elemental_balance planets in
  let sun := js_find (fun p => bool_decide (CalculatedPlanet.name p = "Sun")) planets in
  let moon := js_find (fun p => bool_decide (CalculatedPlanet.name p = "Moon")) planets in
  Ok (CalculatedChart.mk planets
        (Rising.mk (ZodiacSign.name ascSign) (ZodiacSign.symbol ascSign) ascDegree)
        elements
        (BigThree.mk (template_sign sun) (template_sign moon)
           (ZodiacSign.name ascSign))).

End Service.

#[global] Arguments elemental_balance : simpl never.
#[global] Arguments template_sign : simpl never.

(** ** Properties of the elemental balance *)

(** What the counting loop maintains: counts are not negative and add up
    to at most the number of planets seen. *)
Definition counts_wf (c : ElementalBalance.t) (n : Z) : Prop :=
  (0 <= ElementalBalance.fire c /\ 0 <= ElementalBalance.earth c /\
   0 <= ElementalBalance.air c /\ 0 <= ElementalBalance.water c /\
   ElementalBalance.total c <= n)%Z.

Lemma count_element_wf (c : ElementalBalance.t) (p : CalculatedPlanet.t) (n : Z) :
  counts_wf c n -> counts_wf (count_element c p) (n + 1).
Proof.
  unfold counts_wf, count_element, ElementalBalance.total. destruct c as [f e a w].
  destruct (element_of_sign _) as [[]|]; cbn; lia.
Qed.

Lemma foldl_count_element_wf (planets : list CalculatedPlanet.t)
    (c : ElementalBalance.t) (n : Z) :
  counts_wf c n ->
  counts_wf (foldl count_element c planets) (n + Z.of_nat (length planets)).
Proof.
  revert c n. induction planets as [|p l IH]; intros c n Hc; cbn [foldl length].
  - now rewrite Z.add_0_r.
  - replace (n + Z.of_nat (S (length l)))%Z with (n + 1 + Z.of_nat (length l))%Z by lia.
    now apply IH, count_element_wf.
Qed.

Lemma count_elements_wf (planets : list CalculatedPlanet.t) :
  counts_wf (count_elements planets) (Z.of_nat (length planets)).
Proof.
  apply (foldl_count_element_wf planets _ 0).
  unfold counts_wf, ElementalBalance.total. cbn. lia.
Qed.

(** With ten planets a percentage is ten times the count: the rounding
    is exact. *)
Lemma percent_10 (count : Z) : percent count 10 = (10 * count)%Z.
Proof.
  unfold percent.
  assert (E : inject_Z count / inject_Z 10 * 100 == inject_Z (10 * count)).
  { rewrite inject_Z_mult. change (inject_Z 10) with 10. field. }
  rewrite E. apply Math_round_Z.
Qed.

(** C31. Whole-sign houses: for every ascendant the twelve signs get the
    twelve houses, each house once, and the sign of the ascendant gets
    the first. *)
Theorem house_of_bijective (a : Z) :
  (0 <= a < 12)%Z ->
  house_of a a = 1%Z /\
  (forall s, (0 <= s < 12)%Z -> (1 <= house_of s a <= 12)%Z) /\
  (forall s s', (0 <= s < 12)%Z -> (0 <= s' < 12)%Z ->
     house_of s a = house_of s' a -> s = s') /\
  (forall h, (1 <= h <= 12)%Z -> exists s, (0 <= s < 12)%Z /\ house_of s a = h).
Proof.
  intros Ha. split_and!.
  - now apply house_of_asc.
  - intros s Hs. now apply house_of_range.
  - intros s s' Hs Hs'. now apply house_of_inj.
  - intros h Hh. now apply house_of_surj.
Qed.

(** The percentages of ten planets add up to exactly 100. *)
Lemma elemental_balance_total_10 (planets : list CalculatedPlanet.t) :
  length planets = 10%nat ->
  ElementalBalance.total (elemental_balance planets) = 100%Z.
Proof.
  intros Hlen. pose proof (count_elements_wf planets) as Hwf.
  unfold elemental_balance. rewrite Hlen in *.
  change (Z.max (Z.of_nat 10) 1) with 10%Z. rewrite !percent_10.
  unfold counts_wf, ElementalBalance.total in *. cbn.
  case_decide; lia.
Qed.

(** With another number of planets the remainder policy can miss 100:
    eight planets counted 3, 3, 2, 0 round to 38 + 38 + 25, the remainder
    -1 is clipped, and the total is 101. *)
Definition planet_in (sign : string) : CalculatedPlanet.t :=
  CalculatedPlanet.mk "p" "" sign "" 0 0 1 false.

(** The remainder policy of the elemental balance adds up to 100 only for
    some numbers of planets: eight planets split 3, 3, 2, 0 give 38 + 38 +
    25 + 0 = 101. *)
Lemma elemental_balance_total_8 :
  ElementalBalance.total
    (elemental_balance
       (planet_in <$> ["Aries"; "Aries"; "Aries"; "Taurus"; "Taurus"; "Taurus";
                       "Gemini"; "Gemini"])) = 101%Z.
Proof. vm_compute. reflexivity. Qed.

(** ** Well-formed planets and charts *)

(** What the rest of the program relies on in a calculated planet. *)
Record planet_wf (p : CalculatedPlanet.t) : Prop := {
  wf_degree : 0 <= CalculatedPlanet.degree p /\ CalculatedPlanet.degree p < 360;
  wf_relativeDegree :
    0 <= CalculatedPlanet.relativeDegree p /\ CalculatedPlanet.relativeDegree p < 30;
  wf_house : (1 <= CalculatedPlanet.house p <= 12)%Z;
  wf_sign : exists z : ZodiacSign.t,
    ZODIAC_SIGNS !! Z.to_nat (signIndex_of (CalculatedPlanet.degree p)) = Some z /\
    CalculatedPlanet.sign p = ZodiacSign.name z /\
    CalculatedPlanet.signSymbol p = ZodiacSign.symbol z /\
    ZodiacSign.startDegree z + CalculatedPlanet.relativeDegree p
      == CalculatedPlanet.degree p
}.

Record chart_wf (c : CalculatedChart.t) : Prop := {
  wf_planets : Forall planet_wf (CalculatedChart.planets c);
  wf_names : CalculatedPlanet.name <$> CalculatedChart.planets c = BODIES;
  wf_rising :
    0 <= Rising.degree (CalculatedChart.rising c) /\
    Rising.degree (CalculatedChart.rising c) < 360;
  wf_rising_sign : exists z : ZodiacSign.t,
    ZODIAC_SIGNS !! Z.to_nat (signIndex_of (Rising.degree (CalculatedChart.rising c)))
      = Some z /\
    Rising.sign (CalculatedChart.rising c) = ZodiacSign.name z /\
    Rising.signSymbol (CalculatedChart.rising c) = ZodiacSign.symbol z;
  wf_houses : Forall (fun p =>
    CalculatedPlanet.house p =
    house_of (signIndex_of (CalculatedPlanet.degree p))
      (signIndex_of (Rising.degree (CalculatedChart.rising c))))
    (CalculatedChart.planets c);
  wf_elements : ElementalBalance.total (CalculatedChart.elements c) = 100%Z;
  wf_bigThree_rising :
    BigThree.rising (CalculatedChart.bigThree c) = Rising.sign (CalculatedChart.rising c);
  wf_bigThree_sun : exists p : CalculatedPlanet.t,
    CalculatedChart.planets c !! 0%nat = Some p /\
    BigThree.sun (CalculatedChart.bigThree c) = CalculatedPlanet.sign p;
  wf_bigThree_moon : exists p : CalculatedPlanet.t,
    CalculatedChart.planets c !! 1%nat = Some p /\
    BigThree.moon (CalculatedChart.bigThree c) = CalculatedPlanet.sign p
}.

Lemma BODIES_NoDup : NoDup BODIES.
Proof. apply (bool_decide_unpack _). vm_compute. exact I. Qed.

(** In an array of planets named as [BODIES], [find] by a body's name
    returns the planet at the body's index. *)
Lemma find_body (planets : list CalculatedPlanet.t) (i : nat) (bodyName : string) :
  CalculatedPlanet.name <$> planets = BODIES -> BODIES !! i = Some bodyName ->
  exists p : CalculatedPlanet.t,
    planets !! i = Some p /\
    js_find (fun p => bool_decide (CalculatedPlanet.name p = bodyName)) planets = Some p.
Proof.
  intros Hnames Hi. rewrite <- Hnames, list_lookup_fmap in Hi.
  destruct (planets !! i) as [p|] eqn:Hp; [|done]. injection Hi as <-.
  exists p. split; [done|].
  apply (js_find_NoDup CalculatedPlanet.name planets i p); [|done].
  rewrite Hnames. apply BODIES_NoDup.
Qed.

Lemma Body_of_name_BODIES :
  Forall (fun bodyName => is_Some (Body_of_name bodyName)) BODIES.
Proof. repeat constructor; eexists; reflexivity. Qed.

Lemma PLANET_SYMBOLS_BODIES :
  Forall (fun bodyName => is_Some (record_get PLANET_SYMBOLS bodyName)) BODIES.
Proof. repeat constructor; eexists; reflexivity. Qed.

Section ServiceFacts.
Context {trig : MathTrig} {astro : AstronomyEngine}.

Lemma MakeTime_valid (t : Z) : MakeTime (Some t) = Ok t.
Proof. reflexivity. Qed.

Lemma MakeTime_invalid : MakeTime None = Throw (Error "Argument must be a Date object").
Proof. reflexivity. Qed.

(** *** The observer *)

Lemma Observer_new_valid (latitude longitude height : Q) :
  valid_latitude latitude ->
  Observer_new latitude longitude height = Ok (Observer.mk latitude longitude height).
Proof.
  intros [H0 H1]. unfold Observer_new.
  rewrite !bool_decide_eq_false_2; [done | lra..].
Qed.

Lemma Observer_new_invalid (latitude longitude height : Q) :
  ~ valid_latitude latitude -> Observer_new latitude longitude height = Throw RangeError.
Proof.
  intros H. unfold Observer_new, valid_latitude in *.
  repeat case_bool_decide; try done. exfalso. apply H. lra.
Qed.

(** *** The ascendant *)

(** A cosine and a sine lie in [-1, 1]. *)
Lemma Math_cos_bounds (x : Q) : -1 <= Math_cos x /\ Math_cos x <= 1.
Proof. pose proof (Math_cos_sin x). split; nra. Qed.

Lemma Math_sin_bounds (x : Q) : -1 <= Math_sin x /\ Math_sin x <= 1.
Proof. pose proof (Math_cos_sin x). split; nra. Qed.

(** The degrees of an angle [atan2] returns lie in [-180, 180]. *)
Lemma atan2_degrees_range (y x : Q) :
  -180 <= Math_atan2 y x * 180 / Math_PI /\ Math_atan2 y x * 180 / Math_PI <= 180.
Proof.
  destruct (Math_atan2_range y x) as [Hlo Hhi]. pose proof Math_PI_pos as Hpi.
  split; [apply Qle_shift_div_l | apply Qle_shift_div_r]; lra.
Qed.

Lemma calculateAscendant_unfold (t : Z) (lat lon : Q) :
  valid_latitude lat ->
  calculateAscendant (Some t) lat lon =
  Ok (normalize360
        (Math_atan2 (Math_cos ((SiderealTime t + lon / 15) * 15 * Math_PI / 180))
           (- Math_sin ((SiderealTime t + lon / 15) * 15 * Math_PI / 180)
              * Math_cos (23.4392911 * Math_PI / 180)
            - Math_tan (lat * Math_PI / 180) * Math_sin (23.4392911 * Math_PI / 180))
         * 180 / Math_PI)).
Proof.
  intros H. unfold calculateAscendant. now rewrite (Observer_new_valid _ _ _ H).
Qed.

(** For every valid date, every latitude of [-90, 90] (the poles
    included) and every longitude the ascendant is a number of
    [0, 360). *)
Lemma calculateAscendant_range (t : Z) (lat lon : Q) :
  valid_latitude lat ->
  exists asc : Q,
    calculateAscendant (Some t) lat lon = Ok asc /\ 0 <= asc /\ asc < 360.
Proof.
  intros H. rewrite (calculateAscendant_unfold _ _ _ H). eexists. split; [reflexivity|].
  apply normalize360_range.
  match goal with |- _ <= Math_atan2 ?y ?x * _ / _ =>
    destruct (atan2_degrees_range y x) end. lra.
Qed.

Lemma calculateAscendant_invalid_date (lat lon : Q) :
  valid_latitude lat ->
  calculateAscendant None lat lon = Throw (Error "Argument must be a Date object").
Proof.
  intros H. unfold calculateAscendant. now rewrite (Observer_new_valid _ _ _ H).
Qed.

(** The observer is made first: a latitude the package refuses leaves
    the function before the date is looked at. *)
Lemma calculateAscendant_invalid_latitude (date : Date.t) (lat lon : Q) :
  ~ valid_latitude lat -> calculateAscendant date lat lon = Throw RangeError.
Proof.
  intros H. unfold calculateAscendant. now rewrite (Observer_new_invalid _ _ _ H).
Qed.

(** C7. [calculateAscendant] on every input: the exception of the observer
    for a latitude outside [-90, 90], whatever the date; otherwise a
    number of [0, 360) for a valid date (the poles included), and the
    exception of the astronomy package for an invalid one. *)
Theorem calculateAscendant_spec (date : Date.t) (lat lon : Q) :
  if decide (valid_latitude lat) then
    match date with
    | Some t => exists asc : Q,
        calculateAscendant date lat lon = Ok asc /\ 0 <= asc /\ asc < 360
    | None =>
        calculateAscendant date lat lon = Throw (Error "Argument must be a Date object")
    end
  else calculateAscendant date lat lon = Throw RangeError.
Proof.
  case_decide as H; [|now apply calculateAscendant_invalid_latitude].
  destruct date as [t|];
    [now apply calculateAscendant_range | now apply calculateAscendant_invalid_date].
Qed.

(** The regression value: sidereal time 0 at latitude 0 and longitude 0
    gives [atan2 (1, 0)], an ascendant of 90 degrees. *)
Lemma calculateAscendant_regression (t : Z) :
  SiderealTime t == 0 ->
  exists asc : Q, calculateAscendant (Some t) 0 0 = Ok asc /\ asc == 90.
Proof.
  intros Hst. rewrite calculateAscendant_unfold by (split; lra).
  eexists. split; [reflexivity|].
  pose proof Math_PI_pos as Hpi.
  assert (E0 : (SiderealTime t + 0 / 15) * 15 * Math_PI / 180 == 0)
    by (rewrite Hst; field).
  assert (E1 : 0 * Math_PI / 180 == 0) by field.
  rewrite E0, E1, Math_cos_0, Math_sin_0, Math_tan_0.
  assert (E2 : - 0 * Math_cos (23.4392911 * Math_PI / 180)
               - 0 * Math_sin (23.4392911 * Math_PI / 180) == 0) by ring.
  rewrite E2, Math_atan2_1_0.
  assert (E3 : Math_PI / 2 * 180 / Math_PI == 90) by (field; lra).
  rewrite E3. now apply normalize360_id.
Qed.

(** *** One planet *)

(** The flag compares the longitude now and one hour (3 600 000 ms)
    later. *)
Definition retrograde_spec (b : Body) (t : Z) : bool :=
  retrograde_flag (EclipticLongitude b t) (EclipticLongitude b (t + 3600000)).

(** For a known body at a valid date the callback returns a well-formed
    planet at the longitude of the ephemeris, in the house counted from
    the ascendant's sign. *)
Lemma planet_of_spec (t ascSignIndex : Z) (bodyName : string) (b : Body) :
  Body_of_name bodyName = Some b ->
  (0 <= ascSignIndex < 12)%Z ->
  exists p : CalculatedPlanet.t,
    planet_of (Some t) ascSignIndex bodyName = Ok p /\
    CalculatedPlanet.name p = bodyName /\
    CalculatedPlanet.degree p = EclipticLongitude b t /\
    CalculatedPlanet.retrograde p = retrograde_spec b t /\
    CalculatedPlanet.house p =
      house_of (signIndex_of (CalculatedPlanet.degree p)) ascSignIndex /\
    planet_wf p.
Proof.
  intros Hb Hasc. unfold planet_of. cbn [Date.plus fmap option_fmap option_map].
  rewrite !MakeTime_valid, Hb. cbn [or_throw mbind result_bind].
  destruct (EclipticLongitude_range b t) as [H0 H1].
  assert (Hlo : -360 <= EclipticLongitude b t) by lra.
  pose proof (signIndex_of_range _ Hlo) as Hrange.
  destruct (getZodiacInfo_spec _ Hlo) as (z & Hz & Hi & Hr0 & Hr1 & Hsum).
  rewrite Hz. cbn [or_throw mbind result_bind].
  eexists. split; [reflexivity|]. cbn.
  assert (Hidx : sign_index z = signIndex_of (EclipticLongitude b t)).
  { rewrite (sign_index_lookup _ _ Hi). lia. }
  rewrite Hidx. split_and!; try done.
  constructor; cbn; [done | done | now apply house_of_range |].
  exists z. split_and!; try done. now rewrite Hsum, normalize360_id.
Qed.

Lemma planet_of_invalid_date (ascSignIndex : Z) (bodyName : string) :
  planet_of None ascSignIndex bodyName = Throw (Error "Argument must be a Date object").
Proof. reflexivity. Qed.

Lemma planet_of_unknown_body (t ascSignIndex : Z) (bodyName : string) :
  Body_of_name bodyName = None ->
  planet_of (Some t) ascSignIndex bodyName = Throw (Error "Invalid body").
Proof.
  intros Hb. unfold planet_of. rewrite MakeTime_valid.
  cbn [mbind result_bind]. now rewrite Hb.
Qed.

(** *** The whole chart *)

(** For every valid date and latitude [calculateChart] returns, and what
    it returns is a well-formed chart. *)
Lemma calculateChart_valid_date (t : Z) (lat lon : Q) :
  valid_latitude lat ->
  exists c : CalculatedChart.t,
    calculateChart (Some t) lat lon = Ok c /\ chart_wf c.
Proof.
  intros Hlat. unfold calculateChart.
  destruct (calculateAscendant_range t lat lon Hlat) as (asc & -> & Ha0 & Ha1).
  cbn [mbind result_bind].
  assert (Hlo : -360 <= asc) by lra.
  pose proof (signIndex_of_range _ Hlo) as Hrange.
  destruct (getZodiacInfo_spec _ Hlo) as (z & -> & Hi & _).
  cbn [or_throw mbind result_bind].
  assert (Hidx : sign_index z = signIndex_of asc).
  { rewrite (sign_index_lookup _ _ Hi). lia. }
  rewrite Hidx.
  destruct (map_result_Forall2 (planet_of (Some t) (signIndex_of asc))
    (fun bodyName p => CalculatedPlanet.name p = bodyName /\
       CalculatedPlanet.house p =
         house_of (signIndex_of (CalculatedPlanet.degree p)) (signIndex_of asc) /\
       planet_wf p) BODIES) as (planets & -> & Hall).
  { eapply Forall_impl; [exact Body_of_name_BODIES|].
    intros bodyName [b Hb].
    destruct (planet_of_spec t (signIndex_of asc) bodyName b Hb Hrange)
      as (p & ? & ? & _ & _ & ? & ?).
    now exists p. }
  cbn [mbind result_bind]. eexists. split; [reflexivity|].
  pose proof (Forall2_length _ _ _ Hall) as Hlen.
  constructor; cbn.
  - eapply Forall2_right; [exact Hall|]. now intros ? ? (_ & _ & ?).
  - apply Forall2_fmap_eq. eapply Forall2_impl; [exact Hall|].
    now intros ? ? (? & _).
  - done.
  - now exists z.
  - eapply Forall2_right; [exact Hall|]. now intros ? ? (_ & ? & _).
  - apply elemental_balance_total_10. now rewrite <- Hlen.
  - done.
  - destruct (find_body planets 0 "Sun") as (p & Hp & ->); [|done|by exists p].
    apply Forall2_fmap_eq. eapply Forall2_impl; [exact Hall|]. now intros ? ? (? & _).
  - destruct (find_body planets 1 "Moon") as (p & Hp & ->); [|done|by exists p].
    apply Forall2_fmap_eq. eapply Forall2_impl; [exact Hall|]. now intros ? ? (? & _).
Qed.

(** An invalid date leaves [calculateChart] by the exception of the first
    call into the astronomy package that reads it. *)
Lemma calculateChart_invalid_date (lat lon : Q) :
  valid_latitude lat ->
  calculateChart None lat lon = Throw (Error "Argument must be a Date object").
Proof.
  intros H. unfold calculateChart. now rewrite (calculateAscendant_invalid_date _ _ H).
Qed.

(** A latitude outside [-90, 90] leaves it by the exception of the
    observer, before anything is computed. *)
Lemma calculateChart_invalid_latitude (date : Date.t) (lat lon : Q) :
  ~ valid_latitude lat -> calculateChart date lat lon = Throw RangeError.
Proof.
  intros H. unfold calculateChart. now rewrite (calculateAscendant_invalid_latitude _ _ _ H).
Qed.

(** The three outcomes of [calculateChart], by its arguments. *)
Lemma calculateChart_cases (date : Date.t) (lat lon : Q) :
  (~ valid_latitude lat /\ calculateChart date lat lon = Throw RangeError) \/
  (valid_latitude lat /\ date = None /\
   calculateChart date lat lon = Throw (Error "Argument must be a Date object")) \/
  (valid_latitude lat /\ exists t c,
     date = Some t /\ calculateChart date lat lon = Ok c /\ chart_wf c).
Proof.
  destruct (decide (valid_latitude lat)) as [H|H];
    [|left; eauto using calculateChart_invalid_latitude].
  right. destruct date as [t|]; [right | left; eauto using calculateChart_invalid_date].
  destruct (calculateChart_valid_date t lat lon H) as (c & ? & ?). eauto 10.
Qed.

(** Whatever [calculateChart] returns is well formed, and was computed
    for a valid date at a valid latitude. *)
Lemma calculateChart_Ok_wf (date : Date.t) (lat lon : Q) (c : CalculatedChart.t) :
  calculateChart date lat lon = Ok c -> chart_wf c.
Proof.
  destruct (calculateChart_cases date lat lon)
    as [[_ ->]|[(_ & _ & ->)|(_ & t & c' & _ & -> & Hwf)]]; [done..|].
  now intros [= <-].
Qed.

Lemma calculateChart_Ok_inv (date : Date.t) (lat lon : Q) (c : CalculatedChart.t) :
  calculateChart date lat lon = Ok c -> valid_latitude lat /\ is_Some date.
Proof.
  destruct (calculateChart_cases date lat lon)
    as [[_ ->]|[(_ & _ & ->)|(H & t & c' & -> & _)]]; [done..|eauto].
Qed.

(** The exceptions of [calculateChart]: that of a latitude the observer
    refuses, and that of an invalid date. *)
Lemma calculateChart_Throw (date : Date.t) (lat lon : Q) (e : exn) :
  calculateChart date lat lon = Throw e ->
  (~ valid_latitude lat /\ e = RangeError) \/
  (valid_latitude lat /\ date = None /\ e = Error "Argument must be a Date object").
Proof.
  destruct (calculateChart_cases date lat lon)
    as [[H ->]|[(H & Hd & ->)|(_ & t & c' & _ & -> & _)]]; [| |done].
  - intros [= <-]. now left.
  - intros [= <-]. now right.
Qed.

(** C1. [calculateChart] on every input: the exception of the observer for a
    latitude outside [-90, 90]; otherwise a well-formed chart for a valid
    date, and the exception of the astronomy package for an invalid
    one. *)
Theorem calculateChart_wf (date : Date.t) (lat lon : Q) :
  if decide (valid_latitude lat) then
    match date with
    | Some t => exists c, calculateChart date lat lon = Ok c /\ chart_wf c
    | None => calculateChart date lat lon = Throw (Error "Argument must be a Date object")
    end
  else calculateChart date lat lon = Throw RangeError.
Proof.
  case_decide as H; [|now apply calculateChart_invalid_latitude].
  destruct date as [t|];
    [now apply calculateChart_valid_date | now apply calculateChart_invalid_date].
Qed.

End ServiceFacts.

(** ** The retrograde flag *)

Lemma retrograde_flag_true (longitude elonNext : Q) :
  retrograde_flag longitude elonNext = true <->
  elonNext < longitude /\ longitude - elonNext < 180.
Proof.
  unfold retrograde_flag. now rewrite andb_true_iff, !bool_decide_eq_true.
Qed.

(** Direct motion through the seam (from just below 360 to just above 0)
    is not taken for retrograde motion. *)
Lemma retrograde_flag_direct_seam (longitude elonNext : Q) :
  180 <= longitude - elonNext -> retrograde_flag longitude elonNext = false.
Proof.
  intros H. apply not_true_is_false. rewrite retrograde_flag_true. lra.
Qed.

(** Retrograde motion through the seam (from just above 0 to just below
    360) is not seen: the later longitude is the larger number. *)
Lemma retrograde_flag_backward_seam (longitude elonNext : Q) :
  longitude <= elonNext -> retrograde_flag longitude elonNext = false.
Proof.
  intros H. apply not_true_is_false. rewrite retrograde_flag_true. lra.
Qed.

(** ** Executable stand-ins for the two libraries

    Rational functions that satisfy the interfaces: truncated series for
    the cosine and the sine, a bounded rational arctangent, and a linear
    ephemeris with one body that moves backwards.  They make the service
    run inside the kernel; they are not approximations anyone relies on. *)

Module StandIn.

Definition PI : Q := 355 # 113.

(** The rational point of the unit circle with parameter [x / 2]. *)
Definition cos (x : Q) : Q := (4 - x * x) / (4 + x * x).
Definition sin (x : Q) : Q := 4 * x / (4 + x * x).
Definition tan (x : Q) : Q := sin x / cos x.

(** A strictly increasing map of the line onto (-PI/2, PI/2). *)
Definition atan (t : Q) : Q := PI / 2 * (t / (1 + Qabs t)).

Definition atan2 (y x : Q) : Q :=
  if decide (0 < x) then atan (y / x)
  else if decide (x < 0) then
    if decide (0 <= y) then atan (y / x) + PI else atan (y / x) - PI
  else if decide (0 < y) then PI / 2
  else if decide (y < 0) then - (PI / 2)
  else 0.

#[export] Instance cos_proper : Proper (Qeq ==> Qeq) cos.
Proof. intros x y E. unfold cos. now rewrite E. Qed.

#[export] Instance sin_proper : Proper (Qeq ==> Qeq) sin.
Proof. intros x y E. unfold sin. now rewrite E. Qed.

#[export] Instance tan_proper : Proper (Qeq ==> Qeq) tan.
Proof. intros x y E. unfold tan. now rewrite E. Qed.

#[export] Instance atan_proper : Proper (Qeq ==> Qeq) atan.
Proof. intros x y E. unfold atan. now rewrite E. Qed.

#[export] Instance atan2_proper : Proper (Qeq ==> Qeq ==> Qeq) atan2.
Proof.
  intros y y' Ey x x' Ex. unfold atan2.
  repeat case_decide; try lra; now rewrite ?Ey, ?Ex.
Qed.

(** The fraction [t / (1 + |t|)] lies strictly between -1 and 1 and has
    the sign of [t]. *)
Lemma squash_bounds (t : Q) :
  -1 < t / (1 + Qabs t) /\ t / (1 + Qabs t) < 1 /\
  (0 <= t -> 0 <= t / (1 + Qabs t)) /\ (t <= 0 -> t / (1 + Qabs t) <= 0).
Proof.
  pose proof (Qabs_nonneg t) as Hn.
  assert (Hd : 0 < 1 + Qabs t) by lra.
  destruct (Math_abs_cases t) as [[H0 E]|[H0 E]]; unfold Math_abs in E;
    (split_and!;
      [ apply Qlt_shift_div_l; lra | apply Qlt_shift_div_r; lra
      | intros ?; apply Qle_shift_div_l; lra
      | intros ?; apply Qle_shift_div_r; lra ]).
Qed.

Lemma atan_bounds (t : Q) :
  - (PI / 2) < atan t /\ atan t < PI / 2 /\
  (0 <= t -> 0 <= atan t) /\ (t <= 0 -> atan t <= 0).
Proof.
  destruct (squash_bounds t) as (H1 & H2 & H3 & H4). unfold atan.
  set (s := t / (1 + Qabs t)) in *. unfold PI.
  split_and!; [qlra | qlra | intros H; specialize (H3 H); qlra
              | intros H; specialize (H4 H); qlra].
Qed.

(** The sign of a quotient by a negative number. *)
Lemma Qdiv_neg_sign (y x : Q) :
  x < 0 -> (0 <= y -> y / x <= 0) /\ (y <= 0 -> 0 <= y / x).
Proof.
  intros Hx. assert (E : y / x == (- y) / (- x)) by (field; lra).
  rewrite E. split; intros Hy;
    [apply Qle_shift_div_r | apply Qle_shift_div_l]; lra.
Qed.

Lemma atan2_range (y x : Q) : - PI <= atan2 y x /\ atan2 y x <= PI.
Proof.
  unfold atan2.
  destruct (atan_bounds (y / x)) as (H1 & H2 & H3 & H4).
  assert (HPI : PI == 355 # 113) by reflexivity.
  repeat case_decide;
    try (destruct (Qdiv_neg_sign y x) as [Hs1 Hs2]; [done|]);
    set (a := atan (y / x)) in *; clearbody a; qconst;
    try specialize (Hs1 ltac:(lra)); try specialize (Hs2 ltac:(lra)); lra.
Qed.

Lemma cos_sin (x : Q) : cos x * cos x + sin x * sin x == 1.
Proof. unfold cos, sin. field. nra. Qed.

#[export] Instance trig : MathTrig := {|
  Math_PI := PI;
  Math_cos := cos;
  Math_sin := sin;
  Math_tan := tan;
  Math_atan2 := atan2;
  Math_PI_pos := eq_refl;
  Math_atan2_range := atan2_range;
  Math_cos_0 := eq_refl;
  Math_sin_0 := eq_refl;
  Math_tan_0 := eq_refl;
  Math_atan2_1_0 := eq_refl;
  Math_cos_sin := cos_sin
|}.

(** Degrees per hour in thousandths, and the longitude at time 0 in
    thousandths of a degree.  Mercury moves backwards. *)
Definition rate (b : Body) : Z :=
  match b with
  | Sun => 41 | Moon => 549 | Mercury => -50 | Venus => 67 | Mars => 22
  | Jupiter => 3 | Saturn => 1 | Uranus => 1 | Neptune => 1 | Pluto => 1
  end%Z.

Definition start (b : Body) : Z :=
  match b with
  | Sun => 280460 | Moon => 218316 | Mercury => 252250 | Venus => 181979
  | Mars => 355433 | Jupiter => 34351 | Saturn => 50077 | Uranus => 314055
  | Neptune => 304348 | Pluto => 238929
  end%Z.

Definition elon (b : Body) (t : Z) : Q :=
  inject_Z ((start b + rate b * (t / 3600000)) mod 360000) / 1000.

Definition gmst (t : Z) : Q := inject_Z (t mod 86400000) / 3600000.

Lemma elon_range (b : Body) (t : Z) : 0 <= elon b t /\ elon b t < 360.
Proof.
  unfold elon.
  pose proof (Z.mod_pos_bound (start b + rate b * (t / 3600000)) 360000 eq_refl)
    as [H0 H1].
  rewrite Zle_Qle in H0. rewrite Zlt_Qlt in H1.
  split; [apply Qle_shift_div_l | apply Qlt_shift_div_r]; qlra.
Qed.

#[export] Instance astro : AstronomyEngine := {|
  SiderealTime := gmst;
  EclipticLongitude := elon;
  EclipticLongitude_range := elon_range
|}.

End StandIn.

(** ** Instances

    The theorems above that have hypotheses, at inputs where the
    hypotheses hold. *)

Lemma getZodiacInfo_correct_witness :
  exists z : ZodiacSign.t,
    ZodiacInfo.sign (getZodiacInfo 95) = Some z /\ z ∈ ZODIAC_SIGNS /\
    ZodiacSign.startDegree z <= 95 /\ 95 < ZodiacSign.startDegree z + 30 /\
    ZodiacInfo.relativeDegree (getZodiacInfo 95) == 95 - ZodiacSign.startDegree z.
Proof. apply (getZodiacInfo_correct 95); lra. Defined.

Lemma getZodiacInfo_undefined_witness :
  ZodiacInfo.sign (getZodiacInfo (-400)) = None.
Proof. apply (getZodiacInfo_undefined (-400)); lra. Defined.

Lemma house_of_bijective_witness :
  house_of 3 3 = 1%Z /\
  (forall s, (0 <= s < 12)%Z -> (1 <= house_of s 3 <= 12)%Z) /\
  (forall s s', (0 <= s < 12)%Z -> (0 <= s' < 12)%Z ->
     house_of s 3 = house_of s' 3 -> s = s') /\
  (forall h, (1 <= h <= 12)%Z -> exists s, (0 <= s < 12)%Z /\ house_of s 3 = h).
Proof. apply (house_of_bijective 3). lia. Defined.

Lemma retrograde_flag_backward_seam_witness : retrograde_flag 1 359 = false.
Proof. apply (retrograde_flag_backward_seam 1 359). lra. Defined.
