(* ===== verification/Aspects.v ===== *)
(** * Aspects: calculateAspects (astronomyService.ts, lines 147-181)

    [src/unnamed/part_003].  For every planet of the first chart and every
    planet of the second: the shortest angle between the two longitudes,
    the first band of the chain conjunction, sextile, square, trine,
    opposition that contains it, and the distance to the band's centre as
    the orb.  The records are sorted by orb and the first eight kept.

    The aspect's name is a string in the source; here the five names are
    the constructors of [Aspect] and [Aspect_name] gives the string that
    goes into the record. *)

From Stdlib Require Import QArith Qround Qabs Qminmax Lqa Lia ZArith.
From stdpp Require Import base tactics decidable option list sorting strings.
From S2P Require Import Prelude Types.

#[local] Open Scope string_scope.
#[local] Open Scope Q_scope.

(** ** Definitions *)

Inductive Aspect : Type := Conjunction | Sextile | Square | Trine | Opposition.

#[export] Instance Aspect_eq_dec : EqDecision Aspect.
Proof. solve_decision. Defined.

Definition Aspect_name (ty : Aspect) : string :=
  match ty with
  | Conjunction => "Conjunction" | Sextile => "Sextile" | Square => "Square"
  | Trine => "Trine" | Opposition => "Opposition"
  end.

(** The centre of a band: the nested conditional of line 173. *)
Definition exact_angle (ty : Aspect) : Q :=
  match ty with
  | Conjunction => 0 | Sextile => 60 | Square => 90 | Trine => 120
  | Opposition => 180
  end.

(** [const ORB = 6]. *)
Definition ORB : Q := 6.

(** The tolerance of a band: [ORB], and [ORB * 0.7] for the sextile. *)
Definition orb_of (ty : Aspect) : Q :=
  match ty with Sextile => ORB * 0.7 | _ => ORB end.

(** The shortest distance on the circle (lines 157-158). *)
Definition shortest_angle (a b : Q) : Q :=
  let diff := Math_abs (a - b) in
  if decide (180 < diff) then 360 - diff else diff.

(** The chain of conditionals of lines 160-165; [None] is the empty
    string the source leaves in [type]. *)
Definition classify (angle : Q) : option Aspect :=
  if decide (Math_abs (angle - 0) <= ORB) then Some Conjunction
  else if decide (Math_abs (angle - 60) <= ORB * 0.7) then Some Sextile
  else if decide (Math_abs (angle - 90) <= ORB) then Some Square
  else if decide (Math_abs (angle - 120) <= ORB) then Some Trine
  else if decide (Math_abs (angle - 180) <= ORB) then Some Opposition
  else None.

(** The body of the inner loop: the record pushed for a pair, if any. *)
Definition aspect_of (planetA planetB : CalculatedPlanet.t) : option SynastryAspect.t :=
  let angle :=
    shortest_angle (CalculatedPlanet.degree planetA) (CalculatedPlanet.degree planetB) in
  match classify angle with
  | Some ty =>
      Some (SynastryAspect.mk (CalculatedPlanet.name planetA)
              (CalculatedPlanet.name planetB) (Aspect_name ty) ""
              (Math_abs (angle - exact_angle ty)))
  | None => None
  end.

(** The two nested [forEach]: the records in the order they are pushed. *)
Definition all_aspects (planets1 planets2 : list CalculatedPlanet.t)
    : list SynastryAspect.t :=
  planetA ← planets1; omap (aspect_of planetA) planets2.

(** The comparator [(a, b) => a.orb - b.orb]. *)
Definition by_orb : SynastryAspect.t -> SynastryAspect.t -> Q :=
  by_key SynastryAspect.orb.

Definition calculateAspects (p1 p2 : CalculatedChart.t) : list SynastryAspect.t :=
  slice0 8 (js_sort by_orb
              (all_aspects (CalculatedChart.planets p1) (CalculatedChart.planets p2))).

(** The chain as a table: the bands in the order of the chain, and the
    first whose tolerance contains the angle. *)
Definition bands : list Aspect := [Conjunction; Sextile; Square; Trine; Opposition].

Definition classify_table (angle : Q) : option Aspect :=
  List.find (fun ty => bool_decide (Math_abs (angle - exact_angle ty) <= orb_of ty)) bands.

#[global] Arguments shortest_angle : simpl never.
#[global] Arguments classify : simpl never.

(** ** The shortest angle *)

#[export] Instance shortest_angle_proper : Proper (Qeq ==> Qeq ==> Qeq) shortest_angle.
Proof.
  intros a a' Ea b b' Eb. unfold shortest_angle.
  assert (E : Math_abs (a - b) == Math_abs (a' - b')) by now rewrite Ea, Eb.
  repeat case_decide; lra.
Qed.

Lemma shortest_angle_sym (a b : Q) : shortest_angle a b == shortest_angle b a.
Proof.
  unfold shortest_angle. pose proof (Math_abs_sym a b). repeat case_decide; lra.
Qed.

(** For two longitudes of [0, 360) the shortest angle lies in [0, 180]. *)
Lemma shortest_angle_range (a b : Q) :
  0 <= a -> a < 360 -> 0 <= b -> b < 360 ->
  0 <= shortest_angle a b /\ shortest_angle a b <= 180.
Proof.
  intros Ha0 Ha1 Hb0 Hb1. unfold shortest_angle.
  destruct (Math_abs_cases (a - b)) as [[? E]|[? E]]; case_decide; lra.
Qed.

(** It is the smaller of the two arcs between the longitudes. *)
Lemma shortest_angle_min (a b : Q) :
  0 <= a -> a < 360 -> 0 <= b -> b < 360 ->
  shortest_angle a b == Qmin (Math_abs (a - b)) (360 - Math_abs (a - b)).
Proof.
  intros Ha0 Ha1 Hb0 Hb1. unfold shortest_angle.
  case_decide; [rewrite Q.min_r | rewrite Q.min_l]; lra.
Qed.

(** ** The bands *)

Lemma orb_of_sextile : orb_of Sextile == 4.2.
Proof. reflexivity. Qed.

#[export] Instance classify_proper : Proper (Qeq ==> eq) classify.
Proof.
  intros x y E. unfold classify.
  repeat case_decide; try done; exfalso; abs_intervals; lra.
Qed.

(** The bands do not overlap, so the chain finds the one band that
    contains the angle, whatever the order of its conditions. *)
Lemma classify_Some (angle : Q) (ty : Aspect) :
  classify angle = Some ty <-> Math_abs (angle - exact_angle ty) <= orb_of ty.
Proof.
  unfold classify, orb_of, ORB. destruct ty; cbn [exact_angle];
    repeat case_decide; abs_intervals;
    (split; [intros [=]; try lra | intros ?; try done; exfalso; lra]).
Qed.

(** C8. The chain of conditionals is the first match in the table of bands. *)
Theorem classify_first_match (angle : Q) : classify angle = classify_table angle.
Proof.
  unfold classify, classify_table. cbn [List.find bands exact_angle orb_of].
  repeat (case_decide; [now rewrite bool_decide_eq_true_2 | rewrite bool_decide_eq_false_2 by done]).
  reflexivity.
Qed.

Lemma classify_None (angle : Q) :
  classify angle = None <-> forall ty, orb_of ty < Math_abs (angle - exact_angle ty).
Proof.
  split.
  - intros Hn ty. apply Qnot_le_lt. rewrite <- classify_Some. congruence.
  - intros Hall. destruct (classify angle) as [ty|] eqn:E; [|done].
    apply classify_Some in E. specialize (Hall ty). lra.
Qed.

(** ** One pair *)

Lemma aspect_of_Some (planetA planetB : CalculatedPlanet.t) (x : SynastryAspect.t) :
  aspect_of planetA planetB = Some x <->
  exists ty : Aspect,
    classify (shortest_angle (CalculatedPlanet.degree planetA)
                (CalculatedPlanet.degree planetB)) = Some ty /\
    x = SynastryAspect.mk (CalculatedPlanet.name planetA)
          (CalculatedPlanet.name planetB) (Aspect_name ty) ""
          (Math_abs (shortest_angle (CalculatedPlanet.degree planetA)
                       (CalculatedPlanet.degree planetB) - exact_angle ty)).
Proof.
  unfold aspect_of. destruct (classify _) as [ty|]; split.
  - intros [= <-]. now exists ty.
  - now intros (? & [= <-] & ->).
  - done.
  - now intros (? & [=] & _).
Qed.

(** The orb of a record is within the tolerance of its band, so never
    above 6 degrees. *)
Lemma aspect_of_orb (planetA planetB : CalculatedPlanet.t) (x : SynastryAspect.t) :
  aspect_of planetA planetB = Some x ->
  0 <= SynastryAspect.orb x /\ SynastryAspect.orb x <= ORB.
Proof.
  intros (ty & Hty & ->)%aspect_of_Some. cbn. split; [apply Math_abs_nonneg|].
  apply classify_Some in Hty. destruct ty; unfold orb_of, ORB in *; qlra.
Qed.

(** Swapping the two planets gives the same aspect with the same orb. *)
Definition same_aspect (x y : SynastryAspect.t) : Prop :=
  SynastryAspect.aspectType x = SynastryAspect.aspectType y /\
  SynastryAspect.orb x == SynastryAspect.orb y /\
  SynastryAspect.planetA x = SynastryAspect.planetB y /\
  SynastryAspect.planetB x = SynastryAspect.planetA y.

(** Classification is symmetric: the pair (A,B) and the pair (B,A) get the
    same type and the same orb, with the names exchanged. *)
Lemma aspect_of_sym (planetA planetB : CalculatedPlanet.t) :
  match aspect_of planetA planetB, aspect_of planetB planetA with
  | Some x, Some y => same_aspect x y
  | None, None => True
  | _, _ => False
  end.
Proof.
  unfold aspect_of.
  pose proof (shortest_angle_sym (CalculatedPlanet.degree planetA)
                (CalculatedPlanet.degree planetB)) as E.
  rewrite (classify_proper _ _ E).
  destruct (classify _) as [ty|]; [|done].
  unfold same_aspect. cbn. now rewrite E.
Qed.

(** ** All pairs *)

Lemma elem_of_all_aspects (planets1 planets2 : list CalculatedPlanet.t)
    (x : SynastryAspect.t) :
  x ∈ all_aspects planets1 planets2 <->
  exists planetA planetB,
    planetA ∈ planets1 /\ planetB ∈ planets2 /\ aspect_of planetA planetB = Some x.
Proof.
  unfold all_aspects. rewrite list_elem_of_bind. split.
  - intros (planetA & (planetB & ? & ?)%list_elem_of_omap & ?). eauto.
  - intros (planetA & planetB & ? & ? & ?). exists planetA. split; [|done].
    apply list_elem_of_omap. eauto.
Qed.

Lemma all_aspects_length (planets1 planets2 : list CalculatedPlanet.t) :
  (length (all_aspects planets1 planets2) <= length planets1 * length planets2)%nat.
Proof.
  unfold all_aspects. induction planets1 as [|planetA l IH]; cbn; [done|].
  rewrite length_app. pose proof (length_omap_le (aspect_of planetA) planets2). lia.
Qed.

(** ** The sorted, truncated list *)

Section Calculated.
Context (p1 p2 : CalculatedChart.t).

Let all : list SynastryAspect.t :=
  all_aspects (CalculatedChart.planets p1) (CalculatedChart.planets p2).

Lemma calculateAspects_length :
  length (calculateAspects p1 p2) = Nat.min 8 (length all).
Proof. unfold calculateAspects, slice0. now rewrite length_take, js_sort_length. Qed.

Lemma calculateAspects_at_most_8 : (length (calculateAspects p1 p2) <= 8)%nat.
Proof. rewrite calculateAspects_length. lia. Qed.

(** C32. The list comes out in ascending order of orb. *)
Lemma calculateAspects_sorted :
  StronglySorted (fun a b => SynastryAspect.orb a <= SynastryAspect.orb b)
    (calculateAspects p1 p2).
Proof.
  unfold calculateAspects, slice0.
  pose proof (js_sort_by_key_Sorted SynastryAspect.orb all) as Hs.
  rewrite <- (take_drop 8) in Hs. now apply StronglySorted_app in Hs as (_ & ? & _).
Qed.

(** C3. What is kept and what is cut: every record kept has an orb at most
    that of every record cut. *)
Lemma calculateAspects_tightest :
  exists rest : list SynastryAspect.t,
    all ≡ₚ calculateAspects p1 p2 ++ rest /\
    forall x y, x ∈ calculateAspects p1 p2 -> y ∈ rest ->
      SynastryAspect.orb x <= SynastryAspect.orb y.
Proof.
  exists (drop 8 (js_sort by_orb all)). unfold calculateAspects, slice0. fold all.
  rewrite take_drop. split; [now rewrite js_sort_Permutation|].
  pose proof (js_sort_by_key_Sorted SynastryAspect.orb all) as Hs.
  rewrite <- (take_drop 8) in Hs. now apply StronglySorted_app in Hs as (? & _).
Qed.

(** Every record kept is the aspect of a pair of planets of the charts. *)
Lemma calculateAspects_sound (x : SynastryAspect.t) :
  x ∈ calculateAspects p1 p2 ->
  exists planetA planetB,
    planetA ∈ CalculatedChart.planets p1 /\ planetB ∈ CalculatedChart.planets p2 /\
    aspect_of planetA planetB = Some x.
Proof.
  unfold calculateAspects, slice0. intros Hx%subseteq_take.
  now apply js_sort_elem_of, elem_of_all_aspects in Hx.
Qed.

Lemma calculateAspects_orb (x : SynastryAspect.t) :
  x ∈ calculateAspects p1 p2 ->
  0 <= SynastryAspect.orb x /\ SynastryAspect.orb x <= ORB.
Proof.
  intros (planetA & planetB & _ & _ & H)%calculateAspects_sound.
  now apply aspect_of_orb in H.
Qed.

(** Every record kept names a planet of each chart, in this order, with
    the type of the band their shortest angle falls in and the distance
    to the centre of that band as its orb, which the tolerance of the
    band bounds. *)
Theorem calculateAspects_pairs (x : SynastryAspect.t) :
  x ∈ calculateAspects p1 p2 ->
  exists (planetA planetB : CalculatedPlanet.t) (ty : Aspect),
    planetA ∈ CalculatedChart.planets p1 /\ planetB ∈ CalculatedChart.planets p2 /\
    SynastryAspect.planetA x = CalculatedPlanet.name planetA /\
    SynastryAspect.planetB x = CalculatedPlanet.name planetB /\
    SynastryAspect.aspectType x = Aspect_name ty /\
    classify (shortest_angle (CalculatedPlanet.degree planetA)
                (CalculatedPlanet.degree planetB)) = Some ty /\
    SynastryAspect.orb x =
      Math_abs (shortest_angle (CalculatedPlanet.degree planetA)
                  (CalculatedPlanet.degree planetB) - exact_angle ty) /\
    0 <= SynastryAspect.orb x /\ SynastryAspect.orb x <= orb_of ty.
Proof.
  intros (planetA & planetB & HA & HB & H)%calculateAspects_sound.
  apply aspect_of_Some in H as (ty & Hty & ->). exists planetA, planetB, ty. cbn.
  split_and!; try done; [apply Math_abs_nonneg | now apply classify_Some].
Qed.

(** When at most eight pairs are in aspect nothing is lost. *)
Lemma calculateAspects_complete :
  (length all <= 8)%nat -> calculateAspects p1 p2 ≡ₚ all.
Proof.
  intros Hlen. unfold calculateAspects, slice0. fold all.
  rewrite take_ge by (rewrite js_sort_length; lia). apply js_sort_Permutation.
Qed.

End Calculated.

(** ** Concrete pairs *)

Definition planet_at (name : string) (degree : Q) : CalculatedPlanet.t :=
  CalculatedPlanet.mk name "" "" "" degree 0 1 false.

(** Longitudes 10 and 70 are 60 degrees apart: a sextile of orb 0. *)
Example aspect_10_70 :
  aspect_of (planet_at "A" 10) (planet_at "B" 70)
  = Some (SynastryAspect.mk "A" "B" "Sextile" "" 0).
Proof. vm_compute. reflexivity. Qed.

(** Longitudes 95 and 300 are 155 degrees apart: no aspect. *)
Example aspect_95_300 : aspect_of (planet_at "A" 95) (planet_at "B" 300) = None.
Proof. vm_compute. reflexivity. Qed.

(** The bands are closed: exactly 6 degrees from the centre still counts,
    and so does 4.2 degrees from a sextile. *)
Example classify_boundary :
  classify 6 = Some Conjunction /\ classify 64.2 = Some Sextile /\
  classify 174 = Some Opposition /\ classify 64.3 = None.
Proof. vm_compute. repeat split. Qed.

(** Two charts of three planets each: the four aspects come out by orb,
    and the pair pushed first stands first among equal orbs. *)
Definition chart_of (planets : list CalculatedPlanet.t) : CalculatedChart.t :=
  CalculatedChart.mk planets (Rising.mk "Aries" "" 0)
    (ElementalBalance.mk 0 0 0 0) (BigThree.mk "" "" "").

Example calculateAspects_run :
  (fun x => (SynastryAspect.planetA x, SynastryAspect.planetB x,
             SynastryAspect.aspectType x, Qred (SynastryAspect.orb x)))
  <$> calculateAspects
        (chart_of [planet_at "Sun" 10; planet_at "Moon" 100; planet_at "Mars" 200])
        (chart_of [planet_at "Sun" 72; planet_at "Moon" 190; planet_at "Mars" 13])
  = [("Sun", "Moon", "Opposition", 0); ("Moon", "Moon", "Square", 0);
     ("Sun", "Sun", "Sextile", 2); ("Sun", "Mars", "Conjunction", 3);
     ("Moon", "Mars", "Square", 3)].
Proof. vm_compute. reflexivity. Qed.

(** ** Instances *)

Definition chart1 : CalculatedChart.t :=
  chart_of [planet_at "Sun" 10; planet_at "Moon" 100; planet_at "Mars" 200].

Definition chart2 : CalculatedChart.t :=
  chart_of [planet_at "Sun" 72; planet_at "Moon" 190; planet_at "Mars" 13].

Lemma calculateAspects_complete_witness :
  calculateAspects chart1 chart2
  ≡ₚ all_aspects (CalculatedChart.planets chart1) (CalculatedChart.planets chart2).
Proof. apply (calculateAspects_complete chart1 chart2). vm_compute. lia. Defined.

Lemma calculateAspects_pairs_witness :
  exists (planetA planetB : CalculatedPlanet.t) (ty : Aspect),
    planetA ∈ CalculatedChart.planets chart1 /\
    planetB ∈ CalculatedChart.planets chart2 /\
    CalculatedPlanet.name planetA = "Sun" /\ CalculatedPlanet.name planetB = "Moon" /\
    Aspect_name ty = "Opposition".
Proof.
  destruct (calculateAspects_pairs chart1 chart2
              (SynastryAspect.mk "Sun" "Moon" "Opposition" ""
                 (Math_abs (shortest_angle 10 190 - 180))))
    as (planetA & planetB & ty & HA & HB & EA & EB & ET & _).
  - apply (list_elem_of_lookup_2 _ 0%nat). vm_compute. reflexivity.
  - exists planetA, planetB, ty. cbn in EA, EB, ET. now split_and!.
Defined.
