(* ===== verification/Layout.v ===== *)
(** * Layout: resolveCollisions (ZodiacWheel.tsx, lines 13-71)

    [src/unnamed/part_001].  The planets are sorted by degree; one pass
    over the sorted array computes, for the planet at index [i], whether it
    is isolated (no ring neighbour closer than 15 degrees) and its track:
    the smallest number that no planet among the four processed just
    before it, and closer than [minDeg], already has.  After the pass the
    first planet is moved one track up when it collides with the last.

    - the array [withTracks] that the pass pushes to is the accumulator of
      [forEach_tracks], which carries the index [i] beside it;
    - [usedTracks], a [Set<number>], is a [gset nat];
    - the loop [while (usedTracks.has(track)) track++] is [first_free],
      run with fuel [S (size used)]; [first_free_spec] shows that this fuel
      always reaches the exit of the loop. *)

From Stdlib Require Import QArith Qround Qabs Lqa Lia ZArith.
From stdpp Require Import base tactics decidable option list sorting strings gmap.
From S2P Require Import Prelude Types.

#[local] Open Scope Q_scope.

(** ** Definitions *)

(** [PlanetPosition & { track: number; isIsolated: boolean }]. *)
Module Tracked.
Record t : Type := mk {
  planet : PlanetPosition.t;
  track : nat;
  isIsolated : bool
}.

Definition degree (x : t) : Q := PlanetPosition.degree (planet x).

(** [x.track = n]. *)
Definition set_track (x : t) (n : nat) : t := mk (planet x) n (isIsolated x).
End Tracked.

(** The comparator [(a, b) => a.degree - b.degree]. *)
Definition by_degree : PlanetPosition.t -> PlanetPosition.t -> Q :=
  by_key PlanetPosition.degree.

(** [getDist]: the distance of two degrees on the circle. *)
Definition getDist (d1 d2 : Q) : Q :=
  let diff := Math_abs (d1 - d2) in
  if decide (180 < diff) then 360 - diff else diff.

(** Lines 29-39: the neighbours on the sorted ring and the isolation
    flag.  [i] and the length are integer numbers; the two reads of
    [sorted] are inside the array whenever it is not empty. *)
Definition isolated (sorted : list PlanetPosition.t) (i : Z)
    (planet : PlanetPosition.t) : bool :=
  let len := Z.of_nat (length sorted) in
  let prev := js_index sorted (Z.rem (i - 1 + len) len) in
  let next := js_index sorted (Z.rem (i + 1) len) in
  if decide (1 < len)%Z then
    match prev, next with
    | Some prev, Some next =>
        let dPrev := getDist (PlanetPosition.degree planet) (PlanetPosition.degree prev) in
        let dNext := getDist (PlanetPosition.degree planet) (PlanetPosition.degree next) in
        if bool_decide (dPrev < 15) || bool_decide (dNext < 15) then false else true
    | _, _ => true
    end
  else true.

(** Lines 42-52: the tracks of the planets, among the four processed
    before index [i], that are closer than [minDeg]. *)
Definition lookback_one (withTracks : list Tracked.t) (minDeg : Q) (i : Z)
    (planet : PlanetPosition.t) (j : Z) : option nat :=
  if decide (0 <= i - j)%Z then
    match js_index withTracks (i - j) with
    | Some prevProcessed =>
        if decide (getDist (PlanetPosition.degree planet) (Tracked.degree prevProcessed)
                   < minDeg)
        then Some (Tracked.track prevProcessed) else None
    | None => None
    end
  else None.

Definition usedTracks (withTracks : list Tracked.t) (minDeg : Q) (i : Z)
    (planet : PlanetPosition.t) : gset nat :=
  list_to_set (omap (lookback_one withTracks minDeg i planet) [1; 2; 3; 4]%Z).

(** Lines 55-56: [let track = 0; while (usedTracks.has(track)) track++]. *)
Fixpoint first_free_from (fuel : nat) (used : gset nat) (track : nat) : nat :=
  match fuel with
  | O => track
  | S fuel' =>
      if decide (track ∈ used) then first_free_from fuel' used (S track) else track
  end.

Definition first_free (used : gset nat) : nat :=
  first_free_from (S (size used)) used 0.

(** The record pushed at index [i]. *)
Definition entry (sorted : list PlanetPosition.t) (minDeg : Q)
    (withTracks : list Tracked.t) (i : Z) (planet : PlanetPosition.t) : Tracked.t :=
  Tracked.mk planet (first_free (usedTracks withTracks minDeg i planet))
    (isolated sorted i planet).

(** [sorted.forEach((planet, i) => ...)]: [rest] is what is left to
    visit, [i] the index of its head, [withTracks] what was pushed. *)
Fixpoint forEach_tracks (sorted : list PlanetPosition.t) (minDeg : Q)
    (rest : list PlanetPosition.t) (i : Z) (withTracks : list Tracked.t)
    : list Tracked.t :=
  match rest with
  | [] => withTracks
  | planet :: rest' =>
      forEach_tracks sorted minDeg rest' (i + 1)
        (withTracks ++ [entry sorted minDeg withTracks i planet])
  end.

(** The array after the pass over the whole of [sorted]. *)
Definition pass (sorted : list PlanetPosition.t) (minDeg : Q) : list Tracked.t :=
  forEach_tracks sorted minDeg sorted 0 [].

(** Lines 62-68: the wrap-around patch. *)
Definition patch_wrap (minDeg : Q) (withTracks : list Tracked.t) : list Tracked.t :=
  if decide (1 < length withTracks)%nat then
    match withTracks !! 0%nat, last withTracks with
    | Some first, Some last =>
        if bool_decide (getDist (Tracked.degree first) (Tracked.degree last) < minDeg)
           && bool_decide (Tracked.track first = Tracked.track last)
        then <[0%nat := Tracked.set_track first (Tracked.track first + 1)]> withTracks
        else withTracks
    | _, _ => withTracks
    end
  else withTracks.

Definition resolveCollisions (planets : list PlanetPosition.t) (minDeg : Q)
    : list Tracked.t :=
  let sorted := js_sort by_degree planets in
  patch_wrap minDeg (pass sorted minDeg).

(** The default argument [minDeg = 6]. *)
Definition resolveCollisions_default (planets : list PlanetPosition.t) : list Tracked.t :=
  resolveCollisions planets 6.

(** What the pass establishes of the array it pushes to: the entry at
    index [k] is the record computed from the [k] entries before it. *)
Definition built (sorted : list PlanetPosition.t) (minDeg : Q)
    (withTracks : list Tracked.t) : Prop :=
  forall (k : nat) (e : Tracked.t), withTracks !! k = Some e ->
    e = entry sorted minDeg (take k withTracks) (Z.of_nat k) (Tracked.planet e).

(** A planet of which only the degree matters, for the examples. *)
Definition at_degree (d : Q) : PlanetPosition.t :=
  PlanetPosition.mk "" "" "" "" d 0 1 false "".

#[global] Arguments getDist : simpl never.
#[global] Arguments first_free : simpl never.
#[global] Arguments isolated : simpl never.
#[global] Arguments usedTracks : simpl never.

(** ** The distance on the circle *)

#[export] Instance getDist_proper : Proper (Qeq ==> Qeq ==> Qeq) getDist.
Proof.
  intros a a' Ea b b' Eb. unfold getDist.
  assert (E : Math_abs (a - b) == Math_abs (a' - b')) by now rewrite Ea, Eb.
  repeat case_decide; lra.
Qed.

Lemma getDist_sym (d1 d2 : Q) : getDist d1 d2 == getDist d2 d1.
Proof.
  unfold getDist. pose proof (Math_abs_sym d1 d2). repeat case_decide; lra.
Qed.

Lemma getDist_self (d : Q) : getDist d d == 0.
Proof.
  unfold getDist. destruct (Math_abs_cases (d - d)) as [[? E]|[? E]];
    case_decide; lra.
Qed.

Lemma getDist_range (d1 d2 : Q) :
  0 <= d1 -> d1 < 360 -> 0 <= d2 -> d2 < 360 ->
  0 <= getDist d1 d2 /\ getDist d1 d2 <= 180.
Proof.
  intros ? ? ? ?. unfold getDist.
  destruct (Math_abs_cases (d1 - d2)) as [[? E]|[? E]]; case_decide; lra.
Qed.

(** ** The first free track *)

(** A set that holds every number below [t] has at least [t] elements. *)
Lemma size_ge_initial_segment (used : gset nat) (t : nat) :
  (forall j, (j < t)%nat -> j ∈ used) -> (t <= size used)%nat.
Proof.
  intros Hall. rewrite <- (size_set_seq (C := gset nat) 0 t).
  apply subseteq_size. intros j Hj%elem_of_set_seq. apply Hall. lia.
Qed.

(** The loop from [track] with enough fuel stops at the least number not
    in the set. *)
Lemma first_free_from_spec (fuel : nat) (used : gset nat) (track : nat) :
  (forall j, (j < track)%nat -> j ∈ used) ->
  (size used < fuel + track)%nat ->
  (first_free_from fuel used track ∉ used) /\
  (forall j, (j < first_free_from fuel used track)%nat -> j ∈ used).
Proof.
  revert track. induction fuel as [|fuel IH]; intros track Hbelow Hfuel; cbn.
  - pose proof (size_ge_initial_segment used track Hbelow). lia.
  - case_decide as Hin; [|done].
    apply IH; [|lia]. intros j Hj.
    destruct (decide (j = track)) as [->|]; [done | apply Hbelow; lia].
Qed.

(** [first_free] returns the least number that is not in the set: the
    fuel [S (size used)] is enough for the loop to leave. *)
Lemma first_free_spec (used : gset nat) :
  (first_free used ∉ used) /\ (forall j, (j < first_free used)%nat -> j ∈ used).
Proof. apply first_free_from_spec; [lia | lia]. Qed.

(** C9. [first_free] is the least number that is not in the set, and the
    only number with that property. *)
Theorem first_free_least (used : gset nat) (n : nat) :
  first_free used = n <-> (n ∉ used) /\ (forall j, (j < n)%nat -> j ∈ used).
Proof.
  destruct (first_free_spec used) as [H1 H2]. split; [now intros <-|].
  intros [H3 H4].
  destruct (Nat.lt_trichotomy (first_free used) n) as [Hlt|[?|Hgt]]; [|done|].
  - now apply H4 in Hlt.
  - now apply H2 in Hgt.
Qed.

Lemma first_free_le_size (used : gset nat) : (first_free used <= size used)%nat.
Proof. apply size_ge_initial_segment, first_free_spec. Qed.

Lemma first_free_empty : first_free ∅ = 0%nat.
Proof. reflexivity. Qed.

(** C29. More fuel does not change the result: the loop has left. *)
Lemma first_free_fuel_enough (used : gset nat) (fuel : nat) :
  (size used < fuel)%nat -> first_free_from fuel used 0 = first_free used.
Proof.
  intros Hfuel.
  destruct (first_free_from_spec fuel used 0) as [H1 H2]; [lia | lia |].
  destruct (first_free_spec used) as [H3 H4].
  destruct (Nat.lt_trichotomy (first_free_from fuel used 0) (first_free used))
    as [Hlt|[?|Hgt]]; [|done|].
  - now apply H4 in Hlt.
  - now apply H2 in Hgt.
Qed.

(** ** The look-back window *)

Lemma elem_of_usedTracks (withTracks : list Tracked.t) (minDeg : Q) (i : Z)
    (planet : PlanetPosition.t) (n : nat) :
  n ∈ usedTracks withTracks minDeg i planet <->
  exists (j : Z) (prevProcessed : Tracked.t),
    (1 <= j <= 4)%Z /\ (0 <= i - j)%Z /\
    withTracks !! Z.to_nat (i - j) = Some prevProcessed /\
    getDist (PlanetPosition.degree planet) (Tracked.degree prevProcessed) < minDeg /\
    Tracked.track prevProcessed = n.
Proof.
  unfold usedTracks. rewrite elem_of_list_to_set, list_elem_of_omap. split.
  - intros (j & Hj & Hone). exists j. unfold lookback_one in Hone.
    case_decide as Hij; [|done].
    destruct (js_index withTracks (i - j)) as [prev|] eqn:Hprev; [|done].
    case_decide as Hd; [|done]. injection Hone as <-.
    apply js_index_Some in Hprev as [_ Hprev]. exists prev.
    split_and!; try done; rewrite !elem_of_cons, elem_of_nil in Hj; lia.
  - intros (j & prev & Hj & Hij & Hprev & Hd & <-). exists j. split.
    + rewrite !elem_of_cons. lia.
    + unfold lookback_one. rewrite decide_True by done.
      rewrite (proj2 (js_index_Some _ _ _) (conj Hij Hprev)).
      now rewrite decide_True.
Qed.

Lemma size_list_to_set_length (l : list nat) :
  (size (list_to_set (C := gset nat) l) <= length l)%nat.
Proof.
  induction l as [|x l IH]; cbn; [now rewrite size_empty|].
  rewrite size_union_alt, size_singleton.
  pose proof (subseteq_size (list_to_set l ∖ {[x]}) (list_to_set (C := gset nat) l)
                (subseteq_difference_l _ _ _ (reflexivity _))). lia.
Qed.

Lemma usedTracks_size (withTracks : list Tracked.t) (minDeg : Q) (i : Z)
    (planet : PlanetPosition.t) :
  (size (usedTracks withTracks minDeg i planet) <= 4)%nat.
Proof.
  unfold usedTracks.
  etransitivity; [apply size_list_to_set_length|].
  etransitivity; [apply length_omap_le | done].
Qed.

(** ** The pass over the sorted array *)

Section Pass.
Context (sorted : list PlanetPosition.t) (minDeg : Q).

Lemma built_nil : built sorted minDeg [].
Proof. intros k e H. now rewrite lookup_nil in H. Qed.

Lemma built_snoc (withTracks : list Tracked.t) (planet : PlanetPosition.t) :
  built sorted minDeg withTracks ->
  built sorted minDeg
    (withTracks ++ [entry sorted minDeg withTracks (Z.of_nat (length withTracks)) planet]).
Proof.
  intros Hb k e Hk. destruct (decide (k < length withTracks)%nat) as [Hlt|Hge].
  - rewrite lookup_app_l in Hk by done.
    rewrite take_app_le by lia. now apply Hb.
  - rewrite lookup_app_r in Hk by lia.
    destruct (k - length withTracks)%nat as [|n] eqn:E; [|now destruct n].
    assert (k = length withTracks) as -> by lia.
    injection Hk as <-. now rewrite take_app_length.
Qed.

Lemma forEach_tracks_spec (rest : list PlanetPosition.t) (withTracks : list Tracked.t) :
  built sorted minDeg withTracks ->
  let result :=
    forEach_tracks sorted minDeg rest (Z.of_nat (length withTracks)) withTracks in
  built sorted minDeg result /\
  Tracked.planet <$> result = (Tracked.planet <$> withTracks) ++ rest.
Proof.
  revert withTracks. induction rest as [|planet rest IH]; intros withTracks Hb; cbn.
  - now rewrite app_nil_r.
  - specialize (IH _ (built_snoc withTracks planet Hb)).
    rewrite length_app, Nat2Z.inj_add in IH. cbn in IH.
    rewrite fmap_app, <- app_assoc in IH. exact IH.
Qed.

End Pass.

Section PassFacts.
Context (sorted : list PlanetPosition.t) (minDeg : Q).

Let tracked := pass sorted minDeg.

Lemma pass_built : built sorted minDeg tracked.
Proof. apply (forEach_tracks_spec sorted minDeg sorted []), built_nil. Qed.

(** The pass keeps the planets and their order. *)
Lemma pass_planets : Tracked.planet <$> tracked = sorted.
Proof. apply (forEach_tracks_spec sorted minDeg sorted []), built_nil. Qed.

Lemma pass_length : length tracked = length sorted.
Proof.
  transitivity (length (Tracked.planet <$> tracked));
    [now rewrite length_fmap | now rewrite pass_planets].
Qed.

Lemma pass_lookup (k : nat) (e : Tracked.t) :
  tracked !! k = Some e -> sorted !! k = Some (Tracked.planet e).
Proof. intros H. now rewrite <- pass_planets, list_lookup_fmap, H. Qed.

(** The track of the entry at index [k] is the first free track of its
    look-back window. *)
Lemma pass_track (k : nat) (e : Tracked.t) :
  tracked !! k = Some e ->
  Tracked.track e =
    first_free (usedTracks (take k tracked) minDeg (Z.of_nat k) (Tracked.planet e)).
Proof. intros H. now rewrite (pass_built k e H) at 1. Qed.

Lemma pass_isIsolated (k : nat) (e : Tracked.t) :
  tracked !! k = Some e ->
  Tracked.isIsolated e = isolated sorted (Z.of_nat k) (Tracked.planet e).
Proof. intros H. now rewrite (pass_built k e H) at 1. Qed.

(** No entry shares its track with one of the four entries before it that
    is closer than [minDeg]. *)
Lemma pass_window_safe (k j : nat) (a b : Tracked.t) :
  (1 <= j <= 4)%nat -> (j <= k)%nat ->
  tracked !! k = Some a -> tracked !! (k - j)%nat = Some b ->
  getDist (Tracked.degree a) (Tracked.degree b) < minDeg ->
  Tracked.track a <> Tracked.track b.
Proof.
  intros Hj Hjk Ha Hb Hd Heq.
  destruct (first_free_spec
              (usedTracks (take k tracked) minDeg (Z.of_nat k) (Tracked.planet a)))
    as [Hfree _].
  apply Hfree. rewrite <- (pass_track k a Ha), Heq.
  apply elem_of_usedTracks. exists (Z.of_nat j), b.
  replace (Z.to_nat (Z.of_nat k - Z.of_nat j)) with (k - j)%nat by lia.
  split_and!; try done; try lia. rewrite lookup_take_lt by lia. exact Hb.
Qed.

(** The track is the least that is free: a smaller one is held by an entry
    of the window that is closer than [minDeg]. *)
Lemma pass_track_least (k : nat) (a : Tracked.t) (n : nat) :
  tracked !! k = Some a -> (n < Tracked.track a)%nat ->
  exists (j : nat) (b : Tracked.t),
    (1 <= j <= 4)%nat /\ (j <= k)%nat /\ tracked !! (k - j)%nat = Some b /\
    getDist (Tracked.degree a) (Tracked.degree b) < minDeg /\ Tracked.track b = n.
Proof.
  intros Ha Hn. rewrite (pass_track k a Ha) in Hn.
  apply first_free_spec, elem_of_usedTracks in Hn
    as (j & b & Hj & Hjk & Hb & Hd & Ht).
  exists (Z.to_nat j), b. apply lookup_take_Some in Hb as [Hb _].
  replace (k - Z.to_nat j)%nat with (Z.to_nat (Z.of_nat k - j)) by lia.
  split_and!; try done; lia.
Qed.

(** A track of the pass is at most the number of entries before it, and
    at most four. *)
Lemma pass_track_bound (k : nat) (a : Tracked.t) :
  tracked !! k = Some a -> (Tracked.track a <= 4)%nat /\ (Tracked.track a <= k)%nat.
Proof.
  intros Ha. split.
  - rewrite (pass_track k a Ha).
    etransitivity; [apply first_free_le_size | apply usedTracks_size].
  - revert a Ha. induction k as [k IH] using lt_wf_ind. intros a Ha.
    destruct (decide (Tracked.track a <= k)%nat) as [|Hgt]; [done|].
    destruct (pass_track_least k a k Ha) as (j & b & Hj & Hjk & Hb & _ & Ht); [lia|].
    pose proof (IH (k - j)%nat ltac:(lia) b Hb). lia.
Qed.

End PassFacts.

(** ** The isolation flag *)

Lemma isolated_single (sorted : list PlanetPosition.t) (i : Z) (planet : PlanetPosition.t) :
  (length sorted <= 1)%nat -> isolated sorted i planet = true.
Proof. intros H. unfold isolated. rewrite decide_False by lia. reflexivity. Qed.

(** With two planets or more, the planet at index [i] is isolated exactly
    when its two neighbours on the sorted ring are 15 degrees away or
    more. *)
Lemma isolated_spec (sorted : list PlanetPosition.t) (i : nat) (planet : PlanetPosition.t) :
  let len := length sorted in
  (1 < len)%nat -> (i < len)%nat ->
  exists prev next : PlanetPosition.t,
    sorted !! ((i + len - 1) mod len)%nat = Some prev /\
    sorted !! ((i + 1) mod len)%nat = Some next /\
    (isolated sorted (Z.of_nat i) planet = true <->
     15 <= getDist (PlanetPosition.degree planet) (PlanetPosition.degree prev) /\
     15 <= getDist (PlanetPosition.degree planet) (PlanetPosition.degree next)).
Proof.
  intros len Hlen Hi.
  destruct (lookup_lt_is_Some_2 sorted ((i + len - 1) mod len)%nat) as [prev Hprev];
    [apply Nat.mod_upper_bound; lia|].
  destruct (lookup_lt_is_Some_2 sorted ((i + 1) mod len)%nat) as [next Hnext];
    [apply Nat.mod_upper_bound; lia|].
  exists prev, next. split_and!; try done.
  unfold isolated. fold len. rewrite decide_True by lia.
  assert (E1 : Z.rem (Z.of_nat i - 1 + Z.of_nat len) (Z.of_nat len)
               = Z.of_nat ((i + len - 1) mod len)).
  { rewrite Z.rem_mod_nonneg, Nat2Z.inj_mod by lia. f_equal. lia. }
  assert (E2 : Z.rem (Z.of_nat i + 1) (Z.of_nat len) = Z.of_nat ((i + 1) mod len)).
  { rewrite Z.rem_mod_nonneg, Nat2Z.inj_mod by lia. f_equal. lia. }
  rewrite E1, E2.
  rewrite (proj2 (js_index_Some sorted _ prev)), (proj2 (js_index_Some sorted _ next))
    by (rewrite Nat2Z.id; split; [lia | done]).
  do 2 case_bool_decide; cbn; split; try done; intros; lra.
Qed.

(** ** The wrap-around patch *)

Section Patch.
Context (minDeg : Q) (withTracks : list Tracked.t).

Lemma patch_wrap_cases :
  patch_wrap minDeg withTracks = withTracks \/
  exists first : Tracked.t, withTracks !! 0%nat = Some first /\
    patch_wrap minDeg withTracks =
      <[0%nat := Tracked.set_track first (Tracked.track first + 1)]> withTracks.
Proof.
  unfold patch_wrap. case_decide; [|now left].
  destruct (withTracks !! 0%nat) as [first|]; [|now left].
  destruct (last withTracks); [|now left].
  destruct (_ && _); [right; eauto | now left].
Qed.

Lemma patch_wrap_length : length (patch_wrap minDeg withTracks) = length withTracks.
Proof.
  destruct patch_wrap_cases as [->|(first & _ & ->)]; [done | apply length_insert].
Qed.

(** The patch changes nothing but the track of the first entry. *)
Lemma patch_wrap_lookup_S (k : nat) :
  patch_wrap minDeg withTracks !! S k = withTracks !! S k.
Proof.
  destruct patch_wrap_cases as [->|(first & _ & ->)]; [done|].
  now rewrite list_lookup_insert_ne.
Qed.

Lemma patch_wrap_planets :
  Tracked.planet <$> patch_wrap minDeg withTracks = Tracked.planet <$> withTracks.
Proof.
  destruct patch_wrap_cases as [->|(first & Hf & ->)]; [done|].
  rewrite list_fmap_insert. cbn. apply list_insert_id.
  now rewrite list_lookup_fmap, Hf.
Qed.

(** What the patch does to the first entry. *)
Lemma patch_wrap_first (first final : Tracked.t) :
  withTracks !! 0%nat = Some first -> last withTracks = Some final ->
  patch_wrap minDeg withTracks !! 0%nat =
    Some (if bool_decide (1 < length withTracks)%nat
             && bool_decide (getDist (Tracked.degree first) (Tracked.degree final) < minDeg)
             && bool_decide (Tracked.track first = Tracked.track final)
          then Tracked.set_track first (Tracked.track first + 1)
          else first).
Proof.
  intros Hf Hl. unfold patch_wrap. rewrite Hf, Hl.
  case_decide as Hlen.
  - rewrite (bool_decide_eq_true_2 _ Hlen). cbn.
    case_match; [|done]. rewrite list_lookup_insert_eq; [done|]. lia.
  - now rewrite (bool_decide_eq_false_2 _ Hlen).
Qed.

(** The last entry is not touched when there are two entries or more. *)
Lemma patch_wrap_last :
  (1 < length withTracks)%nat ->
  last (patch_wrap minDeg withTracks) = last withTracks.
Proof.
  intros Hlen. rewrite !last_lookup, patch_wrap_length.
  destruct (length withTracks) as [|[|n]] eqn:E; [lia | lia |].
  apply patch_wrap_lookup_S.
Qed.

(** After the patch the first and the last entry, when closer than
    [minDeg], are on different tracks. *)
Lemma patch_wrap_safe (first final : Tracked.t) :
  (1 < length withTracks)%nat ->
  patch_wrap minDeg withTracks !! 0%nat = Some first ->
  last (patch_wrap minDeg withTracks) = Some final ->
  getDist (Tracked.degree first) (Tracked.degree final) < minDeg ->
  Tracked.track first <> Tracked.track final.
Proof.
  intros Hlen Hf Hl Hd. rewrite patch_wrap_last in Hl by done.
  destruct (withTracks !! 0%nat) as [first0|] eqn:Hf0;
    [|apply lookup_ge_None in Hf0; lia].
  rewrite (patch_wrap_first first0 final Hf0 Hl) in Hf. injection Hf as <-.
  rewrite (bool_decide_eq_true_2 _ Hlen) in *. cbn in *.
  do 2 case_bool_decide; cbn in *; try done; lia.
Qed.

End Patch.

(** ** resolveCollisions *)

Section Resolve.
Context (planets : list PlanetPosition.t) (minDeg : Q).

Let sorted := js_sort by_degree planets.
Let placed := resolveCollisions planets minDeg.

(** The result lists the planets in the order of the stable sort by
    degree. *)
Lemma resolveCollisions_planets : Tracked.planet <$> placed = sorted.
Proof. unfold placed, resolveCollisions. now rewrite patch_wrap_planets, pass_planets. Qed.

Lemma resolveCollisions_length : length placed = length planets.
Proof.
  unfold placed, resolveCollisions.
  now rewrite patch_wrap_length, pass_length, js_sort_length.
Qed.

(** Every planet of the input is in the result, once for each time it is
    in the input. *)
Lemma resolveCollisions_Permutation : Tracked.planet <$> placed ≡ₚ planets.
Proof. rewrite resolveCollisions_planets. apply js_sort_Permutation. Qed.

(** The degrees of the result ascend. *)
Lemma resolveCollisions_sorted :
  StronglySorted (fun a b => Tracked.degree a <= Tracked.degree b) placed.
Proof.
  pose proof (js_sort_by_key_Sorted PlanetPosition.degree planets) as Hs.
  fold by_degree in Hs. fold sorted in Hs. rewrite <- resolveCollisions_planets in Hs.
  induction placed as [|x l IH]; [constructor|].
  rewrite fmap_cons in Hs. apply StronglySorted_inv in Hs as [Hs Hx].
  constructor; [now apply IH|]. now rewrite Forall_fmap in Hx.
Qed.

(** An entry after the first keeps what the pass gave it. *)
Lemma resolveCollisions_lookup_S (k : nat) :
  placed !! S k = pass sorted minDeg !! S k.
Proof. apply patch_wrap_lookup_S. Qed.

(** C2. Window safety: two entries at most four places apart, neither of them
    the first, that are closer than [minDeg] are on different tracks. *)
Lemma resolveCollisions_window_safe (k j : nat) (a b : Tracked.t) :
  (1 <= j <= 4)%nat -> (j < k)%nat ->
  placed !! k = Some a -> placed !! (k - j)%nat = Some b ->
  getDist (Tracked.degree a) (Tracked.degree b) < minDeg ->
  Tracked.track a <> Tracked.track b.
Proof.
  intros Hj Hjk Ha Hb. destruct k as [|k]; [lia|].
  destruct (S k - j)%nat as [|k'] eqn:E; [lia|].
  rewrite resolveCollisions_lookup_S in Ha, Hb. rewrite <- E in Hb.
  apply (pass_window_safe sorted minDeg (S k) j); [done | lia | done | done].
Qed.

(** C10. Wrap safety: the first and the last entry, when closer than
    [minDeg], are on different tracks. *)
Lemma resolveCollisions_wrap_safe (first final : Tracked.t) :
  (1 < length planets)%nat ->
  placed !! 0%nat = Some first -> last placed = Some final ->
  getDist (Tracked.degree first) (Tracked.degree final) < minDeg ->
  Tracked.track first <> Tracked.track final.
Proof.
  intros Hlen. apply patch_wrap_safe.
  now rewrite pass_length, js_sort_length.
Qed.

(** Tracks are bounded: at most four after the first entry, which the
    patch can raise to one. *)
Lemma resolveCollisions_track_bound (k : nat) (a : Tracked.t) :
  placed !! k = Some a ->
  (Tracked.track a <= 4)%nat /\ (Tracked.track a <= Nat.max 1 k)%nat.
Proof.
  destruct k as [|k].
  - intros Ha. pose proof (lookup_lt_Some _ _ _ Ha) as Hlen.
    unfold placed, resolveCollisions in Ha, Hlen. rewrite patch_wrap_length in Hlen.
    fold sorted in Ha, Hlen.
    destruct (pass sorted minDeg !! 0%nat) as [first|] eqn:Hf;
      [|apply lookup_ge_None in Hf; lia].
    destruct (last (pass sorted minDeg)) as [final|] eqn:Hl;
      [|apply last_None in Hl; now rewrite Hl in Hf].
    rewrite (patch_wrap_first _ _ first final Hf Hl) in Ha. injection Ha as <-.
    destruct (pass_track_bound sorted minDeg 0 first Hf) as [_ H0].
    destruct (_ && _); cbn; split; lia.
  - rewrite resolveCollisions_lookup_S. intros Ha.
    destruct (pass_track_bound sorted minDeg (S k) a Ha). lia.
Qed.

(** The flag of the entry at index [k] is the isolation of its planet on
    the sorted ring. *)
Lemma resolveCollisions_isIsolated (k : nat) (a : Tracked.t) :
  placed !! k = Some a ->
  Tracked.isIsolated a = isolated sorted (Z.of_nat k) (Tracked.planet a).
Proof.
  destruct k as [|k].
  - intros Ha. unfold placed, resolveCollisions in Ha. fold sorted in Ha.
    destruct (patch_wrap_cases minDeg (pass sorted minDeg)) as [E|(first & Hf & E)];
      rewrite E in Ha.
    + now apply pass_isIsolated with (minDeg := minDeg).
    + rewrite list_lookup_insert_eq in Ha by (apply lookup_lt_Some in Hf; lia).
      injection Ha as <-. cbn.
      now apply pass_isIsolated with (minDeg := minDeg).
  - rewrite resolveCollisions_lookup_S. now apply pass_isIsolated.
Qed.

End Resolve.

(** ** Runs *)

(** The tracks and flags of five planets at 0, 2, 4, 6 and 100 degrees:
    the planet at 6 degrees is exactly [minDeg] away from the one at 0 and
    goes back to track 0. *)
Example resolveCollisions_run :
  (fun e => (Tracked.track e, Tracked.isIsolated e)) <$>
    resolveCollisions_default (at_degree <$> [0; 2; 4; 6; 100]) =
  [(0, false); (1, false); (2, false); (0, false); (0, true)]%nat.
Proof. vm_compute. reflexivity. Qed.

(** The input need not be sorted, and degrees that wrap are neighbours. *)
Example resolveCollisions_run_unsorted :
  (fun e => (Tracked.degree e, Tracked.track e)) <$>
    resolveCollisions_default (at_degree <$> [5; 359; 1]) =
  [(1, 0%nat); (5, 1%nat); (359, 1%nat)].
Proof. vm_compute. reflexivity. Qed.



(** ** Instances *)

Definition six : list PlanetPosition.t := at_degree <$> [0; 100; 200; 300; 340; 359].

Lemma first_free_fuel_enough_witness :
  first_free_from 10 {[0; 1; 3]}%nat 0 = first_free {[0; 1; 3]}%nat.
Proof. apply (first_free_fuel_enough {[0; 1; 3]}%nat 10). vm_compute. lia. Defined.

Lemma resolveCollisions_window_safe_witness :
  exists a b : Tracked.t,
    resolveCollisions (at_degree <$> [0; 2; 4; 6; 100]) 6 !! 2%nat = Some a /\
    resolveCollisions (at_degree <$> [0; 2; 4; 6; 100]) 6 !! 1%nat = Some b /\
    Tracked.track a <> Tracked.track b.
Proof.
  eexists _, _. split; [vm_compute; reflexivity|]. split; [vm_compute; reflexivity|].
  apply (resolveCollisions_window_safe (at_degree <$> [0; 2; 4; 6; 100]) 6 2 1);
    [lia | lia | vm_compute; reflexivity ..].
Defined.

(** The first and the last of [six] are one degree apart and both on
    track 0 after the pass: the patch moves the first. *)
Lemma resolveCollisions_wrap_safe_witness :
  exists first final : Tracked.t,
    resolveCollisions six 6 !! 0%nat = Some first /\
    last (resolveCollisions six 6) = Some final /\
    Tracked.track first = 1%nat /\ Tracked.track final = 0%nat /\
    Tracked.track first <> Tracked.track final.
Proof.
  eexists _, _. split; [vm_compute; reflexivity|]. split; [vm_compute; reflexivity|].
  split; [reflexivity|]. split; [reflexivity|].
  apply (resolveCollisions_wrap_safe six 6);
    [vm_compute; lia | vm_compute; reflexivity ..].
Defined.

Lemma isolated_spec_witness :
  exists prev next : PlanetPosition.t,
    six !! 0%nat = Some prev /\ six !! 2%nat = Some next /\
    (isolated six 1 (at_degree 100) = true <->
     15 <= getDist (PlanetPosition.degree (at_degree 100)) (PlanetPosition.degree prev) /\
     15 <= getDist (PlanetPosition.degree (at_degree 100)) (PlanetPosition.degree next)).
Proof. apply (isolated_spec six 1 (at_degree 100)); vm_compute; lia. Defined.
