(* ===== verification/Gemini.v ===== *)
(** * Gemini: the chart pipelines of geminiService.ts

    [src/services/geminiService.ts].  Three requests to the language model
    (resolve the birth place and time, interpret a chart, analyse a pair
    of charts), each followed by the same screen of the reply: a reply
    with no text throws an [Error], text that is not JSON a [SyntaxError],
    JSON of the wrong shape a [ZodError].  Between the requests the
    deterministic services of [Chart] and [Aspects] run, and the replies
    are merged into what they computed.

    - a JSON value is a [json] and [JSON.parse] the parser of [Json]; a
      zod schema is the function its [parse] method is, from [json] to a
      [result];
    - the language model is the class [GenAI]: a world and what a request
      does to it; [new Date(string)] is the class [Runtime], which reads
      the strings of [IsoDate.es_time] as the language says ([zone] is
      the runtime of a time zone, which reads a date and a time with no
      offset as local time);
    - an [async] function is a [promise] over the world of [GenAI]; the
      two [Promise.all] of [analyzeSynastry] run under a [Schedule.t],
      which says for each which of its two calls is answered first and
      which settles first. *)

From Stdlib Require Import QArith ZArith Lia Ascii.
From stdpp Require Import base tactics decidable option list strings pretty.
From S2P Require Import Prelude Types Json JsonParse IsoDate Chart Aspects.

#[local] Open Scope string_scope.
#[local] Set Warnings "-register-all".

(** ** Schemas *)

(** A zod schema, as its [parse] method. *)
Definition zod (A : Type) : Type := json -> result A.

Definition z_number : zod Q :=
  fun v => match v with JNum n => Ok n | _ => Throw ZodError end.

Definition z_string : zod string :=
  fun v => match v with JStr s => Ok s | _ => Throw ZodError end.

Definition z_array {A : Type} (item : zod A) : zod (list A) :=
  fun v => match v with JArr items => map_result item items | _ => Throw ZodError end.

(** One key of a [z.object]: the value must be an object that has the
    key, with a value of the key's schema. *)
Definition z_prop {A : Type} (k : string) (s : zod A) : zod A :=
  fun v => match v with
           | JObj fields =>
               match obj_get fields k with Some x => s x | None => Throw ZodError end
           | _ => Throw ZodError
           end.

(** The type [z.infer] gives the interpretation schema. *)
Module PlanetInterpretation.
Record t : Type := mk { name : string; interpretation : string }.
End PlanetInterpretation.

Module Interpretation.
Record t : Type := mk { planets : list PlanetInterpretation.t; summary : string }.
End Interpretation.

Module KeyAspect.
Record t : Type := mk {
  planetA : string;
  planetB : string;
  aspectType : string;
  description : string
}.
End KeyAspect.

Module SynastryAnalysis.
Record t : Type := mk {
  overview : string;
  strengths : list string;
  challenges : list string;
  keyAspects : list KeyAspect.t
}.
End SynastryAnalysis.

Definition ResolvedLocationSchema : zod ResolvedLocation.t := fun v =>
  lat ← z_prop "lat" z_number v;
  lon ← z_prop "lon" z_number v;
  utcTime ← z_prop "utcTime" z_string v;
  formattedAddress ← z_prop "formattedAddress" z_string v;
  Ok (ResolvedLocation.mk lat lon utcTime formattedAddress).

Definition PlanetInterpretationSchema : zod PlanetInterpretation.t := fun v =>
  name ← z_prop "name" z_string v;
  interpretation ← z_prop "interpretation" z_string v;
  Ok (PlanetInterpretation.mk name interpretation).

Definition InterpretationSchema : zod Interpretation.t := fun v =>
  planets ← z_prop "planets" (z_array PlanetInterpretationSchema) v;
  summary ← z_prop "summary" z_string v;
  Ok (Interpretation.mk planets summary).

Definition KeyAspectSchema : zod KeyAspect.t := fun v =>
  planetA ← z_prop "planetA" z_string v;
  planetB ← z_prop "planetB" z_string v;
  aspectType ← z_prop "aspectType" z_string v;
  description ← z_prop "description" z_string v;
  Ok (KeyAspect.mk planetA planetB aspectType description).

Definition SynastryAnalysisSchema : zod SynastryAnalysis.t := fun v =>
  overview ← z_prop "overview" z_string v;
  strengths ← z_prop "strengths" (z_array z_string) v;
  challenges ← z_prop "challenges" (z_array z_string) v;
  keyAspects ← z_prop "keyAspects" (z_array KeyAspectSchema) v;
  Ok (SynastryAnalysis.mk overview strengths challenges keyAspects).

(** ** The requests *)

(** The [Schema] of the package, as far as the requests use it. *)
Inductive Schema : Type :=
| Type_STRING
| Type_NUMBER
| Type_ARRAY (items : Schema)
| Type_OBJECT (properties : list (string * Schema)) (required : list string).

Module GenerateContentParameters.
Record t : Type := mk {
  model : string;
  contents : string;
  responseMimeType : string;
  responseSchema : Schema
}.
End GenerateContentParameters.

Module GenerateContentResponse.
Record t : Type := mk { text : option string }.
End GenerateContentResponse.

Definition modelName : string := "gemini-3-flash-preview".

Definition request (prompt : string) (responseSchema : Schema)
    : GenerateContentParameters.t :=
  GenerateContentParameters.mk modelName prompt "application/json" responseSchema.

(** A template literal over several lines: its lines, joined by the line
    feed. *)
Definition nl : string := String "010"%char EmptyString.
Definition dq : string := String "034"%char EmptyString.
Definition template (lines : list string) : string := String.concat nl lines.

Definition resolve_prompt (details : BirthDetails.t) : string := template [
    "";
    "    Task: Geocode and Timezone resolution.";
    "    Input Name: " +:+ BirthDetails.name details;
    "    Input Date: " +:+ BirthDetails.date details;
    "    Input Time: " +:+ BirthDetails.time details;
    "    Input Location: " +:+ BirthDetails.location details;
    "";
    "    1. Identify the precise Latitude and Longitude for " +:+ dq +:+ BirthDetails.location details +:+ dq +:+ ".";
    "    2. Convert the local date/time to UTC ISO 8601 format (YYYY-MM-DDTHH:mm:ss.sssZ), accounting for historical timezones and daylight savings at that specific location and date.";
    "    3. Return structured JSON.";
    "  "
  ].

Definition resolve_responseSchema : Schema :=
  Type_OBJECT
    [("lat", Type_NUMBER); ("lon", Type_NUMBER); ("utcTime", Type_STRING);
     ("formattedAddress", Type_STRING)]
    ["lat"; "lon"; "utcTime"; "formattedAddress"].

Definition enrich_prompt (name simplifiedChart rising : string) : string := template [
    "";
    "    Act as an editorial astrologer. Write poetic, high-fidelity interpretations for the following natal chart placements.";
    "    Subject Name: " +:+ name;
    "    Placements: " +:+ simplifiedChart +:+ ", " +:+ rising +:+ ".";
    "";
    "    Requirements:";
    "    1. For each planet, provide a deep, soulful, 2-sentence interpretation.";
    "    2. Provide a " +:+ dq +:+ "Soul Signature" +:+ dq +:+ " summary (max 30 words) capturing the essence.";
    "  "
  ].

Definition enrich_responseSchema : Schema :=
  Type_OBJECT
    [("planets",
      Type_ARRAY
        (Type_OBJECT [("name", Type_STRING); ("interpretation", Type_STRING)]
           ["name"; "interpretation"]));
     ("summary", Type_STRING)]
    ["planets"; "summary"].

Definition synastry_prompt (d1 d2 : BirthDetails.t) (aspectDescriptions : string)
    : string := template [
    "";
    "    Analyze the relationship alchemy between " +:+ BirthDetails.name d1 +:+ " and " +:+ BirthDetails.name d2 +:+ ".";
    "    Key Aspects: " +:+ aspectDescriptions +:+ ".";
    "    ";
    "    1. Overview: A poetic synthesis of their bond.";
    "    2. Strengths: 3 bullet points.";
    "    3. Challenges: 3 bullet points.";
    "    4. Interpret the Key Aspects provided.";
    "  "
  ].

Definition synastry_responseSchema : Schema :=
  Type_OBJECT
    [("overview", Type_STRING);
     ("strengths", Type_ARRAY Type_STRING);
     ("challenges", Type_ARRAY Type_STRING);
     ("keyAspects",
      Type_ARRAY
        (Type_OBJECT
           [("planetA", Type_STRING); ("planetB", Type_STRING);
            ("aspectType", Type_STRING); ("description", Type_STRING)]
           ["planetA"; "planetB"; "aspectType"; "description"]))]
    ["overview"; "strengths"; "challenges"; "keyAspects"].

(** What it is for a value to follow a [responseSchema]: the type of each
    node, every required key present, every present key of the schema
    with a value that follows the key's schema. *)
Fixpoint conforms (s : Schema) (v : json) : bool :=
  match s, v with
  | Type_STRING, JStr _ => true
  | Type_NUMBER, JNum _ => true
  | Type_ARRAY items, JArr l => forallb (conforms items) l
  | Type_OBJECT properties required, JObj fields =>
      forallb (fun k => bool_decide (is_Some (obj_get fields k))) required
      && (fix go (ps : list (string * Schema)) : bool :=
            match ps with
            | [] => true
            | (k, s') :: ps' =>
                match obj_get fields k with
                | Some x => conforms s' x
                | None => true
                end && go ps'
            end) properties
  | _, _ => false
  end.

(** ** The services the pipelines await *)

(** The language model: [ai.models.generateContent]. *)
Class GenAI : Type := {
  world : Type;
  generateContent : GenerateContentParameters.t -> promise world GenerateContentResponse.t
}.

(** The runtime: [new Date(string)].  A string of the format of the
    language (the form the resolve request asks for, and the shorter
    forms) has the time value the language fixes for it; what any other
    string gives is the runtime's choice. *)
Class Runtime : Type := {
  Date_new : string -> Date.t;
  Date_new_es : forall (s : string) (t : Z), es_time s = Some t -> Date_new s = Some t
}.

(** [!response.text] is false: the text is there and not empty. *)
Definition truthy (text : option string) : option string :=
  match text with
  | Some s => if decide (s = "") then None else Some s
  | None => None
  end.

(** The screen of a reply: no text, no JSON, wrong shape. *)
Definition screen {A : Type} (response : GenerateContentResponse.t)
    (msg : string) (schema : zod A) : result A :=
  text ← or_throw (truthy (GenerateContentResponse.text response)) (Error msg);
  parsed ← JSON_parse text;
  schema parsed.

(** The merge of lines 128-131: the text of the first interpretation
    with the planet's name, or the default when there is none or it is
    empty. *)
Definition interpretation_for (validated : Interpretation.t) (p : CalculatedPlanet.t)
    : string :=
  match js_find (fun ip => bool_decide (PlanetInterpretation.name ip = CalculatedPlanet.name p))
          (Interpretation.planets validated) with
  | Some ip =>
      if decide (PlanetInterpretation.interpretation ip = "")
      then "A mysterious placement."
      else PlanetInterpretation.interpretation ip
  | None => "A mysterious placement."
  end.

Definition mergedPlanets (chart : CalculatedChart.t) (validated : Interpretation.t)
    : list PlanetPosition.t :=
  (fun p => CalculatedPlanet.with_interpretation p (interpretation_for validated p))
    <$> CalculatedChart.planets chart.

(** The merge of lines 223-233: the orb of the first calculated aspect
    with the same planets and type, or 0. *)
Definition with_orb (aspects : list SynastryAspect.t) (ka : KeyAspect.t)
    : SynastryAspect.t :=
  let original :=
    js_find (fun a =>
               bool_decide (SynastryAspect.planetA a = KeyAspect.planetA ka)
               && bool_decide (SynastryAspect.planetB a = KeyAspect.planetB ka)
               && bool_decide (SynastryAspect.aspectType a = KeyAspect.aspectType ka))
            aspects in
  SynastryAspect.mk (KeyAspect.planetA ka) (KeyAspect.planetB ka)
    (KeyAspect.aspectType ka) (KeyAspect.description ka)
    (match original with Some original => SynastryAspect.orb original | None => 0%Q end).

(** The placements of line 84, and the request of [enrichChart]. *)
Definition simplifiedChart (chart : CalculatedChart.t) : string :=
  String.concat ", "
    ((fun p => CalculatedPlanet.name p +:+ " in " +:+ CalculatedPlanet.sign p +:+
               " (House " +:+ pretty (CalculatedPlanet.house p) +:+ ")")
       <$> CalculatedChart.planets chart).

Definition enrich_request (chart : CalculatedChart.t) (name : string)
    : GenerateContentParameters.t :=
  let rising := "Rising: " +:+ Rising.sign (CalculatedChart.rising chart) in
  request (enrich_prompt name (simplifiedChart chart) rising) enrich_responseSchema.

(** The timings of the two [Promise.all] of [analyzeSynastry]: of the
    two calls that resolve, and of the two that enrich. *)
Module Schedule.
Record t : Type := mk { resolve : Timing.t; enrich : Timing.t }.

Definition in_order : t := mk Timing.in_order Timing.in_order.

Definition all : list t := resolve ← Timing.all; enrich ← Timing.all; [mk resolve enrich].
End Schedule.

Section Pipelines.
Context {trig : MathTrig} {astro : AstronomyEngine} {ai : GenAI} {rt : Runtime}.

(** Step 1: the place and the time, from the model. *)
Definition resolveBirthDetails (details : BirthDetails.t)
    : promise world ResolvedLocation.t :=
  response ← generateContent (request (resolve_prompt details) resolve_responseSchema);
  settle (screen response "Could not resolve location details." ResolvedLocationSchema).

(** Step 2: the interpretations, merged into the calculated chart. *)
Definition enrichChart (chart : CalculatedChart.t) (name : string)
    : promise world ChartData.t :=
  response ← generateContent (enrich_request chart name);
  settle (validated ← screen response "Could not interpret chart." InterpretationSchema;
          Ok (ChartData.mk (Some name) (mergedPlanets chart validated)
                (CalculatedChart.rising chart) (CalculatedChart.elements chart)
                (Interpretation.summary validated) (CalculatedChart.bigThree chart))).

(** [calculateChart(new Date(resolved.utcTime), resolved.lat, resolved.lon)]. *)
Definition calculate (resolved : ResolvedLocation.t) : result CalculatedChart.t :=
  calculateChart (Date_new (ResolvedLocation.utcTime resolved))
    (ResolvedLocation.lat resolved) (ResolvedLocation.lon resolved).

Definition analyzeBirthChart (details : BirthDetails.t) : promise world ChartData.t :=
  resolved ← resolveBirthDetails details;
  calculated ← settle (calculate resolved);
  enrichChart calculated (BirthDetails.name details).

Definition aspectDescriptions (d1 d2 : BirthDetails.t) (aspects : list SynastryAspect.t)
    : string :=
  String.concat "; "
    ((fun a => SynastryAspect.planetA a +:+ " (" +:+ BirthDetails.name d1 +:+ ") " +:+
               SynastryAspect.aspectType a +:+ " " +:+ SynastryAspect.planetB a +:+
               " (" +:+ BirthDetails.name d2 +:+ ")") <$> aspects).

Definition synastry_request (d1 d2 : BirthDetails.t) (aspects : list SynastryAspect.t)
    : GenerateContentParameters.t :=
  request (synastry_prompt d1 d2 (aspectDescriptions d1 d2 aspects))
    synastry_responseSchema.

(** The result of lines 223-242, from the validated analysis. *)
Definition synastry_data (p1Enriched p2Enriched : ChartData.t)
    (aspects : list SynastryAspect.t) (analysis : SynastryAnalysis.t) : SynastryData.t :=
  let keyAspects := with_orb aspects <$> SynastryAnalysis.keyAspects analysis in
  SynastryData.mk p1Enriched p2Enriched
    (Analysis.mk (SynastryAnalysis.overview analysis)
       (SynastryAnalysis.strengths analysis)
       (SynastryAnalysis.challenges analysis) keyAspects).

Definition analyzeSynastry (sch : Schedule.t) (d1 d2 : BirthDetails.t)
    : promise world SynastryData.t :=
  r ← Promise_all2 (Schedule.resolve sch) (resolveBirthDetails d1) (resolveBirthDetails d2);
  c1 ← settle (calculate r.1);
  c2 ← settle (calculate r.2);
  let aspects := calculateAspects c1 c2 in
  p ← Promise_all2 (Schedule.enrich sch) (enrichChart c1 (BirthDetails.name d1))
                   (enrichChart c2 (BirthDetails.name d2));
  response ← generateContent (synastry_request d1 d2 aspects);
  settle (analysis ← screen response "Could not analyze synastry." SynastryAnalysisSchema;
          Ok (synastry_data p.1 p.2 aspects analysis)).

End Pipelines.

(** The planet a merged planet was made from. *)
Definition calculated (p : PlanetPosition.t) : CalculatedPlanet.t :=
  CalculatedPlanet.mk (PlanetPosition.name p) (PlanetPosition.symbol p)
    (PlanetPosition.sign p) (PlanetPosition.signSymbol p) (PlanetPosition.degree p)
    (PlanetPosition.relativeDegree p) (PlanetPosition.house p)
    (PlanetPosition.retrograde p).

(** The calculated chart inside a delivered chart. *)
Definition chart_of_data (data : ChartData.t) : CalculatedChart.t :=
  CalculatedChart.mk (calculated <$> ChartData.planets data) (ChartData.rising data)
    (ChartData.elements data) (ChartData.bigThree data).

#[global] Arguments chart_of_data : simpl never.

(** ** Schemas *)

Lemma z_prop_Ok {A : Type} (k : string) (s : zod A) (v : json) (a : A) :
  z_prop k s v = Ok a <->
  exists fields x, v = JObj fields /\ obj_get fields k = Some x /\ s x = Ok a.
Proof.
  unfold z_prop. split.
  - destruct v as [| | | | |fields]; try done.
    destruct (obj_get fields k) as [x|] eqn:E; [eauto | done].
  - now intros (fields & x & -> & -> & ?).
Qed.

(** A schema rejects with a [ZodError] and nothing else. *)
Definition only_ZodError {A : Type} (s : zod A) : Prop :=
  forall v e, s v = Throw e -> e = ZodError.

Lemma z_number_only : only_ZodError z_number.
Proof. intros [] e; cbn; congruence. Qed.

Lemma z_string_only : only_ZodError z_string.
Proof. intros [] e; cbn; congruence. Qed.

Lemma map_result_only {A B : Type} (f : A -> result B) (l : list A) (e e0 : exn) :
  (forall x e, f x = Throw e -> e = e0) -> map_result f l = Throw e -> e = e0.
Proof.
  intros Hf. induction l as [|x l IH]; cbn; [done|].
  destruct (f x) eqn:E; cbn; [|intros [= <-]; eauto].
  destruct (map_result f l); cbn; [done | intros [= <-]; eauto].
Qed.

Lemma z_array_only {A : Type} (item : zod A) :
  only_ZodError item -> only_ZodError (z_array item).
Proof.
  intros Hi [] e; cbn; try congruence. now apply map_result_only.
Qed.

Lemma z_prop_only {A : Type} (k : string) (s : zod A) :
  only_ZodError s -> only_ZodError (z_prop k s).
Proof.
  intros Hs [| | | | |fields] e; cbn; try congruence.
  destruct (obj_get fields k); [apply Hs | congruence].
Qed.

Lemma bind_only {A B : Type} (m : result A) (f : A -> result B) (e e0 : exn) :
  (forall e, m = Throw e -> e = e0) -> (forall a e, f a = Throw e -> e = e0) ->
  m ≫= f = Throw e -> e = e0.
Proof. intros Hm Hf [H|(a & _ & H)]%bind_Throw_inv; eauto. Qed.

#[export] Hint Resolve z_number_only z_string_only z_array_only z_prop_only : js.

(** Every schema of the service is made of such parts. *)
Ltac only_zod :=
  intros v e; cbv beta;
  repeat (apply bind_only;
          [intros ?; apply z_prop_only; auto with js | intros ? ?; cbv beta]);
  cbn; congruence.

Lemma PlanetInterpretationSchema_only : only_ZodError PlanetInterpretationSchema.
Proof. unfold PlanetInterpretationSchema. only_zod. Qed.

Lemma KeyAspectSchema_only : only_ZodError KeyAspectSchema.
Proof. unfold KeyAspectSchema. only_zod. Qed.

#[export] Hint Resolve PlanetInterpretationSchema_only KeyAspectSchema_only : js.

Lemma ResolvedLocationSchema_only : only_ZodError ResolvedLocationSchema.
Proof. unfold ResolvedLocationSchema. only_zod. Qed.

Lemma InterpretationSchema_only : only_ZodError InterpretationSchema.
Proof. unfold InterpretationSchema. only_zod. Qed.

Lemma SynastryAnalysisSchema_only : only_ZodError SynastryAnalysisSchema.
Proof. unfold SynastryAnalysisSchema. only_zod. Qed.

(** ** The schema sent and the schema checked

    The [responseSchema] of a request describes the values its zod schema
    accepts: what the model is asked for is what the screen lets
    through. *)

Definition agrees {A : Type} (s : Schema) (z : zod A) : Prop :=
  forall v, conforms s v = true <-> is_Ok (z v).

Lemma agrees_string : agrees Type_STRING z_string.
Proof.
  intros []; cbn; split; try done; try (now intros ?%is_Ok_Throw).
  intros _. apply is_Ok_Ok.
Qed.

Lemma agrees_number : agrees Type_NUMBER z_number.
Proof.
  intros []; cbn; split; try done; try (now intros ?%is_Ok_Throw).
  intros _. apply is_Ok_Ok.
Qed.

Lemma agrees_array {A : Type} (s : Schema) (z : zod A) :
  agrees s z -> agrees (Type_ARRAY s) (z_array z).
Proof.
  intros H []; cbn; try (split; [done | now intros ?%is_Ok_Throw]).
  rewrite map_result_is_Ok.
  induction items as [|x l IH]; cbn; [split; [constructor | done]|].
  rewrite andb_true_iff, Forall_cons, IH. now rewrite (H x).
Qed.

(** One key of an object: present, and with a value of its schema. *)
Definition has_prop (fields : list (string * json)) (k : string) (s : Schema) : Prop :=
  exists x, obj_get fields k = Some x /\ conforms s x = true.

(** An object schema whose keys are all required. *)
Lemma conforms_object (properties : list (string * Schema)) (fields : list (string * json)) :
  conforms (Type_OBJECT properties properties.*1) (JObj fields) = true <->
  Forall (fun p => has_prop fields p.1 p.2) properties.
Proof.
  cbn. rewrite andb_true_iff.
  induction properties as [|[k s] ps IH]; cbn; [split; [constructor | done]|].
  rewrite Forall_cons, <- IH, !andb_true_iff, bool_decide_eq_true. unfold has_prop. cbn.
  destruct (obj_get fields k) as [x|]; split.
  - intros [[_ ?] [? ?]]. eauto.
  - intros [(? & [= <-] & ?) [? ?]]. eauto.
  - now intros [[[? [=]] _] _].
  - now intros [(? & [=] & _) _].
Qed.

Lemma z_prop_is_Ok {A : Type} (k : string) (s : Schema) (z : zod A)
    (fields : list (string * json)) :
  agrees s z -> is_Ok (z_prop k z (JObj fields)) <-> has_prop fields k s.
Proof.
  intros H. unfold has_prop. cbn. destruct (obj_get fields k) as [x|]; split.
  - intros ?%H. eauto.
  - intros (? & [= <-] & ?). now apply H.
  - now intros ?%is_Ok_Throw.
  - now intros (? & [=] & _).
Qed.

Lemma z_prop_not_object {A : Type} (k : string) (z : zod A) (v : json) :
  (forall fields, v <> JObj fields) -> ~ is_Ok (z_prop k z v).
Proof. intros Hv. destruct v; try apply is_Ok_Throw. now destruct (Hv fields). Qed.

#[export] Hint Resolve agrees_string agrees_number agrees_array : js.

(** The agreement of an object schema, all of whose keys are required,
    with a sequence of [z_prop]. *)
Ltac agrees_object :=
  intros v; cbv beta;
  destruct v as [| | | | |fields];
  [ split; [done | intros [? H]; inv_result; discriminate] ..
  | change (conforms (Type_OBJECT ?ps _) _) with
      (conforms (Type_OBJECT ps ps.*1) (JObj fields));
    rewrite conforms_object, ?Forall_cons, Forall_nil;
    symmetry; etransitivity; [is_Ok_chain|];
    rewrite !z_prop_is_Ok by eauto with js; reflexivity ].

Lemma agrees_PlanetInterpretation :
  agrees (Type_OBJECT [("name", Type_STRING); ("interpretation", Type_STRING)]
            ["name"; "interpretation"]) PlanetInterpretationSchema.
Proof. unfold PlanetInterpretationSchema. agrees_object. Qed.

Lemma agrees_KeyAspect :
  agrees (Type_OBJECT
            [("planetA", Type_STRING); ("planetB", Type_STRING);
             ("aspectType", Type_STRING); ("description", Type_STRING)]
            ["planetA"; "planetB"; "aspectType"; "description"]) KeyAspectSchema.
Proof. unfold KeyAspectSchema. agrees_object. Qed.

#[export] Hint Resolve agrees_PlanetInterpretation agrees_KeyAspect : js.

Lemma agrees_ResolvedLocation : agrees resolve_responseSchema ResolvedLocationSchema.
Proof. unfold ResolvedLocationSchema, resolve_responseSchema. agrees_object. Qed.

Lemma agrees_Interpretation : agrees enrich_responseSchema InterpretationSchema.
Proof. unfold InterpretationSchema, enrich_responseSchema. agrees_object. Qed.

Lemma agrees_SynastryAnalysis : agrees synastry_responseSchema SynastryAnalysisSchema.
Proof. unfold SynastryAnalysisSchema, synastry_responseSchema. agrees_object. Qed.

(** C33. What each request asks the model for is what the screen of its reply
    accepts: the three [responseSchema] describe the values of the three
    zod schemas. *)
Theorem schemas_agree :
  agrees resolve_responseSchema ResolvedLocationSchema /\
  agrees enrich_responseSchema InterpretationSchema /\
  agrees synastry_responseSchema SynastryAnalysisSchema.
Proof.
  split_and!;
    [apply agrees_ResolvedLocation | apply agrees_Interpretation
    | apply agrees_SynastryAnalysis].
Qed.

(** ** The screen of a reply *)

Lemma truthy_Some (text : option string) (s : string) :
  truthy text = Some s <-> text = Some s /\ s <> "".
Proof.
  unfold truthy. destruct text as [s'|]; [|split; [done | now intros [? _]]].
  case_decide; split; try done.
  - now intros [[= ->] ?].
  - now intros [= ->].
  - now intros [[= ->] _].
Qed.

Section Screen.
Context {A : Type}.
Implicit Types (response : GenerateContentResponse.t) (schema : zod A).

(** The screen lets a reply through exactly when it has text that parses
    to a value of the schema. *)
Lemma screen_Ok response (msg : string) schema (a : A) :
  screen response msg schema = Ok a <->
  exists text parsed,
    GenerateContentResponse.text response = Some text /\ text <> "" /\
    JSON_parse text = Ok parsed /\ schema parsed = Ok a.
Proof.
  unfold screen. split.
  - intros H. inv_result. apply truthy_Some in H as [? ?]. eauto 10.
  - intros (text & parsed & Ht & Hne & Hp & Hs).
    rewrite (proj2 (truthy_Some _ _) (conj Ht Hne)). cbn. now rewrite Hp.
Qed.

(** A reply with no text, or with the empty text, throws the message of
    the step. *)
Lemma screen_no_text response (msg : string) schema :
  truthy (GenerateContentResponse.text response) = None ->
  screen response msg schema = Throw (Error msg).
Proof. intros H. unfold screen. now rewrite H. Qed.

(** The three ways out of the screen. *)
Lemma screen_Throw response (msg : string) schema (e : exn) :
  only_ZodError schema ->
  screen response msg schema = Throw e ->
  e = Error msg \/ e = SyntaxError \/ e = ZodError.
Proof.
  intros Hs. unfold screen.
  destruct (truthy _) as [text|]; cbn; [|intros [= <-]; now left].
  destruct (JSON_parse text) as [parsed|e'] eqn:Hp; cbn.
  - intros ?%Hs. now right; right.
  - intros [= <-]. right; left. now apply JSON_parse_Throw in Hp.
Qed.

End Screen.

(** ** The merges *)

(** A merged planet is never without a text. *)
Lemma interpretation_for_nonempty (validated : Interpretation.t) (p : CalculatedPlanet.t) :
  interpretation_for validated p <> "".
Proof. unfold interpretation_for. destruct (js_find _ _); [case_decide|]; done. Qed.

(** The text is that of the first interpretation with the planet's name. *)
Lemma interpretation_for_found (validated : Interpretation.t) (p : CalculatedPlanet.t)
    (before after : list PlanetInterpretation.t) (ip : PlanetInterpretation.t) :
  Interpretation.planets validated = (before ++ ip :: after)%list ->
  Forall (fun x => PlanetInterpretation.name x <> CalculatedPlanet.name p) before ->
  PlanetInterpretation.name ip = CalculatedPlanet.name p ->
  PlanetInterpretation.interpretation ip <> "" ->
  interpretation_for validated p = PlanetInterpretation.interpretation ip.
Proof.
  intros E Hb Hn Hi. unfold interpretation_for.
  rewrite E, js_find_first; [now rewrite decide_False | | now apply bool_decide_eq_true_2].
  eapply Forall_impl; [exact Hb|]. intros x Hx. now apply bool_decide_eq_false_2.
Qed.

Lemma interpretation_for_missing (validated : Interpretation.t) (p : CalculatedPlanet.t) :
  Forall (fun x => PlanetInterpretation.name x <> CalculatedPlanet.name p)
    (Interpretation.planets validated) ->
  interpretation_for validated p = "A mysterious placement.".
Proof.
  intros H. unfold interpretation_for.
  rewrite (proj2 (js_find_None _ _)); [done|].
  eapply Forall_impl; [exact H|]. intros x Hx. now apply bool_decide_eq_false_2.
Qed.

(** The merge changes nothing the astronomy service calculated. *)
Lemma mergedPlanets_calculated (chart : CalculatedChart.t) (validated : Interpretation.t) :
  calculated <$> mergedPlanets chart validated = CalculatedChart.planets chart.
Proof.
  unfold mergedPlanets. rewrite <- list_fmap_compose.
  rewrite <- (list_fmap_id (CalculatedChart.planets chart)) at 2.
  apply list_fmap_ext. now intros _ [] _.
Qed.

Lemma mergedPlanets_nonempty (chart : CalculatedChart.t) (validated : Interpretation.t) :
  Forall (fun p => PlanetPosition.interpretation p <> "") (mergedPlanets chart validated).
Proof.
  unfold mergedPlanets. rewrite Forall_fmap. apply Forall_true.
  intros p. apply interpretation_for_nonempty.
Qed.

(** The orb of a key aspect is the orb of a calculated aspect with the
    same planets and type, or 0 when the model made the aspect up. *)
Lemma with_orb_spec (aspects : list SynastryAspect.t) (ka : KeyAspect.t) :
  let x := with_orb aspects ka in
  SynastryAspect.planetA x = KeyAspect.planetA ka /\
  SynastryAspect.planetB x = KeyAspect.planetB ka /\
  SynastryAspect.aspectType x = KeyAspect.aspectType ka /\
  SynastryAspect.description x = KeyAspect.description ka /\
  ((exists a, a ∈ aspects /\
      SynastryAspect.planetA a = KeyAspect.planetA ka /\
      SynastryAspect.planetB a = KeyAspect.planetB ka /\
      SynastryAspect.aspectType a = KeyAspect.aspectType ka /\
      SynastryAspect.orb x = SynastryAspect.orb a) \/
   (SynastryAspect.orb x = 0%Q /\
    Forall (fun a => ~ (SynastryAspect.planetA a = KeyAspect.planetA ka /\
                        SynastryAspect.planetB a = KeyAspect.planetB ka /\
                        SynastryAspect.aspectType a = KeyAspect.aspectType ka))
      aspects)).
Proof.
  cbn. split_and!; try done. unfold with_orb. cbn.
  destruct (js_find _ aspects) as [a|] eqn:E.
  - left. apply js_find_Some in E as [Hin Ha].
    rewrite !andb_true_iff, !bool_decide_eq_true in Ha.
    exists a. split_and!; try tauto.
  - right. split; [done|]. rewrite js_find_None in E.
    eapply Forall_impl; [exact E|]. cbn. intros a Ha.
    rewrite <- not_true_iff_false, !andb_true_iff, !bool_decide_eq_true in Ha. tauto.
Qed.

(** ** The pipelines *)

(** A chart with its texts, as the pipelines deliver it. *)
Record data_wf (name : string) (data : ChartData.t) : Prop := {
  wf_name : ChartData.name data = Some name;
  wf_chart : chart_wf (chart_of_data data);
  wf_texts : Forall (fun p => PlanetPosition.interpretation p <> "") (ChartData.planets data)
}.

Section PipelineFacts.
Context {trig : MathTrig} {astro : AstronomyEngine} {ai : GenAI} {rt : Runtime}.
Implicit Types (w : world) (details : BirthDetails.t).

Lemma resolveBirthDetails_Ok details w (resolved : ResolvedLocation.t) w' :
  resolveBirthDetails details w = (Ok resolved, w') <->
  exists response,
    generateContent (request (resolve_prompt details) resolve_responseSchema) w
      = (Ok response, w') /\
    screen response "Could not resolve location details." ResolvedLocationSchema
      = Ok resolved.
Proof.
  unfold resolveBirthDetails. rewrite await_Ok_inv. split.
  - intros (response & w1 & Hg & [? ->]%settle_inv). eauto.
  - intros (response & Hg & Hs). exists response, w'. now rewrite settle_inv.
Qed.

Lemma enrichChart_Ok (chart : CalculatedChart.t) (name : string) w
    (data : ChartData.t) w' :
  enrichChart chart name w = (Ok data, w') <->
  exists response validated,
    generateContent (enrich_request chart name) w = (Ok response, w') /\
    screen response "Could not interpret chart." InterpretationSchema = Ok validated /\
    data = ChartData.mk (Some name) (mergedPlanets chart validated)
             (CalculatedChart.rising chart) (CalculatedChart.elements chart)
             (Interpretation.summary validated) (CalculatedChart.bigThree chart).
Proof.
  unfold enrichChart. rewrite await_Ok_inv. split.
  - intros (response & w1 & Hg & [H ->]%settle_inv). inv_result. eauto 10.
  - intros (response & validated & Hg & Hs & ->). exists response, w'.
    rewrite settle_inv, Hs. done.
Qed.

(** [enrichChart] returns the chart it was given, under the texts. *)
Lemma enrichChart_chart (chart : CalculatedChart.t) (name : string) w
    (data : ChartData.t) w' :
  enrichChart chart name w = (Ok data, w') -> chart_of_data data = chart.
Proof.
  intros (response & validated & _ & _ & ->)%enrichChart_Ok.
  unfold chart_of_data. cbn. rewrite mergedPlanets_calculated. now destruct chart.
Qed.

(** What [enrichChart] returns is the calculated chart, with a text for
    every planet. *)
Lemma enrichChart_wf (chart : CalculatedChart.t) (name : string) w
    (data : ChartData.t) w' :
  chart_wf chart -> enrichChart chart name w = (Ok data, w') -> data_wf name data.
Proof.
  intros Hwf He. split.
  - now apply enrichChart_Ok in He as (response & validated & _ & _ & ->).
  - now rewrite (enrichChart_chart _ _ _ _ _ He).
  - apply enrichChart_Ok in He as (response & validated & _ & _ & ->).
    apply mergedPlanets_nonempty.
Qed.

(** C19. The instant the model writes is the instant of the chart: a time
    value of the language (100 million days on either side of 1 January
    1970), written in the format the request asks for (as [toISOString]
    writes it), goes through [new Date] to [calculateChart] as it is, to
    the millisecond. *)
Theorem calculate_instant (t : Z) (lat lon : Q) (formattedAddress : string) :
  (- maxTime <= t <= maxTime)%Z ->
  calculate (ResolvedLocation.mk lat lon (toISOString t) formattedAddress)
  = calculateChart (Some t) lat lon.
Proof.
  intros Ht. unfold calculate. cbn [ResolvedLocation.utcTime ResolvedLocation.lat
                                     ResolvedLocation.lon].
  now rewrite (Date_new_es _ _ (toISOString_es_time t Ht)).
Qed.

(** [enrichChart] is rejected when the reply does not pass the screen,
    with the exception of the screen. *)
Lemma enrichChart_Throw (chart : CalculatedChart.t) (name : string) w
    (response : GenerateContentResponse.t) (e : exn) w' :
  generateContent (enrich_request chart name) w = (Ok response, w') ->
  screen response "Could not interpret chart." InterpretationSchema = Throw e ->
  enrichChart chart name w = (Throw e, w').
Proof.
  intros Hg Hs. unfold enrichChart.
  rewrite (await_Ok _ _ _ _ _ Hg). unfold settle. now rewrite Hs.
Qed.

Lemma analyzeBirthChart_Ok details w (data : ChartData.t) w' :
  analyzeBirthChart details w = (Ok data, w') <->
  exists resolved w1 calculated,
    resolveBirthDetails details w = (Ok resolved, w1) /\
    calculate resolved = Ok calculated /\
    enrichChart calculated (BirthDetails.name details) w1 = (Ok data, w').
Proof.
  unfold analyzeBirthChart. rewrite await_Ok_inv. split.
  - intros (resolved & w1 & Hr & H). apply await_Ok_inv in H as (c & w2 & Hc & He).
    apply settle_inv in Hc as [Hc ->]. eauto 10.
  - intros (resolved & w1 & c & Hr & Hc & He). exists resolved, w1. split; [done|].
    apply await_Ok_inv. exists c, w1. now rewrite settle_inv.
Qed.

Lemma calculate_wf (resolved : ResolvedLocation.t) (c : CalculatedChart.t) :
  calculate resolved = Ok c -> chart_wf c.
Proof. apply calculateChart_Ok_wf. Qed.

(** What [analyzeBirthChart] returns is a well-formed chart under the
    name of the form, with a text for every planet. *)
Lemma analyzeBirthChart_wf details w (data : ChartData.t) w' :
  analyzeBirthChart details w = (Ok data, w') ->
  data_wf (BirthDetails.name details) data.
Proof.
  intros (resolved & w1 & c & _ & Hc & He)%analyzeBirthChart_Ok.
  eapply enrichChart_wf; [eapply calculate_wf, Hc | exact He].
Qed.

(** A fulfilled [analyzeSynastry], step by step: the two pairs of calls
    in the order of the schedule, the two calculations between them. *)
Lemma analyzeSynastry_Ok (sch : Schedule.t) (d1 d2 : BirthDetails.t) w
    (data : SynastryData.t) w' :
  analyzeSynastry sch d1 d2 w = (Ok data, w') <->
  exists r1 r2 c1 c2 p1 p2 response analysis w2 w4,
    both (Timing.served (Schedule.resolve sch))
      (resolveBirthDetails d1) (resolveBirthDetails d2) w = (Ok r1, Ok r2, w2) /\
    calculate r1 = Ok c1 /\ calculate r2 = Ok c2 /\
    both (Timing.served (Schedule.enrich sch))
      (enrichChart c1 (BirthDetails.name d1)) (enrichChart c2 (BirthDetails.name d2)) w2
      = (Ok p1, Ok p2, w4) /\
    generateContent (synastry_request d1 d2 (calculateAspects c1 c2)) w4
      = (Ok response, w') /\
    screen response "Could not analyze synastry." SynastryAnalysisSchema = Ok analysis /\
    data = synastry_data p1 p2 (calculateAspects c1 c2) analysis.
Proof.
  unfold analyzeSynastry. split.
  - intros H. inv_promise. inv_result.
    repeat match goal with
    | H : Promise_all2 _ _ _ _ = (Ok ?x, _) |- _ =>
        apply Promise_all2_Ok_inv in H; destruct x; cbn in H
    end.
    cbn in *. do 10 eexists. split_and!; try eassumption. reflexivity.
  - intros (r1 & r2 & c1 & c2 & p1 & p2 & response & analysis & w2 & w4 &
            H1 & Hc1 & Hc2 & He & Hg & Hs & ->).
    apply await_Ok_inv. exists (r1, r2), w2.
    split; [now apply Promise_all2_Ok_inv|].
    apply await_Ok_inv. exists c1, w2. split; [now apply settle_inv|].
    apply await_Ok_inv. exists c2, w2. split; [now apply settle_inv|].
    apply await_Ok_inv. exists (p1, p2), w4.
    split; [now apply Promise_all2_Ok_inv|].
    apply await_Ok_inv. exists response, w'. split; [done|].
    apply settle_inv. now rewrite Hs.
Qed.

(** In the order of the array the five requests follow each other. *)
Lemma analyzeSynastry_in_order_Ok (d1 d2 : BirthDetails.t) w (data : SynastryData.t) w' :
  analyzeSynastry Schedule.in_order d1 d2 w = (Ok data, w') <->
  exists r1 r2 c1 c2 p1 p2 response analysis w1 w2 w3 w4,
    resolveBirthDetails d1 w = (Ok r1, w1) /\
    resolveBirthDetails d2 w1 = (Ok r2, w2) /\
    calculate r1 = Ok c1 /\ calculate r2 = Ok c2 /\
    enrichChart c1 (BirthDetails.name d1) w2 = (Ok p1, w3) /\
    enrichChart c2 (BirthDetails.name d2) w3 = (Ok p2, w4) /\
    generateContent (synastry_request d1 d2 (calculateAspects c1 c2)) w4
      = (Ok response, w') /\
    screen response "Could not analyze synastry." SynastryAnalysisSchema = Ok analysis /\
    data = synastry_data p1 p2 (calculateAspects c1 c2) analysis.
Proof.
  rewrite analyzeSynastry_Ok. cbn [Schedule.in_order Schedule.resolve Schedule.enrich
    Timing.in_order Timing.served]. split.
  - intros (r1 & r2 & c1 & c2 & p1 & p2 & response & analysis & w2 & w4 &
            (w1 & ? & ?)%both_LeftFirst & ? & ? & (w3 & ? & ?)%both_LeftFirst & ?).
    exists r1, r2, c1, c2, p1, p2, response, analysis, w1, w2, w3, w4. tauto.
  - intros (r1 & r2 & c1 & c2 & p1 & p2 & response & analysis & w1 & w2 & w3 & w4 &
            ? & ? & ? & ? & ? & ? & ?).
    exists r1, r2, c1, c2, p1, p2, response, analysis, w2, w4.
    rewrite !both_LeftFirst. split_and!; eauto; tauto.
Qed.

(** In the order of the array the first rejection wins: when the first
    birth details do not resolve, [analyzeSynastry] is rejected with
    their exception, whatever the second do. *)
Lemma analyzeSynastry_first_rejection (d1 d2 : BirthDetails.t) w (e : exn) w1 :
  resolveBirthDetails d1 w = (Throw e, w1) ->
  (analyzeSynastry Schedule.in_order d1 d2 w).1 = Throw e.
Proof.
  intros H. unfold analyzeSynastry, mbind, promise_bind, await.
  pose proof (Promise_all2_Throw_l _ (resolveBirthDetails d2) _ _ _ H) as Hp.
  cbn [Schedule.in_order Schedule.resolve].
  destruct (Promise_all2 _ _ _ w) as [r w2]. cbn in Hp. now subst r.
Qed.

(** A key aspect of the result: the model's words, with the orb the
    astronomy service calculated for the same planets and type, or 0 for
    an aspect the service did not find. *)
Definition keyAspect_ok (aspects : list SynastryAspect.t) (x : SynastryAspect.t) : Prop :=
  (0 <= SynastryAspect.orb x /\ SynastryAspect.orb x <= ORB)%Q /\
  ((exists a, a ∈ aspects /\
      SynastryAspect.planetA a = SynastryAspect.planetA x /\
      SynastryAspect.planetB a = SynastryAspect.planetB x /\
      SynastryAspect.aspectType a = SynastryAspect.aspectType x /\
      SynastryAspect.orb x = SynastryAspect.orb a) \/
   (SynastryAspect.orb x = 0%Q /\
    Forall (fun a => ~ (SynastryAspect.planetA a = SynastryAspect.planetA x /\
                        SynastryAspect.planetB a = SynastryAspect.planetB x /\
                        SynastryAspect.aspectType a = SynastryAspect.aspectType x))
      aspects)).

Lemma with_orb_ok (c1 c2 : CalculatedChart.t) (ka : KeyAspect.t) :
  keyAspect_ok (calculateAspects c1 c2) (with_orb (calculateAspects c1 c2) ka).
Proof.
  destruct (with_orb_spec (calculateAspects c1 c2) ka)
    as (EA & EB & ET & _ & [(a & Ha & ? & ? & ? & Eo)|[Eo Hno]]).
  - split; [rewrite Eo; now apply (calculateAspects_orb c1 c2)|].
    left. exists a. now rewrite EA, EB, ET.
  - split; [now rewrite Eo|]. right. now rewrite EA, EB, ET.
Qed.

(** What [analyzeSynastry] returns: two well-formed charts under the
    names of the form, and key aspects whose orbs are those of the
    aspects calculated between the two charts. *)
Lemma analyzeSynastry_wf (sch : Schedule.t) (d1 d2 : BirthDetails.t) w
    (data : SynastryData.t) w' :
  analyzeSynastry sch d1 d2 w = (Ok data, w') ->
  data_wf (BirthDetails.name d1) (SynastryData.personA data) /\
  data_wf (BirthDetails.name d2) (SynastryData.personB data) /\
  Forall
    (keyAspect_ok (calculateAspects (chart_of_data (SynastryData.personA data))
                     (chart_of_data (SynastryData.personB data))))
    (Analysis.keyAspects (SynastryData.analysis data)).
Proof.
  intros (r1 & r2 & c1 & c2 & p1 & p2 & response & analysis & w2 & w4 &
          _ & Hc1 & Hc2 & [(? & ? & He1) (? & ? & He2)]%both_ran & _ & _ & ->)%analyzeSynastry_Ok.
  cbn. split_and!.
  - eapply enrichChart_wf; [eapply calculate_wf, Hc1 | exact He1].
  - eapply enrichChart_wf; [eapply calculate_wf, Hc2 | exact He2].
  - rewrite (enrichChart_chart _ _ _ _ _ He1), (enrichChart_chart _ _ _ _ _ He2).
    rewrite Forall_fmap. apply Forall_true. intros ka. apply with_orb_ok.
Qed.

(** ** The exceptions of the pipelines *)

(** The request did not come back. *)
Definition rejected_by_model (e : exn) : Prop :=
  exists req w0 w1, generateContent req w0 = (Throw e, w1).

(** The reply did not pass the screen of the step with message [msg]. *)
Definition rejected_by_screen (msg : string) (e : exn) : Prop :=
  e = Error msg \/ e = SyntaxError \/ e = ZodError.

Lemma resolveBirthDetails_Throw details w (e : exn) w' :
  resolveBirthDetails details w = (Throw e, w') ->
  rejected_by_model e \/ rejected_by_screen "Could not resolve location details." e.
Proof.
  unfold resolveBirthDetails. intros [H|(response & w1 & _ & H)]%await_Throw_inv.
  - left. eexists _, _, _. exact H.
  - right. apply settle_inv in H as [H _].
    eapply screen_Throw; [apply ResolvedLocationSchema_only | exact H].
Qed.

Lemma enrichChart_Throw_inv (chart : CalculatedChart.t) (name : string) w (e : exn) w' :
  enrichChart chart name w = (Throw e, w') ->
  rejected_by_model e \/ rejected_by_screen "Could not interpret chart." e.
Proof.
  unfold enrichChart. intros [H|(response & w1 & _ & H)]%await_Throw_inv.
  - left. eexists _, _, _. exact H.
  - right. apply settle_inv in H as [H _].
    apply bind_Throw_inv in H as [H|(? & _ & [=])].
    eapply screen_Throw; [apply InterpretationSchema_only | exact H].
Qed.

(** The place or the time the model resolved is not one the astronomy
    package takes: a latitude outside [-90, 90], or a time that is not a
    date. *)
Definition rejected_by_calculation (e : exn) : Prop :=
  e = RangeError \/ e = Error "Argument must be a Date object".

Lemma calculate_Throw (resolved : ResolvedLocation.t) (e : exn) :
  calculate resolved = Throw e ->
  (~ valid_latitude (ResolvedLocation.lat resolved) /\ e = RangeError) \/
  (valid_latitude (ResolvedLocation.lat resolved) /\
   Date_new (ResolvedLocation.utcTime resolved) = None /\
   e = Error "Argument must be a Date object").
Proof. apply calculateChart_Throw. Qed.

Lemma calculate_rejected (resolved : ResolvedLocation.t) (e : exn) w w' :
  settle (calculate resolved) w = (Throw e, w') -> rejected_by_calculation e.
Proof.
  intros [[[_ ->]|(_ & _ & ->)]%calculate_Throw _]%settle_inv; [now left | now right].
Qed.

(** Every way [analyzeBirthChart] is rejected: a request that did not
    come back, a reply that did not pass its screen, or a resolved place
    or time the chart cannot be calculated for. *)
Lemma analyzeBirthChart_Throw details w (e : exn) w' :
  analyzeBirthChart details w = (Throw e, w') ->
  rejected_by_model e \/
  rejected_by_screen "Could not resolve location details." e \/
  rejected_by_calculation e \/
  rejected_by_screen "Could not interpret chart." e.
Proof.
  unfold analyzeBirthChart.
  intros [H|(resolved & w1 & _ & H)]%await_Throw_inv.
  { apply resolveBirthDetails_Throw in H. tauto. }
  apply await_Throw_inv in H as [H|(c & w2 & _ & H)].
  { apply calculate_rejected in H. tauto. }
  apply enrichChart_Throw_inv in H. tauto.
Qed.

(** C6. The outcome of [analyzeBirthChart]: a well-formed chart under the
    name of the form with a text for every planet, or one of the
    exceptions of its three steps. *)
Theorem analyzeBirthChart_outcome details w :
  match (analyzeBirthChart details w).1 with
  | Ok data => data_wf (BirthDetails.name details) data
  | Throw e =>
      rejected_by_model e \/
      rejected_by_screen "Could not resolve location details." e \/
      rejected_by_calculation e \/
      rejected_by_screen "Could not interpret chart." e
  end.
Proof.
  destruct (analyzeBirthChart details w) as [[data|e] w'] eqn:H; cbn.
  - eapply analyzeBirthChart_wf, H.
  - eapply analyzeBirthChart_Throw, H.
Qed.

(** Every way [analyzeSynastry] is rejected, under every schedule. *)
Lemma analyzeSynastry_Throw (sch : Schedule.t) (d1 d2 : BirthDetails.t) w (e : exn) w' :
  analyzeSynastry sch d1 d2 w = (Throw e, w') ->
  rejected_by_model e \/
  rejected_by_screen "Could not resolve location details." e \/
  rejected_by_calculation e \/
  rejected_by_screen "Could not interpret chart." e \/
  rejected_by_screen "Could not analyze synastry." e.
Proof.
  unfold analyzeSynastry.
  intros [H|(r & w1 & _ & H)]%await_Throw_inv.
  { apply Promise_all2_Throw_inv in H as [(? & ? & H)|(? & ? & H)];
      apply resolveBirthDetails_Throw in H; tauto. }
  apply await_Throw_inv in H as [H|(c1 & w2 & _ & H)].
  { apply calculate_rejected in H. tauto. }
  apply await_Throw_inv in H as [H|(c2 & w3 & _ & H)].
  { apply calculate_rejected in H. tauto. }
  apply await_Throw_inv in H as [H|(p & w4 & _ & H)].
  { apply Promise_all2_Throw_inv in H as [(? & ? & H)|(? & ? & H)];
      apply enrichChart_Throw_inv in H; tauto. }
  apply await_Throw_inv in H as [H|(response & w5 & _ & H)].
  { left. eexists _, _, _. exact H. }
  apply settle_inv in H as [H _]. apply bind_Throw_inv in H as [H|(? & _ & [=])].
  do 4 right. eapply screen_Throw; [apply SynastryAnalysisSchema_only | exact H].
Qed.

(** C5. The outcome of [analyzeSynastry], in whatever order the calls in
    flight are answered and settle: two well-formed charts under the
    names of the form and key aspects that carry the orbs calculated
    between the two charts, or one of the exceptions of its steps. *)
Theorem analyzeSynastry_outcome (sch : Schedule.t) (d1 d2 : BirthDetails.t) w :
  match (analyzeSynastry sch d1 d2 w).1 with
  | Ok data =>
      data_wf (BirthDetails.name d1) (SynastryData.personA data) /\
      data_wf (BirthDetails.name d2) (SynastryData.personB data) /\
      Forall
        (keyAspect_ok (calculateAspects (chart_of_data (SynastryData.personA data))
                         (chart_of_data (SynastryData.personB data))))
        (Analysis.keyAspects (SynastryData.analysis data))
  | Throw e =>
      rejected_by_model e \/
      rejected_by_screen "Could not resolve location details." e \/
      rejected_by_calculation e \/
      rejected_by_screen "Could not interpret chart." e \/
      rejected_by_screen "Could not analyze synastry." e
  end.
Proof.
  destruct (analyzeSynastry sch d1 d2 w) as [[data|e] w'] eqn:H; cbn.
  - eapply analyzeSynastry_wf, H.
  - eapply analyzeSynastry_Throw, H.
Qed.

End PipelineFacts.

(** ** A scripted model

    A language model that replies with the texts of a script, one for
    each request, and a runtime that reads the strings of the format
    of the language ([IsoDate.es_time]) and no other: enough to run the
    pipelines. *)

Module Scripted.

(** The replies to come; a request with no reply left is rejected. *)
#[export] Instance ai : GenAI := {|
  world := list (option string);
  generateContent := fun _ w =>
    match w with
    | text :: w' => (Ok (GenerateContentResponse.mk text), w')
    | [] => (Throw (Error "fetch failed"), [])
    end
|}.

Definition location : json :=
  JObj [("lat", JNum 0); ("lon", JNum 0);
        ("utcTime", JStr "1970-01-01T00:00:00.000Z");
        ("formattedAddress", JStr "Null Island")].

Definition interpretation : json :=
  JObj [("planets",
         JArr [JObj [("name", JStr "Moon"); ("interpretation", JStr "Tidal.")];
               JObj [("name", JStr "Sun"); ("interpretation", JStr "Radiant.")];
               JObj [("name", JStr "Sun"); ("interpretation", JStr "Late.")]]);
        ("summary", JStr "A quiet fire.")].

Definition analysis : json :=
  JObj [("overview", JStr "Two of a kind.");
        ("strengths", JArr [JStr "Ease"]);
        ("challenges", JArr [JStr "Sameness"]);
        ("keyAspects",
         JArr [JObj [("planetA", JStr "Sun"); ("planetB", JStr "Moon");
                     ("aspectType", JStr "Trine"); ("description", JStr "Made up.")];
               JObj [("planetA", JStr "Moon"); ("planetB", JStr "Moon");
                     ("aspectType", JStr "Conjunction"); ("description", JStr "Kin.")]])].

#[export] Instance rt : Runtime := {|
  Date_new := es_time;
  Date_new_es := fun s t H => H
|}.

Definition details : BirthDetails.t :=
  BirthDetails.mk "1970-01-01" "00:00" "Null Island" "Ada".

(** The script of a natal chart and of a synastry that go well. *)
Definition natal_script : world :=
  [Some (JSON_stringify location); Some (JSON_stringify interpretation)].

Definition synastry_script : world :=
  [Some (JSON_stringify location); Some (JSON_stringify location);
   Some (JSON_stringify interpretation); Some (JSON_stringify interpretation);
   Some (JSON_stringify analysis)].

End Scripted.

(** ** Instances *)

(** Noon of 29 February 2000, at latitude 0 and longitude 0. *)
Lemma calculate_instant_witness :
  calculate (trig := StandIn.trig) (astro := StandIn.astro) (rt := Scripted.rt)
    (ResolvedLocation.mk 0 0 (toISOString 951825600000) "Null Island")
  = calculateChart (trig := StandIn.trig) (astro := StandIn.astro) (Some 951825600000%Z) 0 0.
Proof.
  apply (calculate_instant (trig := StandIn.trig) (astro := StandIn.astro)
           (rt := Scripted.rt) 951825600000 0 0 "Null Island").
  unfold maxTime. lia.
Defined.

Lemma interpretation_for_found_witness :
  interpretation_for
    (Interpretation.mk
       [PlanetInterpretation.mk "Moon" "Tidal."; PlanetInterpretation.mk "Sun" "Radiant.";
        PlanetInterpretation.mk "Sun" "Late."] "A quiet fire.")
    (planet_at "Sun" 0)
  = "Radiant.".
Proof.
  apply (interpretation_for_found _ _ [PlanetInterpretation.mk "Moon" "Tidal."]
           [PlanetInterpretation.mk "Sun" "Late."] (PlanetInterpretation.mk "Sun" "Radiant."));
    [reflexivity | repeat constructor; discriminate | reflexivity | discriminate].
Defined.

(** With no reply left the first request is rejected, and so is the
    synastry. *)
Lemma analyzeSynastry_first_rejection_witness :
  (analyzeSynastry (trig := StandIn.trig) (astro := StandIn.astro)
     (ai := Scripted.ai) (rt := Scripted.rt) Schedule.in_order
     Scripted.details Scripted.details []).1
  = Throw (Error "fetch failed").
Proof.
  apply (analyzeSynastry_first_rejection (ai := Scripted.ai) (rt := Scripted.rt)
           Scripted.details Scripted.details [] (Error "fetch failed") []).
  reflexivity.
Defined.

(** A natal chart and a synastry on the scripts that go well. *)
Example analyzeBirthChart_run :
  match (analyzeBirthChart (trig := StandIn.trig) (astro := StandIn.astro)
           (ai := Scripted.ai) (rt := Scripted.rt) Scripted.details
           Scripted.natal_script).1 with
  | Ok data =>
      ChartData.name data = Some "Ada" /\
      (fun p => (PlanetPosition.name p, PlanetPosition.interpretation p))
        <$> take 3 (ChartData.planets data)
      = [("Sun", "Radiant."); ("Moon", "Tidal."); ("Mercury", "A mysterious placement.")]
  | Throw _ => False
  end.
Proof. vm_compute. split; reflexivity. Qed.

(** A key aspect the service found keeps its orb; one the model made up
    gets 0. *)
Example analyzeSynastry_run :
  match (analyzeSynastry (trig := StandIn.trig) (astro := StandIn.astro)
           (ai := Scripted.ai) (rt := Scripted.rt) Schedule.in_order
           Scripted.details Scripted.details Scripted.synastry_script).1 with
  | Ok data =>
      (fun x => (SynastryAspect.planetA x, SynastryAspect.planetB x,
                 SynastryAspect.aspectType x, Qred (SynastryAspect.orb x)))
        <$> Analysis.keyAspects (SynastryData.analysis data)
      = [("Sun", "Moon", "Trine", 0%Q); ("Moon", "Moon", "Conjunction", 0%Q)]
  | Throw _ => False
  end.
Proof. vm_compute. reflexivity. Qed.

(** A reply that is not JSON, and one that is JSON of the wrong shape. *)
Example analyzeBirthChart_SyntaxError :
  (analyzeBirthChart (trig := StandIn.trig) (astro := StandIn.astro)
     (ai := Scripted.ai) (rt := Scripted.rt) Scripted.details [Some "{"]).1
  = Throw SyntaxError.
Proof. vm_compute. reflexivity. Qed.

Example analyzeBirthChart_ZodError :
  (analyzeBirthChart (trig := StandIn.trig) (astro := StandIn.astro)
     (ai := Scripted.ai) (rt := Scripted.rt) Scripted.details [Some "null"]).1
  = Throw ZodError.
Proof. vm_compute. reflexivity. Qed.

(** ** The time zone of the visitor

    The schema of the first reply asks for a string and no more, and
    [new Date] reads a date and a time with no offset as local time.  A
    runtime [off] minutes east of UTC is a [Runtime]: it reads the
    strings of the format of the language as the language says.  Two
    such runtimes calculate two different charts for the same reply when
    the model leaves the [Z] out. *)
Definition local_time (off : Z) (s : string) : Date.t :=
  match es_time s with
  | Some t => Some t
  | None => es_time (s +:+ "Z") ≫= fun t => TimeClip (t - off * 60000)
  end.

Lemma local_time_es (off : Z) (s : string) (t : Z) :
  es_time s = Some t -> local_time off s = Some t.
Proof. unfold local_time. now intros ->. Qed.

Definition zone (off : Z) : Runtime := {|
  Date_new := local_time off;
  Date_new_es := local_time_es off
|}.

Definition noon_without_zone : ResolvedLocation.t :=
  ResolvedLocation.mk 0 0 "2000-02-29T12:00:00" "Null Island".

Example zone_shows :
  is_Ok (calculate (trig := StandIn.trig) (astro := StandIn.astro) (rt := zone 0)
           noon_without_zone) /\
  calculate (trig := StandIn.trig) (astro := StandIn.astro) (rt := zone 0) noon_without_zone
  <> calculate (trig := StandIn.trig) (astro := StandIn.astro) (rt := zone 60) noon_without_zone.
Proof. split; [vm_compute; eauto | intros H; vm_compute in H; discriminate]. Qed.
