(* ===== verification/Reply.v ===== *)
(** * Reply: the replies the screens accept

    What a language model has to send for a request of
    [src/services/geminiService.ts] to go through: the JSON text of a
    value of the type the step validates.  [encode] writes a value of
    each of the three types as the JSON the zod schema of its step reads
    ([Codec]); the text of that JSON goes through [JSON.parse] and the
    schema back to the value, and follows the [responseSchema] the
    request asks for.

    The theorems: the screen of a step inverts [JSON_stringify] after
    [encode]; an encoded value has the type the request describes; the
    natal pipeline returns the merged chart for every pair of such
    replies whose location has a latitude of -90..+90, and the synastry
    pipeline, in the order of the arrays, for every five. *)

From Stdlib Require Import QArith ZArith Lia Ascii.
From stdpp Require Import base tactics decidable option list strings.
From S2P Require Import Prelude Types Json JsonPrint JsonParse IsoDate Chart Aspects Gemini.

#[local] Open Scope string_scope.
#[local] Set Warnings "-register-all".

(** ** Codecs *)

(** A type of replies: how a value is written as JSON, the zod schema
    that reads it, and the [responseSchema] that describes it to the
    model. *)
Class Codec (A : Type) : Type := {
  encode : A -> json;
  validate : zod A;
  asked : Schema;
  validate_encode : forall a, validate (encode a) = Ok a;
  asked_agrees : agrees asked validate
}.

(** The reply of a model that sends the value [a]. *)
Definition reply `{Codec A} (a : A) : GenerateContentResponse.t :=
  GenerateContentResponse.mk (Some (JSON_stringify (encode a))).

(** A number the text of a reply can carry as it is. *)
Definition decimal (q : Q) : bool :=
  bool_decide (Qred q = q) && bool_decide (is_Some (decimal_places q)).

Definition encode_location (l : ResolvedLocation.t) : json :=
  JObj [("lat", JNum (ResolvedLocation.lat l));
        ("lon", JNum (ResolvedLocation.lon l));
        ("utcTime", JStr (ResolvedLocation.utcTime l));
        ("formattedAddress", JStr (ResolvedLocation.formattedAddress l))].

Definition encode_planet (p : PlanetInterpretation.t) : json :=
  JObj [("name", JStr (PlanetInterpretation.name p));
        ("interpretation", JStr (PlanetInterpretation.interpretation p))].

Definition encode_interpretation (i : Interpretation.t) : json :=
  JObj [("planets", JArr (encode_planet <$> Interpretation.planets i));
        ("summary", JStr (Interpretation.summary i))].

Definition encode_keyAspect (k : KeyAspect.t) : json :=
  JObj [("planetA", JStr (KeyAspect.planetA k));
        ("planetB", JStr (KeyAspect.planetB k));
        ("aspectType", JStr (KeyAspect.aspectType k));
        ("description", JStr (KeyAspect.description k))].

Definition encode_analysis (a : SynastryAnalysis.t) : json :=
  JObj [("overview", JStr (SynastryAnalysis.overview a));
        ("strengths", JArr (JStr <$> SynastryAnalysis.strengths a));
        ("challenges", JArr (JStr <$> SynastryAnalysis.challenges a));
        ("keyAspects", JArr (encode_keyAspect <$> SynastryAnalysis.keyAspects a))].

(** ** The schemas read what [encode] writes *)

Lemma map_result_encode {A : Type} (enc : A -> json) (z : zod A) (l : list A) :
  (forall a, z (enc a) = Ok a) -> map_result z (enc <$> l) = Ok l.
Proof.
  intros Hz. induction l as [|a l IH]; [done|]. cbn. now rewrite Hz, IH.
Qed.

Lemma PlanetInterpretationSchema_encode (p : PlanetInterpretation.t) :
  PlanetInterpretationSchema (encode_planet p) = Ok p.
Proof. now destruct p. Qed.

Lemma KeyAspectSchema_encode (k : KeyAspect.t) : KeyAspectSchema (encode_keyAspect k) = Ok k.
Proof. now destruct k. Qed.

Lemma ResolvedLocationSchema_encode (l : ResolvedLocation.t) :
  ResolvedLocationSchema (encode_location l) = Ok l.
Proof. now destruct l. Qed.

Lemma InterpretationSchema_encode (i : Interpretation.t) :
  InterpretationSchema (encode_interpretation i) = Ok i.
Proof.
  destruct i as [planets summary]. unfold InterpretationSchema, encode_interpretation. cbn.
  repeat case_bool_decide; try done. cbn.
  now rewrite (map_result_encode _ _ _ PlanetInterpretationSchema_encode).
Qed.

Lemma SynastryAnalysisSchema_encode (a : SynastryAnalysis.t) :
  SynastryAnalysisSchema (encode_analysis a) = Ok a.
Proof.
  destruct a as [overview strengths challenges keyAspects].
  unfold SynastryAnalysisSchema, encode_analysis. cbn.
  repeat case_bool_decide; try done. cbn.
  rewrite !(map_result_encode JStr z_string) by done. cbn.
  now rewrite (map_result_encode _ _ _ KeyAspectSchema_encode).
Qed.

#[global] Instance location_codec : Codec ResolvedLocation.t := {|
  encode := encode_location;
  validate := ResolvedLocationSchema;
  asked := resolve_responseSchema;
  validate_encode := ResolvedLocationSchema_encode;
  asked_agrees := agrees_ResolvedLocation
|}.

#[global] Instance interpretation_codec : Codec Interpretation.t := {|
  encode := encode_interpretation;
  validate := InterpretationSchema;
  asked := enrich_responseSchema;
  validate_encode := InterpretationSchema_encode;
  asked_agrees := agrees_Interpretation
|}.

#[global] Instance analysis_codec : Codec SynastryAnalysis.t := {|
  encode := encode_analysis;
  validate := SynastryAnalysisSchema;
  asked := synastry_responseSchema;
  validate_encode := SynastryAnalysisSchema_encode;
  asked_agrees := agrees_SynastryAnalysis
|}.

(** ** Encoded values are well formed *)

Lemma wf_fmap {A : Type} (enc : A -> json) (l : list A) :
  (forall a, wf (enc a) = true) -> forallb wf (enc <$> l) = true.
Proof. intros H. induction l as [|a l IH]; [done|]. cbn. now rewrite H, IH. Qed.

Lemma wf_encode_planet (p : PlanetInterpretation.t) : wf (encode_planet p) = true.
Proof. done. Qed.

Lemma wf_encode_keyAspect (k : KeyAspect.t) : wf (encode_keyAspect k) = true.
Proof. done. Qed.

(** The numbers are all that can keep a location from its text. *)
Lemma wf_encode_location (l : ResolvedLocation.t) :
  wf (encode_location l)
  = decimal (ResolvedLocation.lat l) && decimal (ResolvedLocation.lon l).
Proof.
  unfold encode_location, decimal. cbn [wf forallb fmap list_fmap fst].
  rewrite bool_decide_eq_true_2 by compute_done. cbn. now rewrite !andb_true_r.
Qed.

Lemma wf_encode_interpretation (i : Interpretation.t) : wf (encode_interpretation i) = true.
Proof.
  unfold encode_interpretation. cbn [wf forallb fmap list_fmap fst].
  rewrite bool_decide_eq_true_2 by compute_done. cbn -[wf].
  change (wf (JArr ?l)) with (forallb wf l). now rewrite (wf_fmap _ _ wf_encode_planet).
Qed.

Lemma wf_encode_analysis (a : SynastryAnalysis.t) : wf (encode_analysis a) = true.
Proof.
  unfold encode_analysis. cbn [wf forallb fmap list_fmap fst].
  rewrite bool_decide_eq_true_2 by compute_done. cbn -[wf].
  change (wf (JArr ?l)) with (forallb wf l).
  rewrite !(wf_fmap JStr) by done. now rewrite (wf_fmap _ _ wf_encode_keyAspect).
Qed.

Lemma wf_encode_decimal (l : ResolvedLocation.t) :
  decimal (ResolvedLocation.lat l) && decimal (ResolvedLocation.lon l) = true ->
  wf (encode l) = true.
Proof. intros H. change (wf (encode_location l) = true). now rewrite wf_encode_location. Qed.

(** ** The screen of a reply *)

Section Screen.
Context `{Codec A}.

Lemma reply_text (a : A) : truthy (GenerateContentResponse.text (reply a))
                           = Some (JSON_stringify (encode a)).
Proof.
  apply truthy_Some. split; [done|].
  destruct (JSON_stringify_start (encode a) "") as (c & s & E & _).
  rewrite string_app_nil_r in E. now rewrite E.
Qed.

(** The screen of a step reads the reply of a model that sends [a] back
    to [a]: [JSON.parse] inverts [JSON.stringify] and the schema inverts
    [encode]. *)
Lemma screen_reply (a : A) (msg : string) :
  wf (encode a) = true -> screen (reply a) msg validate = Ok a.
Proof.
  intros Hwf. unfold screen. rewrite reply_text. cbn.
  rewrite JSON_parse_stringify by done. cbn. apply validate_encode.
Qed.

(** What is sent follows the schema the request asked for. *)
Lemma encode_asked (a : A) : conforms asked (encode a) = true.
Proof. apply asked_agrees. rewrite validate_encode. now eexists. Qed.

End Screen.

(** ** The pipelines on the replies of a model that answers *)

(** What [enrichChart] makes of a chart and an interpretation. *)
Definition enriched (name : string) (chart : CalculatedChart.t) (i : Interpretation.t)
    : ChartData.t :=
  ChartData.mk (Some name) (mergedPlanets chart i) (CalculatedChart.rising chart)
    (CalculatedChart.elements chart) (Interpretation.summary i)
    (CalculatedChart.bigThree chart).

Section Accepts.
Context {trig : MathTrig} {astro : AstronomyEngine} {ai : GenAI} {rt : Runtime}.
Implicit Types (w : world) (details : BirthDetails.t).

Lemma resolveBirthDetails_reply details w (l : ResolvedLocation.t) w' :
  generateContent (request (resolve_prompt details) resolve_responseSchema) w
    = (Ok (reply l), w') ->
  wf (encode l) = true ->
  resolveBirthDetails details w = (Ok l, w').
Proof.
  intros Hg Hwf. apply resolveBirthDetails_Ok. exists (reply l). split; [done|].
  exact (screen_reply l _ Hwf).
Qed.

Lemma enrichChart_reply (chart : CalculatedChart.t) (name : string) w
    (i : Interpretation.t) w' :
  generateContent (enrich_request chart name) w = (Ok (reply i), w') ->
  enrichChart chart name w = (Ok (enriched name chart i), w').
Proof.
  intros Hg. apply enrichChart_Ok. exists (reply i), i. split_and!; [done| |done].
  exact (screen_reply i _ (wf_encode_interpretation i)).
Qed.

(** A natal chart goes through whenever the model answers the two
    requests with the texts of a location and of an interpretation, the
    coordinates are decimal numbers and the time is one the runtime
    reads: the result is the chart calculated for the location, under
    the texts of the interpretation. *)
Lemma analyzeBirthChart_accepts details w (l : ResolvedLocation.t) w1
    (chart : CalculatedChart.t) (i : Interpretation.t) w2 :
  decimal (ResolvedLocation.lat l) && decimal (ResolvedLocation.lon l) = true ->
  generateContent (request (resolve_prompt details) resolve_responseSchema) w
    = (Ok (reply l), w1) ->
  calculate l = Ok chart ->
  generateContent (enrich_request chart (BirthDetails.name details)) w1
    = (Ok (reply i), w2) ->
  analyzeBirthChart details w = (Ok (enriched (BirthDetails.name details) chart i), w2).
Proof.
  intros Hdec Hl Hc Hi. apply analyzeBirthChart_Ok. exists l, w1, chart. split_and!.
  - apply resolveBirthDetails_reply; [done|]. now apply wf_encode_decimal.
  - done.
  - now apply enrichChart_reply.
Qed.

(** A latitude of [-90, 90] and a time the language reads are a place
    and a date the chart is calculated for. *)
Lemma calculate_read (l : ResolvedLocation.t) :
  valid_latitude (ResolvedLocation.lat l) ->
  is_Some (es_time (ResolvedLocation.utcTime l)) ->
  exists chart, calculate l = Ok chart /\ chart_wf chart.
Proof.
  intros Hlat [t H]. unfold calculate. rewrite (Date_new_es _ _ H).
  now apply calculateChart_valid_date.
Qed.

(** C18. The natal pipeline fulfils its promise for a model that does what
    the prompts ask: when the reply to the first request is the text of
    a location with decimal coordinates, a latitude of [-90, 90] and a
    time the language reads (the [YYYY-MM-DDTHH:mm:ss.sssZ] asked for,
    or another form of its format), and the reply to the second the text
    of an interpretation, [analyzeBirthChart] returns
    the well-formed chart calculated for the location, under the name of
    the form and the texts of the interpretation. *)
Theorem analyzeBirthChart_fulfils details w (l : ResolvedLocation.t) w1
    (i : Interpretation.t) w2 :
  decimal (ResolvedLocation.lat l) && decimal (ResolvedLocation.lon l) = true ->
  valid_latitude (ResolvedLocation.lat l) ->
  is_Some (es_time (ResolvedLocation.utcTime l)) ->
  generateContent (request (resolve_prompt details) resolve_responseSchema) w
    = (Ok (reply l), w1) ->
  (forall chart, calculate l = Ok chart ->
     generateContent (enrich_request chart (BirthDetails.name details)) w1
     = (Ok (reply i), w2)) ->
  exists chart,
    calculate l = Ok chart /\ chart_wf chart /\
    analyzeBirthChart details w = (Ok (enriched (BirthDetails.name details) chart i), w2) /\
    data_wf (BirthDetails.name details) (enriched (BirthDetails.name details) chart i).
Proof.
  intros Hdec Hlat Hiso Hl Hi. destruct (calculate_read l Hlat Hiso) as (chart & Hc & Hwf).
  exists chart. split_and!; [done | done | |].
  - now apply (analyzeBirthChart_accepts details w l w1 chart i w2); [| | |apply Hi].
  - apply (enrichChart_wf chart _ w1 _ w2 Hwf), enrichChart_reply, Hi, Hc.
Qed.

(** In the order of the array a synastry goes through on five such
    replies: the two locations, the two interpretations, the analysis. *)
Theorem analyzeSynastry_accepts (d1 d2 : BirthDetails.t) w (l1 l2 : ResolvedLocation.t)
    (c1 c2 : CalculatedChart.t) (i1 i2 : Interpretation.t) (a : SynastryAnalysis.t)
    w1 w2 w3 w4 w5 :
  wf (encode l1) = true -> wf (encode l2) = true ->
  generateContent (request (resolve_prompt d1) resolve_responseSchema) w
    = (Ok (reply l1), w1) ->
  generateContent (request (resolve_prompt d2) resolve_responseSchema) w1
    = (Ok (reply l2), w2) ->
  calculate l1 = Ok c1 -> calculate l2 = Ok c2 ->
  generateContent (enrich_request c1 (BirthDetails.name d1)) w2 = (Ok (reply i1), w3) ->
  generateContent (enrich_request c2 (BirthDetails.name d2)) w3 = (Ok (reply i2), w4) ->
  generateContent (synastry_request d1 d2 (calculateAspects c1 c2)) w4
    = (Ok (reply a), w5) ->
  analyzeSynastry Schedule.in_order d1 d2 w
  = (Ok (synastry_data (enriched (BirthDetails.name d1) c1 i1)
           (enriched (BirthDetails.name d2) c2 i2) (calculateAspects c1 c2) a), w5).
Proof.
  intros Hwf1 Hwf2 Hl1 Hl2 Hc1 Hc2 Hi1 Hi2 Ha. apply analyzeSynastry_in_order_Ok.
  exists l1, l2, c1, c2, (enriched (BirthDetails.name d1) c1 i1),
    (enriched (BirthDetails.name d2) c2 i2), (reply a), a, w1, w2, w3, w4.
  split_and!; try done.
  - now apply resolveBirthDetails_reply.
  - now apply resolveBirthDetails_reply.
  - now apply enrichChart_reply.
  - now apply enrichChart_reply.
  - exact (screen_reply a _ (wf_encode_analysis a)).
Qed.

End Accepts.

(** ** The claims on the three steps *)

(** C11. The screens of the three steps read back what a model sends: the
    text of a location with decimal coordinates, of an interpretation,
    of an analysis. *)
Theorem screen_roundtrip (msg : string) :
  (forall l : ResolvedLocation.t,
     decimal (ResolvedLocation.lat l) && decimal (ResolvedLocation.lon l) = true ->
     screen (reply l) msg ResolvedLocationSchema = Ok l) /\
  (forall i : Interpretation.t, screen (reply i) msg InterpretationSchema = Ok i) /\
  (forall a : SynastryAnalysis.t, screen (reply a) msg SynastryAnalysisSchema = Ok a).
Proof.
  split_and!.
  - intros l Hl. exact (screen_reply l _ (wf_encode_decimal l Hl)).
  - intros i. exact (screen_reply i _ (wf_encode_interpretation i)).
  - intros a. exact (screen_reply a _ (wf_encode_analysis a)).
Qed.


(** ** Instances *)

Definition null_island : ResolvedLocation.t :=
  ResolvedLocation.mk 0 0 "1970-01-01T00:00:00.000Z" "Null Island".

Definition quiet_fire : Interpretation.t :=
  Interpretation.mk
    [PlanetInterpretation.mk "Moon" "Tidal."; PlanetInterpretation.mk "Sun" "Radiant."]
    "A quiet fire.".

Lemma screen_roundtrip_witness :
  screen (reply null_island) "Could not resolve location details." ResolvedLocationSchema
  = Ok null_island.
Proof.
  apply (proj1 (screen_roundtrip "Could not resolve location details.") null_island).
  reflexivity.
Defined.

Lemma analyzeBirthChart_fulfils_witness :
  is_Ok (analyzeBirthChart (trig := StandIn.trig) (astro := StandIn.astro)
           (ai := Scripted.ai) (rt := Scripted.rt) Scripted.details
           [Some (JSON_stringify (encode null_island));
            Some (JSON_stringify (encode quiet_fire))]).1.
Proof.
  destruct (analyzeBirthChart_fulfils (trig := StandIn.trig) (astro := StandIn.astro)
              (ai := Scripted.ai) (rt := Scripted.rt) Scripted.details
              [Some (JSON_stringify (encode null_island));
               Some (JSON_stringify (encode quiet_fire))]
              null_island [Some (JSON_stringify (encode quiet_fire))]
              quiet_fire [] eq_refl (conj (Qle_bool_imp_le (-90) 0 eq_refl)
                                       (Qle_bool_imp_le 0 90 eq_refl))
              (ex_intro _ 0%Z eq_refl) eq_refl (fun _ _ => eq_refl))
    as (chart & _ & _ & -> & _).
  now eexists.
Defined.

Definition two_of_a_kind : SynastryAnalysis.t :=
  SynastryAnalysis.mk "Two of a kind." ["Ease"] ["Sameness"]
    [KeyAspect.mk "Sun" "Moon" "Trine" "Made up."].

Lemma analyzeSynastry_accepts_witness :
  is_Ok (analyzeSynastry (trig := StandIn.trig) (astro := StandIn.astro)
           (ai := Scripted.ai) (rt := Scripted.rt) Schedule.in_order
           Scripted.details Scripted.details
           [Some (JSON_stringify (encode null_island));
            Some (JSON_stringify (encode null_island));
            Some (JSON_stringify (encode quiet_fire));
            Some (JSON_stringify (encode quiet_fire));
            Some (JSON_stringify (encode two_of_a_kind))]).1.
Proof.
  destruct (calculate (trig := StandIn.trig) (astro := StandIn.astro) (rt := Scripted.rt)
              null_island) as [chart|e] eqn:Hc; [|vm_compute in Hc; discriminate].
  set (l := Some (JSON_stringify (encode null_island))).
  set (i := Some (JSON_stringify (encode quiet_fire))).
  set (a := Some (JSON_stringify (encode two_of_a_kind))).
  rewrite (analyzeSynastry_accepts (trig := StandIn.trig) (astro := StandIn.astro)
             (ai := Scripted.ai) (rt := Scripted.rt) Scripted.details Scripted.details
             [l; l; i; i; a] null_island null_island chart chart quiet_fire quiet_fire
             two_of_a_kind [l; i; i; a] [i; i; a] [i; a] [a] []
             eq_refl eq_refl eq_refl eq_refl Hc Hc eq_refl eq_refl eq_refl).
  now eexists.
Defined.
