(* ===== verification/Schedules.v ===== *)
(** * Schedules: the calls [analyzeSynastry] has in flight at once

    [src/services/geminiService.ts], lines 160 and 170-173.  Each of the
    two [Promise.all] of [analyzeSynastry] starts two requests before it
    awaits either; the event loop decides which of the two is answered
    first and which promise settles first, and [Gemini.Schedule.t] is
    that decision.  This file says when the decision matters.

    - [Commuting]: a language model whose answer to a request does not
      depend on the other request in flight: two requests answered in
      either order get the same answers and leave the same world;
    - for such a model every schedule of [analyzeSynastry] has the same
      outcome ([analyzeSynastry_schedule_free]): the same data when it is
      fulfilled, and when it is rejected only the exception can differ,
      and only between two calls that are both rejected;
    - [Oracle]: the model that is a function of the request, which
      commutes; on an oracle that answers what the prompts ask for the
      synastry is fulfilled under every schedule
      ([analyzeSynastry_fulfils]);
    - [Quota]: a model that answers a fixed number of requests, which
      does not commute: the schedule decides whose request is refused;
    - the scripted model of [Gemini], which does not commute either: the
      schedule decides whose chart is whose
      ([scripted_schedule_shows]). *)

From Stdlib Require Import QArith ZArith Lia Lqa.
From stdpp Require Import base tactics decidable option list strings.
From S2P Require Import Prelude Types Json JsonPrint JsonParse IsoDate Chart Aspects Gemini Reply.

#[local] Open Scope string_scope.
#[local] Set Warnings "-register-all".

(** ** Models that commute *)

(** The answer to a request does not depend on the order in which the
    requests in flight are answered. *)
Class Commuting (ai : GenAI) : Prop :=
  requests_commute : forall (req1 req2 : GenerateContentParameters.t) (w : world),
    commute (generateContent req1) (generateContent req2) w.

(** A model that is a function of the request: no state, the world is
    the model itself. *)
Module Oracle.
Section Oracle.
Context (answer : GenerateContentParameters.t -> result GenerateContentResponse.t).

#[export] Instance ai : GenAI := {|
  world := unit;
  generateContent := fun req w => (answer req, w)
|}.

#[export] Instance commuting : Commuting ai.
Proof. intros req1 req2 w. reflexivity. Qed.

End Oracle.
End Oracle.

(** A model that answers [n] requests with the same text and refuses
    every request after them. *)
Module Quota.
Section Quota.
Context (text : string).

#[export] Instance ai : GenAI := {|
  world := nat;
  generateContent := fun req n =>
    match n with
    | O => (Throw (Error "quota exceeded"), O)
    | S n' => (Ok (GenerateContentResponse.mk (Some text)), n')
    end
|}.

End Quota.
End Quota.

(** ** One schedule is as good as another *)

Section Independence.
Context {trig : MathTrig} {astro : AstronomyEngine} {ai : GenAI} {rt : Runtime}.
Implicit Types (w : world) (sch : Schedule.t).

Lemma resolveBirthDetails_commute {comm : Commuting ai} (d1 d2 : BirthDetails.t) w :
  commute (resolveBirthDetails d1) (resolveBirthDetails d2) w.
Proof. apply commute_then, requests_commute. Qed.

Lemma enrichChart_commute {comm : Commuting ai} (c1 c2 : CalculatedChart.t) (name1 name2 : string) w :
  commute (enrichChart c1 name1) (enrichChart c2 name2) w.
Proof. apply commute_then, requests_commute. Qed.

(** For a model that commutes [analyzeSynastry] has the same outcome
    under every schedule. *)
Lemma analyzeSynastry_same_outcome {comm : Commuting ai} sch sch'
    (d1 d2 : BirthDetails.t) w :
  same_outcome (analyzeSynastry sch d1 d2 w) (analyzeSynastry sch' d1 d2 w).
Proof.
  unfold analyzeSynastry.
  apply same_outcome_await; [apply Promise_all2_commute, resolveBirthDetails_commute|].
  intros r w1. apply same_outcome_await; [reflexivity|].
  intros c1 w2. apply same_outcome_await; [reflexivity|].
  intros c2 w3. apply same_outcome_await; [apply Promise_all2_commute, enrichChart_commute|].
  intros p w4. reflexivity.
Qed.

(** C20. For a language model whose answers do not depend on the order of
    the requests in flight, the schedule of [analyzeSynastry] does not
    matter: what one schedule fulfils every schedule fulfils, with the
    same data and the same world after; what one schedule rejects every
    schedule rejects. *)
Theorem analyzeSynastry_schedule_free {comm : Commuting ai} sch sch'
    (d1 d2 : BirthDetails.t) w :
  (forall data w', analyzeSynastry sch d1 d2 w = (Ok data, w') ->
     analyzeSynastry sch' d1 d2 w = (Ok data, w')) /\
  (forall e w', analyzeSynastry sch d1 d2 w = (Throw e, w') ->
     exists e', analyzeSynastry sch' d1 d2 w = (Throw e', w')).
Proof.
  pose proof (analyzeSynastry_same_outcome sch sch' d1 d2 w) as H. split.
  - intros data w' E. now apply (same_outcome_Ok _ _ _ _ H).
  - intros e w' E. rewrite E in H.
    destruct (analyzeSynastry sch' d1 d2 w) as [[|e'] w'']; cbn in H; [done|].
    subst. now exists e'.
Qed.

End Independence.

(** ** A synastry on an oracle *)

Section Fulfils.
Context {trig : MathTrig} {astro : AstronomyEngine} {rt : Runtime}.
Context (answer : GenerateContentParameters.t -> result GenerateContentResponse.t).

(** A location the chart can be calculated for, written as the model
    has to write it. *)
Definition well_resolved (l : ResolvedLocation.t) : Prop :=
  decimal (ResolvedLocation.lat l) && decimal (ResolvedLocation.lon l) = true /\
  valid_latitude (ResolvedLocation.lat l) /\
  is_Some (es_time (ResolvedLocation.utcTime l)).

(** On an oracle the synastry pipeline accepts, under every schedule,
    the replies it accepts in order: two locations the charts are
    calculated for, an interpretation of each chart and an analysis of
    the aspects between the two. *)
Lemma analyzeSynastry_oracle (sch : Schedule.t) (d1 d2 : BirthDetails.t)
    (l1 l2 : ResolvedLocation.t) (c1 c2 : CalculatedChart.t)
    (i1 i2 : Interpretation.t) (a : SynastryAnalysis.t) :
  decimal (ResolvedLocation.lat l1) && decimal (ResolvedLocation.lon l1) = true ->
  decimal (ResolvedLocation.lat l2) && decimal (ResolvedLocation.lon l2) = true ->
  calculate l1 = Ok c1 -> calculate l2 = Ok c2 ->
  answer (request (resolve_prompt d1) resolve_responseSchema) = Ok (reply l1) ->
  answer (request (resolve_prompt d2) resolve_responseSchema) = Ok (reply l2) ->
  answer (enrich_request c1 (BirthDetails.name d1)) = Ok (reply i1) ->
  answer (enrich_request c2 (BirthDetails.name d2)) = Ok (reply i2) ->
  answer (synastry_request d1 d2 (calculateAspects c1 c2)) = Ok (reply a) ->
  analyzeSynastry (ai := Oracle.ai answer) sch d1 d2 tt
  = (Ok (synastry_data (enriched (BirthDetails.name d1) c1 i1)
           (enriched (BirthDetails.name d2) c2 i2) (calculateAspects c1 c2) a), tt).
Proof.
  intros Hd1 Hd2 Hc1 Hc2 Hl1 Hl2 Hi1 Hi2 Ha.
  apply (same_outcome_Ok _ _ _ _
           (analyzeSynastry_same_outcome (ai := Oracle.ai answer) (comm := Oracle.commuting answer)
              Schedule.in_order sch d1 d2 tt)).
  apply (analyzeSynastry_accepts (ai := Oracle.ai answer)
           d1 d2 tt l1 l2 c1 c2 i1 i2 a tt tt tt tt tt);
    try (now apply wf_encode_decimal); try done; cbn; f_equal; auto.
Qed.

(** C21. The synastry pipeline fulfils its promise, under every schedule,
    on a model that answers each request as its prompt asks: the two
    locations (decimal coordinates, a latitude of [-90, 90], a time the
    language reads: the [YYYY-MM-DDTHH:mm:ss.sssZ] asked for, or another
    form of its format), an interpretation for each
    chart calculated, and an analysis of the aspects between the two.
    The result is the two well-formed charts under the names of the form
    and the texts of the interpretations, and the analysis with the orbs
    of the aspects calculated. *)
Theorem analyzeSynastry_fulfils (sch : Schedule.t) (d1 d2 : BirthDetails.t)
    (l1 l2 : ResolvedLocation.t) (i1 i2 : Interpretation.t) (a : SynastryAnalysis.t) :
  well_resolved l1 -> well_resolved l2 ->
  answer (request (resolve_prompt d1) resolve_responseSchema) = Ok (reply l1) ->
  answer (request (resolve_prompt d2) resolve_responseSchema) = Ok (reply l2) ->
  (forall c1, calculate l1 = Ok c1 ->
     answer (enrich_request c1 (BirthDetails.name d1)) = Ok (reply i1)) ->
  (forall c2, calculate l2 = Ok c2 ->
     answer (enrich_request c2 (BirthDetails.name d2)) = Ok (reply i2)) ->
  (forall c1 c2, calculate l1 = Ok c1 -> calculate l2 = Ok c2 ->
     answer (synastry_request d1 d2 (calculateAspects c1 c2)) = Ok (reply a)) ->
  exists c1 c2,
    calculate l1 = Ok c1 /\ calculate l2 = Ok c2 /\ chart_wf c1 /\ chart_wf c2 /\
    analyzeSynastry (ai := Oracle.ai answer) sch d1 d2 tt
    = (Ok (synastry_data (enriched (BirthDetails.name d1) c1 i1)
             (enriched (BirthDetails.name d2) c2 i2) (calculateAspects c1 c2) a), tt).
Proof.
  intros (Hd1 & Hlat1 & Hiso1) (Hd2 & Hlat2 & Hiso2) Hl1 Hl2 Hi1 Hi2 Ha.
  destruct (calculate_read l1 Hlat1 Hiso1) as (c1 & Hc1 & Hwf1).
  destruct (calculate_read l2 Hlat2 Hiso2) as (c2 & Hc2 & Hwf2).
  exists c1, c2. split_and!; [done..|]. apply (analyzeSynastry_oracle sch d1 d2 l1 l2); auto.
Qed.

End Fulfils.

(** ** Models on which the schedule shows *)

(** With a quota of one request the first of the two locations served is
    resolved and the other refused: the two orders do not commute. *)
Lemma Quota_not_commuting (text : string) : ~ Commuting (Quota.ai text).
Proof.
  intros H.
  specialize (H (request "" Type_STRING) (request "" Type_STRING) 1%nat). discriminate.
Qed.

(** On the scripted model of [Gemini] the replies come in the order of a
    script, whoever asks: when the second location is resolved first the
    two people get each other's place and time. *)
Definition late_island : ResolvedLocation.t :=
  ResolvedLocation.mk 0 0 "1970-01-01T06:00:00.000Z" "Null Island".

Definition two_islands : world (GenAI := Scripted.ai) :=
  [Some (JSON_stringify (encode null_island)); Some (JSON_stringify (encode late_island));
   Some (JSON_stringify (encode quiet_fire)); Some (JSON_stringify (encode quiet_fire));
   Some (JSON_stringify (encode two_of_a_kind))].

Definition second_first : Schedule.t :=
  Schedule.mk (Timing.mk RightFirst RightFirst) Timing.in_order.

(** The signs of the two ascendants of a synastry on the script. *)
Definition risings (sch : Schedule.t) : result (string * string) :=
  (fun data => (Rising.sign (ChartData.rising (SynastryData.personA data)),
                Rising.sign (ChartData.rising (SynastryData.personB data))))
    <$> (analyzeSynastry (trig := StandIn.trig) (astro := StandIn.astro)
           (ai := Scripted.ai) (rt := Scripted.rt) sch Scripted.details Scripted.details
           two_islands).1.

Example scripted_schedule_shows :
  exists a b : string, a <> b /\
    risings Schedule.in_order = Ok (a, b) /\ risings second_first = Ok (b, a).
Proof. vm_compute. do 2 eexists. split_and!; [|reflexivity..]. discriminate. Qed.

(** ** Instances *)

(** A model that tells the three requests apart by the first key of the
    schema they send, and answers each with what it asks for. *)
Definition by_schema (req : GenerateContentParameters.t) : result GenerateContentResponse.t :=
  match GenerateContentParameters.responseSchema req with
  | Type_OBJECT ((k, _) :: _) _ =>
      if decide (k = "lat") then Ok (reply null_island)
      else if decide (k = "planets") then Ok (reply quiet_fire)
      else Ok (reply two_of_a_kind)
  | _ => Throw (Error "no schema")
  end.

Lemma null_island_resolved : well_resolved null_island.
Proof. split_and!; [reflexivity | split; cbn; lra | now exists 0%Z]. Qed.

Lemma analyzeSynastry_fulfils_witness :
  is_Ok (analyzeSynastry (trig := StandIn.trig) (astro := StandIn.astro)
           (ai := Oracle.ai by_schema) (rt := Scripted.rt) second_first
           Scripted.details Scripted.details tt).1.
Proof.
  destruct (analyzeSynastry_fulfils (trig := StandIn.trig) (astro := StandIn.astro)
              (rt := Scripted.rt) by_schema second_first Scripted.details Scripted.details
              null_island null_island quiet_fire quiet_fire two_of_a_kind
              null_island_resolved null_island_resolved eq_refl eq_refl
              (fun _ _ => eq_refl) (fun _ _ => eq_refl) (fun _ _ _ _ => eq_refl))
    as (c1 & c2 & _ & _ & _ & _ & ->).
  now eexists.
Defined.

Lemma analyzeSynastry_schedule_free_witness :
  is_Ok (analyzeSynastry (trig := StandIn.trig) (astro := StandIn.astro)
           (ai := Oracle.ai by_schema) (rt := Scripted.rt) Schedule.in_order
           Scripted.details Scripted.details tt).1 /\
  is_Ok (analyzeSynastry (trig := StandIn.trig) (astro := StandIn.astro)
           (ai := Oracle.ai by_schema) (rt := Scripted.rt) second_first
           Scripted.details Scripted.details tt).1.
Proof.
  destruct (analyzeSynastry (trig := StandIn.trig) (astro := StandIn.astro)
              (ai := Oracle.ai by_schema) (rt := Scripted.rt) Schedule.in_order
              Scripted.details Scripted.details tt) as [[data|e] w'] eqn:E;
    [|vm_compute in E; discriminate].
  split; [now eexists|].
  rewrite (proj1 (analyzeSynastry_schedule_free (trig := StandIn.trig)
                    (astro := StandIn.astro) (ai := Oracle.ai by_schema) (rt := Scripted.rt)
                    (comm := Oracle.commuting by_schema) Schedule.in_order second_first
                    Scripted.details Scripted.details tt) data w' E).
  now eexists.
Defined.
