(* ===== verification/Panel.v ===== *)
(** * Panel: the analysis panel (AnalysisPanel.tsx)

    [src/components/AnalysisPanel.tsx].  The panel chooses what to show
    from its three props: in a synastry the detail of the selected planet
    or the report; in a natal chart the detail of the selected planet or
    of the Sun, with the elemental balance normalised for display.

    An element of the page is the record of what it displays; class
    names and layout are left out.  The props are typed by a cast in the
    source ([data as SynastryData]): here [data] is the sum [Data], and a
    property read through the wrong cast is the [TypeError] it is at run
    time. *)

From Stdlib Require Import QArith Qround Qabs Lqa Lia ZArith.
From stdpp Require Import base tactics decidable option list strings pretty.
From S2P Require Import Prelude Types.

#[local] Open Scope string_scope.

(** ** Definitions *)

(** [Metric]: a label, a value, and whether it is highlighted. *)
Module Metric.
Record t : Type := mk { label : string; value : string; highlight : bool }.
End Metric.

(** [ElementStat]: a label and the text of a percentage. *)
Module ElementStat.
Record t : Type := mk { label : string; value : string }.
End ElementStat.

Module PlanetDetailViewProps.
Record t : Type := mk {
  key : string;
  planet : PlanetPosition.t;
  ownerName : option string;
  showElements : bool;
  natalData : option ChartData.t;
  normalizedElements : option ElementalBalance.t
}.
End PlanetDetailViewProps.

(** What [PlanetDetailView] puts on the page. *)
Module PlanetDetail.
Record t : Type := mk {
  heading : string;
  name : string;
  residing : string;
  metrics : list Metric.t;
  interpretation : string;
  constitution : option (list ElementStat.t * string)
}.
End PlanetDetail.

(** The report of a synastry. *)
Module Dashboard.
Record t : Type := mk {
  reportNo : string;
  nameA : option string;
  nameB : option string;
  overview : string;
  strengths : list (string * string);
  challenges : list (string * string);
  keyAspects : list SynastryAspect.t
}.
End Dashboard.

Inductive element : Type :=
| PlanetDetailView (props : PlanetDetailViewProps.t)
| SynastryDashboard (d : Dashboard.t)
| null.

(** [value={`${value}%`}]. *)
Definition ElementStat_of (label : string) (value : Z) : ElementStat.t :=
  ElementStat.mk label (pretty value +:+ "%").

(** The body of [PlanetDetailView] (lines 147-209). *)
Definition PlanetDetailView_render (props : PlanetDetailViewProps.t) : PlanetDetail.t :=
  let planet := PlanetDetailViewProps.planet props in
  PlanetDetail.mk
    (match PlanetDetailViewProps.ownerName props with
     | Some ownerName =>
         if decide (ownerName = "") then "Planetary Analysis"
         else "Chart of " +:+ ownerName
     | None => "Planetary Analysis"
     end)
    (PlanetPosition.name planet)
    ("Residing in " +:+ PlanetPosition.sign planet)
    [Metric.mk "DEG" (toFixed (PlanetPosition.degree planet) 1) false;
     Metric.mk "HSE" (pretty (PlanetPosition.house planet)) false;
     Metric.mk "MOT" (if PlanetPosition.retrograde planet then "Rx" else "D")
       (PlanetPosition.retrograde planet);
     Metric.mk "ELM" (PlanetPosition.signSymbol planet) false]
    (PlanetPosition.interpretation planet)
    (if PlanetDetailViewProps.showElements props then
       match PlanetDetailViewProps.natalData props,
             PlanetDetailViewProps.normalizedElements props with
       | Some natalData, Some normalizedElements =>
           Some ([ElementStat_of "Fire" (ElementalBalance.fire normalizedElements);
                  ElementStat_of "Earth" (ElementalBalance.earth normalizedElements);
                  ElementStat_of "Air" (ElementalBalance.air normalizedElements);
                  ElementStat_of "Water" (ElementalBalance.water normalizedElements)],
                 ChartData.summary natalData)
       | _, _ => None
       end
     else None).

(** [getNormalizedElements] (lines 109-123). *)
Definition getNormalizedElements (elements : ElementalBalance.t) : ElementalBalance.t :=
  let f := ElementalBalance.fire elements in
  let e := ElementalBalance.earth elements in
  let a := ElementalBalance.air elements in
  let w := ElementalBalance.water elements in
  let total := (f + e + a + w)%Z in
  if decide (total = 0)%Z then ElementalBalance.mk 0 0 0 0
  else if decide (20 < total)%Z then ElementalBalance.mk f e a w
  else
    let pct (x : Z) := Math_round (inject_Z x / inject_Z total * 100) in
    ElementalBalance.mk (pct f) (pct e) (pct a) (pct w).

(** [(Math.random() * 1000).toFixed(0).padStart(4, '0')], for the value
    [random] of [Math.random()]. *)
Definition reportNo (random : Q) : string :=
  padStart 4 "0" (toFixed (random * 1000) 0).

(** The numbered items of a list: [0{i+1}] and the text. *)
Definition numbered (items : list string) : list (string * string) :=
  imap (fun i s => ("0" +:+ pretty (Z.of_nat i + 1)%Z, s)) items.

(** A property read through the cast [data as SynastryData]. *)
Definition as_SynastryData (data : Data) : result SynastryData.t :=
  match data with inr synastry => Ok synastry | inl _ => Throw TypeError end.

Definition as_ChartData (data : Data) : result ChartData.t :=
  match data with inl natal => Ok natal | inr _ => Throw TypeError end.

(** [AnalysisPanel] (lines 11-136). *)
Definition AnalysisPanel (data : Data) (isSynastry : bool)
    (selectedPlanet : option Selection.t) (random : Q) : result element :=
  if isSynastry then
    synastry ← as_SynastryData data;
    match selectedPlanet with
    | Some selectedPlanet =>
        Ok (PlanetDetailView
              (PlanetDetailViewProps.mk
                 (Owner.to_string (Selection.owner selectedPlanet) +:+ "-" +:+
                  PlanetPosition.name (Selection.planet selectedPlanet))
                 (Selection.planet selectedPlanet)
                 (match Selection.owner selectedPlanet with
                  | Owner.A => ChartData.name (SynastryData.personA synastry)
                  | Owner.B => ChartData.name (SynastryData.personB synastry)
                  end)
                 false None None))
    | None =>
        let analysis := SynastryData.analysis synastry in
        Ok (SynastryDashboard
              (Dashboard.mk (reportNo random)
                 (ChartData.name (SynastryData.personA synastry))
                 (ChartData.name (SynastryData.personB synastry))
                 (Analysis.overview analysis)
                 (numbered (Analysis.strengths analysis))
                 (numbered (Analysis.challenges analysis))
                 (Analysis.keyAspects analysis)))
    end
  else
    natal ← as_ChartData data;
    let displayPlanet :=
      match selectedPlanet with
      | Some selectedPlanet => Some (Selection.planet selectedPlanet)
      | None =>
          js_find (fun p => bool_decide (PlanetPosition.name p = "Sun"))
            (ChartData.planets natal)
      end in
    match displayPlanet with
    | None => Ok null
    | Some displayPlanet =>
        let normalizedElements := getNormalizedElements (ChartData.elements natal) in
        Ok (PlanetDetailView
              (PlanetDetailViewProps.mk (PlanetPosition.name displayPlanet) displayPlanet
                 None true (Some natal) (Some normalizedElements)))
    end.

#[global] Arguments getNormalizedElements : simpl never.
#[global] Arguments reportNo : simpl never.

(** The cast of the panel is right for the data. *)
Definition cast_ok (data : Data) (isSynastry : bool) : Prop :=
  match data with inl _ => isSynastry = false | inr _ => isSynastry = true end.

(** ** getNormalizedElements *)

#[local] Open Scope Q_scope.

Lemma getNormalizedElements_zero (elements : ElementalBalance.t) :
  ElementalBalance.total elements = 0%Z ->
  getNormalizedElements elements = ElementalBalance.mk 0 0 0 0.
Proof.
  intros H. unfold getNormalizedElements. unfold ElementalBalance.total in H.
  now rewrite decide_True.
Qed.

(** Percentages pass through: a balance whose parts add up to more than
    20 is shown as it is. *)
Lemma getNormalizedElements_percent (elements : ElementalBalance.t) :
  (20 < ElementalBalance.total elements)%Z ->
  getNormalizedElements elements = elements.
Proof.
  intros H. unfold getNormalizedElements. unfold ElementalBalance.total in H.
  rewrite decide_False, decide_True by lia. now destruct elements.
Qed.

(** One part of a balance of counts, as a percentage. *)
Lemma pct_bounds (x total : Z) :
  (0 <= x <= total)%Z -> (0 < total)%Z ->
  let q := inject_Z x / inject_Z total * 100 in
  0 <= q /\ q <= 100 /\
  (0 <= Math_round q <= 100)%Z /\
  q - (1 # 2) < inject_Z (Math_round q) /\ inject_Z (Math_round q) <= q + (1 # 2).
Proof.
  intros Hx Ht q.
  assert (Ht' : 0 < inject_Z total) by (change 0 with (inject_Z 0); now rewrite <- Zlt_Qlt).
  assert (Hx0 : 0 <= inject_Z x) by (change 0 with (inject_Z 0); now rewrite <- Zle_Qle).
  assert (Hxt : inject_Z x <= inject_Z total) by (now rewrite <- Zle_Qle).
  assert (Hq : q * inject_Z total == inject_Z x * 100) by (unfold q; field; lra).
  assert (Hq0 : 0 <= q) by nra.
  assert (Hq1 : q <= 100) by nra.
  destruct (Math_round_bounds q) as [Hlo Hhi].
  split_and!; try done.
  - apply Qfloor_ge_Z. change (inject_Z 0) with 0. lra.
  - assert (H : (Math_round q < 101)%Z); [|lia].
    apply Qfloor_lt_Z. change (inject_Z 101) with 101. lra.
Qed.

(** The exact percentages of the four parts add up to 100. *)
Lemma pct_sum (f e a w : Z) :
  (f + e + a + w <> 0)%Z ->
  inject_Z f / inject_Z (f + e + a + w) * 100
  + inject_Z e / inject_Z (f + e + a + w) * 100
  + inject_Z a / inject_Z (f + e + a + w) * 100
  + inject_Z w / inject_Z (f + e + a + w) * 100 == 100.
Proof.
  intros Ht. rewrite !inject_Z_plus. field.
  rewrite <- !inject_Z_plus. change 0 with (inject_Z 0). now rewrite inject_Z_injective.
Qed.

(** C37. A balance of counts (four parts that add up to 20 at most) becomes
    four percentages; rounded one by one, they add up to 99, 100, 101 or
    102. *)
Lemma getNormalizedElements_counts (elements : ElementalBalance.t) :
  (0 <= ElementalBalance.fire elements)%Z -> (0 <= ElementalBalance.earth elements)%Z ->
  (0 <= ElementalBalance.air elements)%Z -> (0 <= ElementalBalance.water elements)%Z ->
  (0 < ElementalBalance.total elements <= 20)%Z ->
  let shown := getNormalizedElements elements in
  (0 <= ElementalBalance.fire shown <= 100)%Z /\
  (0 <= ElementalBalance.earth shown <= 100)%Z /\
  (0 <= ElementalBalance.air shown <= 100)%Z /\
  (0 <= ElementalBalance.water shown <= 100)%Z /\
  (99 <= ElementalBalance.total shown <= 102)%Z.
Proof.
  destruct elements as [f e a w]. unfold ElementalBalance.total. cbn.
  intros Hf He Ha Hw Ht. unfold getNormalizedElements. cbn.
  rewrite !decide_False by lia.
  set (total := (f + e + a + w)%Z) in *.
  destruct (pct_bounds f total) as (_ & _ & Rf & Lf & Uf); [lia | lia |].
  destruct (pct_bounds e total) as (_ & _ & Re & Le & Ue); [lia | lia |].
  destruct (pct_bounds a total) as (_ & _ & Ra & La & Ua); [lia | lia |].
  destruct (pct_bounds w total) as (_ & _ & Rw & Lw & Uw); [lia | lia |].
  cbn in *. split_and!; try lia.
  - assert (H : (98 < Math_round (inject_Z f / inject_Z total * 100)
                      + Math_round (inject_Z e / inject_Z total * 100)
                      + Math_round (inject_Z a / inject_Z total * 100)
                      + Math_round (inject_Z w / inject_Z total * 100))%Z); [|lia].
    rewrite Zlt_Qlt, !inject_Z_plus. change (inject_Z 98) with 98.
    pose proof (pct_sum f e a w ltac:(lia)) as Hsum. fold total in Hsum. lra.
  - rewrite Zle_Qle, !inject_Z_plus. change (inject_Z 102) with 102.
    pose proof (pct_sum f e a w ltac:(lia)) as Hsum. fold total in Hsum. lra.
Qed.

(** Both ends of the range are reached. *)
Example getNormalizedElements_102 :
  getNormalizedElements (ElementalBalance.mk 1 1 3 3) = ElementalBalance.mk 13 13 38 38.
Proof. vm_compute. reflexivity. Qed.

Example getNormalizedElements_99 :
  getNormalizedElements (ElementalBalance.mk 1 1 1 0) = ElementalBalance.mk 33 33 33 0.
Proof. vm_compute. reflexivity. Qed.

#[local] Close Scope Q_scope.

(** ** The report number *)

(** The decimals of the numbers up to 9999 have four digits at most. *)
Lemma pretty_length_1000 (n : Z) :
  (0 <= n <= 1000)%Z -> (String.length (pretty n) <= 4)%nat.
Proof.
  intros Hn. rewrite <- (Z2Nat.id n) by lia.
  assert (Hin : Z.to_nat n ∈ seq 0 1001) by (apply elem_of_seq; lia).
  revert Hin. generalize (Z.to_nat n). apply Forall_forall.
  apply (bool_decide_unpack _). vm_compute. exact I.
Qed.

(** The report number has four characters, whatever [Math.random]
    returns. *)
Lemma reportNo_length (random : Q) :
  (0 <= random)%Q -> (random < 1)%Q -> String.length (reportNo random) = 4%nat.
Proof.
  intros H0 H1. unfold reportNo, toFixed. rewrite decide_False by lra.
  cbn [Z.of_nat Z.pow]. rewrite Z.pow_0_r, Z.div_1_r.
  rewrite padStart_length by done.
  set (n := Math_round _).
  assert (Hn : (0 <= n <= 1000)%Z).
  { unfold n, Math_abs. rewrite Qabs_pos by lra.
    destruct (Math_round_bounds (random * 1000 * inject_Z 1)) as [Hlo Hhi].
    change (inject_Z 1) with 1%Q in *. split.
    - apply Qfloor_ge_Z. change (inject_Z 0) with 0%Q. lra.
    - assert (H : (Math_round (random * 1000 * 1) < 1001)%Z); [|lia].
      apply Qfloor_lt_Z. change (inject_Z 1001) with 1001%Q. lra. }
  pose proof (pretty_length_1000 n Hn) as Hl.
  rewrite !string_length_app. cbn [String.length]. lia.
Qed.

Example reportNo_42 : reportNo (417 # 10000) = "0042".
Proof. vm_compute. reflexivity. Qed.

Example reportNo_1000 : reportNo (9996 # 10000) = "1000".
Proof. vm_compute. reflexivity. Qed.

(** ** The view the panel chooses *)

Section Views.
Context (data : Data) (isSynastry : bool) (selectedPlanet : option Selection.t)
  (random : Q).

(** The panel renders exactly when its cast is right for the data; a
    wrong cast is a [TypeError]. *)
Lemma AnalysisPanel_Ok : is_Ok (AnalysisPanel data isSynastry selectedPlanet random)
                         <-> cast_ok data isSynastry.
Proof.
  unfold AnalysisPanel, cast_ok.
  destruct isSynastry, data as [natal|synastry]; cbn; split; try done;
    try (now intros ?%is_Ok_Throw);
    intros _; repeat case_match; apply is_Ok_Ok.
Qed.


End Views.

(** A selected planet is shown, in a synastry under the name of its
    owner and without the elements. *)
Lemma AnalysisPanel_synastry_selected (synastry : SynastryData.t)
    (selected : Selection.t) (random : Q) :
  exists props,
    AnalysisPanel (inr synastry) true (Some selected) random = Ok (PlanetDetailView props) /\
    PlanetDetailViewProps.planet props = Selection.planet selected /\
    PlanetDetailViewProps.ownerName props =
      ChartData.name (match Selection.owner selected with
                      | Owner.A => SynastryData.personA synastry
                      | Owner.B => SynastryData.personB synastry
                      end) /\
    PlanetDetail.constitution (PlanetDetailView_render props) = None.
Proof. eexists. split; [reflexivity|]. cbn. now destruct (Selection.owner selected). Qed.

(** Numbering keeps the items and their order. *)
Lemma numbered_snd (items : list string) : (numbered items).*2 = items.
Proof.
  apply list_eq. intros i. unfold numbered.
  rewrite list_lookup_fmap, list_lookup_imap. now destruct (items !! i).
Qed.

(** Without a selection a synastry shows the report, with the key
    aspects in the order of the analysis. *)
Lemma AnalysisPanel_synastry_report (synastry : SynastryData.t) (random : Q) :
  exists d,
    AnalysisPanel (inr synastry) true None random = Ok (SynastryDashboard d) /\
    Dashboard.keyAspects d = Analysis.keyAspects (SynastryData.analysis synastry) /\
    (Dashboard.strengths d).*2 = Analysis.strengths (SynastryData.analysis synastry) /\
    (Dashboard.challenges d).*2 = Analysis.challenges (SynastryData.analysis synastry).
Proof.
  eexists. split; [reflexivity|]. cbn. now rewrite !numbered_snd.
Qed.

(** The planet a natal chart shows: the selected one, else the first
    that is named Sun. *)
Definition displayPlanet (natal : ChartData.t) (selectedPlanet : option Selection.t)
    : option PlanetPosition.t :=
  match selectedPlanet with
  | Some selected => Some (Selection.planet selected)
  | None => js_find (fun p => bool_decide (PlanetPosition.name p = "Sun"))
              (ChartData.planets natal)
  end.

(** A natal chart shows its planet with the elements and the summary, or
    nothing when there is no planet to show. *)
Lemma AnalysisPanel_natal (natal : ChartData.t) (selectedPlanet : option Selection.t)
    (random : Q) :
  AnalysisPanel (inl natal) false selectedPlanet random =
  Ok match displayPlanet natal selectedPlanet with
     | Some p =>
         PlanetDetailView
           (PlanetDetailViewProps.mk (PlanetPosition.name p) p None true (Some natal)
              (Some (getNormalizedElements (ChartData.elements natal))))
     | None => null
     end.
Proof.
  unfold AnalysisPanel, displayPlanet. cbn.
  destruct selectedPlanet; [done|]. now destruct (js_find _ _).
Qed.

(** The panel is empty only for a natal chart that has no Sun and no
    selection. *)
Lemma AnalysisPanel_null (data : Data) (isSynastry : bool)
    (selectedPlanet : option Selection.t) (random : Q) :
  AnalysisPanel data isSynastry selectedPlanet random = Ok null <->
  exists natal, data = inl natal /\ isSynastry = false /\ selectedPlanet = None /\
    Forall (fun p => PlanetPosition.name p <> "Sun") (ChartData.planets natal).
Proof.
  split.
  - destruct isSynastry, data as [natal|synastry]; try (cbn; congruence).
    + cbn. now destruct selectedPlanet.
    + rewrite AnalysisPanel_natal. unfold displayPlanet.
      destruct selectedPlanet; [done|].
      destruct (js_find _ _) eqn:E; [done|]. intros _. exists natal.
      split_and!; try done. apply js_find_None in E.
      eapply Forall_impl; [exact E|]. intros p. apply bool_decide_eq_false_1.
  - intros (natal & -> & -> & -> & H). rewrite AnalysisPanel_natal. cbn.
    rewrite (proj2 (js_find_None _ _)); [done|].
    eapply Forall_impl; [exact H|]. intros p. apply bool_decide_eq_false_2.
Qed.

(** The elements and the summary are on the page exactly when the three
    props that carry them are there. *)
Lemma PlanetDetailView_constitution (props : PlanetDetailViewProps.t) :
  is_Some (PlanetDetail.constitution (PlanetDetailView_render props)) <->
  PlanetDetailViewProps.showElements props = true /\
  is_Some (PlanetDetailViewProps.natalData props) /\
  is_Some (PlanetDetailViewProps.normalizedElements props).
Proof.
  destruct props as [k p o [] [nd|] [ne|]]; cbn; split;
    try (now intros [? [=]]); try (now intros (? & [? [=]] & ?));
    try (now intros (? & ? & [? [=]])); try (now intros ([=] & _)); eauto.
Qed.

(** The motion of a planet is highlighted exactly when it is
    retrograde. *)
Lemma PlanetDetailView_motion (props : PlanetDetailViewProps.t) :
  PlanetDetail.metrics (PlanetDetailView_render props) !! 2%nat =
  Some (if PlanetPosition.retrograde (PlanetDetailViewProps.planet props)
        then Metric.mk "MOT" "Rx" true else Metric.mk "MOT" "D" false).
Proof. cbn. now destruct (PlanetPosition.retrograde _). Qed.

(** ** Instances *)

Definition no_chart : ChartData.t :=
  ChartData.mk None [] (Rising.mk "" "" 0) (ElementalBalance.mk 0 0 0 0) ""
    (BigThree.mk "" "" "").

Lemma getNormalizedElements_percent_witness :
  getNormalizedElements (ElementalBalance.mk 10 30 30 30) = ElementalBalance.mk 10 30 30 30.
Proof.
  apply (getNormalizedElements_percent (ElementalBalance.mk 10 30 30 30)).
  unfold ElementalBalance.total. cbn. lia.
Defined.

Lemma getNormalizedElements_counts_witness :
  (0 <= ElementalBalance.fire (getNormalizedElements (ElementalBalance.mk 1 1 3 3)) <= 100)%Z /\
  (0 <= ElementalBalance.earth (getNormalizedElements (ElementalBalance.mk 1 1 3 3)) <= 100)%Z /\
  (0 <= ElementalBalance.air (getNormalizedElements (ElementalBalance.mk 1 1 3 3)) <= 100)%Z /\
  (0 <= ElementalBalance.water (getNormalizedElements (ElementalBalance.mk 1 1 3 3)) <= 100)%Z /\
  (99 <= ElementalBalance.total (getNormalizedElements (ElementalBalance.mk 1 1 3 3)) <= 102)%Z.
Proof.
  apply (getNormalizedElements_counts (ElementalBalance.mk 1 1 3 3));
    unfold ElementalBalance.total; cbn; lia.
Defined.

Lemma reportNo_length_witness : String.length (reportNo (1 # 2)) = 4%nat.
Proof. apply (reportNo_length (1 # 2)); lra. Defined.

