(* ===== verification/Wheel.v ===== *)
(** * Wheel: the zodiac wheel (ZodiacWheel.tsx, lines 73-389)

    [src/unnamed/part_001].  The wheel turns the chart so that the
    ascendant is at nine o'clock, places every planet on the track that
    [Layout.resolveCollisions] gave it (the first chart inward from the
    ring, the second outward from the centre), draws the aspect lines
    between the plotted planets and the circles of the tracks in use, and
    decides for every planet how it is drawn.

    An element of the drawing is the record of its attributes.  The state
    of the component ([hoveredPlanet], [isLoaded], [manualOffset]) is
    [WheelState.t]; its props are [WheelProps.t]; an event handler is a
    function on the state. *)

From Stdlib Require Import QArith Qround Qabs Lqa Lia ZArith.
From stdpp Require Import base tactics decidable option list sorting strings pretty.
From S2P Require Import Prelude Types Chart Aspects Layout.

#[local] Open Scope string_scope.
#[local] Open Scope Q_scope.

(** ** Definitions *)

Module WheelProps.
Record t : Type := mk {
  data : ChartData.t;
  secondaryData : option ChartData.t;
  selectedPlanet : option Selection.t
}.
End WheelProps.

Module WheelState.
Record t : Type := mk {
  hoveredPlanet : option Selection.t;
  isLoaded : bool;
  manualOffset : Q
}.

(** The three [useState] initial values. *)
Definition initial : t := mk None false 0.
End WheelState.

(** The effects and the handlers of the component. *)
Definition onTimer (s : WheelState.t) : WheelState.t :=
  WheelState.mk (WheelState.hoveredPlanet s) true (WheelState.manualOffset s).

Definition onDataChange (s : WheelState.t) : WheelState.t :=
  WheelState.mk (WheelState.hoveredPlanet s) (WheelState.isLoaded s) 0.

Definition setManualOffset (value : Q) (s : WheelState.t) : WheelState.t :=
  WheelState.mk (WheelState.hoveredPlanet s) (WheelState.isLoaded s) value.

Definition setHoveredPlanet (h : option Selection.t) (s : WheelState.t) : WheelState.t :=
  WheelState.mk h (WheelState.isLoaded s) (WheelState.manualOffset s).

(** Dimensions. *)
Definition radius : Q := 300.
Definition center : Q := radius + 50.
Definition size : Q := center * 2.
Definition trackSpacing : Q := 18.

Definition rotationOffset (data : ChartData.t) (manualOffset : Q) : Q :=
  (180 - Rising.degree (ChartData.rising data)) + manualOffset.

Module Point.
Record t : Type := mk { x : Q; y : Q }.
End Point.

(** A segment of the zodiac ring: its corners, its divider and the place
    of its label. *)
Module Sector.
Record t : Type := mk {
  sign : ZodiacSign.t;
  p1 : Point.t; p2 : Point.t; p3 : Point.t; p4 : Point.t;
  divStart : Point.t; divEnd : Point.t;
  labelX : Q; labelY : Q
}.
End Sector.

(** A plotted planet: [{ ...p, x, y, r, owner }]. *)
Module Plotted.
Record t : Type := mk {
  tracked : Tracked.t;
  x : Q; y : Q; r : Q;
  owner : Owner.t
}.

Definition name (p : t) : string := PlanetPosition.name (Tracked.planet (tracked p)).
Definition degree (p : t) : Q := Tracked.degree (tracked p).
Definition track (p : t) : nat := Tracked.track (tracked p).
Definition isIsolated (p : t) : bool := Tracked.isIsolated (tracked p).
End Plotted.

Section Drawing.
Context {trig : MathTrig}.

Definition getCoordinates (rotationOffset degree r : Q) : Point.t :=
  let adjustedDegree := degree + rotationOffset in
  let rad := (adjustedDegree * Math_PI) / 180 in
  Point.mk (center + r * Math_cos rad) (center - r * Math_sin rad).

Definition signSectors (rotationOffset : Q) : list Sector.t :=
  (fun sign =>
     let startAngle := ZodiacSign.startDegree sign in
     let endAngle := ZodiacSign.startDegree sign + 30 in
     let rOuter := radius in
     let rInner := radius * 0.90 in
     let labelPos := getCoordinates rotationOffset (startAngle + 15) (radius * 0.95) in
     Sector.mk sign
       (getCoordinates rotationOffset startAngle rOuter)
       (getCoordinates rotationOffset endAngle rOuter)
       (getCoordinates rotationOffset endAngle rInner)
       (getCoordinates rotationOffset startAngle rInner)
       (getCoordinates rotationOffset startAngle (radius * 0.88))
       (getCoordinates rotationOffset startAngle (radius * 1.02))
       (Point.x labelPos) (Point.y labelPos))
    <$> ZODIAC_SIGNS.

(** The first chart starts inside the ring and stacks inward. *)
Definition plottedPlanetsA (data : ChartData.t) (rotationOffset : Q) : list Plotted.t :=
  let resolved := resolveCollisions_default (ChartData.planets data) in
  let baseR := radius * 0.82 in
  (fun p =>
     let r := baseR - (inject_Z (Z.of_nat (Tracked.track p)) * trackSpacing) in
     let coords := getCoordinates rotationOffset (Tracked.degree p) r in
     Plotted.mk p (Point.x coords) (Point.y coords) r Owner.A) <$> resolved.

(** The second chart starts from the centre and stacks outward. *)
Definition plottedPlanetsB (secondaryData : option ChartData.t) (rotationOffset : Q)
    : list Plotted.t :=
  match secondaryData with
  | None => []
  | Some secondaryData =>
      let resolved := resolveCollisions_default (ChartData.planets secondaryData) in
      let baseR := radius * 0.45 in
      (fun p =>
         let r := baseR + (inject_Z (Z.of_nat (Tracked.track p)) * trackSpacing) in
         let coords := getCoordinates rotationOffset (Tracked.degree p) r in
         Plotted.mk p (Point.x coords) (Point.y coords) r Owner.B) <$> resolved
  end.

End Drawing.

(** [hoveredPlanet || selectedPlanet]. *)
Definition active (hoveredPlanet selectedPlanet : option Selection.t)
    : option Selection.t :=
  match hoveredPlanet with Some h => Some h | None => selectedPlanet end.

(** [p.name === active.planet.name && p.owner === active.owner]. *)
Definition is_planet (sel : Selection.t) (p : Plotted.t) : bool :=
  bool_decide (Plotted.name p = PlanetPosition.name (Selection.planet sel))
  && bool_decide (Plotted.owner p = Selection.owner sel).

(** The types of line the wheel draws. *)
Module LineType.
Inductive t : Type := opposition | trine | square | sextile | conjunction.

#[global] Instance eq_dec : EqDecision t.
Proof. solve_decision. Defined.

(** The aspect of the astronomy service with the same name. *)
Definition to_Aspect (ty : t) : Aspect :=
  match ty with
  | opposition => Opposition | trine => Trine | square => Square
  | sextile => Sextile | conjunction => Conjunction
  end.
End LineType.

(** The chain of lines 184-189; [None] is the empty string. *)
Definition line_type (normDiff : Q) (secondary : bool) : option LineType.t :=
  if decide (Math_abs (normDiff - 180) < 6) then Some LineType.opposition
  else if decide (Math_abs (normDiff - 120) < 6) then Some LineType.trine
  else if decide (Math_abs (normDiff - 90) < 6) then Some LineType.square
  else if decide (Math_abs (normDiff - 60) < 4) then Some LineType.sextile
  else if bool_decide (Math_abs (normDiff - 0) < 6) && secondary
       then Some LineType.conjunction
  else None.

Module Line.
Record t : Type := mk {
  key : string;
  p1 : Plotted.t;
  p2 : Plotted.t;
  type : LineType.t;
  stroke : string;
  strokeWidth : Q;
  strokeDasharray : string;
  opacity : Q
}.
End Line.

(** The body of the inner loop of [aspectLines] (lines 171-207): the line
    pushed for the planets at [i] and [j], if any. *)
Definition line_of (secondary : bool) (active : option Selection.t) (i j : nat)
    (p1 p2 : Plotted.t) : option Line.t :=
  if negb secondary && bool_decide (j <= i)%nat then None
  else if match active with
          | Some a => negb (is_planet a p1) && negb (is_planet a p2)
          | None => false
          end then None
  else
    let diff := Math_abs (Plotted.degree p1 - Plotted.degree p2) in
    let normDiff := if decide (180 < diff) then 360 - diff else diff in
    match line_type normDiff secondary with
    | None => None
    | Some type =>
        let isActive :=
          match active with
          | Some a => is_planet a p1 || is_planet a p2
          | None => false
          end in
        Some (Line.mk
                (Plotted.name p1 +:+ "-" +:+ Owner.to_string (Plotted.owner p1) +:+ "-" +:+
                 Plotted.name p2 +:+ "-" +:+ Owner.to_string (Plotted.owner p2))
                p1 p2 type
                (if isActive then "#D4C5A5" else "#333")
                (if isActive then 1 else 0.5)
                (if bool_decide (type = LineType.opposition)
                    || bool_decide (type = LineType.square) then "0" else "2 2")
                (if isActive then 1
                 else match active with Some _ => 0 | None => 0.3 end))
    end.

Definition aspectLines (plottedPlanetsA plottedPlanetsB : list Plotted.t)
    (secondary : bool) (active : option Selection.t) : list Line.t :=
  let set1 := plottedPlanetsA in
  let set2 := if secondary then plottedPlanetsB else plottedPlanetsA in
  mjoin (imap (fun i p1 => omap id (imap (fun j p2 => line_of secondary active i j p1 p2) set2))
           set1).

(** What [renderPlanet] decides for a planet (lines 214-270). *)
Module Dot.
Record t : Type := mk {
  key : string;
  isActive : bool;
  isDimmed : bool;
  showLabel : bool;
  fill : string;
  stroke : string;
  r : Q;
  opacity : Q;
  labelFill : string;
  label : string
}.
End Dot.

Definition renderPlanet (props : WheelProps.t) (s : WheelState.t) (p : Plotted.t) : Dot.t :=
  let same (sel : option Selection.t) :=
    match sel with Some sel => is_planet sel p | None => false end in
  let isSelected := same (WheelProps.selectedPlanet props) in
  let isHovered := same (WheelState.hoveredPlanet s) in
  let isActive := isSelected || isHovered in
  let isDimmed :=
    bool_decide (is_Some (active (WheelState.hoveredPlanet s) (WheelProps.selectedPlanet props)))
    && negb isActive in
  let showLabel :=
    isActive
    || (Plotted.isIsolated p && negb (bool_decide (is_Some (WheelProps.secondaryData props)))) in
  let fill :=
    match Plotted.owner p with
    | Owner.A => if isActive then "#D4C5A5" else "#EAEAEA"
    | Owner.B => "#0A0A0A"
    end in
  let stroke :=
    match Plotted.owner p with
    | Owner.A => "#0A0A0A"
    | Owner.B => if isActive then "#D4C5A5" else "#EAEAEA"
    end in
  Dot.mk (Plotted.name p +:+ "-" +:+ Owner.to_string (Plotted.owner p))
    isActive isDimmed showLabel fill stroke
    (if isActive then 5 else 3.5)
    (if WheelState.isLoaded s then (if isDimmed then 0.2 else 1) else 0)
    (if isActive then "#D4C5A5" else "#555")
    (Plotted.name p).

(** [onClick]: what the wheel hands to [onPlanetSelect]. *)
Definition onClick (p : Plotted.t) : Selection.t :=
  Selection.mk (Tracked.planet (Plotted.tracked p)) (Plotted.owner p).

(** [Math.max(...tracks, 0)]. *)
Definition maxTrack (plotted : list Plotted.t) : nat :=
  max_list (Plotted.track <$> plotted).

(** The circles of the tracks in use (lines 273-290): key and radius. *)
Definition tracks (plottedPlanetsA plottedPlanetsB : list Plotted.t)
    : list (string * Q) :=
  let maxTrackA := maxTrack plottedPlanetsA in
  let maxTrackB := maxTrack plottedPlanetsB in
  let baseRA := radius * 0.82 in
  let baseRB := radius * 0.45 in
  ((fun i => ("track-a-" +:+ pretty i, baseRA - (inject_Z (Z.of_nat i) * trackSpacing)))
     <$> seq 0 (S maxTrackA))
  ++ ((fun i => ("track-b-" +:+ pretty i, baseRB + (inject_Z (Z.of_nat i) * trackSpacing)))
        <$> seq 0 (S maxTrackB)).

(** The symbol in the centre, and whether the centre dot is drawn. *)
Definition centerInfo (active : option Selection.t) : string * bool :=
  match active with
  | Some a => (PlanetPosition.symbol (Selection.planet a), false)
  | None => ("", true)
  end.

#[global] Arguments line_type : simpl never.
#[global] Arguments radius : simpl never.
#[global] Arguments trackSpacing : simpl never.

(** ** Orientation *)

(** With no manual rotation the ascendant is drawn at 180 degrees, nine
    o'clock; a change of chart takes the manual rotation back. *)
Lemma rotationOffset_ascendant (data : ChartData.t) (s : WheelState.t) :
  Rising.degree (ChartData.rising data)
  + rotationOffset data (WheelState.manualOffset (onDataChange s)) == 180.
Proof. unfold rotationOffset. cbn. lra. Qed.

(** The manual rotation turns every planet by the same angle. *)
Lemma rotationOffset_manual (data : ChartData.t) (manualOffset : Q) :
  rotationOffset data manualOffset == rotationOffset data 0 + manualOffset.
Proof. unfold rotationOffset. lra. Qed.

(** ** The distance the wheel and the services measure *)

Lemma getDist_shortest_angle (d1 d2 : Q) : getDist d1 d2 = shortest_angle d1 d2.
Proof. reflexivity. Qed.

(** ** Plotted planets *)

Section Plotting.
Context {trig : MathTrig}.

Lemma plottedPlanetsA_tracked (data : ChartData.t) (rot : Q) :
  Plotted.tracked <$> plottedPlanetsA data rot
  = resolveCollisions_default (ChartData.planets data).
Proof.
  unfold plottedPlanetsA. rewrite <- list_fmap_compose.
  rewrite <- (list_fmap_id (resolveCollisions_default _)) at 2.
  now apply list_fmap_ext.
Qed.

Lemma plottedPlanetsB_tracked (secondaryData : ChartData.t) (rot : Q) :
  Plotted.tracked <$> plottedPlanetsB (Some secondaryData) rot
  = resolveCollisions_default (ChartData.planets secondaryData).
Proof.
  unfold plottedPlanetsB. rewrite <- list_fmap_compose.
  rewrite <- (list_fmap_id (resolveCollisions_default _)) at 2.
  now apply list_fmap_ext.
Qed.

(** Every planet of the chart is plotted, once. *)
Lemma plottedPlanetsA_planets (data : ChartData.t) (rot : Q) :
  (fun p => Tracked.planet (Plotted.tracked p)) <$> plottedPlanetsA data rot
  ≡ₚ ChartData.planets data.
Proof.
  rewrite (list_fmap_compose Plotted.tracked Tracked.planet), plottedPlanetsA_tracked.
  apply resolveCollisions_Permutation.
Qed.

(** The track of a plotted planet is one of 0..4. *)
Lemma plotted_track_bound (planets : list PlanetPosition.t) (p : Tracked.t) :
  p ∈ resolveCollisions_default planets -> (Tracked.track p <= 4)%nat.
Proof.
  intros (k & Hk)%list_elem_of_lookup_1.
  now destruct (resolveCollisions_track_bound planets 6 k p Hk).
Qed.

Lemma track_bounds (t : nat) :
  (t <= 4)%nat -> 0 <= inject_Z (Z.of_nat t) /\ inject_Z (Z.of_nat t) <= 4.
Proof.
  intros H. change 0 with (inject_Z 0). change 4 with (inject_Z 4).
  rewrite <- !Zle_Qle. lia.
Qed.

(** A planet of the first chart is on the circle of its track, between
    174 and 246 from the centre. *)
Lemma plottedPlanetsA_r (data : ChartData.t) (rot : Q) (p : Plotted.t) :
  p ∈ plottedPlanetsA data rot ->
  Plotted.owner p = Owner.A /\
  Plotted.r p == 246 - 18 * inject_Z (Z.of_nat (Plotted.track p)) /\
  174 <= Plotted.r p /\ Plotted.r p <= 246.
Proof.
  unfold plottedPlanetsA. intros (t & -> & Ht)%list_elem_of_fmap. cbn.
  apply plotted_track_bound in Ht. unfold Plotted.track. cbn.
  destruct (track_bounds _ Ht) as [H0 H4].
  unfold radius, trackSpacing. split_and!; [done | lra | lra | lra].
Qed.

(** A planet of the second chart is on the circle of its track, between
    135 and 207 from the centre. *)
Lemma plottedPlanetsB_r (secondaryData : option ChartData.t) (rot : Q) (p : Plotted.t) :
  p ∈ plottedPlanetsB secondaryData rot ->
  Plotted.owner p = Owner.B /\
  Plotted.r p == 135 + 18 * inject_Z (Z.of_nat (Plotted.track p)) /\
  135 <= Plotted.r p /\ Plotted.r p <= 207.
Proof.
  destruct secondaryData as [d|]; [|now intros ?%elem_of_nil].
  unfold plottedPlanetsB. intros (t & -> & Ht)%list_elem_of_fmap. cbn.
  apply plotted_track_bound in Ht. unfold Plotted.track. cbn.
  destruct (track_bounds _ Ht) as [H0 H4].
  unfold radius, trackSpacing. split_and!; [done | lra | lra | lra].
Qed.

End Plotting.

(** ** The circles of the tracks *)

Lemma maxTrack_ge (plotted : list Plotted.t) (p : Plotted.t) :
  p ∈ plotted -> (Plotted.track p <= maxTrack plotted)%nat.
Proof.
  intros Hp. unfold maxTrack. apply max_list_elem_of_le.
  apply list_elem_of_fmap. now exists p.
Qed.

Section Tracks.
Context {trig : MathTrig} (data : ChartData.t) (secondaryData : option ChartData.t)
  (rot : Q).

Let A := plottedPlanetsA data rot.
Let B := plottedPlanetsB secondaryData rot.

(** One circle for each track of 0..max of either chart, and no more. *)
Lemma tracks_length :
  length (tracks A B) = (S (maxTrack A) + S (maxTrack B))%nat.
Proof. unfold tracks. now rewrite length_app, !length_fmap, !length_seq. Qed.

(** Every plotted planet sits on a circle that is drawn. *)
Lemma plotted_on_track (p : Plotted.t) :
  p ∈ (A ++ B)%list -> exists key, (key, Plotted.r p) ∈ tracks A B.
Proof.
  intros [Hp|Hp]%elem_of_app; pose proof (maxTrack_ge _ _ Hp) as Hmax.
  - exists ("track-a-" +:+ pretty (Plotted.track p)). unfold tracks.
    apply elem_of_app. left. apply list_elem_of_fmap. exists (Plotted.track p).
    split; [|apply elem_of_seq; lia].
    unfold A, plottedPlanetsA in Hp. now apply list_elem_of_fmap in Hp as (t & -> & _).
  - exists ("track-b-" +:+ pretty (Plotted.track p)). unfold tracks.
    apply elem_of_app. right. apply list_elem_of_fmap. exists (Plotted.track p).
    split; [|apply elem_of_seq; lia].
    unfold B, plottedPlanetsB in Hp.
    destruct secondaryData as [d|]; [|now apply elem_of_nil in Hp].
    now apply list_elem_of_fmap in Hp as (tr & -> & _).
Qed.

(** C39. The rings of the wheel: every plotted planet lies strictly between
    the inner bound (0.40 of the radius) and the zodiac ring (0.88 of
    the radius), and a planet of the second chart is closer to the
    centre than a planet of the first as long as their two tracks add up
    to six at most. *)
Theorem plotted_rings :
  (forall p : Plotted.t,
     p ∈ (A ++ B)%list -> radius * 0.40 < Plotted.r p /\ Plotted.r p < radius * 0.88) /\
  (forall p q : Plotted.t,
     p ∈ A -> q ∈ B -> (Plotted.track p + Plotted.track q <= 6)%nat ->
     Plotted.r q < Plotted.r p).
Proof.
  split.
  - unfold radius.
    intros p [Hp|Hp]%elem_of_app;
      [apply plottedPlanetsA_r in Hp | apply plottedPlanetsB_r in Hp];
      destruct Hp as (_ & _ & ? & ?); split; lra.
  - intros p q (_ & -> & _)%plottedPlanetsA_r (_ & -> & _)%plottedPlanetsB_r Hpq.
    assert (inject_Z (Z.of_nat (Plotted.track p)) + inject_Z (Z.of_nat (Plotted.track q)) <= 6);
      [|lra].
    rewrite <- inject_Z_plus. change 6 with (inject_Z 6). rewrite <- Zle_Qle. lia.
Qed.

End Tracks.

(** ** The lines the wheel draws and the aspects the service finds *)

(** The band of a line type: its centre and its half-width, which is
    open. *)
Definition line_orb (ty : LineType.t) : Q :=
  match ty with LineType.sextile => 4 | _ => 6 end.

(** The chain finds the one open band that contains the angle; the
    conjunction is a line only between two charts. *)
Lemma line_type_Some (normDiff : Q) (secondary : bool) (ty : LineType.t) :
  line_type normDiff secondary = Some ty <->
  Math_abs (normDiff - exact_angle (LineType.to_Aspect ty)) < line_orb ty /\
  (ty = LineType.conjunction -> secondary = true).
Proof.
  unfold line_type, line_orb.
  destruct ty, secondary; cbn [exact_angle LineType.to_Aspect];
    repeat (case_decide || case_bool_decide); cbn [andb]; abs_intervals;
    (split; [intros [=]; try (split; [lra | done]) | intros [? ?]; try done; exfalso;
       try lra; try (now assert (false = true) by auto)]).
Qed.

(** Every line is an aspect of the same name for the service. *)
Lemma line_type_classify (normDiff : Q) (secondary : bool) (ty : LineType.t) :
  line_type normDiff secondary = Some ty ->
  classify normDiff = Some (LineType.to_Aspect ty).
Proof.
  intros [H _]%line_type_Some. apply classify_Some.
  assert (line_orb ty <= orb_of (LineType.to_Aspect ty)); [|lra].
  destruct ty; cbn; unfold ORB; lra.
Qed.

(** What the service finds and the wheel does not draw: an aspect on the
    edge of its band, a sextile between 4 and 4.2 degrees from exact, a
    conjunction inside one chart. *)
Example line_type_edge : classify 96 = Some Square /\ line_type 96 true = None.
Proof. split; vm_compute; reflexivity. Qed.

Example line_type_wide_sextile :
  classify 64.1 = Some Sextile /\ line_type 64.1 true = None.
Proof. split; vm_compute; reflexivity. Qed.

Example line_type_natal_conjunction :
  classify 2 = Some Conjunction /\ line_type 2 false = None /\
  line_type 2 true = Some LineType.conjunction.
Proof. split_and!; vm_compute; reflexivity. Qed.

(** ** The aspect lines *)

Section Lines.
Context (secondary : bool) (act : option Selection.t).

(** What [line_of] requires of a pair. *)
Lemma line_of_Some (i j : nat) (p1 p2 : Plotted.t) (l : Line.t) :
  line_of secondary act i j p1 p2 = Some l ->
  Line.p1 l = p1 /\ Line.p2 l = p2 /\
  (secondary = false -> (i < j)%nat) /\
  (forall a, act = Some a -> is_planet a p1 || is_planet a p2 = true) /\
  line_type (getDist (Plotted.degree p1) (Plotted.degree p2)) secondary
    = Some (Line.type l) /\
  Line.opacity l = match act with Some _ => 1 | None => 0.3 end.
Proof.
  unfold line_of.
  destruct (negb secondary && bool_decide (j <= i)%nat) eqn:Hij; [done|].
  destruct (match act with Some a => _ | None => false end) eqn:Hact; [done|].
  fold (getDist (Plotted.degree p1) (Plotted.degree p2)).
  destruct (line_type _ secondary) as [ty|]; [|done]. intros [= <-]. cbn.
  split_and!; try done.
  - intros ->. cbn in Hij. apply bool_decide_eq_false in Hij. lia.
  - intros a ->. destruct (is_planet a p1), (is_planet a p2); done.
  - destruct act as [a|]; [|done].
    now destruct (is_planet a p1), (is_planet a p2).
Qed.

Context (plottedA plottedB : list Plotted.t).

Let set2 := if secondary then plottedB else plottedA.

(** A line of the drawing is the line of a pair of plotted planets. *)
Lemma elem_of_aspectLines (l : Line.t) :
  l ∈ aspectLines plottedA plottedB secondary act <->
  exists i j p1 p2,
    plottedA !! i = Some p1 /\ set2 !! j = Some p2 /\
    line_of secondary act i j p1 p2 = Some l.
Proof.
  unfold aspectLines. fold set2. rewrite list_elem_of_join. split.
  - intros (ls & Hl & (i & p1 & -> & Hi)%elem_of_lookup_imap).
    apply list_elem_of_omap in Hl as (o & (j & p2 & -> & Hj)%elem_of_lookup_imap & Ho).
    cbn in Ho. eauto 10.
  - intros (i & j & p1 & p2 & Hi & Hj & Hl).
    exists (omap id (imap (fun j p2 => line_of secondary act i j p1 p2) set2)). split.
    + apply list_elem_of_omap. eexists. split; [|exact Hl].
      now apply (elem_of_lookup_imap_2 (fun j p2 => line_of secondary act i j p1 p2) _ _ j).
    + now apply (elem_of_lookup_imap_2
                   (fun i p1 => omap id (imap (fun j p2 => line_of secondary act i j p1 p2) set2))
                   _ _ i).
Qed.

(** In a natal chart a pair is drawn once, and no planet is joined to
    itself. *)
Lemma aspectLines_natal (l : Line.t) :
  secondary = false -> l ∈ aspectLines plottedA plottedB secondary act ->
  exists i j, (i < j)%nat /\ plottedA !! i = Some (Line.p1 l) /\
              plottedA !! j = Some (Line.p2 l).
Proof.
  intros Hs (i & j & p1 & p2 & Hi & Hj & Hl)%elem_of_aspectLines.
  apply line_of_Some in Hl as (-> & -> & Hij & _). unfold set2 in Hj. rewrite Hs in Hj.
  exists i, j. auto.
Qed.

(** While a planet is active only its lines are drawn, all of them
    highlighted: no line is ever drawn with opacity 0. *)
Lemma aspectLines_active (l : Line.t) (a : Selection.t) :
  act = Some a -> l ∈ aspectLines plottedA plottedB secondary act ->
  (is_planet a (Line.p1 l) || is_planet a (Line.p2 l) = true) /\
  Line.opacity l = 1.
Proof.
  intros Ha (i & j & p1 & p2 & _ & _ & Hl)%elem_of_aspectLines.
  apply line_of_Some in Hl as (-> & -> & _ & Hact & _ & Ho).
  split; [now apply Hact|]. now rewrite Ho, Ha.
Qed.

(** C40. Every line joins two planets in an aspect the service knows by the
    same name. *)
Lemma aspectLines_classify (l : Line.t) :
  l ∈ aspectLines plottedA plottedB secondary act ->
  classify (shortest_angle (Plotted.degree (Line.p1 l)) (Plotted.degree (Line.p2 l)))
    = Some (LineType.to_Aspect (Line.type l)).
Proof.
  intros (i & j & p1 & p2 & _ & _ & Hl)%elem_of_aspectLines.
  apply line_of_Some in Hl as (-> & -> & _ & _ & Ht & _).
  now apply line_type_classify in Ht.
Qed.

End Lines.

(** ** Planets and the selection *)

Lemma is_planet_onClick (p : Plotted.t) : is_planet (onClick p) p = true.
Proof. unfold is_planet, onClick, Plotted.name. cbn. now rewrite !bool_decide_eq_true_2. Qed.

Section Dots.
Context (props : WheelProps.t) (s : WheelState.t) (p : Plotted.t).

Let dot := renderPlanet props s p.

(** A planet is dimmed when another one is active, and never when it is
    active itself or nothing is. *)
Lemma renderPlanet_isDimmed :
  Dot.isDimmed dot = true <->
  is_Some (active (WheelState.hoveredPlanet s) (WheelProps.selectedPlanet props)) /\
  Dot.isActive dot = false.
Proof.
  unfold dot, renderPlanet. cbn.
  now rewrite andb_true_iff, bool_decide_eq_true, negb_true_iff.
Qed.

(** In a synastry only the active planets carry a label; in a natal
    chart the isolated ones do too. *)
Lemma renderPlanet_showLabel :
  Dot.showLabel dot =
  match WheelProps.secondaryData props with
  | Some _ => Dot.isActive dot
  | None => Dot.isActive dot || Plotted.isIsolated p
  end.
Proof.
  unfold dot, renderPlanet. cbn. destruct (WheelProps.secondaryData props); cbn.
  - now rewrite andb_false_r, orb_false_r.
  - now rewrite andb_true_r.
Qed.

(** Before the wheel is loaded nothing is visible; after it, a planet is
    faint exactly when it is dimmed. *)
Lemma renderPlanet_opacity :
  Dot.opacity dot =
  if WheelState.isLoaded s then (if Dot.isDimmed dot then 0.2 else 1) else 0.
Proof. reflexivity. Qed.

End Dots.

(** A click selects the planet that was clicked: once the selection is
    what the wheel handed over, that planet is drawn active, with its
    label, whatever is hovered. *)
Lemma renderPlanet_click (props : WheelProps.t) (s : WheelState.t) (p : Plotted.t) :
  WheelProps.selectedPlanet props = Some (onClick p) ->
  let dot := renderPlanet props s p in
  Dot.isActive dot = true /\ Dot.showLabel dot = true /\ Dot.isDimmed dot = false.
Proof.
  intros Hsel. cbn. rewrite Hsel, is_planet_onClick. cbn.
  now rewrite andb_false_r.
Qed.

(** What a click on a planet of the first chart hands over is a planet
    of that chart, with owner A. *)
Lemma onClick_plottedPlanetsA `{MathTrig} (data : ChartData.t) (rot : Q) (p : Plotted.t) :
  p ∈ plottedPlanetsA data rot ->
  Selection.planet (onClick p) ∈ ChartData.planets data /\
  Selection.owner (onClick p) = Owner.A.
Proof.
  intros Hp. split; [|now apply plottedPlanetsA_r in Hp as (? & _)].
  rewrite <- (plottedPlanetsA_planets data rot).
  apply list_elem_of_fmap. now exists p.
Qed.

Lemma onClick_plottedPlanetsB `{MathTrig} (secondaryData : ChartData.t) (rot : Q)
    (p : Plotted.t) :
  p ∈ plottedPlanetsB (Some secondaryData) rot ->
  Selection.planet (onClick p) ∈ ChartData.planets secondaryData /\
  Selection.owner (onClick p) = Owner.B.
Proof.
  intros Hp. split; [|now apply plottedPlanetsB_r in Hp as (? & _)].
  rewrite <- (resolveCollisions_Permutation (ChartData.planets secondaryData) 6).
  fold (resolveCollisions_default (ChartData.planets secondaryData)).
  rewrite <- plottedPlanetsB_tracked with (rot := rot), <- list_fmap_compose.
  apply list_elem_of_fmap. now exists p.
Qed.

(** ** Runs *)

(** Two clusters put a planet of the second chart outside one of the
    first: five planets within five degrees reach track 4 of the first
    chart (radius 174) and four reach track 3 of the second (radius
    189). *)
Definition chart_at (degrees : list Q) : ChartData.t :=
  ChartData.mk None (at_degree <$> degrees) (Rising.mk "" "" 0)
    (ElementalBalance.mk 0 0 0 0) "" (BigThree.mk "" "" "").

Example plotted_rings_cross :
  let A := plottedPlanetsA (trig := StandIn.trig) (chart_at [0; 1; 2; 3; 4]) 0 in
  let B := plottedPlanetsB (trig := StandIn.trig) (Some (chart_at [0; 1; 2; 3])) 0 in
  (fun p => Qred (Plotted.r p)) <$> A = [246; 228; 210; 192; 174] /\
  (fun p => Qred (Plotted.r p)) <$> B = [135; 153; 171; 189].
Proof. split; vm_compute; reflexivity. Qed.

(** ** Instances *)

Definition cluster5 : ChartData.t := chart_at [0; 1; 2; 3; 4].
Definition cluster4 : ChartData.t := chart_at [0; 1; 2; 3].
Definition square2 : ChartData.t := chart_at [0; 90].

Definition no_planet : Plotted.t :=
  Plotted.mk (Tracked.mk (at_degree 0) 0 true) 0 0 0 Owner.A.

(** The first planet plotted for [cluster5] and for [cluster4], and the
    two plotted for [square2]. *)
Definition p0 : Plotted.t :=
  Eval vm_compute in
    default no_planet (plottedPlanetsA (trig := StandIn.trig) cluster5 0 !! 0%nat).

Definition q0 : Plotted.t :=
  Eval vm_compute in
    default no_planet (plottedPlanetsB (trig := StandIn.trig) (Some cluster4) 0 !! 0%nat).

Definition square2_plotted : list Plotted.t :=
  Eval vm_compute in plottedPlanetsA (trig := StandIn.trig) square2 0.

Definition s0 : Plotted.t := default no_planet (square2_plotted !! 0%nat).

Definition line0 (act : option Selection.t) : Line.t :=
  default (Line.mk "" no_planet no_planet LineType.square "" 0 "" 0)
    (aspectLines square2_plotted [] false act !! 0%nat).

Lemma plotted_on_track_witness :
  exists key : string,
    (key, Plotted.r p0)
    ∈ tracks (plottedPlanetsA (trig := StandIn.trig) cluster5 0)
        (plottedPlanetsB (trig := StandIn.trig) (Some cluster4) 0).
Proof.
  apply (plotted_on_track (trig := StandIn.trig) cluster5 (Some cluster4) 0 p0).
  apply elem_of_app. left. apply (list_elem_of_lookup_2 _ 0%nat). vm_compute. reflexivity.
Defined.

Lemma plotted_rings_witness :
  (radius * 0.40 < Plotted.r p0 /\ Plotted.r p0 < radius * 0.88) /\
  Plotted.r q0 < Plotted.r p0.
Proof.
  destruct (plotted_rings (trig := StandIn.trig) cluster5 (Some cluster4) 0) as [Hin Hapart].
  assert (Hp : p0 ∈ plottedPlanetsA (trig := StandIn.trig) cluster5 0)
    by (apply (list_elem_of_lookup_2 _ 0%nat); vm_compute; reflexivity).
  assert (Hq : q0 ∈ plottedPlanetsB (trig := StandIn.trig) (Some cluster4) 0)
    by (apply (list_elem_of_lookup_2 _ 0%nat); vm_compute; reflexivity).
  split; [apply Hin, elem_of_app; now left | apply Hapart; [done..|vm_compute; lia]].
Defined.

Lemma aspectLines_classify_witness :
  classify (shortest_angle (Plotted.degree (Line.p1 (line0 None)))
              (Plotted.degree (Line.p2 (line0 None))))
  = Some Square.
Proof.
  apply (aspectLines_classify false None square2_plotted [] (line0 None)).
  apply (list_elem_of_lookup_2 _ 0%nat). vm_compute. reflexivity.
Defined.

Lemma aspectLines_active_witness :
  (is_planet (onClick s0) (Line.p1 (line0 (Some (onClick s0))))
   || is_planet (onClick s0) (Line.p2 (line0 (Some (onClick s0)))) = true) /\
  Line.opacity (line0 (Some (onClick s0))) = 1.
Proof.
  apply (aspectLines_active false (Some (onClick s0)) square2_plotted []
           (line0 (Some (onClick s0))) (onClick s0)); [reflexivity|].
  apply (list_elem_of_lookup_2 _ 0%nat). vm_compute. reflexivity.
Defined.

Lemma renderPlanet_click_witness :
  Dot.isActive
    (renderPlanet (WheelProps.mk square2 None (Some (onClick s0))) WheelState.initial s0)
  = true /\
  Dot.showLabel
    (renderPlanet (WheelProps.mk square2 None (Some (onClick s0))) WheelState.initial s0)
  = true /\
  Dot.isDimmed
    (renderPlanet (WheelProps.mk square2 None (Some (onClick s0))) WheelState.initial s0)
  = false.
Proof.
  apply (renderPlanet_click (WheelProps.mk square2 None (Some (onClick s0)))
           WheelState.initial s0).
  reflexivity.
Defined.
