(* ===== verification/Scene.v ===== *)
(** * Scene: what the zodiac wheel renders (ZodiacWheel.tsx, lines 291-389)

    [src/unnamed/part_001].  The [return] of [ZodiacWheel] as a value:
    the viewBox, the circles of the mechanism, the twelve sign labels with
    their dividers, the aspect lines, one group per plotted planet with
    its handlers, the centre, the two markers, and the rotation control.  The parts are
    those of [Wheel]; [ZodiacWheel] puts them together from the props and
    the state of the component.

    The theorems are about the picture: every point drawn lies on the
    circle of its radius around the centre and inside the viewBox, each
    planet on a track circle that is drawn; hovering a planet makes it
    the active one; the reset button shows exactly when the wheel has been
    turned. *)

From Stdlib Require Import QArith Qround Qabs Lia ZArith Lqa.
From stdpp Require Import base tactics decidable option list strings pretty.
From S2P Require Import Prelude Types Chart Aspects Layout Wheel.

#[local] Open Scope string_scope.
#[local] Open Scope Q_scope.

(** ** Definitions *)

(** A circle around the centre of the wheel. *)
Module Ring.
Record t : Type := mk { r : Q; strokeDasharray : option string }.
End Ring.

(** The group of a sign: the divider and the label (lines 311-327). *)
Module SignLabel.
Record t : Type := mk {
  key : string;
  opacity : Q;
  transitionDelay : string;
  divStart : Point.t;
  divEnd : Point.t;
  x : Q;
  y : Q;
  rotate : Q;
  text : string
}.
End SignLabel.

(** The group of a planet (lines 232-268): where it is, how it is drawn,
    and what its three handlers do. *)
Module PlanetGroup.
Record t : Type := mk {
  plotted : Plotted.t;
  dot : Dot.t;
  hit : Q;
  labelY : Q;
  onClick : Selection.t;
  onMouseEnter : WheelState.t;
  onMouseLeave : WheelState.t
}.
End PlanetGroup.

(** The rotation control (lines 366-384): the range input and the reset
    button. *)
Module Control.
Record t : Type := mk {
  min : Q;
  max : Q;
  value : Q;
  onChange : Q -> WheelState.t;
  resetShown : bool;
  onReset : WheelState.t
}.
End Control.

Module Scene.
Record t : Type := mk {
  viewBox : Q * Q * Q * Q;
  loaded : bool;
  rings : list Ring.t;
  trackCircles : list (string * Q);
  labels : list SignLabel.t;
  lines : list Line.t;
  planets : list PlanetGroup.t;
  centre : string * bool;
  markers : list string;
  control : Control.t
}.
End Scene.

Section Render.
Context {trig : MathTrig}.

(** The circles of lines 297-302. *)
Definition rings : list Ring.t :=
  [Ring.mk radius None; Ring.mk (radius * 0.90) None; Ring.mk (radius * 0.88) None;
   Ring.mk (radius * 0.40) (Some "2 4")].

Definition signLabel (isLoaded : bool) (rotationOffset : Q) (i : nat) (s : Sector.t)
    : SignLabel.t :=
  SignLabel.mk (ZodiacSign.name (Sector.sign s))
    (if isLoaded then 1 else 0)
    (pretty (i * 20)%nat +:+ "ms")
    (Sector.divStart s) (Sector.divEnd s)
    (Sector.labelX s) (Sector.labelY s)
    (ZodiacSign.startDegree (Sector.sign s) + 15 + rotationOffset + 90)
    (toUpperCase (ZodiacSign.name (Sector.sign s))).

Definition planetGroup (props : WheelProps.t) (s : WheelState.t) (p : Plotted.t)
    : PlanetGroup.t :=
  PlanetGroup.mk p (renderPlanet props s p) 14 (Plotted.y p - 12)
    (onClick p)
    (setHoveredPlanet (Some (onClick p)) s)
    (setHoveredPlanet None s).

Definition rotationControl (s : WheelState.t) : Control.t :=
  Control.mk 0 360 (WheelState.manualOffset s)
    (fun value => setManualOffset value s)
    (negb (bool_decide (WheelState.manualOffset s == 0)))
    (setManualOffset 0 s).

(** The two markers beside the wheel (lines 353-362). *)
Definition markers : list string := ["Midheaven"; "Ascendant"].

(** The render of [ZodiacWheel]. *)
Definition ZodiacWheel (props : WheelProps.t) (s : WheelState.t) : Scene.t :=
  let data := WheelProps.data props in
  let secondaryData := WheelProps.secondaryData props in
  let rotationOffset := rotationOffset data (WheelState.manualOffset s) in
  let plottedPlanetsA := plottedPlanetsA data rotationOffset in
  let plottedPlanetsB := plottedPlanetsB secondaryData rotationOffset in
  let active := active (WheelState.hoveredPlanet s) (WheelProps.selectedPlanet props) in
  Scene.mk (0, 0, size, size)
    (WheelState.isLoaded s)
    rings
    (tracks plottedPlanetsA plottedPlanetsB)
    (imap (signLabel (WheelState.isLoaded s) rotationOffset) (signSectors rotationOffset))
    (aspectLines plottedPlanetsA plottedPlanetsB
       (bool_decide (is_Some secondaryData)) active)
    (planetGroup props s <$> (plottedPlanetsA ++ plottedPlanetsB)%list)
    (centerInfo active)
    markers
    (rotationControl s).

End Render.

(** A point at distance [r] from the centre of the wheel. *)
Definition on_circle (r : Q) (p : Point.t) : Prop :=
  (Point.x p - center) * (Point.x p - center) + (Point.y p - center) * (Point.y p - center)
  == r * r.

(** A point of the viewBox. *)
Definition in_viewBox (p : Point.t) : Prop :=
  0 <= Point.x p /\ Point.x p <= size /\ 0 <= Point.y p /\ Point.y p <= size.

(** The points of a scene, each with its distance from the centre: the
    planets, the ends of the dividers and the places of the sign labels. *)
Definition points (sc : Scene.t) : list (Q * Point.t) :=
  ((fun g => (Plotted.r (PlanetGroup.plotted g),
              Point.mk (Plotted.x (PlanetGroup.plotted g)) (Plotted.y (PlanetGroup.plotted g))))
     <$> Scene.planets sc)
  ++ (Scene.labels sc ≫= fun l =>
        [(radius * 0.88, SignLabel.divStart l); (radius * 1.02, SignLabel.divEnd l);
         (radius * 0.95, Point.mk (SignLabel.x l) (SignLabel.y l))]).

(** ** Geometry *)

Section Geometry.
Context {trig : MathTrig}.

(** [getCoordinates] answers with a point of the circle of radius [r]. *)
Lemma getCoordinates_on_circle (rot degree r : Q) :
  on_circle r (getCoordinates rot degree r).
Proof.
  unfold on_circle, getCoordinates. cbn.
  pose proof (Math_cos_sin ((degree + rot) * Math_PI / 180)) as H.
  set (C := Math_cos _) in *. set (S := Math_sin _) in *.
  transitivity (r * r * (C * C + S * S)); [ring | rewrite H; ring].
Qed.

Lemma sq_nonneg (a : Q) : 0 <= a * a.
Proof. nra. Qed.

(** A number whose square is at most that of [r] lies within [r] of 0. *)
Lemma sq_le_bound (a r : Q) : 0 <= r -> a * a <= r * r -> - r <= a /\ a <= r.
Proof.
  intros H0 H. split; apply Qnot_lt_le; intros Hlt; nra.
Qed.

(** A point of a circle is within its radius of the centre, on both
    axes. *)
Lemma on_circle_box (r : Q) (p : Point.t) :
  0 <= r -> on_circle r p ->
  center - r <= Point.x p /\ Point.x p <= center + r /\
  center - r <= Point.y p /\ Point.y p <= center + r.
Proof.
  unfold on_circle. destruct p as [x y]. cbn. generalize center. intros c H0 E.
  pose proof (sq_nonneg (x - c)). pose proof (sq_nonneg (y - c)).
  destruct (sq_le_bound (x - c) r) as [? ?]; [lra..|].
  destruct (sq_le_bound (y - c) r) as [? ?]; [lra..|].
  split_and!; lra.
Qed.

(** A circle of radius up to [center], less a margin, stays in the
    viewBox, the margin away from its sides. *)
Lemma on_circle_margin (r m : Q) (p : Point.t) :
  0 <= r -> r + m <= center -> on_circle r p ->
  m <= Point.x p /\ Point.x p <= size - m /\ m <= Point.y p /\ Point.y p <= size - m.
Proof.
  intros H0 H1 (? & ? & ? & ?)%on_circle_box; [|done].
  unfold size, center, radius in *. split_and!; lra.
Qed.

Lemma on_circle_in_viewBox (r : Q) (p : Point.t) :
  0 <= r -> r <= center -> on_circle r p -> in_viewBox p.
Proof.
  intros H0 H1 H. destruct (on_circle_margin r 0 p) as (? & ? & ? & ?); [lra..|done|].
  unfold in_viewBox. split_and!; lra.
Qed.

Lemma plotted_on_circle (data : ChartData.t) (secondaryData : option ChartData.t)
    (rot : Q) (p : Plotted.t) :
  p ∈ (plottedPlanetsA data rot ++ plottedPlanetsB secondaryData rot)%list ->
  on_circle (Plotted.r p) (Point.mk (Plotted.x p) (Plotted.y p)).
Proof.
  unfold plottedPlanetsA, plottedPlanetsB.
  intros [Hp|Hp]%elem_of_app; [|destruct secondaryData; [|now apply elem_of_nil in Hp]];
    apply list_elem_of_fmap in Hp as (tr & -> & _); apply getCoordinates_on_circle.
Qed.

End Geometry.

(** ** The picture *)

(** The ends of an aspect line are plotted planets. *)
Lemma aspectLines_ends (plottedA plottedB : list Plotted.t) (secondary : bool)
    (act : option Selection.t) (l : Line.t) :
  l ∈ aspectLines plottedA plottedB secondary act ->
  Line.p1 l ∈ (plottedA ++ plottedB)%list /\ Line.p2 l ∈ (plottedA ++ plottedB)%list.
Proof.
  intros (i & j & p1 & p2 & Hi & Hj & Hl)%elem_of_aspectLines.
  apply line_of_Some in Hl as (-> & -> & _).
  apply list_elem_of_lookup_2 in Hi. apply list_elem_of_lookup_2 in Hj.
  rewrite !elem_of_app. destruct secondary; auto.
Qed.

Section Picture.
Context {trig : MathTrig} (props : WheelProps.t) (s : WheelState.t).

Let rot := rotationOffset (WheelProps.data props) (WheelState.manualOffset s).
Let A := plottedPlanetsA (WheelProps.data props) rot.
Let B := plottedPlanetsB (WheelProps.secondaryData props) rot.
Let sc := ZodiacWheel props s.

Lemma elem_of_planets (g : PlanetGroup.t) :
  g ∈ Scene.planets sc <-> exists p, g = planetGroup props s p /\ p ∈ (A ++ B)%list.
Proof. apply list_elem_of_fmap. Qed.

Lemma elem_of_labels (l : SignLabel.t) :
  l ∈ Scene.labels sc ->
  exists i sign,
    ZODIAC_SIGNS !! i = Some sign /\ SignLabel.text l = toUpperCase (ZodiacSign.name sign) /\
    SignLabel.divStart l = getCoordinates rot (ZodiacSign.startDegree sign) (radius * 0.88) /\
    SignLabel.divEnd l = getCoordinates rot (ZodiacSign.startDegree sign) (radius * 1.02) /\
    Point.mk (SignLabel.x l) (SignLabel.y l)
    = getCoordinates rot (ZodiacSign.startDegree sign + 15) (radius * 0.95).
Proof.
  intros (i & sector & -> & Hi)%elem_of_lookup_imap.
  unfold signSectors in Hi. rewrite list_lookup_fmap in Hi.
  destruct (ZODIAC_SIGNS !! i) as [sign|] eqn:Hs; [|done]. injection Hi as <-.
  exists i, sign. cbn. split_and!; done.
Qed.

(** The radius of a plotted planet is between 135 and 246. *)
Lemma plotted_r_range (p : Plotted.t) :
  p ∈ (A ++ B)%list -> 135 <= Plotted.r p /\ Plotted.r p <= 246.
Proof.
  intros [Hp|Hp]%elem_of_app;
    [apply plottedPlanetsA_r in Hp | apply plottedPlanetsB_r in Hp];
    destruct Hp as (_ & _ & ? & ?); split; lra.
Qed.

(** Every point of the scene is at its distance from the centre, and no
    point is further than the ends of the dividers. *)
Lemma points_on_circle (r : Q) (p : Point.t) :
  (r, p) ∈ points sc -> on_circle r p /\ 0 <= r /\ r <= radius * 1.02.
Proof.
  unfold points. rewrite elem_of_app, list_elem_of_fmap, list_elem_of_bind.
  intros [(g & [= -> ->] & (q & -> & Hq)%elem_of_planets)
         |(l & Hp & (i & sign & _ & _ & E1 & E2 & E3)%elem_of_labels)].
  - cbn. split; [now apply (plotted_on_circle _ _ _ _ Hq)|].
    apply plotted_r_range in Hq. unfold radius. lra.
  - rewrite !elem_of_cons, elem_of_nil in Hp.
    destruct Hp as [[= -> ->]|[[= -> ->]|[[= -> ->]|[]]]];
      rewrite ?E1, ?E2, ?E3; (split; [apply getCoordinates_on_circle|unfold radius; lra]).
Qed.

(** C24. The wheel fits its viewBox: every point of the scene is inside it,
    the hit area of every planet and the place of its label too, and an
    aspect line runs between two of the planets drawn. *)
Theorem ZodiacWheel_in_viewBox :
  (forall r p, (r, p) ∈ points sc -> in_viewBox p) /\
  (forall g, g ∈ Scene.planets sc ->
     let p := PlanetGroup.plotted g in
     PlanetGroup.hit g <= Plotted.x p /\ Plotted.x p <= size - PlanetGroup.hit g /\
     PlanetGroup.hit g <= Plotted.y p /\ Plotted.y p <= size - PlanetGroup.hit g /\
     0 <= PlanetGroup.labelY g) /\
  (forall l, l ∈ Scene.lines sc ->
     exists g1 g2, g1 ∈ Scene.planets sc /\ g2 ∈ Scene.planets sc /\
                   Line.p1 l = PlanetGroup.plotted g1 /\ Line.p2 l = PlanetGroup.plotted g2).
Proof.
  split_and!.
  - intros r p (Hc & H0 & H1)%points_on_circle.
    apply (on_circle_in_viewBox r); [done | unfold center, radius in *; lra | done].
  - intros g (p & -> & Hp)%elem_of_planets. cbn.
    pose proof (plotted_r_range p Hp) as [? ?].
    destruct (on_circle_margin (Plotted.r p) 14 (Point.mk (Plotted.x p) (Plotted.y p)))
      as (? & ? & ? & ?); [lra | unfold center, radius; lra
                          | now apply (plotted_on_circle _ _ _ _ Hp) |].
    cbn in *. split_and!; lra.
  - intros l [H1 H2]%aspectLines_ends.
    exists (planetGroup props s (Line.p1 l)), (planetGroup props s (Line.p2 l)).
    split_and!; try done; apply elem_of_planets; eauto.
Qed.

(** C25. The planets lie on the circles drawn for them: every planet is a
    point of a track circle of the scene. *)
Theorem planet_on_drawn_circle (g : PlanetGroup.t) :
  g ∈ Scene.planets sc ->
  exists key r,
    (key, r) ∈ Scene.trackCircles sc /\
    on_circle r (Point.mk (Plotted.x (PlanetGroup.plotted g))
                   (Plotted.y (PlanetGroup.plotted g))).
Proof.
  intros (p & -> & Hp)%elem_of_planets.
  destruct (plotted_on_track _ _ _ p Hp) as [key Hkey].
  exists key, (Plotted.r p). split; [exact Hkey|].
  now apply (plotted_on_circle _ _ _ _ Hp).
Qed.

(** One group per planet of either chart, the first chart first. *)
Lemma planets_plotted :
  PlanetGroup.plotted <$> Scene.planets sc = (A ++ B)%list.
Proof.
  cbn. rewrite <- list_fmap_compose. fold rot A B.
  rewrite <- (list_fmap_id (A ++ B)) at 2. now apply list_fmap_ext.
Qed.

(** The twelve signs, in the order of the table, in capitals. *)
Lemma labels_text :
  SignLabel.text <$> Scene.labels sc
  = (fun sign => toUpperCase (ZodiacSign.name sign)) <$> ZODIAC_SIGNS.
Proof. reflexivity. Qed.

End Picture.

(** ** Handlers *)

Section Handlers.
Context {trig : MathTrig} (props : WheelProps.t) (s : WheelState.t).

(** Hovering changes neither the rotation nor where the planets are. *)
Lemma hover_planets (h : option Selection.t) :
  PlanetGroup.plotted <$> Scene.planets (ZodiacWheel props (setHoveredPlanet h s))
  = PlanetGroup.plotted <$> Scene.planets (ZodiacWheel props s).
Proof. now rewrite !planets_plotted. Qed.

(** C28. The pointer on a planet makes it the active one: it is drawn active
    with its label and never dimmed, the centre shows its symbol, every
    line drawn is one of its lines, and the pointer leaving puts the
    state back as it was without a hover. *)
Theorem ZodiacWheel_hover (g : PlanetGroup.t) :
  g ∈ Scene.planets (ZodiacWheel props s) ->
  let s' := PlanetGroup.onMouseEnter g in
  let g' := planetGroup props s' (PlanetGroup.plotted g) in
  g' ∈ Scene.planets (ZodiacWheel props s') /\
  Dot.isActive (PlanetGroup.dot g') = true /\
  Dot.showLabel (PlanetGroup.dot g') = true /\
  Dot.isDimmed (PlanetGroup.dot g') = false /\
  Scene.centre (ZodiacWheel props s')
  = (PlanetPosition.symbol (Tracked.planet (Plotted.tracked (PlanetGroup.plotted g))), false) /\
  (forall l, l ∈ Scene.lines (ZodiacWheel props s') ->
     is_planet (PlanetGroup.onClick g) (Line.p1 l)
     || is_planet (PlanetGroup.onClick g) (Line.p2 l) = true) /\
  PlanetGroup.onMouseLeave g' = setHoveredPlanet None s.
Proof.
  intros (p & -> & Hp)%elem_of_planets. cbn -[aspectLines].
  rewrite is_planet_onClick, orb_true_r. cbn -[aspectLines].
  split_and!; try done.
  - apply list_elem_of_fmap. now exists p.
  - intros l (i & j & p1 & p2 & _ & _ & Hl)%elem_of_aspectLines.
    apply line_of_Some in Hl as (-> & -> & _ & Hact & _). now apply Hact.
Qed.

(** The reset button shows exactly when the wheel has been turned; the
    button and a change of chart put the ascendant back at 180 degrees. *)
Theorem rotationControl_reset :
  let c := Scene.control (ZodiacWheel props s) in
  (Control.resetShown c = false <-> WheelState.manualOffset s == 0) /\
  Control.resetShown (Scene.control (ZodiacWheel props (Control.onReset c))) = false /\
  Rising.degree (ChartData.rising (WheelProps.data props))
  + rotationOffset (WheelProps.data props) (WheelState.manualOffset (Control.onReset c))
  == 180 /\
  forall value, WheelState.manualOffset (Control.onChange c value) = value.
Proof.
  cbn. rewrite negb_false_iff, bool_decide_eq_true. split_and!; try done.
  unfold rotationOffset. lra.
Qed.

End Handlers.

(** ** Instances

    The wheel of a chart with two planets a square apart, as it is first
    rendered. *)

Definition square2_props : WheelProps.t := WheelProps.mk square2 None None.

Definition square2_scene : Scene.t :=
  ZodiacWheel (trig := StandIn.trig) square2_props WheelState.initial.

Lemma planet_on_drawn_circle_witness :
  exists g key r,
    Scene.planets square2_scene !! 0%nat = Some g /\
    (key, r) ∈ Scene.trackCircles square2_scene /\
    on_circle r (Point.mk (Plotted.x (PlanetGroup.plotted g))
                   (Plotted.y (PlanetGroup.plotted g))).
Proof.
  destruct (Scene.planets square2_scene !! 0%nat) as [g|] eqn:Hg;
    [|vm_compute in Hg; discriminate].
  destruct (planet_on_drawn_circle (trig := StandIn.trig) square2_props WheelState.initial g)
    as (key & r & H1 & H2).
  - eapply list_elem_of_lookup_2, Hg.
  - exists g, key, r. split_and!; [reflexivity | exact H1 | exact H2].
Defined.

Lemma ZodiacWheel_hover_witness :
  exists g,
    Scene.planets square2_scene !! 0%nat = Some g /\
    Scene.centre (ZodiacWheel (trig := StandIn.trig) square2_props (PlanetGroup.onMouseEnter g))
    = (PlanetPosition.symbol (Tracked.planet (Plotted.tracked (PlanetGroup.plotted g))), false).
Proof.
  destruct (Scene.planets square2_scene !! 0%nat) as [g|] eqn:Hg;
    [|vm_compute in Hg; discriminate].
  exists g. split; [reflexivity|].
  apply (ZodiacWheel_hover (trig := StandIn.trig) square2_props WheelState.initial g).
  eapply list_elem_of_lookup_2, Hg.
Defined.
