(* ===== verification/App.v ===== *)
(** * App: the component of App.tsx

    [src/unnamed/part_002].  The application has two screens: the form
    of [Form], from which a submission starts one of the pipelines of
    [Gemini], and the result, with the wheel and the panel.  The state of
    [App] is [AppState.t]; a handler is a function on the state, and
    [handleCalculate], which awaits a pipeline, is split where it awaits:
    [handleCalculate_begin] runs up to the [await], [handleCalculate_end]
    from the settled promise on.  [App_render] is the element [App]
    returns: the screen of the step, each element with its handler as
    the state the handler leaves.

    [Page] puts the component on the page, with the components it mounts
    and the requests it awaits. *)

From Stdlib Require Import QArith ZArith Lia.
From stdpp Require Import base tactics decidable option list strings.
From S2P Require Import Prelude Types Chart Aspects Layout Gemini Panel Form Wheel Scene.

#[local] Open Scope string_scope.

(** ** App *)

Module Step.
Inductive t : Type := input | result.

#[global] Instance eq_dec : EqDecision t.
Proof. solve_decision. Defined.
End Step.

Module AppState.
Record t : Type := mk {
  step : Step.t;
  isLoading : bool;
  loadingStep : string;
  chartData : option Data;
  isSynastry : bool;
  selectedPlanet : option Selection.t;
  error : option string
}.

(** The seven [useState] initial values. *)
Definition initial : t := mk Step.input false "" None false None None.
End AppState.

Definition setStep (v : Step.t) (s : AppState.t) : AppState.t :=
  AppState.mk v (AppState.isLoading s) (AppState.loadingStep s) (AppState.chartData s)
    (AppState.isSynastry s) (AppState.selectedPlanet s) (AppState.error s).

Definition setIsLoading (v : bool) (s : AppState.t) : AppState.t :=
  AppState.mk (AppState.step s) v (AppState.loadingStep s) (AppState.chartData s)
    (AppState.isSynastry s) (AppState.selectedPlanet s) (AppState.error s).

Definition setLoadingStep (v : string) (s : AppState.t) : AppState.t :=
  AppState.mk (AppState.step s) (AppState.isLoading s) v (AppState.chartData s)
    (AppState.isSynastry s) (AppState.selectedPlanet s) (AppState.error s).

Definition setChartData (v : option Data) (s : AppState.t) : AppState.t :=
  AppState.mk (AppState.step s) (AppState.isLoading s) (AppState.loadingStep s) v
    (AppState.isSynastry s) (AppState.selectedPlanet s) (AppState.error s).

Definition setIsSynastry (v : bool) (s : AppState.t) : AppState.t :=
  AppState.mk (AppState.step s) (AppState.isLoading s) (AppState.loadingStep s)
    (AppState.chartData s) v (AppState.selectedPlanet s) (AppState.error s).

Definition setSelectedPlanet (v : option Selection.t) (s : AppState.t) : AppState.t :=
  AppState.mk (AppState.step s) (AppState.isLoading s) (AppState.loadingStep s)
    (AppState.chartData s) (AppState.isSynastry s) v (AppState.error s).

Definition setError (v : option string) (s : AppState.t) : AppState.t :=
  AppState.mk (AppState.step s) (AppState.isLoading s) (AppState.loadingStep s)
    (AppState.chartData s) (AppState.isSynastry s) (AppState.selectedPlanet s) v.

(** [handleCalculate] up to its [await] (lines 19-25 and 29-30). *)
Definition handleCalculate_begin (detailsB : option BirthDetails.t) (s : AppState.t)
    : AppState.t :=
  let s := setIsLoading true s in
  let s := setLoadingStep "Accessing Ephemeris Data..." s in
  let s := setError None s in
  match detailsB with
  | Some _ => setLoadingStep "Calculating Synastry Aspects..." s
  | None => setLoadingStep "Constructing Natal Chart..." s
  end.

(** [handleCalculate] from the settled promise on (lines 26-27, 31-41):
    the data and the result screen, or the message of the [catch]; the
    [finally] in both cases. *)
Definition handleCalculate_end (settled : result Data) (s : AppState.t) : AppState.t :=
  let s :=
    match settled with
    | Ok (inr data) =>
        let s := setChartData (Some (inr data)) s in
        let s := setIsSynastry true s in
        setStep Step.result s
    | Ok (inl data) =>
        let s := setChartData (Some (inl data)) s in
        let s := setIsSynastry false s in
        setStep Step.result s
    | Throw _ => setError (Some "Alignment Error. Please verify your coordinates.") s
    end in
  let s := setIsLoading false s in
  setLoadingStep "" s.

Definition handleReset (s : AppState.t) : AppState.t :=
  let s := setStep Step.input s in
  let s := setChartData None s in
  let s := setSelectedPlanet None s in
  setIsSynastry false s.

(** [getDataForWheel]: the primary chart as the object it is at run
    time, which the cast [chartData as ChartData] does not check. *)
Definition getDataForWheel (s : AppState.t) : option Data * option ChartData.t :=
  match AppState.chartData s with
  | None => (None, None)
  | Some chartData =>
      if AppState.isSynastry s then
        match chartData with
        | inr sData => (Some (inl (SynastryData.personA sData)),
                        Some (SynastryData.personB sData))
        | inl _ => (None, None)
        end
      else (Some chartData, None)
  end.

(** What the wheel hands to [onPlanetSelect] for the planet at index [k]
    of a chart: the planet as [resolveCollisions] lists it. *)
Definition clicked (chart : ChartData.t) (owner : Owner.t) (k : nat) : option Selection.t :=
  (fun t => Selection.mk (Tracked.planet t) owner)
    <$> resolveCollisions_default (ChartData.planets chart) !! k.

(** ** The render (lines 60-151) *)

(** The form screen: the form, the spinner with the loading step while
    a request is in flight, and the error message. *)
Module InputScreen.
Record t : Type := mk {
  form : FormView.t;
  loading : option string;
  error : option string
}.
End InputScreen.

(** The bar under the wheel: the two names of a synastry, or the big
    three of a natal chart ([None] is [undefined], which renders as
    nothing). *)
Module BottomInfo.
Inductive t : Type :=
| Subjects (nameA nameB : option string)
| BigThree (sun moon rising : option string).
End BottomInfo.

(** The result screen: the Back button, the figure after [LAT:], the
    wheel with its props, the bar under it, and the panel. *)
Module ResultScreen.
Record t : Type := mk {
  onBack : AppState.t;
  lat : string;
  wheel : option WheelProps.t;
  onPlanetSelect : Selection.t -> AppState.t;
  bottom : BottomInfo.t;
  panel : option element
}.
End ResultScreen.

Inductive page : Type :=
| Input_page (v : InputScreen.t)
| Result_page (v : ResultScreen.t).

(** [primary?.rising.degree.toFixed(2)]: [primary] is what
    [getDataForWheel] returned, whatever its cast says. *)
Definition lat_of (primary : option Data) : result string :=
  match primary with
  | None => Ok ""
  | Some primary =>
      primary ← as_ChartData primary;
      Ok (toFixed (Rising.degree (ChartData.rising primary)) 2)
  end.

(** [primary && <ZodiacWheel data={primary} secondaryData={secondary || undefined} ...>]. *)
Definition wheel_of (primary : option Data) (secondary : option ChartData.t)
    (selectedPlanet : option Selection.t) : result (option WheelProps.t) :=
  match primary with
  | None => Ok None
  | Some primary =>
      primary ← as_ChartData primary;
      Ok (Some (WheelProps.mk primary secondary selectedPlanet))
  end.

(** The bar under the wheel (lines 110-137). *)
Definition bottom_of (s : AppState.t) (primary : option Data) : result BottomInfo.t :=
  if AppState.isSynastry s then
    chartData ← or_throw (AppState.chartData s) TypeError;
    synastry ← as_SynastryData chartData;
    Ok (BottomInfo.Subjects (ChartData.name (SynastryData.personA synastry))
          (ChartData.name (SynastryData.personB synastry)))
  else
    match primary with
    | None => Ok (BottomInfo.BigThree None None None)
    | Some primary =>
        primary ← as_ChartData primary;
        let bigThree := ChartData.bigThree primary in
        Ok (BottomInfo.BigThree (Some (BigThree.sun bigThree)) (Some (BigThree.moon bigThree))
              (Some (BigThree.rising bigThree)))
    end.

(** [chartData && <AnalysisPanel ...>]. *)
Definition panel_of (s : AppState.t) (random : Q) : result (option element) :=
  match AppState.chartData s with
  | None => Ok None
  | Some chartData =>
      Some <$> AnalysisPanel chartData (AppState.isSynastry s) (AppState.selectedPlanet s)
                 random
  end.

(** The render of [App]: the screen of the step, or the exception a cast
    that is wrong raises while rendering. *)
Definition App_render (s : AppState.t) (form : FormState.t) (random : Q) : result page :=
  match AppState.step s with
  | Step.input =>
      Ok (Input_page
            (InputScreen.mk (BirthForm (AppState.isLoading s) form)
               (if AppState.isLoading s then Some (AppState.loadingStep s) else None)
               (truthy (AppState.error s))))
  | Step.result =>
      let '(primary, secondary) := getDataForWheel s in
      lat ← lat_of primary;
      wheel ← wheel_of primary secondary (AppState.selectedPlanet s);
      bottom ← bottom_of s primary;
      panel ← panel_of s random;
      Ok (Result_page
            (ResultScreen.mk (handleReset s) ("LAT: " +:+ lat) wheel
               (fun sel => setSelectedPlanet (Some sel) s) bottom panel))
  end.
