(* ===== verification/Page.v ===== *)
(** * Page: the application in the browser (App.tsx with its components)

    [src/unnamed/part_002], with the components it mounts.  The state of
    the page is [System.t]: the state of [App], of the form and of the
    wheel while they are mounted, the request in flight, what was
    written to the console, and the world of the language model.
    [system_step] is its transition function: the events of the user
    (keystrokes, tabs, the submission, Back, a click or the pointer on a
    planet, the rotation control), the timer of the wheel, and the
    settling of the request in flight under a schedule, each guarded by
    what the page lets happen (the submit button is disabled while a
    request is in flight, the inputs are required, the Back button and
    the wheel are on the result screen only).

    The theorems are about the states the page can reach
    ([reachable]): the invariant [system_inv]; [App] and the wheel render
    in every one of them; the handlers of the rendered page are the
    transitions of [system_step]; Back restores the initial state; the
    idle form is two events away.  Two states that differ in the console
    only ([same_page]) are bisimilar: [render] and [system_step] are
    [Proper] for it, and on a model that commutes two runs that differ
    in their schedules only stay in such states. *)

From Stdlib Require Import QArith ZArith Lia Lqa.
From stdpp Require Import base tactics decidable option list strings.
From S2P Require Import Prelude Types Chart Aspects Layout Gemini Schedules.
From S2P Require Import Panel Form Wheel Scene App.

#[local] Open Scope string_scope.

(** ** The state of the page *)

(** The application, the form and the wheel while they are mounted (the
    form on the input screen, the wheel on the result screen), the
    request in flight, what [console.error] was given, and the world of
    the language model. *)
Module System.
Record t {ai : GenAI} : Type := mk {
  app : AppState.t;
  form : FormState.t;
  wheel : option WheelState.t;
  pending : option (BirthDetails.t * option BirthDetails.t);
  console : list exn;
  env : world
}.
Arguments mk {ai} _ _ _ _ _ _.

Section Updates.
Context {ai : GenAI}.

Definition with_app (a : AppState.t) (σ : t) : t :=
  mk a (form σ) (wheel σ) (pending σ) (console σ) (env σ).

Definition with_form (f : FormState.t) (σ : t) : t :=
  mk (app σ) f (wheel σ) (pending σ) (console σ) (env σ).

Definition with_wheel (ws : WheelState.t) (σ : t) : t :=
  mk (app σ) (form σ) (Some ws) (pending σ) (console σ) (env σ).

End Updates.
End System.

(** The page as the browser shows it: the element [App] returns, with
    the element of the wheel in its place. *)
Module Screen.
Record t : Type := mk { page : page; scene : option Scene.t }.
End Screen.

Section Page.
Context {trig : MathTrig} {astro : AstronomyEngine} {ai : GenAI} {rt : Runtime}.

(** The promise [handleCalculate] awaits; [sch] is the schedule of the
    calls [analyzeSynastry] has in flight at once. *)
Definition pipeline (sch : Schedule.t) (detailsA : BirthDetails.t)
    (detailsB : option BirthDetails.t) : promise world Data :=
  match detailsB with
  | Some detailsB => data ← analyzeSynastry sch detailsA detailsB; mret (inr data)
  | None => data ← analyzeBirthChart detailsA; mret (inl data)
  end.

(** [console.error(err)] in the [catch] of [handleCalculate]. *)
Definition logged (settled : result Data) : list exn :=
  match settled with Throw err => [err] | Ok _ => [] end.

(** [handleCalculate], from the click to the last [setState]: the state
    it leaves, what it wrote to the console, and the world after its
    requests. *)
Definition handleCalculate (sch : Schedule.t) (detailsA : BirthDetails.t)
    (detailsB : option BirthDetails.t) (s : AppState.t) (w : world)
    : AppState.t * list exn * world :=
  let s := handleCalculate_begin detailsB s in
  let '(settled, w) := pipeline sch detailsA detailsB w in
  (handleCalculate_end settled s, logged settled, w).

(** The wheel as it is mounted: the initial state, after the effect on
    [data] has run. *)
Definition wheel_mounted : WheelState.t := onDataChange WheelState.initial.

(** What happens on the page. *)
Inductive event : Type :=
| SetMode (m : Mode.t)
| SetPersonA (d : BirthDetails.t)
| SetPersonB (d : BirthDetails.t)
| Submit
| Settle (sch : Schedule.t)
| Back
| Select (owner : Owner.t) (k : nat)
| Timer
| MouseEnter (owner : Owner.t) (k : nat)
| MouseLeave
| Rotate (value : Q)
| ResetRotation.

(** The planet group of index [k] of a chart of the wheel, as the
    selection its handlers work with. *)
Definition selection_at (app : AppState.t) (owner : Owner.t) (k : nat) : option Selection.t :=
  match getDataForWheel app with
  | (Some (inl primary), secondary) =>
      match owner with
      | Owner.A => clicked primary Owner.A k
      | Owner.B => secondary ≫= fun secondary => clicked secondary Owner.B k
      end
  | _ => None
  end.

(** One event, when the page allows it. *)
Definition system_step (e : event) (σ : System.t) : option System.t :=
  let app := System.app σ in
  let on_input := bool_decide (AppState.step app = Step.input) in
  match e with
  | SetMode m =>
      if on_input then Some (System.with_form (setMode m (System.form σ)) σ) else None
  | SetPersonA d =>
      if on_input then Some (System.with_form (setPersonA d (System.form σ)) σ) else None
  | SetPersonB d =>
      if on_input && bool_decide (FormState.mode (System.form σ) = Mode.synastry)
      then Some (System.with_form (setPersonB d (System.form σ)) σ)
      else None
  | Submit =>
      if on_input && can_submit (AppState.isLoading app) (System.form σ)
      then
        let args := handleSubmit (System.form σ) in
        Some (System.mk (handleCalculate_begin args.2 app) (System.form σ) (System.wheel σ)
                (Some args) (System.console σ) (System.env σ))
      else None
  | Settle sch =>
      match System.pending σ with
      | Some args =>
          let '(settled, w) := pipeline sch args.1 args.2 (System.env σ) in
          let app := handleCalculate_end settled app in
          let on_input := bool_decide (AppState.step app = Step.input) in
          Some (System.mk app
                  (if on_input then System.form σ else FormState.initial)
                  (if on_input then None else Some wheel_mounted)
                  None (System.console σ ++ logged settled) w)
      | None => None
      end
  | Back =>
      if on_input then None
      else Some (System.mk (handleReset app) (System.form σ) None (System.pending σ)
                   (System.console σ) (System.env σ))
  | Select owner k =>
      if on_input then None
      else sel ← selection_at app owner k;
           Some (System.with_app (setSelectedPlanet (Some sel) app) σ)
  | Timer =>
      ws ← System.wheel σ;
      if WheelState.isLoaded ws then None else Some (System.with_wheel (onTimer ws) σ)
  | MouseEnter owner k =>
      ws ← System.wheel σ;
      sel ← selection_at app owner k;
      Some (System.with_wheel (setHoveredPlanet (Some sel) ws) σ)
  | MouseLeave =>
      ws ← System.wheel σ;
      Some (System.with_wheel (setHoveredPlanet None ws) σ)
  | Rotate value =>
      ws ← System.wheel σ;
      if bool_decide (0 <= value)%Q && bool_decide (value <= 360)%Q
      then Some (System.with_wheel (setManualOffset value ws) σ)
      else None
  | ResetRotation =>
      ws ← System.wheel σ;
      if bool_decide (WheelState.manualOffset ws == 0)%Q then None
      else Some (System.with_wheel (setManualOffset 0 ws) σ)
  end.

Definition system_initial (w : world) : System.t :=
  System.mk AppState.initial FormState.initial None None [] w.

(** The events of the form: a tab, a keystroke. *)
Definition is_edit (e : event) : bool :=
  match e with SetMode _ | SetPersonA _ | SetPersonB _ => true | _ => false end.

(** The states the page can be in. *)
Inductive reachable : System.t -> Prop :=
| reachable_initial (w : world) : reachable (system_initial w)
| reachable_step (e : event) (σ σ' : System.t) :
    reachable σ -> system_step e σ = Some σ' -> reachable σ'.

(** [App] and the wheel it mounts, rendered from the state of the page. *)
Definition render (σ : System.t) (random : Q) : result Screen.t :=
  pg ← App_render (System.app σ) (System.form σ) random;
  Ok (Screen.mk pg
        match pg with
        | Result_page v =>
            props ← ResultScreen.wheel v; ws ← System.wheel σ; Some (ZodiacWheel props ws)
        | Input_page _ => None
        end).

(** ** The invariant of the page *)

(** The data of the result screen came out of a pipeline. *)
Definition Data_wf (d : Data) : Prop :=
  match d with
  | inl natal => exists name, data_wf name natal
  | inr synastry =>
      (exists name, data_wf name (SynastryData.personA synastry)) /\
      (exists name, data_wf name (SynastryData.personB synastry))
  end.

(** The chart a selection of the given owner points into. *)
Definition chart_of_owner (d : Data) (owner : Owner.t) : option ChartData.t :=
  match d, owner with
  | inl natal, Owner.A => Some natal
  | inl _, Owner.B => None
  | inr synastry, Owner.A => Some (SynastryData.personA synastry)
  | inr synastry, Owner.B => Some (SynastryData.personB synastry)
  end.

(** A selection that points at a planet of the data on the page. *)
Definition planet_of_data (chartData : option Data) (sel : Selection.t) : Prop :=
  exists d chart,
    chartData = Some d /\
    chart_of_owner d (Selection.owner sel) = Some chart /\
    Selection.planet sel ∈ ChartData.planets chart.

Record system_inv (σ : System.t) : Prop := {
  inv_input :
    AppState.step (System.app σ) = Step.input ->
    AppState.chartData (System.app σ) = None /\
    AppState.selectedPlanet (System.app σ) = None /\
    AppState.isSynastry (System.app σ) = false;
  inv_result :
    AppState.step (System.app σ) = Step.result ->
    System.pending σ = None /\ AppState.error (System.app σ) = None /\
    exists d, AppState.chartData (System.app σ) = Some d /\
              cast_ok d (AppState.isSynastry (System.app σ));
  inv_wheel :
    is_Some (System.wheel σ) <-> AppState.step (System.app σ) = Step.result;
  inv_loading :
    AppState.isLoading (System.app σ) = bool_decide (is_Some (System.pending σ));
  inv_pending :
    is_Some (System.pending σ) -> AppState.error (System.app σ) = None;
  inv_loadingStep :
    AppState.isLoading (System.app σ) = false -> AppState.loadingStep (System.app σ) = "";
  inv_data :
    forall d, AppState.chartData (System.app σ) = Some d -> Data_wf d;
  inv_selected :
    forall sel, AppState.selectedPlanet (System.app σ) = Some sel ->
    planet_of_data (AppState.chartData (System.app σ)) sel;
  inv_hovered :
    forall ws sel, System.wheel σ = Some ws -> WheelState.hoveredPlanet ws = Some sel ->
    planet_of_data (AppState.chartData (System.app σ)) sel;
  inv_offset :
    forall ws, System.wheel σ = Some ws ->
    (0 <= WheelState.manualOffset ws /\ WheelState.manualOffset ws <= 360)%Q;
  inv_console :
    is_Some (AppState.error (System.app σ)) -> System.console σ <> []
}.

Lemma pipeline_wf (sch : Schedule.t) (detailsA : BirthDetails.t)
    (detailsB : option BirthDetails.t) (w : world) (d : Data) (w' : world) :
  pipeline sch detailsA detailsB w = (Ok d, w') ->
  Data_wf d /\ match d with inl _ => detailsB = None | inr _ => is_Some detailsB end.
Proof.
  unfold pipeline. destruct detailsB as [detailsB|]; intros H; inv_promise.
  - apply analyzeSynastry_wf in H as (HA & HB & _). inv_result. cbn. eauto.
  - apply analyzeBirthChart_wf in H. inv_result. cbn. eauto.
Qed.

Lemma system_initial_inv (w : world) : system_inv (system_initial w).
Proof. split; cbn; done. Qed.

(** The form does not matter to the invariant. *)
Lemma system_inv_form (σ : System.t) (form : FormState.t) :
  system_inv σ -> system_inv (System.with_form form σ).
Proof. now intros []. Qed.

(** Neither does the state of the wheel, as long as it is mounted, hovers
    over a planet of the charts shown and is turned by an angle of the
    control. *)
Lemma system_inv_wheel (σ : System.t) (ws ws' : WheelState.t) :
  system_inv σ -> System.wheel σ = Some ws ->
  (forall sel, WheelState.hoveredPlanet ws' = Some sel ->
     planet_of_data (AppState.chartData (System.app σ)) sel) ->
  (0 <= WheelState.manualOffset ws' /\ WheelState.manualOffset ws' <= 360)%Q ->
  system_inv (System.with_wheel ws' σ).
Proof.
  intros [Hi Hr Hw Hl Hp Hs Hd Hsel Hh Ho Hc] Hws Hhov Hoff.
  split; cbn; try done.
  - rewrite <- Hw, Hws. split; eauto.
  - intros ? sel [= <-]. apply Hhov.
  - now intros ? [= <-].
Qed.

Lemma handleCalculate_begin_inv (σ : System.t)
    (args : BirthDetails.t * option BirthDetails.t) :
  system_inv σ -> AppState.step (System.app σ) = Step.input ->
  system_inv (System.mk (handleCalculate_begin args.2 (System.app σ))
                (System.form σ) (System.wheel σ) (Some args) (System.console σ)
                (System.env σ)).
Proof.
  intros [Hi Hr Hw Hl Hp Hs Hd Hsel Hh Ho Hc] Hstep. destruct (Hi Hstep) as (Hcd & Hn & Hy).
  destruct σ as [[] ? ? ? ? ?]. cbn in *. subst.
  split; cbn; destruct args.2; cbn; try done; intros [? [=]].
Qed.

Lemma handleCalculate_end_inv (σ : System.t) (settled : result Data) (w : world) :
  system_inv σ -> is_Some (System.pending σ) ->
  (forall d, settled = Ok d -> Data_wf d) ->
  let app := handleCalculate_end settled (System.app σ) in
  let on_input := bool_decide (AppState.step app = Step.input) in
  system_inv (System.mk app
                (if on_input then System.form σ else FormState.initial)
                (if on_input then None else Some wheel_mounted)
                None (System.console σ ++ logged settled) w).
Proof.
  intros [Hi Hr Hw Hl Hp Hs Hd Hsel Hh Ho Hc] Hpend Hwf.
  destruct σ as [[step ? ? ? ? ? ?] ? ? ? ? ?]. cbn in *.
  destruct step; [|destruct (Hr eq_refl) as [-> _]; now destruct Hpend].
  destruct (Hi eq_refl) as (-> & -> & ->). rewrite (Hp Hpend).
  destruct settled as [[natal|synastry]|e]; split; cbn; try done.
  all: try (intros _; split_and!; [done | auto | now eexists]).
  all: try (intros d [= <-]; now apply Hwf).
  all: try (split; [done | now eexists]).
  all: try (now intros ? [= <-]).
  all: try (now intros ? ? [= <-]).
  - split; [now intros [? [=]] | done].
  - now intros _ [_ [=]]%app_eq_nil.
Qed.

Lemma handleReset_inv (σ : System.t) :
  system_inv σ -> AppState.step (System.app σ) = Step.result ->
  system_inv (System.mk (handleReset (System.app σ)) (System.form σ) None
                (System.pending σ) (System.console σ) (System.env σ)).
Proof.
  intros [Hi Hr Hw Hl Hp Hs Hd Hsel Hh Ho Hc] Hstep. destruct (Hr Hstep) as (Hpend & He & _).
  destruct σ as [[] ? ? ? ? ?]. cbn in *. subst. split; cbn; done.
Qed.

Lemma clicked_elem_of (chart : ChartData.t) (owner : Owner.t) (k : nat)
    (sel : Selection.t) :
  clicked chart owner k = Some sel ->
  Selection.owner sel = owner /\ Selection.planet sel ∈ ChartData.planets chart.
Proof.
  unfold clicked. destruct (_ !! k) as [t|] eqn:Hk; [|done]. intros [= <-]. cbn.
  split; [done|]. rewrite <- (resolveCollisions_Permutation (ChartData.planets chart) 6).
  apply list_elem_of_fmap. exists t. split; [done|]. now apply list_elem_of_lookup_2 with k.
Qed.

Lemma setSelectedPlanet_inv (σ : System.t) (sel : Selection.t) :
  system_inv σ ->
  planet_of_data (AppState.chartData (System.app σ)) sel ->
  AppState.step (System.app σ) = Step.result ->
  system_inv (System.with_app (setSelectedPlanet (Some sel) (System.app σ)) σ).
Proof.
  intros [Hi Hr Hw Hl Hp Hs Hd Hsel Hh Ho Hc] Hdata Hstep.
  destruct σ as [[] ? ? ? ? ?]. cbn in *. subst. split; cbn; try done.
  now intros ? [= <-].
Qed.

(** A planet the wheel can hand over is a planet of the chart of its
    owner. *)
Lemma selection_at_of_data (app : AppState.t) (owner : Owner.t) (k : nat) (sel : Selection.t) :
  (forall d, AppState.chartData app = Some d -> cast_ok d (AppState.isSynastry app)) ->
  selection_at app owner k = Some sel ->
  planet_of_data (AppState.chartData app) sel.
Proof.
  unfold selection_at, getDataForWheel, planet_of_data. intros Hcast Hsel.
  destruct (AppState.chartData app) as [d|]; [|done]. specialize (Hcast d eq_refl).
  exists d. destruct (AppState.isSynastry app), d as [natal|synastry]; try done;
    destruct owner; try done;
    apply clicked_elem_of in Hsel as [-> ?]; eauto.
Qed.

Lemma system_inv_cast (σ : System.t) :
  system_inv σ ->
  forall d, AppState.chartData (System.app σ) = Some d ->
            cast_ok d (AppState.isSynastry (System.app σ)).
Proof.
  intros Hinv d Hd. destruct (AppState.step (System.app σ)) eqn:Hstep.
  - destruct (inv_input σ Hinv Hstep) as [? _]. congruence.
  - destruct (inv_result σ Hinv Hstep) as (_ & _ & d' & Hd' & Hc). congruence.
Qed.

(** An event of the wheel keeps the invariant. *)
Ltac wheel_step Hinv :=
  let ws := fresh "ws" in let Hws := fresh "Hws" in
  intros (ws & Hws & ?)%bind_Some;
  pose proof (inv_hovered _ Hinv ws) as ?; pose proof (inv_offset _ Hinv ws Hws) as ?.

(** Every event keeps the invariant. *)
Lemma system_step_inv (e : event) (σ σ' : System.t) :
  system_inv σ -> system_step e σ = Some σ' -> system_inv σ'.
Proof.
  intros Hinv. unfold system_step. destruct e.
  - case_bool_decide; [|done]. intros [= <-]. now apply (system_inv_form σ).
  - case_bool_decide; [|done]. intros [= <-]. now apply (system_inv_form σ).
  - destruct (_ && _); [|done]. intros [= <-]. now apply (system_inv_form σ).
  - case_bool_decide as Hstep; [|done]. destruct (can_submit _ _); [|done].
    intros [= <-]. now apply handleCalculate_begin_inv.
  - destruct (System.pending σ) as [args|] eqn:Hp; [|done].
    destruct (pipeline _ _ _ _) as [settled w] eqn:Hpipe. intros [= <-].
    apply handleCalculate_end_inv; [done | now rewrite Hp |].
    intros d ->. eapply pipeline_wf, Hpipe.
  - case_bool_decide as Hstep; [done|]. intros [= <-].
    apply handleReset_inv; [done|]. now destruct (AppState.step (System.app σ)).
  - case_bool_decide as Hstep; [done|].
    intros (sel & Hsel & [= <-])%bind_Some.
    apply setSelectedPlanet_inv; [done | | now destruct (AppState.step (System.app σ))].
    eapply selection_at_of_data; [now apply system_inv_cast | exact Hsel].
  - wheel_step Hinv. destruct (WheelState.isLoaded ws); [done|]. injection H as <-.
    eapply system_inv_wheel; eauto.
  - wheel_step Hinv. apply bind_Some in H as (sel & Hsel & [= <-]).
    eapply system_inv_wheel; eauto. intros ? [= <-].
    eapply selection_at_of_data; [now apply system_inv_cast | exact Hsel].
  - wheel_step Hinv. injection H as <-. eapply system_inv_wheel; eauto. done.
  - wheel_step Hinv. destruct (_ && _) eqn:Hv; [|done]. injection H as <-.
    apply andb_true_iff in Hv as [?%bool_decide_eq_true ?%bool_decide_eq_true].
    eapply system_inv_wheel; eauto.
  - wheel_step Hinv. case_bool_decide; [done|]. injection H as <-.
    eapply system_inv_wheel; eauto. cbn. split; lra.
Qed.

(** The invariant holds in every state the page can be in. *)
Lemma reachable_inv (σ : System.t) : reachable σ -> system_inv σ.
Proof.
  induction 1 as [w|e σ σ' _ IH Hstep];
    [apply system_initial_inv | eapply system_step_inv; eassumption].
Qed.

(** ** What the invariant gives *)

(** Back brings the application to the state it started in, and takes
    the wheel off the page. *)
Lemma Back_resets (σ σ' : System.t) :
  reachable σ -> system_step Back σ = Some σ' ->
  System.app σ' = AppState.initial /\ System.wheel σ' = None.
Proof.
  intros Hinv%reachable_inv. unfold system_step. case_bool_decide as Hstep; [done|].
  intros [= <-]. cbn.
  assert (Hres : AppState.step (System.app σ) = Step.result)
    by now destruct (AppState.step (System.app σ)).
  destruct (inv_result σ Hinv Hres) as (Hp & He & _).
  pose proof (inv_loading σ Hinv) as Hl. rewrite Hp in Hl. cbn in Hl.
  pose proof (inv_loadingStep σ Hinv Hl) as Hs.
  destruct σ as [[] ? ? ? ? ?]. cbn in *. now subst.
Qed.

(** A delivered natal chart has a Sun. *)
Lemma data_wf_Sun (name : string) (natal : ChartData.t) :
  data_wf name natal ->
  ~ Forall (fun p => PlanetPosition.name p <> "Sun") (ChartData.planets natal).
Proof.
  intros [_ Hwf _] Hall. pose proof (wf_names _ Hwf) as Hn.
  unfold chart_of_data in Hn. cbn in Hn. rewrite <- list_fmap_compose in Hn.
  destruct (ChartData.planets natal) as [|p ps]; [done|].
  apply Forall_cons in Hall as [Hp _]. now injection Hn as Hn _.
Qed.

(** On the result screen both halves of the page have their data: the
    wheel a primary chart, the second chart exactly in a synastry, and
    the panel is neither a [TypeError] nor empty. *)
Lemma result_screen_renders (σ : System.t) (random : Q) :
  reachable σ -> AppState.step (System.app σ) = Step.result ->
  exists (d : Data) (primary : ChartData.t) (secondary : option ChartData.t) (v : element),
    AppState.chartData (System.app σ) = Some d /\
    getDataForWheel (System.app σ) = (Some (inl primary), secondary) /\
    (is_Some secondary <-> AppState.isSynastry (System.app σ) = true) /\
    AnalysisPanel d (AppState.isSynastry (System.app σ))
      (AppState.selectedPlanet (System.app σ)) random = Ok v /\
    v <> null.
Proof.
  intros Hinv%reachable_inv Hres.
  destruct (inv_result σ Hinv Hres) as (_ & _ & d & Hd & Hc).
  pose proof (inv_data σ Hinv d Hd) as Hwf.
  destruct (proj2 (AnalysisPanel_Ok d _ (AppState.selectedPlanet (System.app σ)) random) Hc)
    as [v Hv].
  assert (Hnull : v <> null).
  { intros ->. apply AnalysisPanel_null in Hv as (natal & -> & _ & _ & Hno).
    destruct Hwf as [name Hwf]. now apply data_wf_Sun in Hwf. }
  unfold getDataForWheel. rewrite Hd.
  destruct d as [natal|synastry], (AppState.isSynastry (System.app σ)); try done.
  - exists (inl natal), natal, None, v. split_and!; try done.
  - exists (inr synastry), (SynastryData.personA synastry),
      (Some (SynastryData.personB synastry)), v.
    split_and!; done.
Qed.

(** ** The page that is rendered *)

(** The bar under the wheel is that of the analysis shown. *)
Definition bottom_ok (app : AppState.t) (primary : ChartData.t) (bottom : BottomInfo.t)
    : Prop :=
  match bottom with
  | BottomInfo.Subjects _ _ => AppState.isSynastry app = true
  | BottomInfo.BigThree sun _ _ =>
      AppState.isSynastry app = false /\
      sun = Some (BigThree.sun (ChartData.bigThree primary))
  end.

(** The result screen of a reachable state, part by part: the wheel is
    drawn for the primary chart from the state the page keeps for it,
    with a second chart exactly in a synastry; the panel is there. *)
Lemma render_result (σ : System.t) (random : Q) :
  reachable σ -> AppState.step (System.app σ) = Step.result ->
  exists primary secondary ws bottom el,
    getDataForWheel (System.app σ) = (Some (inl primary), secondary) /\
    System.wheel σ = Some ws /\
    (is_Some secondary <-> AppState.isSynastry (System.app σ) = true) /\
    el <> null /\ bottom_ok (System.app σ) primary bottom /\
    let props := WheelProps.mk primary secondary (AppState.selectedPlanet (System.app σ)) in
    render σ random
    = Ok (Screen.mk
            (Result_page
               (ResultScreen.mk (handleReset (System.app σ))
                  ("LAT: " +:+ toFixed (Rising.degree (ChartData.rising primary)) 2)
                  (Some props) (fun sel => setSelectedPlanet (Some sel) (System.app σ))
                  bottom (Some el)))
            (Some (ZodiacWheel props ws))).
Proof.
  intros Hreach Hstep. pose proof (reachable_inv σ Hreach) as Hinv.
  destruct (result_screen_renders σ random Hreach Hstep)
    as (d & primary & secondary & el & Hd & Hw & Hsec & Hel & Hnull).
  destruct (proj2 (inv_wheel σ Hinv) Hstep) as [ws Hws].
  destruct (inv_result σ Hinv Hstep) as (_ & _ & d' & Hd' & Hc).
  assert (d' = d) as -> by congruence.
  unfold render, App_render. rewrite Hstep, Hw, Hws. unfold bottom_of, panel_of.
  rewrite Hd, Hel. cbn. unfold getDataForWheel in Hw. rewrite Hd in Hw.
  destruct d as [natal|synastry], (AppState.isSynastry (System.app σ)) eqn:Hsyn; try done;
    injection Hw as <- <-; cbn; eexists _, _, ws, _, el;
    (split_and!; [reflexivity | done | done | done | | reflexivity]); done.
Qed.

(** The form screen of a reachable state. *)
Lemma render_input (σ : System.t) (random : Q) :
  AppState.step (System.app σ) = Step.input ->
  render σ random
  = Ok (Screen.mk
          (Input_page
             (InputScreen.mk (BirthForm (AppState.isLoading (System.app σ)) (System.form σ))
                (if AppState.isLoading (System.app σ)
                 then Some (AppState.loadingStep (System.app σ)) else None)
                (truthy (AppState.error (System.app σ)))))
          None).
Proof. intros Hstep. unfold render, App_render. now rewrite Hstep. Qed.

(** A keystroke in an input of the form is an event of the page. *)
Lemma input_events (σ : System.t) (i : Input.t) (text : string) :
  AppState.step (System.app σ) = Step.input ->
  i ∈ FormView.inputs (BirthForm (AppState.isLoading (System.app σ)) (System.form σ)) ->
  exists e, system_step e σ = Some (System.with_form (Input.onChange i text) σ).
Proof.
  intros Hstep Hi. unfold FormView.inputs in Hi. cbn -[subject_inputs] in Hi.
  assert (Hsub : forall person setPerson,
             i ∈ subject_inputs person setPerson ->
             exists d, Input.onChange i text = setPerson d).
  { intros person setPerson (n & Hn)%list_elem_of_lookup_1.
    apply subject_inputs_lookup in Hn as (k & _ & _ & _ & E). rewrite E. eauto. }
  apply elem_of_app in Hi as [Hi|Hi]; [apply Hsub in Hi as [d ->]; exists (SetPersonA d)|].
  - unfold system_step. now rewrite Hstep.
  - destruct (FormState.mode (System.form σ)) eqn:Hmode; cbn -[subject_inputs] in Hi;
      [now apply elem_of_nil in Hi|].
    rewrite app_nil_r in Hi. apply Hsub in Hi as [d ->]. exists (SetPersonB d).
    unfold system_step. now rewrite Hstep, Hmode.
Qed.

(** C4. In every reachable state the page renders, [App] and the wheel it
    mounts.  On the form screen the spinner and the disabled button show
    exactly while a request is in flight, and never beside an error
    message; an error message on the page has its exception in the
    console.  On the result screen the wheel is drawn, from the state
    the page keeps for it, for the primary chart, with a second chart
    exactly in a synastry; the panel is neither a [TypeError] nor empty,
    the figure after [LAT:] is the degree of the ascendant, and the bar
    under the wheel is that of the analysis shown. *)
Theorem App_render_reachable (σ : System.t) (random : Q) :
  reachable σ ->
  exists sc, render σ random = Ok sc /\
    match Screen.page sc with
    | Input_page v =>
        AppState.step (System.app σ) = Step.input /\ Screen.scene sc = None /\
        (is_Some (InputScreen.loading v) <-> is_Some (System.pending σ)) /\
        (FormView.disabled (InputScreen.form v) = true <-> is_Some (System.pending σ)) /\
        (is_Some (InputScreen.error v) -> System.pending σ = None /\ System.console σ <> [])
    | Result_page v =>
        AppState.step (System.app σ) = Step.result /\
        exists props ws el,
          ResultScreen.wheel v = Some props /\ System.wheel σ = Some ws /\
          Screen.scene sc = Some (ZodiacWheel props ws) /\
          ResultScreen.panel v = Some el /\ el <> null /\
          (is_Some (WheelProps.secondaryData props)
           <-> AppState.isSynastry (System.app σ) = true) /\
          ResultScreen.lat v
          = "LAT: " +:+ toFixed (Rising.degree (ChartData.rising (WheelProps.data props))) 2 /\
          bottom_ok (System.app σ) (WheelProps.data props) (ResultScreen.bottom v)
    end.
Proof.
  intros Hreach. pose proof (reachable_inv σ Hreach) as Hinv.
  destruct (AppState.step (System.app σ)) eqn:Hstep.
  - rewrite (render_input _ _ Hstep). eexists. split; [reflexivity|]. cbn.
    rewrite (inv_loading σ Hinv). split_and!; [done | done | | |].
    + case_bool_decide; split; try done; now intros [? [=]].
    + apply bool_decide_eq_true.
    + intros [msg Herr]. apply truthy_Some in Herr as [Herr _].
      split; [|apply (inv_console σ Hinv); eauto].
      destruct (System.pending σ) eqn:Hp; [|done].
      rewrite (inv_pending σ Hinv) in Herr by now rewrite Hp. done.
  - destruct (render_result σ random Hreach Hstep)
      as (primary & secondary & ws & bottom & el & Hw & Hws & Hsec & Hnull & Hb & ->).
    eexists. split; [reflexivity|]. cbn. split; [done|].
    eexists _, ws, el. split_and!; done.
Qed.

(** What a click on a plotted planet hands over is what [clicked] reads
    off the chart at the position of the planet. *)
Lemma onClick_clicked (data : ChartData.t) (secondaryData : option ChartData.t) (rot : Q)
    (p : Plotted.t) :
  p ∈ (plottedPlanetsA data rot ++ plottedPlanetsB secondaryData rot)%list ->
  exists k,
    match Plotted.owner p with
    | Owner.A => clicked data Owner.A k
    | Owner.B => secondaryData ≫= (fun secondary => clicked secondary Owner.B k)
    end = Some (onClick p).
Proof.
  unfold plottedPlanetsA, plottedPlanetsB, clicked.
  intros [Hp|Hp]%elem_of_app; [|destruct secondaryData; [|now apply elem_of_nil in Hp]];
    apply list_elem_of_fmap in Hp as (tr & -> & (k & Hk)%list_elem_of_lookup_1);
    exists k; cbn; now rewrite Hk.
Qed.

(** The handlers of a planet group of the wheel are the transitions of
    three events: the click, the pointer entering, the pointer leaving. *)
Lemma planet_handlers (σ : System.t) (primary : ChartData.t)
    (secondary : option ChartData.t) (ws : WheelState.t) (g : PlanetGroup.t) :
  AppState.step (System.app σ) = Step.result ->
  getDataForWheel (System.app σ) = (Some (inl primary), secondary) ->
  System.wheel σ = Some ws ->
  g ∈ Scene.planets
        (ZodiacWheel (WheelProps.mk primary secondary (AppState.selectedPlanet (System.app σ)))
           ws) ->
  exists owner k,
    system_step (Select owner k) σ
    = Some (System.with_app
              (setSelectedPlanet (Some (PlanetGroup.onClick g)) (System.app σ)) σ) /\
    system_step (MouseEnter owner k) σ
    = Some (System.with_wheel (PlanetGroup.onMouseEnter g) σ) /\
    system_step MouseLeave σ = Some (System.with_wheel (PlanetGroup.onMouseLeave g) σ).
Proof.
  intros Hstep Hw Hws (p & -> & Hp)%elem_of_planets. cbn in Hp |- *.
  destruct (onClick_clicked _ _ _ p Hp) as [k Hk].
  exists (Plotted.owner p), k. unfold system_step, selection_at. rewrite Hstep, Hw, Hws. cbn.
  destruct (Plotted.owner p); now rewrite Hk.
Qed.

(** The rotation control and the timer of the wheel, as events. *)
Lemma control_handlers (σ : System.t) (props : WheelProps.t) (ws : WheelState.t) :
  System.wheel σ = Some ws ->
  let scene := ZodiacWheel props ws in
  let c := Scene.control scene in
  (forall value, (Control.min c <= value /\ value <= Control.max c)%Q ->
     system_step (Rotate value) σ = Some (System.with_wheel (Control.onChange c value) σ)) /\
  (if Control.resetShown c
   then system_step ResetRotation σ = Some (System.with_wheel (Control.onReset c) σ)
   else system_step ResetRotation σ = None) /\
  (if Scene.loaded scene
   then system_step Timer σ = None
   else system_step Timer σ = Some (System.with_wheel (onTimer ws) σ)).
Proof.
  intros Hws. unfold system_step. rewrite Hws. cbn. split_and!.
  - intros value [H0 H1]. now rewrite !bool_decide_eq_true_2.
  - now case_bool_decide.
  - now destruct (WheelState.isLoaded ws).
Qed.

(** C12. The page offers what [system_step] allows: every handler of the
    rendered page is the transition of an event.  On the form screen these
    are the tabs, a keystroke in any input, and the submission when the
    button is enabled and the form valid; on the result screen the Back
    button, the three handlers of every planet of the wheel (the click,
    the pointer entering and leaving), the rotation control within its
    range, its reset button when it shows, and the timer that fades the
    wheel in, once. *)
Theorem page_handlers (σ : System.t) (random : Q) (sc : Screen.t) :
  reachable σ -> render σ random = Ok sc ->
  match Screen.page sc with
  | Input_page v =>
      (forall t, t ∈ FormView.tabs (InputScreen.form v) ->
         exists m, system_step (SetMode m) σ = Some (System.with_form (Tab.onClick t) σ)) /\
      (forall i text, i ∈ FormView.inputs (InputScreen.form v) ->
         exists e, system_step e σ = Some (System.with_form (Input.onChange i text) σ)) /\
      (is_Some (system_step Submit σ)
       <-> FormView.disabled (InputScreen.form v) = false /\ valid (InputScreen.form v) = true)
  | Result_page v =>
      (exists σ', system_step Back σ = Some σ' /\ System.app σ' = ResultScreen.onBack v) /\
      exists scene, Screen.scene sc = Some scene /\
        (forall g, g ∈ Scene.planets scene ->
           exists owner k,
             system_step (Select owner k) σ
             = Some (System.with_app (ResultScreen.onPlanetSelect v (PlanetGroup.onClick g)) σ) /\
             system_step (MouseEnter owner k) σ
             = Some (System.with_wheel (PlanetGroup.onMouseEnter g) σ) /\
             system_step MouseLeave σ
             = Some (System.with_wheel (PlanetGroup.onMouseLeave g) σ)) /\
        (forall value,
           (Control.min (Scene.control scene) <= value
            /\ value <= Control.max (Scene.control scene))%Q ->
           system_step (Rotate value) σ
           = Some (System.with_wheel (Control.onChange (Scene.control scene) value) σ)) /\
        (Control.resetShown (Scene.control scene) = true ->
           system_step ResetRotation σ
           = Some (System.with_wheel (Control.onReset (Scene.control scene)) σ)) /\
        (Scene.loaded scene = false -> is_Some (system_step Timer σ))
  end.
Proof.
  intros Hreach. destruct (AppState.step (System.app σ)) eqn:Hstep.
  - rewrite (render_input _ _ Hstep). intros [= <-]. cbn -[BirthForm valid]. split_and!.
    + intros t Ht. cbn in Ht. rewrite !elem_of_cons, elem_of_nil in Ht.
      unfold system_step. rewrite Hstep.
      destruct Ht as [->|[->|[]]]; eexists; reflexivity.
    + intros i text Hi. now apply input_events.
    + unfold system_step. rewrite Hstep, can_submit_render. cbn -[BirthForm valid].
      destruct (FormView.disabled _), (valid _); cbn;
        split; try done; try (now intros [? [=]]); now intros [[=] [=]].
  - destruct (render_result σ random Hreach Hstep)
      as (primary & secondary & ws & bottom & el & Hw & Hws & _ & _ & _ & ->).
    intros [= <-]. cbn -[ZodiacWheel system_step]. split.
    { unfold system_step. rewrite Hstep. cbn. eauto. }
    eexists. split; [reflexivity|].
    destruct (control_handlers σ (WheelProps.mk primary secondary
                (AppState.selectedPlanet (System.app σ))) ws Hws) as (Hrot & Hreset & Htimer).
    split_and!.
    + intros g Hg. now apply (planet_handlers σ primary secondary ws).
    + exact Hrot.
    + intros Hshown. now rewrite Hshown in Hreset.
    + intros Hl. rewrite Hl in Htimer. rewrite Htimer. eauto.
Qed.

(** A sequence of events, each from the state the one before left. *)
Fixpoint run (events : list event) (σ : System.t) : option System.t :=
  match events with
  | [] => Some σ
  | e :: events' => system_step e σ ≫= run events'
  end.

Lemma run_reachable (events : list event) (σ σ' : System.t) :
  reachable σ -> run events σ = Some σ' -> reachable σ'.
Proof.
  revert σ. induction events as [|e events IH]; intros σ Hσ; cbn.
  - now intros [= <-].
  - intros (σ1 & Hstep & Hrun)%bind_Some. eapply IH; [|exact Hrun].
    eapply reachable_step; eassumption.
Qed.

Lemma run_one (e : event) (σ σ' : System.t) :
  system_step e σ = Some σ' -> run [e] σ = Some σ'.
Proof. intros H. change (run [e] σ) with (system_step e σ ≫= run []). now rewrite H. Qed.

Lemma run_two (e1 e2 : event) (σ σ1 σ2 : System.t) :
  system_step e1 σ = Some σ1 -> system_step e2 σ1 = Some σ2 ->
  run [e1; e2] σ = Some σ2.
Proof.
  intros H1 H2. change (run [e1; e2] σ) with (system_step e1 σ ≫= run [e2]).
  rewrite H1. now apply run_one.
Qed.

Lemma run_app (l l' : list event) (σ : System.t) :
  run (l ++ l') σ = run l σ ≫= run l'.
Proof.
  revert σ. induction l as [|e l IH]; intros σ; cbn; [done|].
  destruct (system_step e σ); cbn; [apply IH | done].
Qed.

(** ** A request in flight *)

(** The form is all that an edit changes. *)
Lemma edits_keep (edits : list event) (σ σ' : System.t) :
  forallb is_edit edits = true -> run edits σ = Some σ' ->
  exists form, σ' = System.with_form form σ.
Proof.
  revert σ. induction edits as [|e edits IH]; intros σ; cbn.
  { intros _ [= <-]. exists (System.form σ). now destruct σ. }
  intros [He Hall]%andb_true_iff (σ1 & Hstep & Hrun)%bind_Some.
  destruct (IH σ1 Hall Hrun) as [form ->].
  destruct e; try done; unfold system_step in Hstep;
    destruct (bool_decide _ && _) eqn:E in Hstep || case_bool_decide;
    try done; injection Hstep as <-; now eexists.
Qed.


(** ** Liveness *)

(** A request in flight settles, under every schedule: the event is
    enabled, it takes the spinner away, and leaves either the result
    screen or the error message on the form, with the exception in the
    console. *)
Theorem pending_settles (sch : Schedule.t) (σ : System.t) :
  reachable σ -> AppState.isLoading (System.app σ) = true ->
  exists σ', system_step (Settle sch) σ = Some σ' /\
    AppState.isLoading (System.app σ') = false /\ System.pending σ' = None /\
    (AppState.step (System.app σ') = Step.result /\
     is_Some (AppState.chartData (System.app σ')) /\ System.console σ' = System.console σ
     \/ AppState.step (System.app σ') = Step.input /\
        is_Some (AppState.error (System.app σ')) /\
        exists err, System.console σ' = (System.console σ ++ [err])%list).
Proof.
  intros Hinv%reachable_inv Hload. rewrite (inv_loading σ Hinv) in Hload.
  apply bool_decide_eq_true in Hload as [args Hp]. unfold system_step. rewrite Hp.
  destruct (pipeline _ _ _ _) as [settled w]. eexists. split; [reflexivity|]. cbn.
  destruct (AppState.step (System.app σ)) eqn:Hstep;
    [|destruct (inv_result σ Hinv Hstep) as [? _]; congruence].
  destruct σ as [[] ? ? ? ? ?]. cbn in *. subst.
  destruct settled as [[?|?]|?]; cbn; rewrite ?app_nil_r; split_and!; eauto 10.
Qed.

(** The idle form: the form screen with no request in flight and no
    chart. *)
Definition idle (σ : System.t) : Prop :=
  AppState.step (System.app σ) = Step.input /\
  AppState.isLoading (System.app σ) = false /\
  AppState.chartData (System.app σ) = None /\
  System.wheel σ = None /\
  System.pending σ = None.

(** C15. From every state the page can be in, the idle form is at most two
    events away: the settling of the request in flight, and Back. *)
Theorem idle_reachable (σ : System.t) :
  reachable σ ->
  exists events σ', (length events <= 2)%nat /\ run events σ = Some σ' /\ idle σ'.
Proof.
  intros Hreach. pose proof (reachable_inv σ Hreach) as Hinv.
  assert (Hidle : forall τ, reachable τ -> AppState.step (System.app τ) = Step.input ->
            AppState.isLoading (System.app τ) = false -> idle τ).
  { intros τ Hτ%reachable_inv Hstep Hload. split_and!; try done.
    - now apply (inv_input τ Hτ).
    - destruct (System.wheel τ) eqn:Hw; [|done].
      assert (H : is_Some (System.wheel τ)) by (rewrite Hw; eauto).
      apply (inv_wheel τ Hτ) in H. congruence.
    - pose proof (inv_loading τ Hτ) as Hl. rewrite Hload in Hl.
      symmetry in Hl. apply bool_decide_eq_false in Hl.
      destruct (System.pending τ); [now destruct Hl|done]. }
  assert (Hback : forall τ, reachable τ -> AppState.step (System.app τ) = Step.result ->
            exists τ', system_step Back τ = Some τ' /\ idle τ').
  { intros τ Hτ Hstep. destruct (system_step Back τ) as [τ'|] eqn:Hb;
      [|unfold system_step in Hb; now rewrite Hstep in Hb].
    exists τ'. split; [done|].
    destruct (Back_resets τ τ' Hτ Hb) as [Happ _].
    apply Hidle; [eapply reachable_step; eassumption | now rewrite Happ..]. }
  destruct (AppState.isLoading (System.app σ)) eqn:Hload.
  - destruct (pending_settles Schedule.in_order σ Hreach Hload)
      as (σ1 & H1 & Hl1 & Hp1 & [[Hs1 _]|[Hs1 _]]).
    + destruct (Hback σ1) as (σ2 & H2 & Hi2); [eapply reachable_step; eassumption|done|].
      exists [Settle Schedule.in_order; Back], σ2.
      split_and!; [cbn; lia | now apply (run_two _ _ _ σ1) | done].
    + exists [Settle Schedule.in_order], σ1. split_and!; [cbn; lia | now apply run_one |].
      apply Hidle; [eapply reachable_step; eassumption | done..].
  - destruct (AppState.step (System.app σ)) eqn:Hstep.
    + exists [], σ. split_and!; [cbn; lia | done | now apply Hidle].
    + destruct (Hback σ Hreach Hstep) as (σ' & H' & Hi').
      exists [Back], σ'. split_and!; [cbn; lia | now apply run_one | done].
Qed.

(** ** The schedule and the page *)

(** Two states of the page that differ at most in what the console
    holds, entry by entry. *)
Definition same_page (σ1 σ2 : System.t) : Prop :=
  System.app σ1 = System.app σ2 /\ System.form σ1 = System.form σ2 /\
  System.wheel σ1 = System.wheel σ2 /\ System.pending σ1 = System.pending σ2 /\
  System.env σ1 = System.env σ2 /\ length (System.console σ1) = length (System.console σ2).

#[export] Instance same_page_equivalence : Equivalence same_page.
Proof.
  unfold same_page. split.
  - done.
  - intros σ1 σ2 H. split_and!; symmetry; apply H.
  - intros σ1 σ2 σ3 H12 H23. split_and!; (etrans; [apply H12 | apply H23]).
Qed.

Lemma pipeline_same_outcome {comm : Commuting ai} (sch sch' : Schedule.t)
    (detailsA : BirthDetails.t) (detailsB : option BirthDetails.t) (w : world) :
  same_outcome (pipeline sch detailsA detailsB w) (pipeline sch' detailsA detailsB w).
Proof.
  unfold pipeline. destruct detailsB as [detailsB|]; [|reflexivity].
  apply same_outcome_await; [apply analyzeSynastry_same_outcome|].
  intros data w1. reflexivity.
Qed.

(** A request settles into the same page under every schedule: only the
    exception written to the console can differ. *)
Lemma Settle_same_page {comm : Commuting ai} (sch sch' : Schedule.t) (σ σ1 : System.t) :
  system_step (Settle sch) σ = Some σ1 ->
  exists σ2, system_step (Settle sch') σ = Some σ2 /\ same_page σ1 σ2.
Proof.
  unfold system_step. destruct (System.pending σ) as [args|]; [|done].
  pose proof (pipeline_same_outcome sch sch' args.1 args.2 (System.env σ)) as H.
  destruct (pipeline sch _ _ _) as [[d|e] w], (pipeline sch' _ _ _) as [[d'|e'] w'];
    cbn in H; try done; [destruct H as [-> ->] | subst w'];
    intros [= <-]; eexists; (split; [reflexivity|]);
    unfold same_page; cbn; rewrite ?length_app; done.
Qed.

(** Two events that differ at most in the schedule of a settling. *)
Definition same_event (e1 e2 : event) : Prop :=
  match e1, e2 with
  | Settle _, Settle _ => True
  | _, _ => e1 = e2
  end.

#[export] Instance same_event_equivalence : Equivalence same_event.
Proof.
  split.
  - now intros [].
  - intros [] []; cbn; congruence.
  - intros [] [] []; cbn; congruence.
Qed.

(** What the page shows does not depend on the console. *)
#[export] Instance render_proper : Proper (same_page ==> eq ==> eq) render.
Proof.
  intros σ1 σ2 (Ha & Hf & Hw & _) random _ <-. unfold render. now rewrite Ha, Hf, Hw.
Qed.

(** [same_page] is a bisimulation: from two states that differ in the
    console only, an event is allowed in both or in neither, and leaves
    two such states. *)
#[export] Instance system_step_proper :
  Proper (eq ==> same_page ==> option_Forall2 same_page) system_step.
Proof.
  intros e _ <- [a1 f1 w1 p1 c1 v1] [a2 f2 w2 p2 c2 v2] (Ha & Hf & Hw & Hp & He & Hc).
  cbn in *. subst. 
  destruct e; cbn;
    repeat first [case_match | match goal with |- context [?o ≫= _] => destruct o; cbn end];
    simplify_eq; try constructor.
  all: unfold same_page; cbn; rewrite ?length_app; split_and!; try done; lia.
Qed.

#[export] Instance run_proper : Proper (eq ==> same_page ==> option_Forall2 same_page) run.
Proof.
  intros events _ <-. induction events as [|e events IH]; intros σ1 σ2 H; cbn.
  { now constructor. }
  destruct (system_step_proper e e eq_refl σ1 σ2 H) as [σ1' σ2' H'|]; cbn; [auto|constructor].
Qed.

(** An event and the same event under another schedule. *)
Lemma system_step_same_event {comm : Commuting ai} (e1 e2 : event) (σ1 σ2 : System.t) :
  same_event e1 e2 -> same_page σ1 σ2 ->
  option_Forall2 same_page (system_step e1 σ1) (system_step e2 σ2).
Proof.
  intros He Hσ.
  assert (Hsch : option_Forall2 same_page (system_step e1 σ1) (system_step e2 σ1)).
  { destruct e1, e2; cbn in He; try discriminate He; try (injection He as <-); simplify_eq;
      try reflexivity.
    destruct (system_step (Settle sch) σ1) as [σ'|] eqn:E.
    - destruct (Settle_same_page sch sch0 σ1 σ' E) as (σ'' & -> & H). now constructor.
    - destruct (system_step (Settle sch0) σ1) as [σ'|] eqn:E'; [|constructor].
      destruct (Settle_same_page sch0 sch σ1 σ' E') as (σ'' & E'' & _). congruence. }
  etrans; [exact Hsch|]. now apply system_step_proper.
Qed.

(** C22. On a language model whose answers do not depend on the order of the
    requests in flight, the page does not show the schedule: two runs of
    the page over the same events, which differ at most in the schedules
    under which the requests settle, are allowed together, end in states
    that differ at most in the exceptions the console holds, and render
    the same screen. *)
Theorem run_schedule_free {comm : Commuting ai} (events events' : list event)
    (σ σ1 : System.t) :
  Forall2 same_event events events' -> run events σ = Some σ1 ->
  exists σ2, run events' σ = Some σ2 /\ same_page σ1 σ2 /\
             forall random, render σ2 random = render σ1 random.
Proof.
  intros Hev. 
  assert (H : forall σa σb, same_page σa σb ->
            option_Forall2 same_page (run events σa) (run events' σb)).
  { induction Hev as [|e e' es es' He _ IH]; intros σa σb Hσ; cbn; [now constructor|].
    destruct (system_step_same_event e e' σa σb He Hσ) as [σa' σb' H'|]; cbn;
      [auto|constructor]. }
  intros E. specialize (H σ σ (reflexivity _)). rewrite E in H. inversion H as [? σ2 Hs|]; subst.
  exists σ2. split_and!; [done..|]. intros random. now rewrite Hs.
Qed.

End Page.

(** ** Instances

    The page on the scripted model of [Gemini.Scripted]: the form is
    filled in and submitted, the request settles, and Back is pressed. *)

Definition scripted_initial : System.t (ai := Scripted.ai) :=
  system_initial (ai := Scripted.ai) Scripted.natal_script.

Definition to_result : list event :=
  [SetPersonA Scripted.details; Submit; Settle Schedule.in_order].

Definition run_scripted (events : list event) : option (System.t (ai := Scripted.ai)) :=
  run (trig := StandIn.trig) (astro := StandIn.astro) (rt := Scripted.rt) events
    scripted_initial.

Lemma App_render_reachable_witness :
  exists (σ : System.t (ai := Scripted.ai)) (sc : Screen.t) (v : ResultScreen.t)
         (props : WheelProps.t),
    run_scripted to_result = Some σ /\
    render (trig := StandIn.trig) σ 0 = Ok sc /\ Screen.page sc = Result_page v /\
    ResultScreen.wheel v = Some props /\
    Screen.scene sc = Some (ZodiacWheel (trig := StandIn.trig) props wheel_mounted).
Proof.
  destruct (run_scripted to_result) as [σ|] eqn:Hrun; [|vm_compute in Hrun; discriminate].
  destruct (App_render_reachable (trig := StandIn.trig) (astro := StandIn.astro)
              (rt := Scripted.rt) σ 0) as (sc & Hsc & H).
  - eapply run_reachable; [apply reachable_initial | exact Hrun].
  - destruct (Screen.page sc) as [v|v] eqn:Hpg.
    + destruct H as [H _]. vm_compute in Hrun. injection Hrun as <-. discriminate.
    + destruct H as (_ & props & ws & el & Hw & Hws & Hscene & _).
      exists σ, sc, v, props. split_and!; [first [reflexivity | eassumption].. |].
      rewrite Hscene. do 2 f_equal.
      vm_compute in Hrun. injection Hrun as <-. now injection Hws as <-.
Defined.

(** On the empty form the button is enabled and the form is not valid:
    the submission is not an event of the page. *)
Lemma page_handlers_witness :
  is_Some (system_step (trig := StandIn.trig) (astro := StandIn.astro) (rt := Scripted.rt)
             Submit scripted_initial)
  <-> FormView.disabled (BirthForm false FormState.initial) = false /\
      valid (BirthForm false FormState.initial) = true.
Proof.
  exact (proj2 (proj2 (page_handlers (trig := StandIn.trig) (astro := StandIn.astro)
                         (rt := Scripted.rt) scripted_initial 0
                         (Screen.mk
                            (Input_page (InputScreen.mk (BirthForm false FormState.initial)
                                           None None)) None)
                         (reachable_initial _) eq_refl))).
Defined.

(** With the request of the scripted form in flight, the idle form is
    at most two events away. *)
Lemma idle_reachable_witness :
  exists (σ σ' : System.t (ai := Scripted.ai)) (events : list event),
    run_scripted [SetPersonA Scripted.details; Submit] = Some σ /\
    (length events <= 2)%nat /\
    run (trig := StandIn.trig) (astro := StandIn.astro) (rt := Scripted.rt) events σ
    = Some σ' /\
    idle σ'.
Proof.
  destruct (run_scripted [SetPersonA Scripted.details; Submit]) as [σ|] eqn:Hrun;
    [|vm_compute in Hrun; discriminate].
  destruct (idle_reachable (trig := StandIn.trig) (astro := StandIn.astro)
              (rt := Scripted.rt) σ) as (events & σ' & H).
  - eapply run_reachable; [apply reachable_initial | exact Hrun].
  - exists σ, σ', events. now split.
Defined.

Definition scripted_filled : System.t (ai := Scripted.ai) :=
  System.with_form (setPersonA Scripted.details FormState.initial) scripted_initial.

(** While the natal request is in flight the tab is switched and the
    name is deleted: what settles is the request of the click. *)
Definition in_flight : list event :=
  [SetMode Mode.synastry; SetPersonA (BirthDetails.mk "" "" "" "")].


(** The page on the oracle of [Schedules]: a synastry settles, the wheel
    fades in and Back is pressed, and the page is the same whichever of
    the locations is resolved first. *)
Definition oracle_pending : System.t (ai := Oracle.ai by_schema) :=
  System.mk (ai := Oracle.ai by_schema)
    (handleCalculate_begin (Some Scripted.details) AppState.initial)
    FormState.initial None (Some (Scripted.details, Some Scripted.details)) [] tt.

Definition oracle_visit (sch : Schedule.t) : list event := [Settle sch; Timer; Back].

Lemma run_schedule_free_witness :
  exists σ1 σ2 : System.t (ai := Oracle.ai by_schema),
    run (trig := StandIn.trig) (astro := StandIn.astro) (rt := Scripted.rt)
      (oracle_visit Schedule.in_order) oracle_pending = Some σ1 /\
    run (trig := StandIn.trig) (astro := StandIn.astro) (rt := Scripted.rt)
      (oracle_visit second_first) oracle_pending = Some σ2 /\
    same_page σ1 σ2 /\
    forall random,
      render (trig := StandIn.trig) σ2 random = render (trig := StandIn.trig) σ1 random.
Proof.
  destruct (run (trig := StandIn.trig) (astro := StandIn.astro) (rt := Scripted.rt)
              (oracle_visit Schedule.in_order) oracle_pending)
    as [σ1|] eqn:H1; [|vm_compute in H1; discriminate].
  destruct (run_schedule_free (trig := StandIn.trig) (astro := StandIn.astro)
              (rt := Scripted.rt) (comm := Oracle.commuting by_schema)
              (oracle_visit Schedule.in_order) (oracle_visit second_first)
              oracle_pending σ1) as (σ2 & H2 & Hsame & Hrender).
  - repeat constructor.
  - exact H1.
  - exists σ1, σ2. split; [reflexivity|]. split; [exact H2|]. split; [exact Hsame | exact Hrender].
Defined.

(** A visit to the result screen: the wheel fades in, the pointer goes
    to the first planet of the chart, the wheel is turned, the planet is
    selected, the pointer leaves, the rotation is reset, and Back is
    pressed. *)
Definition a_visit : list event :=
  to_result ++ [Timer; MouseEnter Owner.A 0; Rotate 90; Select Owner.A 0; MouseLeave;
                ResetRotation; Back].

Example a_visit_runs :
  match run_scripted a_visit with
  | Some σ => System.app σ = AppState.initial /\ System.wheel σ = None /\
              System.console σ = []
  | None => False
  end.
Proof. vm_compute. done. Qed.

(** The timer fires once, and the reset button is not there before the
    wheel is turned. *)
Example a_visit_guards :
  run_scripted (to_result ++ [Timer; Timer]) = None /\
  run_scripted (to_result ++ [ResetRotation]) = None /\
  run_scripted (to_result ++ [Rotate 361]) = None /\
  run_scripted [Timer] = None.
Proof. vm_compute. done. Qed.
