(* ===== verification/Protocol.v ===== *)
(** * Protocol: what the page promises, and that the page keeps it

    [src/unnamed/part_002] (App.tsx).  Seen from outside, the
    application is in one of three phases: the idle form (with the error
    message of the last request, or without), the form with a request in
    flight, and the result screen.  [protocol] is the machine of the
    phases: an analysis is begun from the idle form only, a request in
    flight is fulfilled into the result screen of the kind that was
    asked for or rejected into the idle form with the message, and the
    result screen is left by Back only.

    [abs] reads the phase off the state of the page.  Every step of
    [Page.system_step] from a state the page can reach is a step of the
    protocol ([system_step_protocol]), so every run of the page is a run
    of the protocol ([page_refines_protocol]); what the protocol
    promises of its runs, the page keeps: the result shown is of the
    kind that was submitted, whatever was typed or switched while the
    request was in flight ([shown_is_requested]). *)

From Stdlib Require Import QArith ZArith Lia.
From stdpp Require Import base tactics decidable option list strings.
From S2P Require Import Prelude Types Chart Aspects Layout Gemini Schedules.
From S2P Require Import Panel Form Wheel Scene App Page.

#[local] Open Scope string_scope.

(** ** The machine of the phases *)

Module Phase.
Inductive t : Type :=
| Idle (error : bool)
| Loading (synastry : bool)
| Showing (synastry : bool).

#[global] Instance eq_dec : EqDecision t.
Proof. solve_decision. Defined.
End Phase.

(** What moves the machine: a change of the form, the submission of a
    natal chart or of a synastry, the two ways a request settles, Back,
    and whatever is done to the wheel. *)
Inductive action : Type :=
| Edit
| Begin (synastry : bool)
| Fulfil
| Reject
| Leave
| Look.

#[global] Instance action_eq_dec : EqDecision action.
Proof. solve_decision. Defined.

Inductive protocol : Phase.t -> action -> Phase.t -> Prop :=
| protocol_edit_idle (error : bool) :
    protocol (Phase.Idle error) Edit (Phase.Idle error)
| protocol_edit_loading (synastry : bool) :
    protocol (Phase.Loading synastry) Edit (Phase.Loading synastry)
| protocol_begin (error synastry : bool) :
    protocol (Phase.Idle error) (Begin synastry) (Phase.Loading synastry)
| protocol_fulfil (synastry : bool) :
    protocol (Phase.Loading synastry) Fulfil (Phase.Showing synastry)
| protocol_reject (synastry : bool) :
    protocol (Phase.Loading synastry) Reject (Phase.Idle true)
| protocol_leave (synastry : bool) :
    protocol (Phase.Showing synastry) Leave (Phase.Idle false)
| protocol_look (synastry : bool) :
    protocol (Phase.Showing synastry) Look (Phase.Showing synastry).

(** The machine as a function. *)
Definition next (p : Phase.t) (a : action) : option Phase.t :=
  match p, a with
  | Phase.Idle error, Edit => Some (Phase.Idle error)
  | Phase.Loading synastry, Edit => Some (Phase.Loading synastry)
  | Phase.Idle _, Begin synastry => Some (Phase.Loading synastry)
  | Phase.Loading synastry, Fulfil => Some (Phase.Showing synastry)
  | Phase.Loading _, Reject => Some (Phase.Idle true)
  | Phase.Showing _, Leave => Some (Phase.Idle false)
  | Phase.Showing synastry, Look => Some (Phase.Showing synastry)
  | _, _ => None
  end.

(** A run of the machine. *)
Inductive accepts : Phase.t -> list action -> Phase.t -> Prop :=
| accepts_nil (p : Phase.t) : accepts p [] p
| accepts_cons (p p' p'' : Phase.t) (a : action) (actions : list action) :
    protocol p a p' -> accepts p' actions p'' -> accepts p (a :: actions) p''.

(** ** The phase of the page *)

Section Protocol.
Context {trig : MathTrig} {astro : AstronomyEngine} {ai : GenAI} {rt : Runtime}.

Definition abs (σ : System.t) : Phase.t :=
  match AppState.step (System.app σ) with
  | Step.result => Phase.Showing (AppState.isSynastry (System.app σ))
  | Step.input =>
      match System.pending σ with
      | Some args => Phase.Loading (bool_decide (is_Some args.2))
      | None => Phase.Idle (bool_decide (is_Some (AppState.error (System.app σ))))
      end
  end.

(** The action an event is, given the state it leaves. *)
Definition action_of (e : event) (σ σ' : System.t) : action :=
  match e with
  | SetMode _ | SetPersonA _ | SetPersonB _ => Edit
  | Submit => Begin (bool_decide (FormState.mode (System.form σ) = Mode.synastry))
  | Settle _ =>
      if bool_decide (AppState.step (System.app σ') = Step.result) then Fulfil else Reject
  | Back => Leave
  | Select _ _ | Timer | MouseEnter _ _ | MouseLeave | Rotate _ | ResetRotation => Look
  end.

(** The actions of a sequence of events from a state. *)
Fixpoint actions_of (events : list event) (σ : System.t) : list action :=
  match events with
  | [] => []
  | e :: events' =>
      match system_step e σ with
      | Some σ' => action_of e σ σ' :: actions_of events' σ'
      | None => []
      end
  end.

(** ** The machine *)

Lemma protocol_next (p p' : Phase.t) (a : action) :
  protocol p a p' <-> next p a = Some p'.
Proof.
  split; [now intros []|].
  destruct p, a; cbn; intros [= <-]; constructor.
Qed.

#[global] Instance protocol_dec (p p' : Phase.t) (a : action) : Decision (protocol p a p').
Proof.
  refine (cast_if (decide (next p a = Some p'))); now rewrite protocol_next.
Defined.

Lemma protocol_deterministic (p p1 p2 : Phase.t) (a : action) :
  protocol p a p1 -> protocol p a p2 -> p1 = p2.
Proof. rewrite !protocol_next. congruence. Qed.

Lemma accepts_app (p p' p'' : Phase.t) (l l' : list action) :
  accepts p l p' -> accepts p' l' p'' -> accepts p (l ++ l') p''.
Proof. induction 1; cbn; [done|]. intros. econstructor; eauto. Qed.

(** Edits keep the phase. *)
Lemma accepts_edits (p p' : Phase.t) (actions : list action) :
  Forall (fun a => a = Edit) actions -> accepts p actions p' -> p' = p.
Proof.
  intros Hall Hacc. induction Hacc as [|p p' p'' a actions Hstep _ IH]; [done|].
  apply Forall_cons in Hall as [-> Hall]. rewrite (IH Hall). now inversion Hstep.
Qed.

(** The result screen is entered from a request of its kind. *)
Lemma protocol_showing (p : Phase.t) (a : action) (synastry : bool) :
  protocol p a (Phase.Showing synastry) ->
  p = Phase.Loading synastry /\ a = Fulfil \/ p = Phase.Showing synastry /\ a = Look.
Proof. inversion 1; auto. Qed.

(** ** The phase of a state of the page *)

Lemma abs_showing (σ : System.t) :
  AppState.step (System.app σ) = Step.result ->
  abs σ = Phase.Showing (AppState.isSynastry (System.app σ)).
Proof. unfold abs. now intros ->. Qed.

Lemma abs_loading (σ : System.t) (args : BirthDetails.t * option BirthDetails.t) :
  system_inv σ -> System.pending σ = Some args ->
  abs σ = Phase.Loading (bool_decide (is_Some args.2)).
Proof.
  intros Hinv Hp. unfold abs. rewrite Hp.
  destruct (AppState.step (System.app σ)) eqn:Hstep; [done|].
  destruct (inv_result σ Hinv Hstep) as [? _]. congruence.
Qed.

Lemma abs_idle (σ : System.t) :
  AppState.step (System.app σ) = Step.input -> System.pending σ = None ->
  abs σ = Phase.Idle (bool_decide (is_Some (AppState.error (System.app σ)))).
Proof. unfold abs. now intros -> ->. Qed.

(** On the form screen the phase is the idle form or a request in
    flight, and an edit keeps it. *)
Lemma abs_input (σ : System.t) (form : FormState.t) :
  AppState.step (System.app σ) = Step.input ->
  protocol (abs σ) Edit (abs (System.with_form form σ)).
Proof.
  intros Hstep. unfold abs. cbn. rewrite Hstep.
  destruct (System.pending σ); constructor.
Qed.

(** The wheel does not matter to the phase. *)
Lemma abs_with_wheel (σ : System.t) (ws : WheelState.t) :
  abs (System.with_wheel ws σ) = abs σ.
Proof. reflexivity. Qed.

(** While the wheel is mounted the page shows a result. *)
Lemma wheel_showing (σ : System.t) (ws : WheelState.t) :
  system_inv σ -> System.wheel σ = Some ws ->
  abs σ = Phase.Showing (AppState.isSynastry (System.app σ)).
Proof.
  intros Hinv Hws. apply abs_showing, (inv_wheel σ Hinv). rewrite Hws. eauto.
Qed.

Lemma handleCalculate_begin_step (detailsB : option BirthDetails.t) (s : AppState.t) :
  AppState.step (handleCalculate_begin detailsB s) = AppState.step s.
Proof. now destruct detailsB. Qed.

Lemma handleSubmit_synastry (form : FormState.t) :
  bool_decide (is_Some (handleSubmit form).2)
  = bool_decide (FormState.mode form = Mode.synastry).
Proof.
  unfold handleSubmit. now destruct (FormState.mode form).
Qed.

(** ** The page keeps the protocol *)

(** A request settles into the result screen of its kind, or into the
    idle form with the message. *)
Lemma Settle_protocol (sch : Schedule.t) (σ σ' : System.t) :
  system_inv σ -> system_step (Settle sch) σ = Some σ' ->
  protocol (abs σ) (action_of (Settle sch) σ σ') (abs σ').
Proof.
  intros Hinv. unfold system_step.
  destruct (System.pending σ) as [args|] eqn:Hp; [|done].
  rewrite (abs_loading σ args Hinv Hp).
  assert (Hstep : AppState.step (System.app σ) = Step.input).
  { destruct (AppState.step (System.app σ)) eqn:Hstep; [done|].
    destruct (inv_result σ Hinv Hstep) as [? _]. congruence. }
  destruct (pipeline _ _ _ _) as [settled w] eqn:Hpipe.
  intros [= <-]. unfold action_of, abs. cbn.
  destruct settled as [d|err]; cbn.
  - apply pipeline_wf in Hpipe as [_ Hkind].
    destruct d; cbn; [subst; rewrite Hkind | rewrite bool_decide_eq_true_2 by done];
      constructor.
  - rewrite Hstep. cbn. constructor.
Qed.

(** Whatever is done to the wheel keeps the phase. *)
Lemma wheel_protocol (σ : System.t) (ws ws' : WheelState.t) :
  system_inv σ -> System.wheel σ = Some ws ->
  protocol (abs σ) Look (abs (System.with_wheel ws' σ)).
Proof.
  intros Hinv Hws. rewrite abs_with_wheel, (wheel_showing σ ws Hinv Hws). constructor.
Qed.

(** Every step of the page from a state it can be in is a step of the
    protocol. *)
Lemma system_step_protocol (e : event) (σ σ' : System.t) :
  system_inv σ -> system_step e σ = Some σ' ->
  protocol (abs σ) (action_of e σ σ') (abs σ').
Proof.
  intros Hinv. destruct e; [..|now apply Settle_protocol| | | | | | |]; unfold system_step.
  all: try (intros (ws & Hws & H)%bind_Some; revert H).
  all: try (intros (sel & _ & H)%bind_Some; revert H).
  all: repeat case_match; try done.
  all: try (destruct (selection_at _ _ _) as [sel|]; [cbn|done]).
  all: intros [= <-]; cbn [action_of].
  all: try (eapply wheel_protocol; eassumption).
  all: repeat match goal with
         | H : _ && _ = true |- _ => apply andb_true_iff in H as [? ?]
         | H : bool_decide _ = true |- _ => apply bool_decide_eq_true in H
         | H : bool_decide _ = false |- _ => apply bool_decide_eq_false in H
         end.
  all: try (now apply abs_input).
  - (* Submit *)
    assert (Hp : System.pending σ = None).
    { pose proof (inv_loading σ Hinv) as Hl.
      destruct (AppState.isLoading (System.app σ)); [done|].
      symmetry in Hl. apply bool_decide_eq_false in Hl.
      destruct (System.pending σ); [now destruct Hl|done]. }
    rewrite (abs_idle σ) by done. unfold abs. cbn [System.app System.pending].
    rewrite handleCalculate_begin_step, handleSubmit_synastry.
    replace (AppState.step (System.app σ)) with Step.input. constructor.
  - (* Back *)
    assert (Hstep : AppState.step (System.app σ) = Step.result)
      by now destruct (AppState.step (System.app σ)).
    destruct (inv_result σ Hinv Hstep) as (Hp & He & _).
    rewrite (abs_showing σ Hstep). unfold abs. cbn. rewrite Hp, He. constructor.
  - (* Select *)
    assert (Hstep : AppState.step (System.app σ) = Step.result)
      by now destruct (AppState.step (System.app σ)).
    rewrite (abs_showing σ Hstep). unfold abs. cbn. rewrite Hstep. constructor.
Qed.

(** The phase the page starts in. *)
Lemma abs_initial (w : world) : abs (system_initial w) = Phase.Idle false.
Proof. reflexivity. Qed.

(** C13. Every run of the page is a run of the protocol: the actions of the
    events take the machine from the phase of the first state to the
    phase of the last. *)
Theorem page_refines_protocol (events : list event) (σ σ' : System.t) :
  reachable σ -> run events σ = Some σ' ->
  accepts (abs σ) (actions_of events σ) (abs σ').
Proof.
  revert σ. induction events as [|e events IH]; intros σ Hreach; cbn.
  { intros [= <-]. constructor. }
  intros (σ1 & Hstep & Hrun)%bind_Some. rewrite Hstep.
  econstructor; [apply system_step_protocol; [now apply reachable_inv | done]|].
  apply IH; [eapply reachable_step; eassumption | done].
Qed.

(** The actions of edits are edits. *)
Lemma actions_of_edits (edits : list event) (σ : System.t) :
  forallb is_edit edits = true -> Forall (fun a => a = Edit) (actions_of edits σ).
Proof.
  revert σ. induction edits as [|e edits IH]; intros σ; cbn; [constructor|].
  intros [He Hall]%andb_true_iff. destruct (system_step e σ) as [σ1|]; [|constructor].
  constructor; [now destruct e | now apply IH].
Qed.

(** C23. The result shown is of the kind that was submitted: the tab of the
    form at the click decides, whatever is typed or switched while the
    request is in flight. *)
Theorem shown_is_requested (sch : Schedule.t) (edits : list event) (σ σ1 σ2 σ3 : System.t) :
  reachable σ -> system_step Submit σ = Some σ1 ->
  forallb is_edit edits = true -> run edits σ1 = Some σ2 ->
  system_step (Settle sch) σ2 = Some σ3 ->
  AppState.step (System.app σ3) = Step.result ->
  AppState.isSynastry (System.app σ3)
  = bool_decide (FormState.mode (System.form σ) = Mode.synastry).
Proof.
  intros Hreach H1 Hall H2 H3 Hres.
  assert (Hr1 : reachable σ1) by (eapply reachable_step; eassumption).
  assert (Hr2 : reachable σ2) by (eapply run_reachable; eassumption).
  pose proof (system_step_protocol _ _ _ (reachable_inv _ Hreach) H1) as P1.
  pose proof (page_refines_protocol _ _ _ Hr1 H2) as P2.
  pose proof (system_step_protocol _ _ _ (reachable_inv _ Hr2) H3) as P3.
  apply accepts_edits in P2; [|now apply actions_of_edits].
  rewrite P2 in P3. cbn [action_of] in P1, P3.
  rewrite (abs_showing σ3 Hres) in P3.
  inversion P1 as [| |? ? E1 E2 E3| | | |]. rewrite <- E3 in P3.
  apply protocol_showing in P3 as [[[= ->] _]|[[=] _]]. done.
Qed.

End Protocol.

(** ** Instances

    The page on the scripted model of [Gemini.Scripted]: the form is
    filled in and submitted, the tab is switched and the name deleted
    while the request is in flight, the request settles, the wheel is
    looked at, and Back is pressed. *)

Definition a_session : list event :=
  [SetPersonA Scripted.details; Submit] ++ in_flight
  ++ [Settle Schedule.in_order; Timer; Select Owner.A 0; Back].

Lemma page_refines_protocol_witness :
  exists (σ' : System.t (ai := Scripted.ai)) (actions : list action),
    run (trig := StandIn.trig) (astro := StandIn.astro) (rt := Scripted.rt)
      a_session scripted_initial = Some σ' /\
    accepts (Phase.Idle false) actions (abs σ').
Proof.
  destruct (run (trig := StandIn.trig) (astro := StandIn.astro) (rt := Scripted.rt)
              a_session scripted_initial) as [σ'|] eqn:Hrun;
    [|vm_compute in Hrun; discriminate].
  exists σ', (actions_of (trig := StandIn.trig) (astro := StandIn.astro) (rt := Scripted.rt)
               a_session scripted_initial).
  split; [reflexivity|].
  exact (page_refines_protocol (trig := StandIn.trig) (astro := StandIn.astro)
           (rt := Scripted.rt) a_session scripted_initial σ' (reachable_initial _) Hrun).
Defined.

(** The actions of the session, and the phase it ends in. *)
Example a_session_actions :
  actions_of (trig := StandIn.trig) (astro := StandIn.astro) (rt := Scripted.rt)
    a_session scripted_initial
  = [Edit; Begin false; Edit; Edit; Fulfil; Look; Look; Leave] /\
  (abs <$> run_scripted a_session) = Some (Phase.Idle false).
Proof. vm_compute. done. Qed.

(** What the machine refuses, the page does not do: no second
    submission while a request is in flight, no Back from the form. *)
Example protocol_refuses :
  next (Phase.Loading false) (Begin true) = None /\
  next (Phase.Idle false) Leave = None /\
  run_scripted [SetPersonA Scripted.details; Submit; Submit] = None /\
  run_scripted [Back] = None.
Proof. vm_compute. done. Qed.

(** The natal request of the scripted form with the edits of
    [Page.in_flight] made while it is in flight: the states after the
    events. *)
Definition flight (events : list event) : System.t (ai := Scripted.ai) :=
  default scripted_initial
    (run (trig := StandIn.trig) (astro := StandIn.astro) (rt := Scripted.rt)
       events scripted_filled).

Lemma scripted_flight :
  let σ1 := flight [Submit] in
  let σ2 := flight (Submit :: in_flight) in
  let σ3 := flight (Submit :: in_flight ++ [Settle Schedule.in_order]) in
  system_step (trig := StandIn.trig) (astro := StandIn.astro) (rt := Scripted.rt)
    Submit scripted_filled = Some σ1 /\
  run (trig := StandIn.trig) (astro := StandIn.astro) (rt := Scripted.rt)
    in_flight σ1 = Some σ2 /\
  system_step (trig := StandIn.trig) (astro := StandIn.astro) (rt := Scripted.rt)
    (Settle Schedule.in_order) σ2 = Some σ3 /\
  AppState.step (System.app σ3) = Step.result /\
  FormState.mode (System.form σ2) = Mode.synastry.
Proof. split_and!; vm_compute; reflexivity. Qed.

(** The tab says synastry when the request settles, and the result is
    the natal chart that was asked for. *)
Lemma shown_is_requested_witness :
  FormState.mode (System.form (flight (Submit :: in_flight))) = Mode.synastry /\
  AppState.isSynastry
    (System.app (flight (Submit :: in_flight ++ [Settle Schedule.in_order]))) = false.
Proof.
  destruct scripted_flight as (H1 & H2 & H3 & Hres & Hmode).
  split; [exact Hmode|].
  refine (shown_is_requested (trig := StandIn.trig) (astro := StandIn.astro)
            (rt := Scripted.rt) Schedule.in_order in_flight scripted_filled _ _ _
            _ H1 eq_refl H2 H3 Hres).
  exact (reachable_step (SetPersonA Scripted.details) scripted_initial scripted_filled
           (reachable_initial _) eq_refl).
Defined.
