(* ===== verification/Session.v ===== *)
(** * Session: from the form to the result screen

    The components end to end.  A visitor fills in the form of [Form]
    and submits it; [App] starts the pipeline of [Gemini], which asks
    the language model for the place and the time, has [Chart] calculate
    the chart, and asks the model for the texts; when the request
    settles, [App] shows the result screen with the wheel of [Scene] and
    the panel of [Panel].

    [natal_session] says that this works whenever the model does what
    the prompts ask: from every state the page can be in, a submission
    of the natal form followed by the settling of its request under any
    schedule ends on the result screen, which renders, with the chart
    calculated for the place and the instant the model resolved and the
    texts the model wrote, and nothing in the console.
    [result_screen] is what the page shows then.  [synastry_session] is
    the same for the form of two people, on a model that answers each
    request by what it asks ([Schedules.Oracle]): the result screen
    shows the two charts and the analysis of the aspects between them,
    whichever request is answered first. *)

From Stdlib Require Import QArith ZArith Lia.
From stdpp Require Import base tactics decidable option list strings.
From S2P Require Import Prelude Types Json JsonPrint JsonParse IsoDate Chart Aspects Layout.
From S2P Require Import Gemini Reply Schedules Panel Form Wheel Scene App Page Protocol.

#[local] Open Scope string_scope.

Section Session.
Context {trig : MathTrig} {astro : AstronomyEngine} {ai : GenAI} {rt : Runtime}.

(** The page shows the result screen of [data]: [App] is on its result
    step with the data and the flag of its kind, and [App] and the wheel
    render. *)
Definition result_screen (σ : System.t) (data : Data) (random : Q) : Prop :=
  AppState.step (System.app σ) = Step.result /\
  AppState.chartData (System.app σ) = Some data /\
  AppState.isSynastry (System.app σ) = (if data is inr _ then true else false) /\
  exists sc : Screen.t, render σ random = Ok sc /\ is_Some (Screen.scene sc).

(** The submission starts the pipeline on the details of the form. *)
Lemma Submit_pending (σ σ1 : System.t) :
  system_step Submit σ = Some σ1 ->
  σ1 = System.mk (handleCalculate_begin (handleSubmit (System.form σ)).2 (System.app σ))
         (System.form σ) (System.wheel σ) (Some (handleSubmit (System.form σ)))
         (System.console σ) (System.env σ).
Proof. unfold system_step. destruct (_ && _); [|done]. now intros [= <-]. Qed.

(** A request that is fulfilled settles into the result screen with its
    data, and writes nothing to the console. *)
Lemma Settle_fulfilled (sch : Schedule.t) (σ : System.t)
    (args : BirthDetails.t * option BirthDetails.t) (data : Data) (w : world) :
  System.pending σ = Some args ->
  pipeline sch args.1 args.2 (System.env σ) = (Ok data, w) ->
  exists σ', system_step (Settle sch) σ = Some σ' /\
    AppState.step (System.app σ') = Step.result /\
    AppState.chartData (System.app σ') = Some data /\
    System.console σ' = System.console σ /\ System.env σ' = w.
Proof.
  intros Hp Hpipe. unfold system_step. rewrite Hp, Hpipe.
  eexists. split; [reflexivity|]. cbn. rewrite app_nil_r. now destruct data.
Qed.

(** A submission whose request is fulfilled ends, when the request
    settles, on the result screen of the data, which renders with the
    wheel on it; the console is as it was. *)
Lemma session_fulfilled (sch : Schedule.t) (σ σ1 : System.t) (data : Data) (w : world)
    (random : Q) :
  reachable σ -> system_step Submit σ = Some σ1 ->
  pipeline sch (handleSubmit (System.form σ)).1 (handleSubmit (System.form σ)).2 (System.env σ)
  = (Ok data, w) ->
  exists σ2 : System.t,
    system_step (Settle sch) σ1 = Some σ2 /\ result_screen σ2 data random /\
    System.env σ2 = w /\ System.console σ2 = System.console σ.
Proof.
  intros Hreach Hsubmit Hrun. pose proof (Submit_pending σ σ1 Hsubmit) as E1.
  destruct (Settle_fulfilled sch σ1 (handleSubmit (System.form σ)) data w)
    as (σ2 & H2 & Hstep & Hdata & Hcon & Henv); [now rewrite E1..|].
  assert (Hr2 : reachable σ2) by (do 2 (eapply reachable_step; [|eassumption]); done).
  destruct (render_result σ2 random Hr2 Hstep)
    as (primary & secondary & ws & bottom & el & _ & _ & _ & _ & _ & Hrender).
  exists σ2. split_and!; try done; [|now rewrite Hcon, E1].
  split_and!; [done..| |cbn in Hrender; eauto].
  destruct (inv_result σ2 (reachable_inv _ Hr2) Hstep) as (_ & _ & d & Hd & Hcast).
  rewrite Hdata in Hd. injection Hd as <-. unfold cast_ok in Hcast.
  now destruct data, (AppState.isSynastry (System.app σ2)).
Qed.

(** C16. From every state the page can be in, the natal form submitted to a
    model that does what the prompts ask (a location with decimal
    coordinates, a latitude of [-90, 90] and a time the language reads
    (the [YYYY-MM-DDTHH:mm:ss.sssZ] asked for, or another form of its
    format), then an interpretation of the chart
    calculated) ends, under every schedule, on the result screen: it
    shows the chart calculated for the location under the name of the
    form and the texts of the interpretation, it renders with the wheel
    on it, and the console is as it was. *)
Theorem natal_session (sch : Schedule.t) (σ σ1 : System.t) (l : ResolvedLocation.t)
    (i : Interpretation.t) (w1 w2 : world) (random : Q) :
  reachable σ -> system_step Submit σ = Some σ1 ->
  FormState.mode (System.form σ) = Mode.natal ->
  well_resolved l ->
  generateContent
    (request (resolve_prompt (FormState.personA (System.form σ))) resolve_responseSchema)
    (System.env σ) = (Ok (reply l), w1) ->
  (forall chart, calculate l = Ok chart ->
     generateContent
       (enrich_request chart (BirthDetails.name (FormState.personA (System.form σ)))) w1
     = (Ok (reply i), w2)) ->
  exists (chart : CalculatedChart.t) (σ2 : System.t),
    calculate l = Ok chart /\ chart_wf chart /\
    system_step (Settle sch) σ1 = Some σ2 /\
    result_screen σ2
      (inl (enriched (BirthDetails.name (FormState.personA (System.form σ))) chart i))
      random /\
    System.env σ2 = w2 /\ System.console σ2 = System.console σ.
Proof.
  intros Hreach Hsubmit Hmode (Hdec & Hlat & Hiso) Hl Hi.
  destruct (calculate_read l Hlat Hiso) as (chart & Hc & Hwf).
  pose proof (analyzeBirthChart_accepts _ _ l w1 chart i w2 Hdec Hl Hc (Hi chart Hc)) as Hrun.
  destruct (session_fulfilled sch σ σ1
              (inl (enriched (BirthDetails.name (FormState.personA (System.form σ))) chart i))
              w2 random Hreach Hsubmit) as (σ2 & H2 & Hscreen & Henv & Hcon).
  { unfold handleSubmit, pipeline. rewrite Hmode. cbn.
    unfold mbind, promise_bind, await. now rewrite Hrun. }
  now exists chart, σ2.
Qed.

End Session.

(** ** The synastry session *)

Section SynastrySession.
Context {trig : MathTrig} {astro : AstronomyEngine} {rt : Runtime}.
Context (answer : GenerateContentParameters.t -> result GenerateContentResponse.t).

(** C17. From every state the page can be in on an oracle that answers each
    request as its prompt asks, the synastry form submitted ends, under
    every schedule, on the result screen: it shows the two charts
    calculated for the two locations under the names of the form, with
    the texts of the interpretations and the analysis of the aspects
    between the two, it renders with the wheel on it, and the console is
    as it was. *)
Theorem synastry_session (sch : Schedule.t) (σ σ1 : System.t (ai := Oracle.ai answer))
    (l1 l2 : ResolvedLocation.t) (i1 i2 : Interpretation.t) (a : SynastryAnalysis.t)
    (random : Q) :
  let d1 := FormState.personA (System.form σ) in
  let d2 := FormState.personB (System.form σ) in
  reachable σ -> system_step Submit σ = Some σ1 ->
  FormState.mode (System.form σ) = Mode.synastry ->
  well_resolved l1 -> well_resolved l2 ->
  answer (request (resolve_prompt d1) resolve_responseSchema) = Ok (reply l1) ->
  answer (request (resolve_prompt d2) resolve_responseSchema) = Ok (reply l2) ->
  (forall c1, calculate l1 = Ok c1 ->
     answer (enrich_request c1 (BirthDetails.name d1)) = Ok (reply i1)) ->
  (forall c2, calculate l2 = Ok c2 ->
     answer (enrich_request c2 (BirthDetails.name d2)) = Ok (reply i2)) ->
  (forall c1 c2, calculate l1 = Ok c1 -> calculate l2 = Ok c2 ->
     answer (synastry_request d1 d2 (calculateAspects c1 c2)) = Ok (reply a)) ->
  exists (c1 c2 : CalculatedChart.t) (σ2 : System.t),
    calculate l1 = Ok c1 /\ calculate l2 = Ok c2 /\ chart_wf c1 /\ chart_wf c2 /\
    system_step (Settle sch) σ1 = Some σ2 /\
    result_screen σ2
      (inr (synastry_data (enriched (BirthDetails.name d1) c1 i1)
              (enriched (BirthDetails.name d2) c2 i2) (calculateAspects c1 c2) a))
      random /\
    System.console σ2 = System.console σ.
Proof.
  intros d1 d2 Hreach Hsubmit Hmode (Hd1 & Hlat1 & Hiso1) (Hd2 & Hlat2 & Hiso2)
    Hl1 Hl2 Hi1 Hi2 Ha.
  destruct (calculate_read l1 Hlat1 Hiso1) as (c1 & Hc1 & Hwf1).
  destruct (calculate_read l2 Hlat2 Hiso2) as (c2 & Hc2 & Hwf2).
  pose proof (analyzeSynastry_oracle answer sch d1 d2 l1 l2 c1 c2 i1 i2 a Hd1 Hd2 Hc1 Hc2
                Hl1 Hl2 (Hi1 c1 Hc1) (Hi2 c2 Hc2) (Ha c1 c2 Hc1 Hc2)) as Hrun.
  destruct (session_fulfilled (ai := Oracle.ai answer) sch σ σ1
              (inr (synastry_data (enriched (BirthDetails.name d1) c1 i1)
                      (enriched (BirthDetails.name d2) c2 i2) (calculateAspects c1 c2) a))
              tt random Hreach Hsubmit) as (σ2 & H2 & Hscreen & _ & Hcon).
  { unfold handleSubmit, pipeline. rewrite Hmode. cbn. destruct (System.env σ).
    unfold mbind, promise_bind, await. fold d1 d2. now rewrite Hrun. }
  now exists c1, c2, σ2.
Qed.

End SynastrySession.

(** ** Instances *)

(** The interpretation of the script of [Gemini.Scripted]. *)
Definition scripted_interpretation : Interpretation.t :=
  Interpretation.mk
    [PlanetInterpretation.mk "Moon" "Tidal."; PlanetInterpretation.mk "Sun" "Radiant.";
     PlanetInterpretation.mk "Sun" "Late."] "A quiet fire.".

Lemma scripted_resolves :
  generateContent (GenAI := Scripted.ai)
    (request (resolve_prompt Scripted.details) resolve_responseSchema) Scripted.natal_script
  = (Ok (reply null_island), [Some (JSON_stringify (encode scripted_interpretation))]).
Proof. vm_compute. reflexivity. Qed.

Lemma natal_session_witness :
  exists σ2 : System.t (ai := Scripted.ai),
    system_step (trig := StandIn.trig) (astro := StandIn.astro) (rt := Scripted.rt)
      (Settle Schedule.in_order) (flight [Submit]) = Some σ2 /\
    is_Some (AppState.chartData (System.app σ2)) /\ System.console σ2 = [].
Proof.
  destruct (natal_session (trig := StandIn.trig) (astro := StandIn.astro)
              (ai := Scripted.ai) (rt := Scripted.rt) Schedule.in_order
              scripted_filled (flight [Submit]) null_island scripted_interpretation
              [Some (JSON_stringify (encode scripted_interpretation))] [] 0
              (reachable_step (SetPersonA Scripted.details) scripted_initial scripted_filled
                 (reachable_initial _) eq_refl)
              (proj1 scripted_flight) eq_refl null_island_resolved
              scripted_resolves (fun _ _ => eq_refl))
    as (chart & σ2 & _ & _ & H2 & (_ & Hdata & _) & _ & Hcon).
  exists σ2. split_and!; [exact H2 | rewrite Hdata; eauto | exact Hcon].
Defined.

(** The form of two people, both the person of the script, on the
    oracle of [Schedules]: the form is filled in and submitted, and the
    request settles with the second location resolved first. *)
Definition two_people : list event :=
  [SetMode Mode.synastry; SetPersonA Scripted.details; SetPersonB Scripted.details].

Definition oracle_filled : System.t (ai := Oracle.ai by_schema) :=
  System.mk (ai := Oracle.ai by_schema) AppState.initial
    (FormState.mk Mode.synastry Scripted.details Scripted.details) None None [] tt.

Definition oracle_flight : System.t (ai := Oracle.ai by_schema) :=
  System.mk (ai := Oracle.ai by_schema)
    (handleCalculate_begin (Some Scripted.details) AppState.initial)
    (FormState.mk Mode.synastry Scripted.details Scripted.details) None
    (Some (Scripted.details, Some Scripted.details)) [] tt.

Lemma oracle_filled_reachable :
  reachable (trig := StandIn.trig) (astro := StandIn.astro) (rt := Scripted.rt) oracle_filled.
Proof.
  apply (run_reachable (trig := StandIn.trig) (astro := StandIn.astro) (rt := Scripted.rt)
           two_people (system_initial (ai := Oracle.ai by_schema) tt)); [apply reachable_initial | reflexivity].
Qed.

Lemma synastry_session_witness :
  exists σ2 : System.t (ai := Oracle.ai by_schema),
    run (trig := StandIn.trig) (astro := StandIn.astro) (rt := Scripted.rt)
      (two_people ++ [Submit; Settle second_first]) (system_initial (ai := Oracle.ai by_schema) tt) = Some σ2 /\
    AppState.isSynastry (System.app σ2) = true /\ System.console σ2 = [].
Proof.
  destruct (synastry_session (trig := StandIn.trig) (astro := StandIn.astro)
              (rt := Scripted.rt) by_schema second_first oracle_filled oracle_flight
              null_island null_island quiet_fire quiet_fire two_of_a_kind 0
              oracle_filled_reachable eq_refl eq_refl
              null_island_resolved null_island_resolved eq_refl eq_refl
              (fun _ _ => eq_refl) (fun _ _ => eq_refl) (fun _ _ _ _ => eq_refl))
    as (c1 & c2 & σ2 & _ & _ & _ & _ & H2 & (_ & _ & Hsyn & _) & Hcon).
  exists σ2. split_and!; [|exact Hsyn | exact Hcon].
  rewrite run_app.
  change (run (trig := StandIn.trig) (astro := StandIn.astro) (rt := Scripted.rt)
            two_people (system_initial (ai := Oracle.ai by_schema) tt)) with (Some oracle_filled).
  cbn [mbind option_bind]. now apply (run_two _ _ _ oracle_flight).
Defined.
